(* ===== verification/_CoqProject ===== *)
-Q . S2P
Prelude.v
OrdMap.v
Float.v
Core.v
Hash.v
Quality.v
Metric.v
Identity.v
Counter.v
CounterSpec.v
Capability.v
Policy.v
PolicySpec.v
Config.v
LinkRegistry.v
Classification.v
EvidenceStore.v
EvidenceStoreSpec.v
Codec.v
FieldCodecs.v
CapabilityRegistry.v
Classifier.v
ClassifierSpec.v
Journal.v
JournalSpec.v
JournalWriterSpec.v
JournalThreads.v
JournalThreadsSpec.v
JournalThreadsLog.v
FabricThreads.v
Fabric.v
FabricSpec.v
Frame.v
Render.v
Messages.v
Server.v
Client.v
ServerSpec.v
WireSpec.v
LockTracker.v
LockGuards.v
Clock.v
Json.v
Cli.v
CliSpec.v
Commands.v
CommandsSpec.v
ToolSpec.v
SessionSpec.v
Socket.v
SocketSpec.v
