(* ===== verification/Prelude.v ===== *)
(** * Link Quality Fabric: a verification development

    The Link Quality Fabric is a C++20 runtime that collects observations of
    network links from many sources, keeps them in bounded stores, classifies the
    quality of a link against a published policy, and answers queries; it journals
    what it accepts and recovers after a crash, and it is reached in process or
    over a framed loopback protocol; a command-line tool serves it, queries it and
    inspects its journals.  This library models it and proves what makes it
    correct.  Paths below are relative to [src/]; [src/x.cpp] stands for the file
    and its header under [include/lqf/].

    ** The program and its model

    The prelude (this file) has machine integers, status codes and outcomes, list
    and sorting lemmas, enumerations ([Enum]) and the automation.  [OrdMap] is
    [std::map] as an association list sorted by a three-way comparison ([Cmp]),
    since iteration order is observable; [Float] is IEEE binary64 ([SpecFloat]).

    - [Core]: [core/status], [core/checked], [core/strong], [core/text].
    - [Hash]: [core/hash] (CRC-32C, FNV-1a, streaming SHA-256).
    - [LockTracker], [LockGuards]: [core/lock_tracker], the lock-order audit and
      the scoped locks.  [Clock]: [core/clock], with the interleavings of a reading
      and an advance.
    - [Quality], [Metric], [Identity], [Counter], [Capability], [Policy],
      [Classification]: the files of [domain/] of those names ([Metric] has
      [units] too, [Identity] has [observation]).
    - [Config]: [runtime/config].
    - [LinkRegistry], [EvidenceStore], [CapabilityRegistry]: [store/].
    - [Codec], [FieldCodecs]: [persist/archive.hpp] and [persist/codec]: writers
      and readers with their sticky status, one [codec] per field type and one per
      [visit_fields].  [CodecLaws] is the interface every codec fulfils.
    - [Journal]: [persist/journal]: the file format, the recovery reader with its
      repair, and the background writer with its queue, over explicit file
      contents and explicit faults ([Faults]: each call by what it answers, the
      probe for the file and the read of its header included), as atomic
      operations.  [JournalThreads] is the
      same class as it runs: the writer thread and any number of client threads,
      stepping from critical section to critical section, with the compaction
      lock, both condition variables (notifications and spurious wakeups) and the
      join.
    - [Classifier]: [classify/classifier].  [Render]: [domain/classification.cpp]
      and [classify/explain].
    - [Fabric]: [runtime/fabric]: the state behind the lock, one function per entry
      point, opening with recovery (on a file system whose calls succeed), snapshots
      and compaction.  [FabricThreads]: the threads around the journal pointer that
      [Fabric::close] takes away, every use of the pointer and of the journal behind
      it a test of both.
    - [Frame], [Messages], [Server], [Client]: [transport/frame], [messages],
      [server], [client].  The server is a step function over events: bytes
      arriving on a connection and its peer closing, the steps of each
      connection's thread (reading a request, dispatching it, each [send] of the
      reply, which takes any part of what it is given, fails, or does not happen
      for as long as the peer does not read), those of the accept loop, and a
      request to stop.  [stop] is the stop request, any further events, and the
      joins.  The client runs over the class [Channel], of which a connection of
      the modelled server is an instance.
    - [Socket]: [transport/socket] on POSIX and the interruptible read of the
      server, over the class [Kernel] of system calls.
    - [Cli], [Commands]: [apps/lqf]: [cmd_common] (arguments, typed values, text
      and JSON output) and [main] with the ten commands.  A command is a
      computation ([Cmd]) over the output, the files and the network; the network
      is the class [Network], of which a modelled server on a port
      ([ServerNetwork]) is an instance, so that [serve], [emit] and [query] run
      against each other in the model.  [Json] has the grammar of JSON texts and a
      reference parser, to say what the output means.

    State is a record per class, a mutating operation is a function from the state
    to a result and the new state, an error is a value of [Outcome] or a
    [StatusCode].  Every definition computes.  The files named [...Spec] (and the
    end of the small components) have the invariants, the abstract specifications
    and the theorems.

    ** What the theorems show

    - Classification: a state that asserts anything rests on live evidence of this
      incarnation inside its validity; recovered evidence never asserts; roll-ups
      never hide the worst lane or metric; lower authority never decides; an
      asserted lane is explained by a rule of the policy ([ClassifierSpec]).
    - Policies: a validated policy classifies a value in exactly one band; the
      registry refines a bounded log and is rebuilt by replay ([PolicySpec]).
    - Counters: the engine refines an abstract continuity machine, and the
      differences it reports are exact ([CounterSpec]).
    - Stores: every bound and fence is an invariant of every operation; a sequence
      number is accepted once inside the window; resubmission is idempotent
      ([EvidenceStoreSpec], [LinkRegistry], [CapabilityRegistry]).
    - Persistence: every type round trips and every strict prefix is refused; a
      torn append is recovered, recovery returns verified records only, interior
      corruption is reported; the journal with its writer refines an append-only
      log and a crash loses only a suffix ([FieldCodecs], [JournalSpec],
      [JournalWriterSpec]).
    - Threads of the journal: every schedule has the effect of a sequence of the
      atomic operations, so at every moment the file holds a prefix of the
      accepted records, or the snapshot that has just replaced them; what [flush]
      and [stop] report as done survives a restart ([JournalThreadsLog]); no
      wakeup is lost and no call waits forever ([JournalThreadsSpec]).  Updates
      never call a journal that [close] has taken away ([FabricThreads]).
    - Runtime: whatever the disk held, every reachable state is sound; a restarted
      process asserts nothing about a link before new evidence ([FabricSpec]).
    - Transport: a connection's thread takes a number of steps bounded by what it
      has received; a stop waits for nothing but peers that do not read; peers
      cannot break the runtime's invariants, and what they are sent is whole frames
      but for the last one ([ServerSpec]); a call over the wire is the call on the
      fabric, as far as requests and replies fit their limits ([WireSpec]).
    - Sockets: however the kernel splits and interrupts a transfer, a read
      returns the next bytes of the stream, which is what the client and server
      models assume; sends keep the order; no descriptor leaks ([SocketSpec]).
    - Lock audit: a clean audit excludes circular waits, and the audit reports
      exactly the acquisitions that close a cycle ([LockTracker]); scoped locks
      release what they acquire, once ([LockGuards]).
    - Command line: against any [HonestPeer] (the modelled server is one) every run
      ends with its documented exit code and diagnostics or in a wait it is known
      for, and a usage error depends on the command line alone and has no effect;
      what the client commands print is the rendering of what the fabric answers;
      where the file system works, [journal-verify] succeeds exactly on intact
      journals and empty files; no command but [serve] loses the content of a file
      it can see and read; the JSON output is well formed and denotes the
      report; identities round trip through the command line and parsed values are
      valid ([CommandsSpec], [SessionSpec], [ToolSpec], [CliSpec]).
    - Some theorems show defects instead: state lost after a compaction
      ([compaction_then_restart_loses_state]), a journal destroyed by a failed one
      ([failed_compaction_destroys_journal]), a replay accepted at the edge of the
      window ([window_edge_replay_is_accepted]), an oversized record truncated
      away ([oversized_record_is_truncated]), a client that dereferences an empty
      result ([success_error_reply_is_undefined]), an [emit] that works sixteen
      times ([emit_gives_up_after_sixteen_revisions]), a verification that
      overwrites a file it cannot read ([journal_verify_can_destroy]), a wait for the
      stop that misses its notification ([wait_can_miss_the_stop]), a stop held up by
      a peer that does not read ([stop_waits_only_for_peers]), torn readings of the
      manual clock ([manual_reading_can_tear]), interrupted sends and large descriptors
      ([interrupted_send_fails], [large_descriptor_is_undefined]), entry checks
      that race with [Fabric::close] ([close_races_with_entry_checks]), and what a
      [stop] beside a compaction and an [open] after a lost stream run into
      ([compaction_beside_stop_reopens], [reopening_finds_a_joinable_writer]).

    ** Conventions, bounds and fuel

    Integers are [Z] with the wrap-around of their width written out; sizes are 64
    bits wide.  A difference of signed times that depends on a peer's clock is checked
    or wraps, as in the source; one of two readings of the process's own clock is
    exact.  A status is its code: its text is left out; where
    text reaches the wire it is an argument, and where it reaches the output it is
    a marker ([StatusText], [Detail]).  [long double] is the class [LongDouble]
    with the two layouts of the supported platforms as instances, [std::to_chars]
    of a double is the class [Charconv] and [std::from_chars] the class
    [FromChars].  Undefined behaviour, waits and a lack of fuel are endings of their
    own ([Ending], [Run]).  Loops are structural recursions, or take a fuel that is
    proved to be enough or that is the bound the source has: replay, recovery and
    the journal commands take one more than the file's length (enough, whatever the
    calls that opened it answered: [opened_scan_ends]), draining takes the
    queue's length, a client's conversation with the server takes one more than the
    bytes received, a read takes the bytes, interruptions and wakeups to
    come ([reads_follow_the_stream]), and the search of the lock audit stops at
    the source's own depth.  Threads interleave at the granularity of critical
    sections, notifications and the actions between them, under sequential
    consistency; measures ([work], [thread_work], [stop_work]) bound the steps to the
    end of every call, of a connection and of a stop.  A handler of the server is one
    step of its thread, and a thread that waits in [select] on a stopping server may
    go on without its wakeup.
    The kernel, the network and the peer are classes with
    their laws ([KernelLaws], [HonestPeer]), each with a proved instance.

    ** Not modelled

    The wrappers [open_file], [seek_file] and [tell_file] of [persist/journal]
    (what they deliver is an input), the Windows branches, the weak memory model
    behind unsynchronised accesses, a process ended by SIGPIPE, the derivation of a
    default epoch from the process id, the resolution of the initial policy (it is a field of the configuration).  The examples, the
    benchmarks and the tests are drivers around the library. *)

From Stdlib Require Import ZArith Lia Bool List String Ascii.
From Stdlib Require Import Sorting.Sorted Sorting.Permutation.
From stdpp Require Import base decidable list strings.

Open Scope Z_scope.

(** ** Machine integers

    A [w]-bit unsigned value is a [Z] in [[0, 2^w)]; an operation that may
    leave the range says how it comes back ([wrap64]).  [i64] values are [Z] in
    [[-2^63, 2^63)].  [std::size_t] is 64 bits wide. *)

Definition u8_max : Z := 255.
Definition u16_max : Z := 65535.
Definition u32_max : Z := 4294967295.
Definition u64_max : Z := 18446744073709551615.
Definition i64_max : Z := 9223372036854775807.
Definition i64_min : Z := -9223372036854775808.

Definition is_u8 (z : Z) : Prop := 0 <= z <= u8_max.
Definition is_u16 (z : Z) : Prop := 0 <= z <= u16_max.
Definition is_u32 (z : Z) : Prop := 0 <= z <= u32_max.
Definition is_u64 (z : Z) : Prop := 0 <= z <= u64_max.
Definition is_i64 (z : Z) : Prop := i64_min <= z <= i64_max.

(** Unsigned 64-bit and 32-bit wrap-around. *)
Definition wrap64 (z : Z) : Z := z mod 18446744073709551616.
Definition wrap32 (z : Z) : Z := z mod 4294967296.

(** Two's complement reinterpretation of a 64-bit pattern as [i64]. *)
Definition to_i64 (z : Z) : Z :=
  let u := wrap64 z in if u <=? i64_max then u else u - 18446744073709551616.

(** [x += 1] on a [u64] counter. *)
Definition incr64 (z : Z) : Z := wrap64 (z + 1).

(** Container sizes are compared with [std::size_t] limits as integers. *)
Definition zlen {A} (l : list A) : Z := Z.of_nat (List.length l).
Definition zslen (s : string) : Z := Z.of_nat (String.length s).

#[global] Arguments Z.ltb : simpl never.
#[global] Arguments Z.leb : simpl never.
#[global] Arguments Z.eqb : simpl never.

(** ** Tactics and hint databases *)

Create HintDb lqf discriminated.
Create Rewrite HintDb lqf_simp.

Ltac unfold_ints :=
  unfold is_u8, is_u16, is_u32, is_u64, is_i64, u8_max, u16_max, u32_max, u64_max,
    i64_max, i64_min, incr64, wrap64, wrap32, zlen, zslen in *.

(** [zify_lia] is [lia] with [Z.div] and [Z.modulo] understood. *)
Ltac zify_lia := unfold_ints; Z.to_euclidean_division_equations; lia.

(** Case analysis on the scrutinee of a [match] or [if] of the goal, with the
    equations simplified as they appear. *)
Ltac split_match := case_match; simplify_eq/=.
Ltac split_matches := repeat split_match.

(** Turn a boolean test recorded as an equation into a proposition; a later
    file extends it with its own tests through [breflect_hook]. *)
Ltac breflect_hook := fail.

Ltac breflect :=
  repeat match goal with
    | H : (_ && _)%bool = true |- _ => apply andb_true_iff in H as [? ?]
    | H : (_ || _)%bool = false |- _ => apply orb_false_iff in H as [? ?]
    | H : negb _ = true |- _ => apply negb_true_iff in H
    | H : negb _ = false |- _ => apply negb_false_iff in H
    | H : (_ <=? _) = true |- _ => apply Z.leb_le in H
    | H : (_ <=? _) = false |- _ => apply Z.leb_gt in H
    | H : (_ <? _) = true |- _ => apply Z.ltb_lt in H
    | H : (_ <? _) = false |- _ => apply Z.ltb_ge in H
    | H : (_ =? _) = true |- _ => apply Z.eqb_eq in H
    | H : (_ =? _) = false |- _ => apply Z.eqb_neq in H
    | H : bool_decide _ = true |- _ => apply bool_decide_eq_true in H
    | H : bool_decide _ = false |- _ => apply bool_decide_eq_false in H
    | _ => breflect_hook
    end.

(** ** Status values and outcomes *)

Module StatusCode.
Inductive t :=
  | Ok | Invalid | NotFound | Unsupported | Conflict | Stale | Fenced | Rejected
  | Duplicate | IdMismatch | Overflow | LimitExceeded | Corrupt | Unavailable
  | Busy | Cancelled | Refused | Protocol | Io | Internal.
End StatusCode.

#[export] Instance StatusCode_eq_dec : EqDecision StatusCode.t.
Proof. solve_decision. Defined.

(** A [Status] is identified with its code: [operator==] on [Status] compares
    the codes only, and the message is diagnostic text. *)
Definition Status := StatusCode.t.
Definition ok (s : Status) : bool := bool_decide (s = StatusCode.Ok).

(** [Outcome<T>]: a value, or the status that refused it. *)
Inductive Outcome (A : Type) :=
  | Good (a : A)
  | Bad (s : Status).
Arguments Good {A} a.
Arguments Bad {A} s.

Definition outcome_status {A} (o : Outcome A) : Status :=
  match o with Good _ => StatusCode.Ok | Bad s => s end.

Declare Scope lqf_scope.
Delimit Scope lqf_scope with lqf.
Open Scope lqf_scope.

(** [s1 ;;? s2]: the C++ idiom [if (!s1.ok()) return s1;] followed by [s2]. *)
Definition status_seq (s1 : Status) (s2 : Status) : Status :=
  match s1 with StatusCode.Ok => s2 | e => e end.
Notation "s1 ;;? s2" := (status_seq s1 s2)
  (at level 91, right associativity) : lqf_scope.

(** [refuse c if b ;; k]: [if (b) return Status::error(c, ...);] then [k]. *)
Notation "'refuse' c 'when' b ;; k" := (if b then c else k)
  (at level 91, c at next level, b at next level, right associativity, only parsing) : lqf_scope.

Lemma status_seq_ok s1 s2 :
  (s1 ;;? s2) = StatusCode.Ok <-> s1 = StatusCode.Ok /\ s2 = StatusCode.Ok.
Proof. destruct s1; simpl; intuition congruence. Qed.

Lemma refuse_ok (c k : Status) (b : bool) :
  c <> StatusCode.Ok ->
  (refuse c when b ;; k) = StatusCode.Ok <-> b = false /\ k = StatusCode.Ok.
Proof. destruct b; intuition congruence. Qed.

(** [status_inv H] decomposes a successful validation into the facts that every
    guard it ran established. *)
Ltac status_inv H :=
  repeat first
    [ rewrite status_seq_ok in H
    | rewrite refuse_ok in H by discriminate ];
  repeat match type of H with
    | _ /\ _ => let H' := fresh "Hv" in destruct H as [H' H]
    end.

(** Iterating a validation over a list: the range-for loop whose body may
    return an error status. *)
Fixpoint check_all {A} (f : A -> Status) (l : list A) : Status :=
  match l with
  | [] => StatusCode.Ok
  | x :: l' => f x ;;? check_all f l'
  end.

Lemma check_all_ok {A} (f : A -> Status) l :
  check_all f l = StatusCode.Ok <-> Forall (fun x => f x = StatusCode.Ok) l.
Proof.
  induction l as [|x l IH]; simpl; [done|].
  rewrite status_seq_ok, IH, Forall_cons. done.
Qed.

(** ** Generic list operations of the standard library the code uses *)

(** [std::find_if]. *)
Fixpoint find_first {A} (f : A -> bool) (l : list A) : option A :=
  match l with
  | [] => None
  | x :: l' => if f x then Some x else find_first f l'
  end.

Lemma find_first_Some {A} (f : A -> bool) l x :
  find_first f l = Some x -> In x l /\ f x = true.
Proof.
  induction l as [|y l IH]; simpl; [done|].
  destruct (f y) eqn:Hy; intros; simplify_eq; [auto|].
  destruct (IH H). auto.
Qed.

Lemma find_first_None {A} (f : A -> bool) l :
  find_first f l = None <-> Forall (fun x => f x = false) l.
Proof.
  induction l as [|y l IH]; simpl; [done|].
  rewrite Forall_cons, <- IH. destruct (f y); intuition congruence.
Qed.

(** The last [n] elements: what remains of a [std::deque] bounded by popping
    its front while it is longer than [n]. *)
Definition last_n {A} (n : Z) (l : list A) : list A :=
  drop (List.length l - Z.to_nat n) l.

Lemma last_n_length {A} n (l : list A) : 0 <= n -> zlen (last_n n l) <= n.
Proof. intros. unfold last_n, zlen. rewrite length_drop. lia. Qed.

Lemma last_n_all {A} n (l : list A) : zlen l <= n -> last_n n l = l.
Proof.
  unfold last_n, zlen. intros.
  replace (List.length l - Z.to_nat n)%nat with 0%nat by lia. done.
Qed.

Lemma last_n_In {A} n (l : list A) x : In x (last_n n l) -> In x l.
Proof.
  unfold last_n. intros H.
  rewrite <- (take_drop (List.length l - Z.to_nat n) l). apply in_or_app. auto.
Qed.

Lemma last_n_last {A} n (l : list A) x :
  1 <= n -> last_n n (l ++ [x]) = last_n (n - 1) l ++ [x].
Proof.
  intros. unfold last_n. rewrite length_app. simpl.
  replace (List.length l + 1 - Z.to_nat n)%nat
    with (List.length l - Z.to_nat (n - 1))%nat by lia.
  rewrite drop_app_le by lia. done.
Qed.

Lemma last_n_split {A} n (l : list A) : exists d, l = d ++ last_n n l /\
  zlen d = Z.max 0 (zlen l - Z.max 0 n).
Proof.
  exists (take (List.length l - Z.to_nat n) l). unfold last_n. rewrite take_drop. split; [done|].
  unfold zlen. rewrite length_take. lia.
Qed.

Lemma zlen_app {A} (l k : list A) : zlen (l ++ k) = zlen l + zlen k.
Proof. unfold zlen. rewrite length_app. lia. Qed.

Lemma zlen_cons {A} (x : A) l : zlen (x :: l) = zlen l + 1.
Proof. unfold zlen. simpl. lia. Qed.

Lemma zlen_nonneg {A} (l : list A) : 0 <= zlen l.
Proof. unfold zlen. lia. Qed.

#[export] Hint Resolve zlen_nonneg last_n_length : lqf.
#[export] Hint Rewrite @zlen_app @zlen_cons : lqf_simp.

(** [std::sort] with comparison [less].  The library calls it on keys that are
    pairwise distinct in every state the invariants allow, where the sorted
    sequence is unique. *)
Section Sorting.
Context {A : Type} (less : A -> A -> bool).

Fixpoint insert_sorted (x : A) (l : list A) : list A :=
  match l with
  | [] => [x]
  | y :: l' => if less x y then x :: y :: l' else y :: insert_sorted x l'
  end.

Fixpoint std_sort_acc (acc l : list A) : list A :=
  match l with
  | [] => acc
  | x :: l' => std_sort_acc (insert_sorted x acc) l'
  end.

Definition std_sort (l : list A) : list A := std_sort_acc [] l.

Lemma insert_sorted_perm x l : Permutation (x :: l) (insert_sorted x l).
Proof.
  induction l as [|y l IH]; simpl; [done|].
  destruct (less x y); [done|].
  rewrite Permutation_swap. by rewrite IH.
Qed.

Lemma std_sort_acc_perm acc l : Permutation (acc ++ l) (std_sort_acc acc l).
Proof.
  revert acc; induction l as [|x l IH]; intros acc; simpl; [by rewrite app_nil_r|].
  rewrite <- IH, <- insert_sorted_perm. by rewrite <- Permutation_middle.
Qed.

Lemma std_sort_perm l : Permutation l (std_sort l).
Proof. apply (std_sort_acc_perm []). Qed.

Context (less_total : forall x y, less x y = false -> less y x = true \/ x = y).
Context (less_trans : forall x y z, less x y = true -> less y z = true -> less x z = true).

Definition sorted_by : list A -> Prop :=
  StronglySorted (fun x y => less x y = true \/ x = y).

Lemma insert_sorted_sorted x l : sorted_by l -> sorted_by (insert_sorted x l).
Proof using less_total less_trans.
  induction 1 as [|y l Hs IH Hy]; simpl; [by repeat constructor|].
  destruct (less x y) eqn:Hxy.
  - constructor; [by constructor|]. constructor; [auto|].
    eapply Forall_impl; [exact Hy|]. intros z [Hz | ->]; eauto.
  - constructor; [done|].
    rewrite <- insert_sorted_perm. constructor; [|done].
    destruct (less_total _ _ Hxy); auto.
Qed.

Lemma std_sort_sorted l : sorted_by (std_sort l).
Proof using less_total less_trans.
  unfold std_sort. generalize (SSorted_nil (fun x y => less x y = true \/ x = y)).
  generalize (@nil A). induction l as [|x l IH]; simpl; intros acc Hacc; [done|].
  apply IH. by apply insert_sorted_sorted.
Qed.
End Sorting.

(** Sorting under a strict weak order: no later element is less than an earlier
    one. *)
Section WeakSorting.
Context {A : Type} (less : A -> A -> bool).
Context (less_asym : forall x y, less x y = true -> less y x = false).
Context (less_neg_trans : forall x y z, less y x = false -> less z y = false -> less z x = false).

Definition weakly_sorted : list A -> Prop := StronglySorted (fun x y => less y x = false).

Lemma insert_sorted_weak x l : weakly_sorted l -> weakly_sorted (insert_sorted less x l).
Proof using less_asym less_neg_trans.
  induction 1 as [|y l Hs IH Hy]; simpl; [by repeat constructor|].
  destruct (less x y) eqn:Hxy.
  - constructor; [by constructor|]. constructor; [by apply less_asym|].
    eapply Forall_impl; [exact Hy|]. intros z Hz. eapply less_neg_trans; [|exact Hz]. by apply less_asym.
  - constructor; [done|]. rewrite <- insert_sorted_perm. by constructor.
Qed.

Lemma std_sort_weak l : weakly_sorted (std_sort less l).
Proof using less_asym less_neg_trans.
  unfold std_sort. generalize (SSorted_nil (fun x y => less y x = false)).
  generalize (@nil A). induction l as [|x l IH]; simpl; intros acc Hacc; [done|].
  apply IH. by apply insert_sorted_weak.
Qed.
End WeakSorting.

(** ** Enumerations

    A C++ [enum class] is an inductive type with the source's enumerators; its
    underlying value is [enum_val].  [enum_of] is the checked conversion a
    decoder performs. *)
Class Enum (A : Type) := {
  enum_val : A -> Z;
  enum_all : list A;
  enum_all_complete : forall a, In a enum_all;
  enum_val_inj : forall a b, enum_val a = enum_val b -> a = b;
}.

Definition enum_of {A} `{Enum A} (z : Z) : option A :=
  find_first (fun a => enum_val a =? z) enum_all.

Lemma enum_of_val {A} `{Enum A} (a : A) : enum_of (enum_val a) = Some a.
Proof.
  unfold enum_of. destruct (find_first _ enum_all) as [b|] eqn:E.
  - apply find_first_Some in E as [_ E]. breflect. f_equal. by apply enum_val_inj.
  - apply find_first_None in E. rewrite Forall_forall in E.
    specialize (E a). rewrite Z.eqb_refl in E.
    rewrite list_elem_of_In in E. discriminate E. apply enum_all_complete.
Qed.

Lemma enum_val_of {A} `{Enum A} z (a : A) : enum_of z = Some a -> enum_val a = z.
Proof. intros H'. apply find_first_Some in H' as [_ ?]. by breflect. Qed.

Ltac solve_enum :=
  lazymatch goal with
  | |- forall a, In a _ => intros a; destruct a; simpl; tauto
  | |- forall a b, _ = _ -> _ => intros [] []; simpl; (reflexivity || discriminate)
  end.
