(* ===== verification/OrdMap.v ===== *)
(** * Ordered keys and [std::map]

    The stores of the runtime are [std::map]s whose iteration order is
    observable: reports, snapshots and the verification window all walk them in
    key order.  [Cmp] is the three-way comparison a key type provides
    ([operator<=>], member-wise for the structures), and a map is its sequence
    of entries in increasing key order. *)

From Stdlib Require Import ZArith Lia Bool List String Ascii.
From Stdlib Require Import Sorting.Sorted.
From stdpp Require Import base decidable list strings.
From S2P Require Import Prelude.

Open Scope Z_scope.

(** ** Three-way comparison *)

Class Cmp (A : Type) := {
  cmp : A -> A -> comparison;
  cmp_eq_iff : forall a b, cmp a b = Eq <-> a = b;
  cmp_antisym : forall a b, cmp b a = CompOpp (cmp a b);
  cmp_lt_trans : forall a b c, cmp a b = Lt -> cmp b c = Lt -> cmp a c = Lt;
}.

Definition lessb {A} `{Cmp A} (a b : A) : bool :=
  match cmp a b with Lt => true | _ => false end.
Definition eqb {A} `{Cmp A} (a b : A) : bool :=
  match cmp a b with Eq => true | _ => false end.

Section CmpFacts.
Context {A : Type} `{Cmp A}.

Lemma cmp_refl (a : A) : cmp a a = Eq.
Proof. by apply cmp_eq_iff. Qed.

Lemma eqb_eq (a b : A) : eqb a b = true <-> a = b.
Proof. unfold eqb. rewrite <- cmp_eq_iff. destruct (cmp a b); intuition congruence. Qed.

Lemma eqb_neq (a b : A) : eqb a b = false <-> a <> b.
Proof. unfold eqb. rewrite <- cmp_eq_iff. destruct (cmp a b); intuition congruence. Qed.

Lemma eqb_true (a b : A) : eqb a b = true -> a = b.
Proof. apply eqb_eq. Qed.

Lemma eqb_false (a b : A) : eqb a b = false -> a <> b.
Proof. apply eqb_neq. Qed.

Lemma eqb_refl (a : A) : eqb a a = true.
Proof. by apply eqb_eq. Qed.

Lemma lessb_lt (a b : A) : lessb a b = true <-> cmp a b = Lt.
Proof. unfold lessb. destruct (cmp a b); intuition congruence. Qed.

Lemma cmp_gt_lt (a b : A) : cmp a b = Gt <-> cmp b a = Lt.
Proof. rewrite (cmp_antisym a b). destruct (cmp a b); simpl; intuition congruence. Qed.

Lemma cmp_lt_irrefl (a : A) : cmp a a <> Lt.
Proof. rewrite cmp_refl. discriminate. Qed.

Lemma lessb_total (a b : A) : lessb a b = false -> lessb b a = true \/ a = b.
Proof.
  unfold lessb. rewrite (cmp_antisym a b). destruct (cmp a b) eqn:E; simpl; try discriminate; auto.
  right. by apply cmp_eq_iff.
Qed.

Lemma lessb_trans (a b c : A) : lessb a b = true -> lessb b c = true -> lessb a c = true.
Proof. rewrite !lessb_lt. apply cmp_lt_trans. Qed.

#[export] Instance cmp_eq_decision : EqDecision A.
Proof.
  intros a b. destruct (cmp a b) eqn:E.
  - left. by apply cmp_eq_iff.
  - right. rewrite <- cmp_eq_iff. congruence.
  - right. rewrite <- cmp_eq_iff. congruence.
Defined.
End CmpFacts.

Ltac breflect_hook ::=
  match goal with
  | H : eqb _ _ = true |- _ => apply eqb_true in H
  | H : eqb _ _ = false |- _ => apply eqb_false in H
  end.

(** *** Instances: integers, enumerations, strings, optionals and structures *)

#[export] Program Instance Z_cmp : Cmp Z := {| cmp := Z.compare |}.
Next Obligation. intros; apply Z.compare_eq_iff. Qed.
Next Obligation. intros; apply Z.compare_antisym. Qed.
Next Obligation. simpl; intros a b c; rewrite !Z.compare_lt_iff; lia. Qed.

(** Comparison through an injection: enumerations by underlying value and
    structures by the tuple of their members. *)
Program Definition cmp_via {A B} `{Cmp B} (f : A -> B)
    (inj : forall x y, f x = f y -> x = y) : Cmp A :=
  {| cmp := fun a b => cmp (f a) (f b) |}.
Next Obligation. simpl; intros. rewrite cmp_eq_iff. naive_solver. Qed.
Next Obligation. intros; simpl; apply cmp_antisym. Qed.
Next Obligation. intros; simpl in *; eapply cmp_lt_trans; eauto. Qed.

Definition enum_cmp {A} `{Enum A} : Cmp A := cmp_via enum_val enum_val_inj.

Definition lex (c1 c2 : comparison) : comparison :=
  match c1 with Eq => c2 | c => c end.

#[export] Program Instance pair_cmp {A B} `{Cmp A, Cmp B} : Cmp (A * B) :=
  {| cmp := fun p q => lex (cmp p.1 q.1) (cmp p.2 q.2) |}.
Next Obligation.
  simpl; intros A B CA CB [a1 b1] [a2 b2]; simpl.
  destruct (cmp a1 a2) eqn:E1; simpl.
  - apply cmp_eq_iff in E1 as ->. rewrite cmp_eq_iff. intuition congruence.
  - split; [done|]. intros [= -> _]. by rewrite cmp_refl in E1.
  - split; [done|]. intros [= -> _]. by rewrite cmp_refl in E1.
Qed.
Next Obligation.
  simpl; intros A B CA CB [a1 b1] [a2 b2]; simpl.
  rewrite (cmp_antisym a1 a2). destruct (cmp a1 a2); simpl; auto. apply cmp_antisym.
Qed.
Next Obligation.
  simpl; intros A B CA CB [a1 b1] [a2 b2] [a3 b3]; simpl.
  destruct (cmp a1 a2) eqn:E12; simpl; try discriminate.
  - apply cmp_eq_iff in E12 as ->. destruct (cmp a2 a3); simpl; try done. apply cmp_lt_trans.
  - intros _. destruct (cmp a2 a3) eqn:E23; simpl; try discriminate.
    + apply cmp_eq_iff in E23 as ->. by rewrite E12.
    + by rewrite (cmp_lt_trans _ _ _ E12 E23).
Qed.

#[export] Program Instance bool_cmp : Cmp bool :=
  {| cmp := fun a b => Z.compare (Z.b2z a) (Z.b2z b) |}.
Next Obligation. intros [] []; simpl; intuition congruence. Qed.
Next Obligation. by intros [] []. Qed.
Next Obligation. by intros [] [] []. Qed.

(** [std::string] compares its characters as unsigned bytes. *)
Fixpoint string_cmp (s t : string) : comparison :=
  match s, t with
  | EmptyString, EmptyString => Eq
  | EmptyString, String _ _ => Lt
  | String _ _, EmptyString => Gt
  | String a s', String b t' => lex (N.compare (N_of_ascii a) (N_of_ascii b)) (string_cmp s' t')
  end.

Lemma N_of_ascii_inj a b : N_of_ascii a = N_of_ascii b -> a = b.
Proof. intros E. rewrite <- (ascii_N_embedding a), <- (ascii_N_embedding b). by rewrite E. Qed.

#[export] Program Instance string_Cmp : Cmp string := {| cmp := string_cmp |}.
Next Obligation.
  simpl. induction a as [|a s IH]; intros [|b t]; simpl; try (split; congruence).
  destruct (N.compare _ _) eqn:E; simpl.
  - apply N.compare_eq_iff, N_of_ascii_inj in E as ->. rewrite IH. intuition congruence.
  - split; [done|]. intros [= -> _]. by rewrite N.compare_refl in E.
  - split; [done|]. intros [= -> _]. by rewrite N.compare_refl in E.
Qed.
Next Obligation.
  simpl. induction a as [|a s IH]; intros [|b t]; simpl; try done.
  rewrite N.compare_antisym. destruct (N.compare (N_of_ascii a) (N_of_ascii b)); simpl; auto.
Qed.
Next Obligation.
  simpl. induction a as [|a s IH]; intros [|b t] [|c u]; simpl; try done.
  destruct (N.compare (N_of_ascii a) (N_of_ascii b)) eqn:E12; simpl; try discriminate.
  - apply N.compare_eq_iff in E12 as ->.
    destruct (N.compare (N_of_ascii b) (N_of_ascii c)); simpl; try done. apply IH.
  - intros _. destruct (N.compare (N_of_ascii b) (N_of_ascii c)) eqn:E23; simpl; try discriminate.
    + apply N.compare_eq_iff in E23 as <-. by rewrite E12.
    + apply N.compare_lt_iff in E12, E23.
      by rewrite (proj2 (N.compare_lt_iff _ _) (N.lt_trans _ _ _ E12 E23)).
Qed.

(** ** [std::map] *)

Section OrdMap.
Context {K V : Type} `{Cmp K}.

(** [find]. *)
Fixpoint om_find (k : K) (m : list (K * V)) : option V :=
  match m with
  | [] => None
  | (k', v) :: m' =>
      match cmp k k' with Eq => Some v | Lt => None | Gt => om_find k m' end
  end.

(** [m[k] = v]: insert or overwrite. *)
Fixpoint om_set (k : K) (v : V) (m : list (K * V)) : list (K * V) :=
  match m with
  | [] => [(k, v)]
  | (k', v') :: m' =>
      match cmp k k' with
      | Eq => (k, v) :: m'
      | Lt => (k, v) :: (k', v') :: m'
      | Gt => (k', v') :: om_set k v m'
      end
  end.

(** [emplace]: keeps the existing entry. *)
Definition om_emplace (k : K) (v : V) (m : list (K * V)) : list (K * V) :=
  match om_find k m with Some _ => m | None => om_set k v m end.

(** [erase(key)]. *)
Fixpoint om_erase (k : K) (m : list (K * V)) : list (K * V) :=
  match m with
  | [] => []
  | (k', v') :: m' =>
      match cmp k k' with
      | Eq => m'
      | Lt => (k', v') :: m'
      | Gt => (k', v') :: om_erase k m'
      end
  end.

Definition om_contains (k : K) (m : list (K * V)) : bool :=
  match om_find k m with Some _ => true | None => false end.

Definition om_keys (m : list (K * V)) : list K := map fst m.
Definition om_values (m : list (K * V)) : list V := map snd m.

(** The representation invariant: keys strictly increase. *)
Definition om_wf (m : list (K * V)) : Prop :=
  StronglySorted (fun p q => cmp p.1 q.1 = Lt) m.

Definition above (k : K) (m : list (K * V)) : Prop := Forall (fun p => cmp k p.1 = Lt) m.

Lemma om_wf_cons k v m : om_wf ((k, v) :: m) <-> above k m /\ om_wf m.
Proof.
  unfold om_wf, above. split.
  - intros Hs. by apply StronglySorted_inv in Hs as [? ?].
  - intros [? ?]. by constructor.
Qed.

Lemma above_find k m : above k m -> om_find k m = None.
Proof. destruct m as [|[k' v'] m]; simpl; [done|]. intros Ha. inversion Ha; simplify_eq/=. by rewrite H2. Qed.

Lemma above_trans k k' m : cmp k k' = Lt -> above k' m -> above k m.
Proof.
  intros Hk. unfold above. rewrite !Forall_forall. intros Ha p Hp. eauto using cmp_lt_trans.
Qed.

Lemma om_find_In k v m : om_find k m = Some v -> In (k, v) m.
Proof.
  induction m as [|[k' v'] m IH]; simpl; [done|].
  destruct (cmp k k') eqn:E; intros; simplify_eq; auto.
  apply cmp_eq_iff in E as ->. auto.
Qed.

Lemma om_In_find k v m : om_wf m -> In (k, v) m -> om_find k m = Some v.
Proof.
  induction m as [|[k' v'] m IH]; simpl; [done|].
  rewrite om_wf_cons. intros [Ha Hw] [? | Hin]; simplify_eq.
  - by rewrite cmp_refl.
  - unfold above in Ha. rewrite Forall_forall in Ha.
    specialize (Ha (k, v) ltac:(by apply list_elem_of_In)). simpl in Ha.
    apply cmp_gt_lt in Ha. rewrite Ha. auto.
Qed.

Lemma above_set k k' v m : cmp k k' = Lt -> above k m -> above k (om_set k' v m).
Proof.
  intros Hk. induction m as [|[k2 v2] m IH]; simpl; intros Ha; [by repeat constructor|].
  inversion Ha; simplify_eq/=.
  destruct (cmp k' k2) eqn:E; repeat (constructor; simpl; auto). by apply IH.
Qed.

Lemma om_set_wf k v m : om_wf m -> om_wf (om_set k v m).
Proof.
  induction m as [|[k' v'] m IH]; simpl; [by repeat constructor|].
  rewrite om_wf_cons. intros [Ha Hw].
  destruct (cmp k k') eqn:E; rewrite ?om_wf_cons.
  - apply cmp_eq_iff in E as ->. auto.
  - split; [|auto]. constructor; [done|]. by eapply above_trans.
  - split; [|auto]. apply above_set; [|done]. by apply cmp_gt_lt.
Qed.

Lemma om_emplace_wf k v m : om_wf m -> om_wf (om_emplace k v m).
Proof. unfold om_emplace. case_match; auto using om_set_wf. Qed.

Lemma above_erase k k' m : above k m -> above k (om_erase k' m).
Proof.
  unfold above. induction 1 as [|[k2 v2] m Hk Ha IH]; simpl; [constructor|].
  destruct (cmp k' k2); auto.
Qed.

Lemma om_erase_wf k m : om_wf m -> om_wf (om_erase k m).
Proof.
  induction m as [|[k' v'] m IH]; simpl; [done|].
  rewrite om_wf_cons. intros [Ha Hw].
  destruct (cmp k k'); rewrite ?om_wf_cons; auto using above_erase.
Qed.

Lemma om_find_set_eq k v m : om_find k (om_set k v m) = Some v.
Proof.
  induction m as [|[k' v'] m IH]; simpl; [by rewrite cmp_refl|].
  destruct (cmp k k') eqn:E; simpl; rewrite ?cmp_refl, ?E; auto.
Qed.

Lemma om_find_set_ne k k' v m : k <> k' -> om_find k (om_set k' v m) = om_find k m.
Proof.
  intros Hne. induction m as [|[k2 v2] m IH]; simpl.
  - destruct (cmp k k') eqn:E; [|done|done]. by apply cmp_eq_iff in E.
  - destruct (cmp k' k2) eqn:E; simpl.
    + apply cmp_eq_iff in E as ->. destruct (cmp k k2) eqn:E2; auto.
      by apply cmp_eq_iff in E2.
    + destruct (cmp k k') eqn:E1; auto.
      * by apply cmp_eq_iff in E1.
      * by rewrite (cmp_lt_trans _ _ _ E1 E).
    + destruct (cmp k k2); auto.
Qed.

Lemma om_find_erase_eq k m : om_wf m -> om_find k (om_erase k m) = None.
Proof.
  induction m as [|[k' v'] m IH]; simpl; [done|].
  rewrite om_wf_cons. intros [Ha Hw].
  destruct (cmp k k') eqn:E; simpl; rewrite ?E; auto.
  apply cmp_eq_iff in E as ->. by apply above_find.
Qed.

Lemma om_find_erase_ne k k' m : om_wf m -> k <> k' -> om_find k (om_erase k' m) = om_find k m.
Proof.
  intros Hw Hne. induction m as [|[k2 v2] m IH]; simpl; [done|].
  apply om_wf_cons in Hw as [Ha Hw]. specialize (IH Hw).
  destruct (cmp k' k2) eqn:E; simpl; auto.
  - apply cmp_eq_iff in E as ->. destruct (cmp k k2) eqn:E2; auto.
    + by apply cmp_eq_iff in E2.
    + apply above_find. by eapply above_trans.
  - destruct (cmp k k2); auto.
Qed.

Lemma om_find_filter (f : K -> bool) k m :
  om_wf m ->
  om_find k (List.filter (fun e => f e.1) m) = if f k then om_find k m else None.
Proof.
  induction m as [|[k' v'] m IH]; simpl; [by destruct (f k)|].
  rewrite om_wf_cons. intros [Ha Hw]. specialize (IH Hw).
  destruct (cmp k k') eqn:E.
  - apply cmp_eq_iff in E as <-. destruct (f k) eqn:Fk; simpl; [by rewrite cmp_refl|].
    rewrite IH. done.
  - destruct (f k') eqn:Fk; simpl; rewrite ?E; [by destruct (f k)|].
    rewrite IH. rewrite above_find; [done|]. by eapply above_trans.
  - destruct (f k') eqn:Fk; simpl; rewrite ?E; auto.
Qed.

Lemma om_filter_wf (f : K * V -> bool) m : om_wf m -> om_wf (List.filter f m).
Proof.
  induction m as [|[k' v'] m IH]; simpl; [done|].
  rewrite om_wf_cons. intros [Ha Hw].
  destruct (f (k', v')); rewrite ?om_wf_cons; auto. split; auto.
  unfold above in *. rewrite Forall_forall in *. intros p Hp. apply Ha.
  rewrite list_elem_of_In in *. by apply filter_In in Hp as [? _].
Qed.

Lemma om_set_length k v m :
  om_wf m -> zlen (om_set k v m) = zlen m + (if om_contains k m then 0 else 1).
Proof.
  unfold om_contains. induction m as [|[k' v'] m IH]; simpl; [done|].
  rewrite om_wf_cons. intros [Ha Hw].
  destruct (cmp k k') eqn:E; rewrite !zlen_cons; try lia.
  rewrite (IH Hw). lia.
Qed.

Lemma om_erase_length k m : zlen (om_erase k m) <= zlen m.
Proof.
  induction m as [|[k' v'] m IH]; simpl; [done|].
  destruct (cmp k k'); rewrite ?zlen_cons; lia.
Qed.

Lemma om_contains_spec k m : om_contains k m = true <-> exists v, om_find k m = Some v.
Proof. unfold om_contains. case_match; split; eauto; [done|by intros [? ?]]. Qed.

(** Two maps with the same entries under [find] are the same map. *)
Lemma om_ext m1 m2 :
  om_wf m1 -> om_wf m2 -> (forall k, om_find k m1 = om_find k m2) -> m1 = m2.
Proof.
  revert m2. induction m1 as [|[k1 v1] m1 IH]; intros [|[k2 v2] m2] Hw1 Hw2 Hf; [done| | |].
  - specialize (Hf k2). simpl in Hf. by rewrite cmp_refl in Hf.
  - specialize (Hf k1). simpl in Hf. by rewrite cmp_refl in Hf.
  - apply om_wf_cons in Hw1 as [Ha1 Hw1], Hw2 as [Ha2 Hw2].
    assert (cmp k1 k2 = Eq) as E.
    { destruct (cmp k1 k2) eqn:E; [done|..].
      - specialize (Hf k1). simpl in Hf. by rewrite cmp_refl, E in Hf.
      - apply cmp_gt_lt in E.
        specialize (Hf k2). simpl in Hf. by rewrite cmp_refl, E in Hf. }
    apply cmp_eq_iff in E as <-.
    assert (v1 = v2) as <-.
    { specialize (Hf k1). simpl in Hf. rewrite cmp_refl in Hf. congruence. }
    f_equal. apply IH; auto. intros k. specialize (Hf k). simpl in Hf.
    destruct (cmp k k1) eqn:E; auto.
    + apply cmp_eq_iff in E as ->. by rewrite !above_find.
    + by rewrite !above_find by (by eapply above_trans).
Qed.

Lemma om_find_set k k' v m :
  om_find k (om_set k' v m) = if eqb k k' then Some v else om_find k m.
Proof.
  destruct (eqb k k') eqn:E.
  - apply eqb_eq in E as ->. apply om_find_set_eq.
  - apply eqb_neq in E. by apply om_find_set_ne.
Qed.

Lemma om_wf_nil : om_wf (@nil (K * V)).
Proof. constructor. Qed.
End OrdMap.

#[export] Hint Resolve om_set_wf om_emplace_wf om_erase_wf om_filter_wf om_wf_nil : lqf.
#[export] Hint Rewrite @om_find_set_eq : lqf_simp.

(** ** [std::set] as a membership filter

    The validators insert keys into a local [std::set] and only ask whether a
    key was present; the order is never observed. *)
Definition set_has {A} `{Cmp A} (x : A) (seen : list A) : bool := existsb (eqb x) seen.

Lemma set_has_In {A} `{Cmp A} (x : A) seen : set_has x seen = true <-> In x seen.
Proof.
  unfold set_has. rewrite existsb_exists. split.
  - intros (y & Hy & E). apply eqb_true in E as ->. done.
  - intros Hx. exists x. split; [done|]. apply eqb_refl.
Qed.

Lemma set_has_false {A} `{Cmp A} (x : A) seen : set_has x seen = false <-> ~ In x seen.
Proof. rewrite <- set_has_In. destruct (set_has x seen); intuition congruence. Qed.

(** ** More facts on maps *)

Section MapValues.
Context {K V : Type} `{Cmp K} (f : K -> V -> V).
Let fmap_entry (e : K * V) : K * V := (e.1, f e.1 e.2).

Lemma om_find_map k m : om_find k (map fmap_entry m) = f k <$> om_find k m.
Proof.
  induction m as [|[k' v] m IH]; simpl; [done|].
  destruct (cmp k k') eqn:E; simpl; auto. by apply cmp_eq_iff in E as ->.
Qed.

Lemma om_map_wf m : om_wf m -> om_wf (map fmap_entry m).
Proof.
  induction m as [|[k' v] m IH]; simpl; [done|]. intros Hw. apply om_wf_cons in Hw as [Ha Hw].
  apply om_wf_cons. split; [|by apply IH]. unfold above in *. rewrite Forall_forall in *.
  intros p Hp. apply list_elem_of_In, in_map_iff in Hp as (q & <- & Hq). simpl.
  apply (Ha q). by apply list_elem_of_In.
Qed.
End MapValues.

Lemma om_find_emplace {K V} `{Cmp K} (k k' : K) (v : V) m :
  om_find k (om_emplace k' v m) =
  match om_find k m with Some x => Some x | None => if eqb k k' then Some v else None end.
Proof.
  unfold om_emplace. destruct (om_find k' m) eqn:E.
  - destruct (om_find k m) eqn:E2; [done|]. destruct (eqb k k') eqn:E3; [|done].
    apply eqb_true in E3 as ->. congruence.
  - rewrite om_find_set. destruct (eqb k k') eqn:E3; [|by case_match].
    apply eqb_true in E3 as ->. by rewrite E.
Qed.

Lemma om_emplace_length {K V} `{Cmp K} (k : K) (v : V) m :
  om_wf m -> zlen (om_emplace k v m) = zlen m + (if om_contains k m then 0 else 1).
Proof.
  intros Hw. unfold om_emplace, om_contains. destruct (om_find k m) eqn:E; [lia|].
  rewrite om_set_length by done. unfold om_contains. by rewrite E.
Qed.

Lemma om_emplace_absent {K V} `{Cmp K} (k : K) (v : V) m :
  om_find k m = None -> om_emplace k v m = om_set k v m.
Proof. unfold om_emplace. by intros ->. Qed.

Lemma om_contains_set {K V} `{Cmp K} (k k' : K) (v : V) m :
  om_contains k (om_set k' v m) = eqb k k' || om_contains k m.
Proof. unfold om_contains. rewrite om_find_set. by destruct (eqb k k'). Qed.
