(* ===== verification/Float.v ===== *)
(** * IEEE 754 double precision

    [double] is the executable binary64 of [SpecFloat] (53 bits of precision,
    round to nearest even): comparisons, arithmetic and conversions compute
    what the C++ expressions compute.  A NaN is one value: the payload of a NaN,
    which no comparison or branch of the program reads, is not represented.

    Comparisons of non-NaN values are reflected into a lexicographic key, so the
    classifier's theorems reason with a total order. *)

From Stdlib Require Import ZArith Lia Bool List.
From Stdlib Require Import Floats.SpecFloat.
From stdpp Require Import base decidable list.
From S2P Require Import Prelude OrdMap.

Open Scope Z_scope.

Abbreviation double := spec_float.

Definition d_prec : Z := 53.
Definition d_emax : Z := 1024.

Definition d_add : double -> double -> double := SFadd d_prec d_emax.
Definition d_sub : double -> double -> double := SFsub d_prec d_emax.
Definition d_mul : double -> double -> double := SFmul d_prec d_emax.
Definition d_div : double -> double -> double := SFdiv d_prec d_emax.

(** [<], [<=] and [==]: false as soon as an operand is NaN. *)
Definition d_lt : double -> double -> bool := SFltb.
Definition d_le : double -> double -> bool := SFleb.
Definition d_eq : double -> double -> bool := SFeqb.

Definition d_zero : double := S754_zero false.
Definition d_pinf : double := S754_infinity false.
Definition d_ninf : double := S754_infinity true.
Definition d_nan : double := S754_nan.

Definition is_nan (x : double) : bool := match x with S754_nan => true | _ => false end.
Definition is_inf (x : double) : bool := match x with S754_infinity _ => true | _ => false end.

(** [std::isfinite]. *)
Definition std_isfinite (x : double) : bool :=
  match x with S754_zero _ | S754_finite _ _ _ => true | _ => false end.

(** [static_cast<double>] of an integer, and a decimal literal [m * 10^-k]:
    both operands of the division are exact, so its rounding is the literal's. *)
Definition d_of_Z (z : Z) : double := binary_normalize d_prec d_emax z 0 false.
Definition d_lit (m k : Z) : double := d_div (d_of_Z m) (d_of_Z (10 ^ k)).

(** [std::min(a, b)] and [std::max(a, b)]. *)
Definition d_min (a b : double) : double := if d_lt b a then b else a.
Definition d_max (a b : double) : double := if d_lt a b then b else a.

(** ** The order of the non-NaN values *)

Definition d_key (x : double) : Z * (Z * Z) :=
  match x with
  | S754_infinity true => (-2, (0, 0))
  | S754_finite true m e => (-1, (- e, - Zpos m))
  | S754_zero _ | S754_nan => (0, (0, 0))
  | S754_finite false m e => (1, (e, Zpos m))
  | S754_infinity false => (2, (0, 0))
  end.

Lemma SFcompare_key x y :
  is_nan x = false -> is_nan y = false -> SFcompare x y = Some (cmp (d_key x) (d_key y)).
Proof.
  destruct x as [[]|[]| |[] m1 e1], y as [[]|[]| |[] m2 e2]; simpl; try done; intros _ _; f_equal.
  - rewrite Z.compare_opp, (Z.compare_antisym e1 e2).
    destruct (e1 ?= e2); simpl; auto.
  - by destruct (e1 ?= e2).
Qed.

Lemma d_lt_key x y :
  is_nan x = false -> is_nan y = false -> d_lt x y = lessb (d_key x) (d_key y).
Proof.
  intros Hx Hy. unfold d_lt, SFltb, lessb. rewrite SFcompare_key by done. by destruct (cmp _ _).
Qed.

Lemma d_le_key x y :
  is_nan x = false -> is_nan y = false -> d_le x y = negb (lessb (d_key y) (d_key x)).
Proof.
  intros Hx Hy. unfold d_le, SFleb, lessb. rewrite SFcompare_key by done.
  rewrite (cmp_antisym (d_key x)). by destruct (cmp _ _).
Qed.

Lemma d_eq_key x y :
  is_nan x = false -> is_nan y = false -> d_eq x y = eqb (d_key x) (d_key y).
Proof.
  intros Hx Hy. unfold d_eq, SFeqb, eqb. rewrite SFcompare_key by done. by destruct (cmp _ _).
Qed.

(** A comparison that holds has no NaN operand. *)
Lemma d_lt_not_nan x y : d_lt x y = true -> is_nan x = false /\ is_nan y = false.
Proof. by destruct x, y. Qed.
Lemma d_le_not_nan x y : d_le x y = true -> is_nan x = false /\ is_nan y = false.
Proof. by destruct x, y. Qed.
Lemma d_eq_not_nan x y : d_eq x y = true -> is_nan x = false /\ is_nan y = false.
Proof. by destruct x, y. Qed.

Lemma finite_not_nan x : std_isfinite x = true -> is_nan x = false.
Proof. by destruct x. Qed.

Section DoubleOrder.
Context (x y z : double).
Context (Hx : is_nan x = false) (Hy : is_nan y = false) (Hz : is_nan z = false).

Lemma d_lt_trans : d_lt x y = true -> d_lt y z = true -> d_lt x z = true.
Proof using Hx Hy Hz. rewrite !d_lt_key by done. apply lessb_trans. Qed.

Lemma d_nlt_lt_trans : d_lt y x = false -> d_lt y z = true -> d_lt x z = true.
Proof using Hx Hy Hz.
  rewrite !d_lt_key by done. intros H1 H2.
  destruct (lessb_total _ _ H1) as [H3 | <-]; [|done]. by eapply lessb_trans.
Qed.

Lemma d_lt_nlt_trans : d_lt x y = true -> d_lt z y = false -> d_lt x z = true.
Proof using Hx Hy Hz.
  rewrite !d_lt_key by done. intros H1 H2.
  destruct (lessb_total _ _ H2) as [H3 | ->]; [|done]. by eapply lessb_trans.
Qed.

Lemma d_le_nlt : d_le x y = negb (d_lt y x).
Proof using Hx Hy. by rewrite d_le_key, d_lt_key. Qed.

Lemma d_le_trans : d_le x y = true -> d_le y z = true -> d_le x z = true.
Proof using Hx Hy Hz.
  rewrite !d_le_key by done. rewrite !negb_true_iff. intros H1 H2.
  destruct (lessb (d_key z) (d_key x)) eqn:E; [|done].
  destruct (lessb_total _ _ H1) as [H3 | E3].
  - assert (lessb (d_key z) (d_key y) = true) by (eapply lessb_trans; eauto). congruence.
  - rewrite E3 in H2. congruence.
Qed.

Lemma d_eq_lt_l : d_eq x y = true -> d_lt x z = d_lt y z.
Proof using Hx Hy Hz. rewrite d_eq_key, !d_lt_key by done. rewrite eqb_eq. by intros ->. Qed.

Lemma d_eq_lt_r : d_eq x y = true -> d_lt z x = d_lt z y.
Proof using Hx Hy Hz. rewrite d_eq_key, !d_lt_key by done. rewrite eqb_eq. by intros ->. Qed.
End DoubleOrder.

Lemma d_lt_irrefl x : d_lt x x = false.
Proof.
  destruct (is_nan x) eqn:E; [by destruct x|].
  rewrite d_lt_key by done. unfold lessb. by rewrite cmp_refl.
Qed.

Lemma d_le_refl x : is_nan x = false -> d_le x x = true.
Proof. intros. by rewrite d_le_nlt, d_lt_irrefl. Qed.

(** [-infinity] is below or equal to every value that is not NaN. *)
Lemma d_lt_ninf x : d_lt x d_ninf = false.
Proof. by destruct x as [|[]| |]. Qed.

(** ** [std::min] and [std::max] over a sequence *)

Lemma d_min_le x y :
  is_nan x = false -> is_nan y = false ->
  is_nan (d_min x y) = false /\ d_le (d_min x y) x = true /\ d_le (d_min x y) y = true.
Proof.
  intros Hx Hy. unfold d_min. destruct (d_lt y x) eqn:E; rewrite !d_le_nlt by done; rewrite ?d_lt_irrefl, ?E; auto.
  repeat split; auto. destruct (d_lt x y) eqn:E2; auto.
  assert (d_lt x x = true) by (by eapply (d_lt_trans x y x)). by rewrite d_lt_irrefl in H.
Qed.

Lemma d_max_ge x y :
  is_nan x = false -> is_nan y = false ->
  is_nan (d_max x y) = false /\ d_le x (d_max x y) = true /\ d_le y (d_max x y) = true.
Proof.
  intros Hx Hy. unfold d_max. destruct (d_lt x y) eqn:E; rewrite !d_le_nlt by done; rewrite ?d_lt_irrefl, ?E; auto.
  repeat split; auto. destruct (d_lt y x) eqn:E2; auto.
  assert (d_lt x x = true) by (by eapply (d_lt_trans x y x)). by rewrite d_lt_irrefl in H.
Qed.

(** ** The 64-bit pattern of a double *)

Definition bits_of_f64 (x : double) : Z :=
  match x with
  | S754_zero s => Z.b2z s * 2 ^ 63
  | S754_infinity s => Z.b2z s * 2 ^ 63 + 2047 * 2 ^ 52
  | S754_nan => 2047 * 2 ^ 52 + 2 ^ 51
  | S754_finite s m e =>
      if 2 ^ 52 <=? Zpos m
      then Z.b2z s * 2 ^ 63 + (e + 1075) * 2 ^ 52 + (Zpos m - 2 ^ 52)
      else Z.b2z s * 2 ^ 63 + Zpos m
  end.

Definition f64_of_bits (z : Z) : double :=
  let s := Z.odd (z / 2 ^ 63) in
  let ex := (z / 2 ^ 52) mod 2048 in
  let fr := z mod 2 ^ 52 in
  if ex =? 0 then
    match fr with Zpos m => S754_finite s m (-1074) | _ => S754_zero s end
  else if ex =? 2047 then
    if fr =? 0 then S754_infinity s else S754_nan
  else S754_finite s (Z.to_pos (fr + 2 ^ 52)) (ex - 1075).

Lemma digits2_pos_bound m : 2 ^ (Zpos (digits2_pos m) - 1) <= Zpos m < 2 ^ Zpos (digits2_pos m).
Proof.
  induction m as [m IH|m IH|]; simpl digits2_pos; [..|done].
  all: rewrite Pos2Z.inj_succ.
  all: replace (Z.succ (Zpos (digits2_pos m)) - 1) with (Z.succ (Zpos (digits2_pos m) - 1)) by lia.
  all: rewrite !Z.pow_succ_r by lia; lia.
Qed.

(** A representable finite value: a full 53-bit significand, or the smallest
    exponent with fewer bits. *)
Lemma bounded_cases m e :
  bounded d_prec d_emax m e = true ->
  (2 ^ 52 <= Zpos m < 2 ^ 53 /\ -1074 <= e <= 971) \/ (Zpos m < 2 ^ 52 /\ e = -1074).
Proof.
  unfold bounded, canonical_mantissa, fexp, emin, d_prec, d_emax. intros H. breflect.
  pose proof (digits2_pos_bound m) as B.
  set (d := Zpos (digits2_pos m)) in *.
  assert (d <= 53) as Hd by lia.
  destruct (Z.eq_dec d 53) as [E|E].
  - left. rewrite E in B. change (53 - 1) with 52 in B. lia.
  - right. split; [|lia].
    assert (2 ^ d <= 2 ^ 52) by (apply Z.pow_le_mono_r; lia). lia.
Qed.

Definition d_valid (x : double) : Prop := valid_binary d_prec d_emax x = true.

Lemma bits_of_f64_range x : d_valid x -> is_u64 (bits_of_f64 x).
Proof.
  unfold d_valid, bits_of_f64. intros H. destruct x as [[]|[]| |s m e];
    [vm_compute; split; discriminate ..|].
  apply bounded_cases in H. unfold is_u64, u64_max.
  destruct (2 ^ 52 <=? Zpos m) eqn:E; breflect; destruct s; simpl Z.b2z; lia.
Qed.

Lemma f64_bits_roundtrip x : d_valid x -> f64_of_bits (bits_of_f64 x) = x.
Proof.
  unfold d_valid. intros H. destruct x as [[]|[]| |s m e]; try reflexivity.
  apply bounded_cases in H. unfold bits_of_f64.
  set (b := Z.b2z s). assert (b = 0 /\ s = false \/ b = 1 /\ s = true) as Hs by (destruct s; auto).
  destruct (2 ^ 52 <=? Zpos m) eqn:Em; breflect.
  - destruct H as [[H1 H2]|]; [|lia].
    replace (b * 2 ^ 63 + (e + 1075) * 2 ^ 52 + (Zpos m - 2 ^ 52))
      with ((b * 2048 + (e + 1075)) * 2 ^ 52 + (Zpos m - 2 ^ 52)) by lia.
    unfold f64_of_bits.
    replace (2 ^ 63) with (2 ^ 52 * 2048) by done.
    rewrite <- Z.div_div by lia.
    rewrite Z.div_add_l, (Z.div_small (Zpos m - 2 ^ 52)) by lia.
    rewrite Z.add_0_r, (Z.add_comm (_ * 2 ^ 52)), Z.mod_add, (Z.mod_small (Zpos m - 2 ^ 52)) by lia.
    rewrite Z.div_add_l, (Z.div_small (e + 1075)), Z.add_0_r by lia.
    rewrite (Z.add_comm (b * 2048)), Z.mod_add, Z.mod_small by lia.
    destruct (Z.eqb_spec (e + 1075) 0); [lia|].
    destruct (Z.eqb_spec (e + 1075) 2047); [lia|].
    replace (Zpos m - 2 ^ 52 + 2 ^ 52) with (Zpos m) by lia. simpl.
    f_equal; [destruct Hs as [[-> ->]|[-> ->]]; done | lia].
  - destruct H as [|[H1 ->]]; [lia|].
    unfold f64_of_bits.
    replace (b * 2 ^ 63 + Zpos m) with ((b * 2048) * 2 ^ 52 + Zpos m) by lia.
    replace (2 ^ 63) with (2 ^ 52 * 2048) by done.
    rewrite <- Z.div_div by lia.
    rewrite Z.div_add_l, (Z.div_small (Zpos m)) by lia.
    rewrite Z.add_0_r, (Z.add_comm (_ * 2 ^ 52)), Z.mod_add, (Z.mod_small (Zpos m)) by lia.
    rewrite Z.mod_mul, Z.div_mul by lia. simpl.
    f_equal. destruct Hs as [[-> ->]|[-> ->]]; done.
Qed.

Lemma f64_of_bits_valid z : is_u64 z -> d_valid (f64_of_bits z).
Proof.
  intros Hz. unfold d_valid, f64_of_bits.
  assert (0 <= z mod 2 ^ 52 < 2 ^ 52) as Hf by (apply Z.mod_pos_bound; lia).
  assert (0 <= (z / 2 ^ 52) mod 2048 < 2048) as He by (apply Z.mod_pos_bound; lia).
  set (fr := z mod 2 ^ 52) in *. set (ex := (z / 2 ^ 52) mod 2048) in *.
  assert (forall m e, -1074 <= e <= 971 ->
     (2 ^ 52 <= Zpos m < 2 ^ 53 \/ e = -1074 /\ Zpos m < 2 ^ 52) -> bounded d_prec d_emax m e = true) as Hb.
  { intros m e He' Hm. unfold bounded, canonical_mantissa, fexp, emin, d_prec, d_emax.
    pose proof (digits2_pos_bound m) as B. set (d := Zpos (digits2_pos m)) in *.
    assert (d <= 53).
    { destruct (Z.le_gt_cases d 53); [done|].
      assert (2 ^ 53 <= 2 ^ (d - 1)) by (apply Z.pow_le_mono_r; lia). lia. }
    assert (2 ^ 52 <= Zpos m -> d = 53).
    { intros. destruct (Z.le_gt_cases d 52); [|lia].
      assert (2 ^ d <= 2 ^ 52) by (apply Z.pow_le_mono_r; lia). lia. }
    apply andb_true_iff. rewrite Z.eqb_eq, Z.leb_le. lia. }
  destruct (ex =? 0) eqn:E0; breflect.
  - destruct fr as [|m|m] eqn:Ef; try done. simpl. apply Hb; lia.
  - destruct (ex =? 2047) eqn:E1; breflect; [by case_match|].
    simpl. apply Hb; [lia|]. rewrite Z2Pos.id by lia. lia.
Qed.
