(* ===== verification/Core.v ===== *)
(** * Core: checked arithmetic, identities and text

    [core/checked.hpp], [core/strong.hpp], [core/status.hpp] and
    [core/text.cpp].  A checked operation returns [Some] of the result, or
    [None] where the C++ function returns [false] and leaves its output alone. *)

From Stdlib Require Import ZArith Lia Bool List String Ascii.
From Stdlib Require Import Floats.SpecFloat.
From stdpp Require Import base decidable list strings.
From S2P Require Import Prelude OrdMap Float.

Open Scope Z_scope.

(** ** Checked arithmetic *)

Definition checked_add_u64 (lhs rhs : Z) : option Z :=
  if u64_max - rhs <? lhs then None else Some (wrap64 (lhs + rhs)).

Definition checked_mul_u64 (lhs rhs : Z) : option Z :=
  if negb (lhs =? 0) && (u64_max / lhs <? rhs) then None else Some (wrap64 (lhs * rhs)).

Definition checked_add_i64 (lhs rhs : Z) : option Z :=
  if ((0 <? rhs) && (i64_max - rhs <? lhs)) || ((rhs <? 0) && (lhs <? i64_min - rhs))
  then None else Some (to_i64 (lhs + rhs)).

Definition checked_sub_i64 (lhs rhs : Z) : option Z :=
  if rhs =? i64_min then None else checked_add_i64 lhs (to_i64 (- rhs)).

(** [std::size_t] is 64 bits wide. *)
Definition checked_add_size (lhs rhs : Z) : option Z :=
  if u64_max - rhs <? lhs then None else Some (wrap64 (lhs + rhs)).

Definition checked_mul_size (lhs rhs : Z) : option Z :=
  if negb (lhs =? 0) && (u64_max / lhs <? rhs) then None else Some (wrap64 (lhs * rhs)).

Definition fits_in (to_max value : Z) : bool := value <=? to_max.

Definition is_finite (value : double) : bool :=
  d_eq value value && negb (d_eq value d_pinf) && negb (d_eq value d_ninf).

Definition is_valid_magnitude (value : double) : bool :=
  is_finite value && d_le d_zero value.

Lemma is_finite_std x : is_finite x = std_isfinite x.
Proof.
  destruct (is_nan x) eqn:E; [by destruct x|].
  unfold is_finite. rewrite !d_eq_key, eqb_refl by done.
  destruct x as [[]|[]| |[] m e]; done.
Qed.

Lemma to_i64_id z : is_i64 z -> to_i64 z = z.
Proof. intros. unfold to_i64. split_match; breflect; zify_lia. Qed.

Lemma to_i64_range z : is_i64 (to_i64 z).
Proof.
  unfold to_i64. assert (is_u64 (wrap64 z)) by zify_lia.
  split_match; breflect; unfold_ints; lia.
Qed.

Lemma wrap64_id z : is_u64 z -> wrap64 z = z.
Proof. intros. zify_lia. Qed.

Lemma wrap64_range z : is_u64 (wrap64 z).
Proof. zify_lia. Qed.
#[export] Hint Resolve wrap64_range : lqf.

(** Each checked operation computes the exact integer result, and refuses
    precisely when that result does not fit the width. *)
Lemma checked_add_u64_spec a b :
  is_u64 a -> is_u64 b ->
  checked_add_u64 a b = if a + b <=? u64_max then Some (a + b) else None.
Proof. intros. unfold checked_add_u64. repeat split_match; breflect; rewrite ?wrap64_id; unfold_ints; lia || done. Qed.

Lemma checked_mul_u64_spec a b :
  is_u64 a -> is_u64 b ->
  checked_mul_u64 a b = if a * b <=? u64_max then Some (a * b) else None.
Proof.
  intros Ha Hb. unfold checked_mul_u64.
  destruct (Z.eq_dec a 0) as [->|Hz]; [done|].
  assert ((u64_max / a <? b) = negb (a * b <=? u64_max)) as ->.
  { unfold is_u64, u64_max in *. 
    destruct (a * b <=? _) eqn:E; breflect; simpl; [apply Z.ltb_ge|apply Z.ltb_lt].
    - apply Z.div_le_lower_bound; lia.
    - apply Z.div_lt_upper_bound; lia. }
  destruct (Z.eqb_spec a 0); [done|]. simpl.
  destruct (a * b <=? u64_max) eqn:E; simpl; [|done]. breflect.
  rewrite wrap64_id; [done|]. unfold is_u64 in *. nia.
Qed.

Lemma checked_sub_i64_spec a b :
  is_i64 a -> is_i64 b ->
  checked_sub_i64 a b =
    if (i64_min <? b) && (i64_min <=? a - b) && (a - b <=? i64_max) then Some (a - b) else None.
Proof.
  intros Ha Hb. unfold checked_sub_i64.
  destruct (b =? i64_min) eqn:E; breflect.
  { subst. replace (i64_min <? i64_min) with false by done. done. }
  rewrite (to_i64_id (- b)) by (unfold_ints; lia).
  replace (i64_min <? b) with true by (symmetry; apply Z.ltb_lt; unfold_ints; lia). simpl.
  unfold checked_add_i64.
  destruct ((i64_min <=? a - b) && (a - b <=? i64_max)) eqn:E2; breflect.
  - rewrite (proj2 (orb_false_iff _ _)).
    + f_equal. replace (a + - b) with (a - b) by lia. apply to_i64_id. unfold is_i64. lia.
    + rewrite !andb_false_iff, !Z.ltb_ge. unfold_ints. lia.
  - apply andb_false_iff in E2. rewrite !Z.leb_gt in E2.
    rewrite (proj2 (orb_true_iff _ _)); [done|].
    rewrite !andb_true_iff, !Z.ltb_lt. unfold_ints. lia.
Qed.

(** ** Strong counters *)

Definition counter_is_zero (v : Z) : bool := v =? 0.
Definition counter_next (v : Z) : Z := wrap64 (v + 1).
Definition counter_prev (v : Z) : Z := if v =? 0 then 0 else wrap64 (v - 1).

Definition kMaxIdentityBytes : Z := 128.
Definition kMaxOriginBytes : Z := 96.

(** A lane, or the link-wide aggregate; [lane] is kept as the member the C++
    structure keeps, also for the aggregate. *)
Record LaneDimension := mkLaneDimension { ld_aggregate : bool; ld_lane : Z }.

Definition aggregate_dimension : LaneDimension := mkLaneDimension true 0.
Definition lane_dimension (lane : Z) : LaneDimension := mkLaneDimension false lane.

#[export] Instance LaneDimension_Cmp : Cmp LaneDimension.
Proof.
  refine (cmp_via (fun l => (ld_aggregate l, ld_lane l)) _).
  intros [] [] [= -> ->]. done.
Defined.

(** ** Text *)

Module text.
Definition is_space (c : ascii) : bool :=
  (Ascii.eqb c " " || Ascii.eqb c "009" || Ascii.eqb c "010" || Ascii.eqb c "013"
   || Ascii.eqb c "011" || Ascii.eqb c "012")%char%bool.

Definition lower_char (c : ascii) : ascii :=
  let n := N_of_ascii c in
  if ((65 <=? n) && (n <=? 90))%N then ascii_of_N (n - 65 + 97) else c.

Fixpoint to_lower_ascii (value : string) : string :=
  match value with
  | EmptyString => EmptyString
  | String c s => String (lower_char c) (to_lower_ascii s)
  end.

Fixpoint trim_front (value : string) : string :=
  match value with
  | EmptyString => EmptyString
  | String c s => if is_space c then trim_front s else value
  end.

(** Drops the trailing spaces: a suffix of spaces ends up empty. *)
Fixpoint trim_back (value : string) : string :=
  match value with
  | EmptyString => EmptyString
  | String c s =>
      match trim_back s with
      | EmptyString => if is_space c then EmptyString else String c EmptyString
      | t => String c t
      end
  end.

Definition trim_ascii (value : string) : string := trim_back (trim_front value).

Fixpoint equals_ascii_ci (lhs rhs : string) : bool :=
  match lhs, rhs with
  | EmptyString, EmptyString => true
  | String a l, String b r => Ascii.eqb (lower_char a) (lower_char b) && equals_ascii_ci l r
  | _, _ => false
  end.

(** [split]: the pieces between the delimiters, at least one. *)
Fixpoint split (value : string) (delimiter : ascii) : list string :=
  match value with
  | EmptyString => [EmptyString]
  | String c s =>
      if Ascii.eqb c delimiter then EmptyString :: split s delimiter
      else match split s delimiter with
           | p :: ps => String c p :: ps
           | [] => [String c EmptyString]
           end
  end.

(** [std::to_chars] on an unsigned value: decimal digits, no leading zero. *)
Definition digit_char (d : Z) : ascii := ascii_of_N (Z.to_N (48 + d)).

Fixpoint to_chars_fuel (fuel : nat) (value : Z) (acc : string) : string :=
  match fuel with
  | O => acc
  | S fuel' =>
      let acc' := String (digit_char (value mod 10)) acc in
      if value <? 10 then acc' else to_chars_fuel fuel' (value / 10) acc'
  end.

(** Twenty digits hold every [u64]. *)
Definition format_u64 (value : Z) : string := to_chars_fuel 20 value EmptyString.

Definition format_i64 (value : Z) : string :=
  if value <? 0 then String "-" (format_u64 (- value)) else format_u64 value.

Definition hex_digit (d : Z) : ascii :=
  if d <? 10 then ascii_of_N (Z.to_N (48 + d)) else ascii_of_N (Z.to_N (87 + d)).

Fixpoint hex_bytes (data : list Z) : string :=
  match data with
  | [] => EmptyString
  | b :: data' =>
      String (hex_digit (Z.land (Z.shiftr b 4) 15)) (String (hex_digit (Z.land b 15)) (hex_bytes data'))
  end.

(** The digits of [hex_u64], least significant first, as its buffer holds them. *)
Fixpoint hex_digits_le (fuel : nat) (value : Z) : list Z :=
  match fuel with
  | O => []
  | S fuel' => if value =? 0 then [] else Z.land value 15 :: hex_digits_le fuel' (Z.shiftr value 4)
  end.

Definition hex_u64 (value min_digits : Z) : string :=
  let digits := if value =? 0 then [0] else hex_digits_le 16 value in
  let padded := digits ++ repeat 0 (Z.to_nat (Z.min min_digits 16) - List.length digits) in
  string_of_list_ascii (map hex_digit (rev padded)).

Definition digit_value (c : ascii) : option Z :=
  let n := Z.of_N (N_of_ascii c) in
  if (48 <=? n) && (n <=? 57) then Some (n - 48) else None.

(** [std::from_chars] over the whole input: digits only, refused on overflow. *)
Fixpoint from_chars_u64 (value : string) (acc : Z) : option Z :=
  match value with
  | EmptyString => Some acc
  | String c s =>
      match digit_value c with
      | Some d => let acc' := acc * 10 + d in
                  if u64_max <? acc' then None else from_chars_u64 s acc'
      | None => None
      end
  end.

Definition parse_u64 (value : string) : Outcome Z :=
  match trim_ascii value with
  | EmptyString => Bad StatusCode.Invalid
  | trimmed =>
      match from_chars_u64 trimmed 0 with
      | Some v => Good v
      | None => Bad StatusCode.Invalid
      end
  end.

(** [std::from_chars] on a signed value: a minus sign, no plus sign, at least
    one digit, refused outside the range. *)
Definition from_chars_i64 (value : string) : option Z :=
  match value with
  | EmptyString => None
  | String c s =>
      if Ascii.eqb c "-" then
        match s with
        | EmptyString => None
        | _ => match from_chars_u64 s 0 with
               | Some m => if m <=? - i64_min then Some (- m) else None
               | None => None
               end
        end
      else match from_chars_u64 value 0 with
           | Some m => if m <=? i64_max then Some m else None
           | None => None
           end
  end.

Definition parse_i64 (value : string) : Outcome Z :=
  match trim_ascii value with
  | EmptyString => Bad StatusCode.Invalid
  | trimmed =>
      match from_chars_i64 trimmed with
      | Some v => Good v
      | None => Bad StatusCode.Invalid
      end
  end.

Definition parse_bool (value : string) : Outcome bool :=
  let trimmed := trim_ascii value in
  if equals_ascii_ci trimmed "true" || String.eqb trimmed "1" then Good true
  else if equals_ascii_ci trimmed "false" || String.eqb trimmed "0" then Good false
  else Bad StatusCode.Invalid.
End text.

(** [std::to_chars] on a [double]: the shortest text that converts back.  It is
    the standard library's, so the development takes it as an interface; what
    the code makes of the text is [format_double]. *)
Class Charconv := { to_chars_double : double -> string }.

(** [std::from_chars] on a [double], over the whole input. *)
Class FromChars := { from_chars_double : string -> option double }.

Definition parse_double `{FromChars} (value : string) : Outcome double :=
  match text.trim_ascii value with
  | EmptyString => Bad StatusCode.Invalid
  | trimmed =>
      match from_chars_double trimmed with
      | Some v => Good v
      | None => Bad StatusCode.Invalid
      end
  end.

Fixpoint string_has (c : ascii) (s : string) : bool :=
  match s with
  | EmptyString => false
  | String c' s' => Ascii.eqb c c' || string_has c s'
  end.

Definition format_double `{Charconv} (value : double) : string :=
  match value with
  | S754_nan => "nan"
  | S754_infinity s => if s then "-inf" else "inf"
  | _ =>
      let out := to_chars_double value in
      if negb (string_has "." out) && negb (string_has "e" out) && negb (string_has "E" out)
         && negb (bool_decide (is_Some (String.index 0 "inf" out)))
         && negb (bool_decide (is_Some (String.index 0 "nan" out)))
      then out +:+ ".0" else out
  end.

(** [to_string(StatusCode)]. *)
Definition status_to_string (code : StatusCode.t) : string :=
  match code with
  | StatusCode.Ok => "ok"
  | StatusCode.Invalid => "invalid"
  | StatusCode.NotFound => "not-found"
  | StatusCode.Unsupported => "unsupported"
  | StatusCode.Conflict => "conflict"
  | StatusCode.Stale => "stale"
  | StatusCode.Fenced => "fenced"
  | StatusCode.Rejected => "rejected"
  | StatusCode.Duplicate => "duplicate"
  | StatusCode.IdMismatch => "id-mismatch"
  | StatusCode.Overflow => "overflow"
  | StatusCode.LimitExceeded => "limit-exceeded"
  | StatusCode.Corrupt => "corrupt"
  | StatusCode.Unavailable => "unavailable"
  | StatusCode.Busy => "busy"
  | StatusCode.Cancelled => "cancelled"
  | StatusCode.Refused => "refused"
  | StatusCode.Protocol => "protocol"
  | StatusCode.Io => "io"
  | StatusCode.Internal => "internal"
  end.

(** [Status::to_text], of a status with this code and message. *)
Definition status_to_text (code : StatusCode.t) (message : string) : string :=
  if ok code then "ok"
  else status_to_string code +:+ (if String.eqb message "" then "" else ": " +:+ message).

(** ** Decimal text round trip *)

Fixpoint all_chars (f : ascii -> bool) (s : string) : bool :=
  match s with
  | EmptyString => true
  | String c s' => f c && all_chars f s'
  end.

Definition is_digit (c : ascii) : bool :=
  match text.digit_value c with Some _ => true | None => false end.

Lemma digit_value_char d : 0 <= d < 10 -> text.digit_value (text.digit_char d) = Some d.
Proof.
  intros Hd. unfold text.digit_value, text.digit_char.
  rewrite N_ascii_embedding by lia. rewrite Z2N.id by lia.
  destruct (48 <=? 48 + d) eqn:E1, (48 + d <=? 57) eqn:E2; breflect; simpl; lia || (f_equal; lia).
Qed.

Lemma is_digit_not_space c : is_digit c = true -> text.is_space c = false.
Proof. destruct c as [[] [] [] [] [] [] [] []]; vm_compute; congruence. Qed.

Lemma trim_back_id s : all_chars (fun c => negb (text.is_space c)) s = true -> text.trim_back s = s.
Proof.
  induction s as [|c s IH]; simpl; [done|]. intros H. breflect.
  rewrite IH by done. rewrite H. by destruct s.
Qed.

Lemma trim_ascii_id s : all_chars (fun c => negb (text.is_space c)) s = true -> text.trim_ascii s = s.
Proof.
  intros Hs. unfold text.trim_ascii.
  replace (text.trim_front s) with s; [by apply trim_back_id|].
  destruct s as [|c s]; simpl in *; [done|]. breflect. by rewrite H.
Qed.

Lemma to_chars_fuel_digits fuel v acc :
  0 <= v -> all_chars is_digit acc = true -> all_chars is_digit (text.to_chars_fuel fuel v acc) = true.
Proof.
  revert v acc. induction fuel as [|fuel IH]; intros v acc Hv Hacc; simpl; [done|].
  assert (all_chars is_digit (String (text.digit_char (v mod 10)) acc) = true).
  { simpl. rewrite Hacc. unfold is_digit. rewrite digit_value_char by (apply Z.mod_pos_bound; lia). done. }
  split_match; [done|]. apply IH; [apply Z.div_pos; lia|done].
Qed.

Lemma from_chars_to_chars fuel v acc :
  0 <= v <= u64_max -> v < 10 ^ Z.of_nat fuel -> (0 < fuel)%nat ->
  text.from_chars_u64 (text.to_chars_fuel fuel v acc) 0 = text.from_chars_u64 acc v.
Proof.
  revert v acc. induction fuel as [|fuel IH]; intros v acc Hv Hb Hf; [lia|].
  simpl text.to_chars_fuel. destruct (v <? 10) eqn:E; breflect.
  - rewrite Z.mod_small by lia. cbn [text.from_chars_u64]. rewrite digit_value_char by lia.
    rewrite Z.mul_0_l, Z.add_0_l. by rewrite (proj2 (Z.ltb_ge u64_max v)) by lia.
  - assert (0 <= v mod 10 < 10) by (apply Z.mod_pos_bound; lia).
    pose proof (Z.div_mod v 10 ltac:(lia)).
    rewrite IH.
    + cbn [text.from_chars_u64]. rewrite digit_value_char by done.
      replace (v / 10 * 10 + v mod 10) with v by lia.
      by rewrite (proj2 (Z.ltb_ge u64_max v)) by lia.
    + split; [apply Z.div_pos; lia|]. lia.
    + apply Z.div_lt_upper_bound; [lia|]. rewrite <- Z.pow_succ_r by lia.
      by replace (Z.succ (Z.of_nat fuel)) with (Z.of_nat (S fuel)) by lia.
    + destruct fuel; [simpl in Hb; lia|lia].
Qed.

Lemma all_chars_impl (f g : ascii -> bool) s :
  (forall c, f c = true -> g c = true) -> all_chars f s = true -> all_chars g s = true.
Proof. intros Hfg. induction s; simpl; [done|]. intros. breflect. rewrite Hfg, IHs; done. Qed.

(** Rendering an unsigned 64-bit value and parsing the text back returns the
    value: no digit is lost or added, for the whole range. *)
Theorem parse_format_u64 v : is_u64 v -> text.parse_u64 (text.format_u64 v) = Good v.
Proof.
  intros Hv. unfold text.parse_u64.
  assert (all_chars is_digit (text.format_u64 v) = true) as Hd.
  { apply to_chars_fuel_digits; [unfold is_u64 in Hv; lia|done]. }
  rewrite trim_ascii_id.
  2:{ eapply all_chars_impl; [|exact Hd]. intros c Hc. by rewrite is_digit_not_space. }
  assert (text.from_chars_u64 (text.format_u64 v) 0 = Some v) as Hp.
  { unfold text.format_u64. rewrite from_chars_to_chars; [done|..]; unfold is_u64, u64_max in *; lia. }
  destruct (text.format_u64 v) eqn:E; [|by rewrite Hp].
  simpl in Hp. injection Hp as <-. discriminate E.
Qed.
