(* ===== verification/Hash.v ===== *)
(** * Hashes: CRC-32C, FNV-1a and SHA-256

    [core/hash.*].  Bytes are [Z] in [[0, 256)], words are [Z] with 32- or 64-bit
    wrap-around.  The CRC is table driven as in the source; [crc_update_bitwise]
    is the polynomial division it stands for. *)

From Stdlib Require Import ZArith Lia Bool List String Ascii.
From stdpp Require Import base decidable list strings.
From S2P Require Import Prelude OrdMap Float Core.

Open Scope Z_scope.

(** The bytes of a [std::string]. *)
Definition bytes_of_string (s : string) : list Z :=
  map (fun c => Z.of_N (N_of_ascii c)) (list_ascii_of_string s).

(** ** CRC-32C *)

Definition crc_polynomial : Z := 2197175160.

(** One bit of the reflected division. *)
Definition crc_bit (value : Z) : Z :=
  if Z.odd value then Z.lxor (Z.shiftr value 1) crc_polynomial else Z.shiftr value 1.

Definition crc_entry (index : Z) : Z := Nat.iter 8 crc_bit index.

Definition crc_table : list Z := map (fun i => crc_entry (Z.of_nat i)) (seq 0 256).

Definition crc_update (crc byte : Z) : Z :=
  Z.lxor (nth (Z.to_nat (Z.land (Z.lxor crc byte) 255)) crc_table 0) (Z.shiftr crc 8).

Definition crc_not (crc : Z) : Z := Z.lxor crc 4294967295.

Definition crc32c (data : list Z) (seed : Z) : Z :=
  crc_not (fold_left crc_update data (crc_not seed)).

(** The reference: divide bit by bit. *)
Definition crc_update_bitwise (crc byte : Z) : Z := Nat.iter 8 crc_bit (Z.lxor crc byte).
Definition crc32c_bitwise (data : list Z) (seed : Z) : Z :=
  crc_not (fold_left crc_update_bitwise data (crc_not seed)).

(** ** FNV-1a, 64 bits *)

Definition fnv1a64_offset : Z := 14695981039346656037.
Definition fnv1a64_step (hash byte : Z) : Z := wrap64 (Z.lxor hash byte * 1099511628211).
Definition fnv1a64 (data : list Z) (seed : Z) : Z := fold_left fnv1a64_step data seed.

(** ** SHA-256 *)

Definition kSha256Constants : list Z := [
  1116352408; 1899447441; 3049323471; 3921009573; 961987163; 1508970993; 2453635748;
  2870763221; 3624381080; 310598401; 607225278; 1426881987; 1925078388; 2162078206;
  2614888103; 3248222580; 3835390401; 4022224774; 264347078; 604807628; 770255983;
  1249150122; 1555081692; 1996064986; 2554220882; 2821834349; 2952996808; 3210313671;
  3336571891; 3584528711; 113926993; 338241895; 666307205; 773529912; 1294757372;
  1396182291; 1695183700; 1986661051; 2177026350; 2456956037; 2730485921; 2820302411;
  3259730800; 3345764771; 3516065817; 3600352804; 4094571909; 275423344; 430227734;
  506948616; 659060556; 883997877; 958139571; 1322822218; 1537002063; 1747873779;
  1955562222; 2024104815; 2227730452; 2361852424; 2428436474; 2756734187; 3204031479;
  3329325298
].

Definition rotr (value bits : Z) : Z :=
  Z.lor (Z.shiftr value bits) (wrap32 (Z.shiftl value (32 - bits))).

Record Sha256 := mkSha256 {
  sha_state : list Z;
  sha_buffer : list Z;
  sha_total_bytes : Z;
  sha_finalized : bool;
}.

Definition sha_initial_state : list Z :=
  [1779033703; 3144134277; 1013904242; 2773480762; 1359893119; 2600822924; 528734635; 1541459225].

Definition sha_create : Sha256 := mkSha256 sha_initial_state [] 0 false.

(** The first sixteen words of the schedule: big-endian groups of four bytes. *)
Fixpoint sha_load (block : list Z) : list Z :=
  match block with
  | a :: b :: c :: d :: rest =>
      Z.lor (Z.lor (Z.lor (Z.shiftl a 24) (Z.shiftl b 16)) (Z.shiftl c 8)) d :: sha_load rest
  | _ => []
  end.

(** Words 16 to 63, each from the words before it; [words] is kept reversed. *)
Fixpoint sha_expand (n : nat) (words : list Z) : list Z :=
  match n with
  | O => words
  | S n' =>
      let w15 := nth 14 words 0 in
      let w2 := nth 1 words 0 in
      let s0 := Z.lxor (Z.lxor (rotr w15 7) (rotr w15 18)) (Z.shiftr w15 3) in
      let s1 := Z.lxor (Z.lxor (rotr w2 17) (rotr w2 19)) (Z.shiftr w2 10) in
      sha_expand n' (wrap32 (nth 15 words 0 + s0 + nth 6 words 0 + s1) :: words)
  end.

Definition sha_schedule (block : list Z) : list Z := rev (sha_expand 48 (rev (sha_load block))).

Definition sha_round (v : list Z) (kw : Z * Z) : list Z :=
  match v with
  | [a; b; c; d; e; f; g; h] =>
      let s1 := Z.lxor (Z.lxor (rotr e 6) (rotr e 11)) (rotr e 25) in
      let choice := Z.lxor (Z.land e f) (Z.land (Z.lxor e u32_max) g) in
      let temp1 := wrap32 (h + s1 + choice + kw.1 + kw.2) in
      let s0 := Z.lxor (Z.lxor (rotr a 2) (rotr a 13)) (rotr a 22) in
      let majority := Z.lxor (Z.lxor (Z.land a b) (Z.land a c)) (Z.land b c) in
      let temp2 := wrap32 (s0 + majority) in
      [wrap32 (temp1 + temp2); a; b; c; wrap32 (d + temp1); e; f; g]
  | _ => v
  end.

Definition sha_transform (state block : list Z) : list Z :=
  let out := fold_left sha_round (combine kSha256Constants (sha_schedule block)) state in
  map (fun p => wrap32 (p.1 + p.2)) (combine state out).

(** The loop of [update]: copy what fits into the 64-byte buffer, transform it
    when it is full.  Every iteration consumes a byte, so the input length plus
    one is enough fuel. *)
Fixpoint sha_fill (fuel : nat) (s : Sha256) (data : list Z) : Sha256 :=
  match fuel, data with
  | S fuel', _ :: _ =>
      let room := (64 - List.length (sha_buffer s))%nat in
      let take := Nat.min (List.length data) room in
      let buffer := sha_buffer s ++ firstn take data in
      let s' :=
        if zlen buffer =? 64
        then mkSha256 (sha_transform (sha_state s) buffer) [] (sha_total_bytes s) (sha_finalized s)
        else mkSha256 (sha_state s) buffer (sha_total_bytes s) (sha_finalized s) in
      sha_fill fuel' s' (skipn take data)
  | _, _ => s
  end.

Definition sha_update (s : Sha256) (data : list Z) : Sha256 :=
  if sha_finalized s then s
  else sha_fill (S (List.length data))
         (mkSha256 (sha_state s) (sha_buffer s) (wrap64 (sha_total_bytes s + zlen data))
            (sha_finalized s)) data.

(** The reference absorption: byte by byte. *)
Definition sha_absorb (s : Sha256) (byte : Z) : Sha256 :=
  let buffer := sha_buffer s ++ [byte] in
  if zlen buffer =? 64
  then mkSha256 (sha_transform (sha_state s) buffer) [] (sha_total_bytes s) (sha_finalized s)
  else mkSha256 (sha_state s) buffer (sha_total_bytes s) (sha_finalized s).

Fixpoint sha_pad (fuel : nat) (s : Sha256) : Sha256 :=
  match fuel with
  | O => s
  | S fuel' => if zlen (sha_buffer s) =? 56 then s else sha_pad fuel' (sha_update s [0])
  end.

(** [length_bytes], most significant first. *)
Definition be_bytes64 (v : Z) : list Z :=
  map (fun i => Z.land (Z.shiftr v ((7 - Z.of_nat i) * 8)) 255) (seq 0 8).

(** [finish]: 64 single-byte steps reach a buffer of 56 from any buffer length. *)
Definition sha_finish (s : Sha256) : list Z :=
  let final :=
    if sha_finalized s then s
    else
      let bit_length := wrap64 (sha_total_bytes s * 8) in
      sha_update (sha_pad 64 (sha_update s [128])) (be_bytes64 bit_length) in
  flat_map (fun w => [Z.land (Z.shiftr w 24) 255; Z.land (Z.shiftr w 16) 255;
                      Z.land (Z.shiftr w 8) 255; Z.land w 255]) (sha_state final).

Definition sha_digest (data : list Z) : list Z := sha_finish (sha_update sha_create data).
Definition sha_hex (digest : list Z) : string := text.hex_bytes digest.

(** ** The table is the polynomial division *)

Lemma crc_bit_lxor x y : 0 <= x -> 0 <= y -> crc_bit (Z.lxor x y) = Z.lxor (crc_bit x) (crc_bit y).
Proof.
  intros Hx Hy. unfold crc_bit. rewrite <- !Z.bit0_odd, Z.lxor_spec, Z.shiftr_lxor.
  destruct (Z.testbit x 0), (Z.testbit y 0); simpl; try done;
    apply Z.bits_inj'; intros n Hn; rewrite !Z.lxor_spec; by repeat destruct (Z.testbit _ n).
Qed.

Lemma crc_bit_nonneg x : 0 <= x -> 0 <= crc_bit x.
Proof.
  intros H. unfold crc_bit. assert (0 <= Z.shiftr x 1) by (by apply Z.shiftr_nonneg).
  case_match; [|done]. apply Z.lxor_nonneg. unfold crc_polynomial. split; intros; [lia | done].
Qed.

Lemma iter_crc_nonneg n x : 0 <= x -> 0 <= Nat.iter n crc_bit x.
Proof. intros. induction n; simpl; auto using crc_bit_nonneg. Qed.

Lemma iter_crc_lxor n x y :
  0 <= x -> 0 <= y ->
  Nat.iter n crc_bit (Z.lxor x y) = Z.lxor (Nat.iter n crc_bit x) (Nat.iter n crc_bit y).
Proof.
  intros. induction n; simpl; [done|]. rewrite IHn. apply crc_bit_lxor; by apply iter_crc_nonneg.
Qed.

(** Dividing a value whose low bits are clear only shifts it. *)
Lemma iter_crc_shift n x : 0 <= x -> Nat.iter n crc_bit (Z.shiftl x (Z.of_nat n)) = x.
Proof.
  revert x. induction n as [|n IH]; intros x Hx; [apply Z.shiftl_0_r|].
  rewrite Nat.iter_succ. 
  replace (Z.shiftl x (Z.of_nat (S n))) with (Z.shiftl (Z.shiftl x 1) (Z.of_nat n)).
  2:{ rewrite Z.shiftl_shiftl by lia. f_equal. lia. }
  rewrite IH by (by apply Z.shiftl_nonneg).
  unfold crc_bit. rewrite <- Z.bit0_odd, Z.shiftl_spec_low by lia.
  rewrite Z.shiftr_shiftl_l by lia. apply Z.shiftl_0_r.
Qed.

Lemma low_high_split x : 0 <= x -> x = Z.lxor (Z.land x 255) (Z.shiftl (Z.shiftr x 8) 8).
Proof.
  intros. apply Z.bits_inj'. intros n Hn.
  rewrite Z.lxor_spec, Z.land_spec, Z.shiftl_spec by done.
  change 255 with (Z.ones 8). rewrite Z.testbit_ones_nonneg by lia.
  destruct (Z.ltb_spec n 8).
  - rewrite (Z.testbit_neg_r _ (n - 8)) by lia. by rewrite andb_true_r, xorb_false_r.
  - rewrite Z.shiftr_spec by lia. rewrite andb_false_r. simpl. f_equal. lia.
Qed.

Lemma crc_table_nth i : 0 <= i < 256 -> nth (Z.to_nat i) crc_table 0 = crc_entry i.
Proof.
  intros. unfold crc_table.
  rewrite (nth_indep _ 0 (crc_entry 0)) by (rewrite length_map, length_seq; lia).
  change (crc_entry 0) with ((fun j => crc_entry (Z.of_nat j)) 0%nat).
  rewrite map_nth, seq_nth by lia. f_equal. lia.
Qed.

Lemma crc_update_correct crc byte :
  0 <= crc -> 0 <= byte < 256 -> crc_update crc byte = crc_update_bitwise crc byte.
Proof.
  intros Hc Hb. unfold crc_update, crc_update_bitwise.
  assert (0 <= Z.lxor crc byte) as Hx by (apply Z.lxor_nonneg; lia).
  rewrite crc_table_nth.
  2:{ change 255 with (Z.ones 8). rewrite Z.land_ones by lia. apply Z.mod_pos_bound. lia. }
  rewrite (low_high_split (Z.lxor crc byte)) at 2 by done.
  rewrite iter_crc_lxor.
  - f_equal. change 8 with (Z.of_nat 8) at 3. rewrite iter_crc_shift.
    + rewrite Z.shiftr_lxor. rewrite (Z.shiftr_eq_0 byte 8), Z.lxor_0_r; [done|lia|].
      destruct (Z.eq_dec byte 0) as [->|]; [simpl; lia|]. apply Z.log2_lt_pow2; lia.
    + by apply Z.shiftr_nonneg.
  - by apply Z.land_nonneg; left.
  - by apply Z.shiftl_nonneg, Z.shiftr_nonneg.
Qed.

Lemma crc_update_nonneg crc byte : 0 <= crc -> 0 <= byte < 256 -> 0 <= crc_update crc byte.
Proof.
  intros. rewrite crc_update_correct by done. apply iter_crc_nonneg, Z.lxor_nonneg. lia.
Qed.

Definition is_byte (b : Z) : Prop := 0 <= b < 256.

Lemma crc_not_not x : crc_not (crc_not x) = x.
Proof. unfold crc_not. by rewrite Z.lxor_assoc, Z.lxor_nilpotent, Z.lxor_0_r. Qed.

Lemma crc_not_nonneg x : 0 <= x -> 0 <= crc_not x.
Proof. intros. unfold crc_not. apply Z.lxor_nonneg. lia. Qed.

(** ** Chunked absorption *)

(** Absorbing fewer bytes than fit only extends the buffer. *)
Lemma sha_absorb_short data st bf t fin :
  zlen bf + zlen data < 64 ->
  fold_left sha_absorb data (mkSha256 st bf t fin) = mkSha256 st (bf ++ data) t fin.
Proof.
  revert bf. induction data as [|b data IH]; intros bf Hl; simpl; [by rewrite app_nil_r|].
  autorewrite with lqf_simp in Hl. pose proof (zlen_nonneg data).
  unfold sha_absorb at 2. simpl. autorewrite with lqf_simp.
  destruct (Z.eqb_spec (zlen bf + (zlen (@nil Z) + 1)) 64) as [E|E]; [unfold zlen in *; simpl in E; lia|].
  rewrite IH; [by rewrite <- app_assoc|]. autorewrite with lqf_simp. unfold zlen at 2. simpl. lia.
Qed.

Lemma sha_absorb_full data st bf t fin :
  zlen bf < 64 -> zlen bf + zlen data = 64 ->
  fold_left sha_absorb data (mkSha256 st bf t fin) = mkSha256 (sha_transform st (bf ++ data)) [] t fin.
Proof.
  intros Hb Hl. destruct (exists_last (l := data)) as (d & b & ->).
  { intros ->. unfold zlen in *. simpl in *. lia. }
  autorewrite with lqf_simp in Hl. rewrite fold_left_app.
  rewrite sha_absorb_short by (unfold zlen in *; simpl in *; lia). simpl.
  unfold sha_absorb. simpl. rewrite <- app_assoc. autorewrite with lqf_simp.
  destruct (Z.eqb_spec (zlen bf + (zlen d + (zlen (@nil Z) + 1))) 64); [done|lia].
Qed.

Lemma sha_fill_absorb fuel s data :
  (List.length data < fuel)%nat -> zlen (sha_buffer s) < 64 ->
  sha_fill fuel s data = fold_left sha_absorb data s /\
  zlen (sha_buffer (sha_fill fuel s data)) < 64 /\
  sha_total_bytes (sha_fill fuel s data) = sha_total_bytes s /\
  sha_finalized (sha_fill fuel s data) = sha_finalized s.
Proof.
  revert s data. induction fuel as [|fuel IH]; intros [st bf t fin] data Hf Hb; [lia|].
  destruct data as [|b data]; [done|]. cbn [sha_fill sha_buffer sha_state sha_total_bytes sha_finalized].
  simpl sha_buffer in Hb.
  set (take := Nat.min _ _). assert (1 <= take <= List.length (b :: data))%nat as Ht.
  { unfold take, zlen in *. cbn [List.length sha_buffer] in *. lia. }
  set (chunk := firstn take (b :: data)).
  assert (List.length chunk = take) as Hc by (unfold chunk; rewrite length_firstn; lia).
  assert (fold_left sha_absorb (b :: data) (mkSha256 st bf t fin)
          = fold_left sha_absorb (skipn take (b :: data)) (fold_left sha_absorb chunk (mkSha256 st bf t fin))) as ->.
  { rewrite <- fold_left_app. unfold chunk. by rewrite firstn_skipn. }
  assert (List.length (skipn take (b :: data)) < fuel)%nat as Hfu.
  { rewrite length_skipn. simpl in *. lia. }
  destruct (zlen (bf ++ chunk) =? 64) eqn:E; breflect; autorewrite with lqf_simp in E.
  - rewrite (sha_absorb_full chunk) by done. destruct (IH (mkSha256 (sha_transform st (bf ++ chunk)) [] t fin)
      (skipn take (b :: data)) Hfu) as (-> & H1 & H2 & H3); [unfold zlen; simpl; lia|]. done.
  - assert (zlen bf + zlen chunk < 64) as Hlt.
    { unfold zlen in *. rewrite Hc in *. unfold take in *. lia. }
    rewrite (sha_absorb_short chunk) by done.
    destruct (IH (mkSha256 st (bf ++ chunk) t fin) (skipn take (b :: data)) Hfu) as (-> & H1 & H2 & H3).
    { simpl. by autorewrite with lqf_simp. }
    done.
Qed.

Lemma sha_absorb_total data st bf t1 t2 fin :
  fold_left sha_absorb data (mkSha256 st bf t1 fin) =
  let r := fold_left sha_absorb data (mkSha256 st bf t2 fin) in
  mkSha256 (sha_state r) (sha_buffer r) t1 fin.
Proof.
  revert st bf. induction data as [|b data IH]; intros st bf; simpl; [done|].
  unfold sha_absorb at 2 4 6. simpl. case_match; apply IH.
Qed.

Lemma wrap64_add a b c : wrap64 (wrap64 (a + b) + c) = wrap64 (a + (b + c)).
Proof. unfold wrap64. rewrite Z.add_mod_idemp_l by lia. f_equal. lia. Qed.

(** ** Theorems *)

(** C32: The table-driven CRC of the journal and of the wire frames is the
    bit-by-bit reflected division by the Castagnoli polynomial, for every input
    and seed. *)
Theorem crc32c_is_polynomial_division data seed :
  Forall is_byte data -> 0 <= seed -> crc32c data seed = crc32c_bitwise data seed.
Proof.
  intros Hd Hs. unfold crc32c, crc32c_bitwise. f_equal.
  generalize (crc_not_nonneg seed Hs). generalize (crc_not seed).
  induction Hd as [|b data Hb Hd IH]; intros crc Hc; simpl; [done|].
  rewrite <- crc_update_correct by done. apply IH. by apply crc_update_nonneg.
Qed.

Lemma crc32c_is_polynomial_division_witness :
  crc32c_bitwise (bytes_of_string "123456789") 0 = 3808858755.
Proof.
  rewrite <- (crc32c_is_polynomial_division (bytes_of_string "123456789") 0);
    [vm_compute; reflexivity| |lia].
  vm_compute. repeat constructor; discriminate.
Defined.

(** Hashing is independent of how the message is split into [update] calls:
    feeding a message in two pieces leaves the hasher in the state that feeding
    it at once does, so a digest depends on the bytes only. *)
Theorem sha_update_streaming s a b :
  zlen (sha_buffer s) < 64 -> sha_update (sha_update s a) b = sha_update s (a ++ b).
Proof.
  intros Hb. unfold sha_update. destruct (sha_finalized s) eqn:Ef; [by rewrite Ef|].
  set (s1 := mkSha256 _ _ _ _).
  destruct (sha_fill_absorb (S (List.length a)) s1 a ltac:(lia) Hb) as (E1 & B1 & T1 & F1).
  rewrite F1. change (sha_finalized s1) with false. cbv iota.
  rewrite T1. change (sha_total_bytes s1) with (wrap64 (sha_total_bytes s + zlen a)).
  rewrite wrap64_add. autorewrite with lqf_simp.
  set (s2 := mkSha256 (sha_state (sha_fill _ _ _)) _ _ _).
  destruct (sha_fill_absorb (S (List.length b)) s2 b ltac:(lia) B1) as (-> & _).
  set (s3 := mkSha256 (sha_state s) _ _ _).
  destruct (sha_fill_absorb (S (List.length (a ++ b))) s3 (a ++ b) ltac:(lia) Hb) as (-> & _).
  rewrite fold_left_app. f_equal. unfold s2, s3. rewrite E1. unfold s1.
  rewrite (sha_absorb_total a _ _ (wrap64 (sha_total_bytes s + (zlen a + zlen b)))
    (wrap64 (sha_total_bytes s + zlen a))). done.
Qed.

Lemma sha_update_streaming_witness :
  sha_hex (sha_finish (sha_update (sha_update sha_create (bytes_of_string "a")) (bytes_of_string "bc")))
  = "ba7816bf8f01cfea414140de5dae2223b00361a396177a9cb410ff61f20015ad"%string.
Proof.
  rewrite (sha_update_streaming sha_create (bytes_of_string "a") (bytes_of_string "bc"));
    [vm_compute; reflexivity|]. vm_compute. reflexivity.
Defined.
