(* ===== verification/Quality.v ===== *)
(** * Quality states, confidence, reasons and severity

    [domain/quality.hpp] and [domain/quality.cpp]: the nine states a conclusion
    can have, the machine readable reasons, and the severity table a policy
    publishes to roll states up. *)

From Stdlib Require Import ZArith Lia Bool List String.
From stdpp Require Import base decidable list strings.
From S2P Require Import Prelude OrdMap Core.

Open Scope Z_scope.

Module QualityState.
Inductive t :=
  | Unknown | Unsupported | Healthy | Incomplete | Stale | Marginal | Degraded | Severe
  | Conflicting.
End QualityState.

#[export] Instance QualityState_enum : Enum QualityState.t.
Proof.
  refine {| enum_val := fun x => match x with
      | QualityState.Unknown => 0 | QualityState.Unsupported => 1 | QualityState.Healthy => 2
      | QualityState.Incomplete => 3 | QualityState.Stale => 4 | QualityState.Marginal => 5
      | QualityState.Degraded => 6 | QualityState.Severe => 7 | QualityState.Conflicting => 8 end;
    enum_all := [QualityState.Unknown; QualityState.Unsupported; QualityState.Healthy; 
      QualityState.Incomplete; QualityState.Stale; QualityState.Marginal; 
      QualityState.Degraded; QualityState.Severe; QualityState.Conflicting] |}; solve_enum.
Defined.
#[export] Instance QualityState_Cmp : Cmp QualityState.t := enum_cmp.

Definition kQualityStateCount : Z := 9.

Definition kStateNames : list (QualityState.t * (string * string)) := [
  (QualityState.Unknown, ("unknown", "no evidence has ever been seen for this identity, or no rule classifies the value"));
  (QualityState.Unsupported, ("unsupported", "the metric family is not measured here; no value is synthesized"));
  (QualityState.Healthy, ("healthy", "fresh evidence is inside every healthy band"));
  (QualityState.Incomplete, ("incomplete", "evidence exists but cannot support a conclusion, for example broken counter continuity"));
  (QualityState.Stale, ("stale", "evidence exists but nothing fresh enough to assert a state"));
  (QualityState.Marginal, ("marginal", "fresh evidence is in a marginal band"));
  (QualityState.Degraded, ("degraded", "fresh evidence is in a degraded band"));
  (QualityState.Severe, ("severe", "fresh evidence is in a severe band"));
  (QualityState.Conflicting, ("conflicting", "equal-authority sources disagree beyond the declared tolerance"))
]%string.

(** The first entry of a name table whose key is the given one. *)
Definition table_find {A B} `{Cmp A} (key : A) (table : list (A * B)) : option B :=
  option_map snd (find_first (fun e => eqb e.1 key) table).

Definition state_to_string (state : QualityState.t) : string :=
  match table_find state kStateNames with Some e => e.1 | None => "invalid" end.

Definition state_describe (state : QualityState.t) : string :=
  match table_find state kStateNames with Some e => e.2 | None => "unknown state" end.

(** A [parse_*] over a name table: trimmed, lower case, first match. *)
Definition table_parse {A} (names : list (A * string)) (text_value : string) : Outcome A :=
  let lowered := text.to_lower_ascii (text.trim_ascii text_value) in
  match find_first (fun e => String.eqb lowered e.2) names with
  | Some e => Good e.1
  | None => Bad StatusCode.Invalid
  end.

Definition parse_quality_state (text_value : string) : Outcome QualityState.t :=
  table_parse (map (fun e => (e.1, e.2.1)) kStateNames) text_value.

Module ConfidenceLevel.
Inductive t :=
  | None | Low | Medium | High.
End ConfidenceLevel.

#[export] Instance ConfidenceLevel_enum : Enum ConfidenceLevel.t.
Proof.
  refine {| enum_val := fun x => match x with
      | ConfidenceLevel.None => 0 | ConfidenceLevel.Low => 1 | ConfidenceLevel.Medium => 2
      | ConfidenceLevel.High => 3 end;
    enum_all := [ConfidenceLevel.None; ConfidenceLevel.Low; ConfidenceLevel.Medium; 
      ConfidenceLevel.High] |}; solve_enum.
Defined.
#[export] Instance ConfidenceLevel_Cmp : Cmp ConfidenceLevel.t := enum_cmp.

Definition confidence_to_string (level : ConfidenceLevel.t) : string :=
  match level with
  | ConfidenceLevel.None => "none"
  | ConfidenceLevel.Low => "low"
  | ConfidenceLevel.Medium => "medium"
  | ConfidenceLevel.High => "high"
  end.

Definition parse_confidence (text_value : string) : Outcome ConfidenceLevel.t :=
  let lowered := text.to_lower_ascii (text.trim_ascii text_value) in
  if String.eqb lowered "none" then Good ConfidenceLevel.None
  else if String.eqb lowered "low" then Good ConfidenceLevel.Low
  else if String.eqb lowered "medium" then Good ConfidenceLevel.Medium
  else if String.eqb lowered "high" then Good ConfidenceLevel.High
  else Bad StatusCode.Invalid.

Module ReasonCode.
Inductive t :=
  | None | LinkNotRegistered | NoSourcesForLink | MetricNotDeclared | DeclaredUnsupported
  | LaneNotDeclared | LaneOutOfRange | NoEvidence | NoRuleForMetric | UnknownMetric
  | EvidenceExpired | RecoveredEvidenceOnly | NoFreshEvidence | PartiallyFreshEvidence
  | CounterBaselineOnly | CounterReset | CounterWrapInferred | CounterDecreaseAmbiguous
  | CounterWidthChanged | CounterSourceReincarnated | CounterLinkGenerationChanged
  | CounterOutOfRange | ContinuityGapExceeded | MissingSamples | RateIntervalTooShort
  | CounterSequenceRegressed | EqualAuthorityDisagreement | LowerAuthorityIgnored
  | MissingLanes | LaneCoveragePartial | BandMatched | PolicyDefaultApplied
  | NonFiniteSample | UnitMismatch | SemanticsMismatch | NegativeValue
  | CounterWidthMissing | EvidenceIdMismatch | EvidenceTooLarge | CapabilityMissing
  | CapabilityScopeMismatch | IngestLimitReached | QueueFull | RecoveredFromPersistence
  | PersistenceDegraded | FencedGeneration | FencedIncarnation | Count.
End ReasonCode.

#[export] Instance ReasonCode_enum : Enum ReasonCode.t.
Proof.
  refine {| enum_val := fun x => match x with
      | ReasonCode.None => 0 | ReasonCode.LinkNotRegistered => 1
      | ReasonCode.NoSourcesForLink => 2 | ReasonCode.MetricNotDeclared => 3
      | ReasonCode.DeclaredUnsupported => 4 | ReasonCode.LaneNotDeclared => 5
      | ReasonCode.LaneOutOfRange => 6 | ReasonCode.NoEvidence => 7
      | ReasonCode.NoRuleForMetric => 8 | ReasonCode.UnknownMetric => 9
      | ReasonCode.EvidenceExpired => 10 | ReasonCode.RecoveredEvidenceOnly => 11
      | ReasonCode.NoFreshEvidence => 12 | ReasonCode.PartiallyFreshEvidence => 13
      | ReasonCode.CounterBaselineOnly => 14 | ReasonCode.CounterReset => 15
      | ReasonCode.CounterWrapInferred => 16 | ReasonCode.CounterDecreaseAmbiguous => 17
      | ReasonCode.CounterWidthChanged => 18 | ReasonCode.CounterSourceReincarnated => 19
      | ReasonCode.CounterLinkGenerationChanged => 20 | ReasonCode.CounterOutOfRange => 21
      | ReasonCode.ContinuityGapExceeded => 22 | ReasonCode.MissingSamples => 23
      | ReasonCode.RateIntervalTooShort => 24 | ReasonCode.CounterSequenceRegressed => 25
      | ReasonCode.EqualAuthorityDisagreement => 26 | ReasonCode.LowerAuthorityIgnored => 27
      | ReasonCode.MissingLanes => 28 | ReasonCode.LaneCoveragePartial => 29
      | ReasonCode.BandMatched => 30 | ReasonCode.PolicyDefaultApplied => 31
      | ReasonCode.NonFiniteSample => 32 | ReasonCode.UnitMismatch => 33
      | ReasonCode.SemanticsMismatch => 34 | ReasonCode.NegativeValue => 35
      | ReasonCode.CounterWidthMissing => 36 | ReasonCode.EvidenceIdMismatch => 37
      | ReasonCode.EvidenceTooLarge => 38 | ReasonCode.CapabilityMissing => 39
      | ReasonCode.CapabilityScopeMismatch => 40 | ReasonCode.IngestLimitReached => 41
      | ReasonCode.QueueFull => 42 | ReasonCode.RecoveredFromPersistence => 43
      | ReasonCode.PersistenceDegraded => 44 | ReasonCode.FencedGeneration => 45
      | ReasonCode.FencedIncarnation => 46 | ReasonCode.Count => 47 end;
    enum_all := [ReasonCode.None; ReasonCode.LinkNotRegistered; ReasonCode.NoSourcesForLink; 
      ReasonCode.MetricNotDeclared; ReasonCode.DeclaredUnsupported; ReasonCode.LaneNotDeclared; 
      ReasonCode.LaneOutOfRange; ReasonCode.NoEvidence; ReasonCode.NoRuleForMetric; 
      ReasonCode.UnknownMetric; ReasonCode.EvidenceExpired; ReasonCode.RecoveredEvidenceOnly; 
      ReasonCode.NoFreshEvidence; ReasonCode.PartiallyFreshEvidence; 
      ReasonCode.CounterBaselineOnly; ReasonCode.CounterReset; ReasonCode.CounterWrapInferred; 
      ReasonCode.CounterDecreaseAmbiguous; ReasonCode.CounterWidthChanged; 
      ReasonCode.CounterSourceReincarnated; ReasonCode.CounterLinkGenerationChanged; 
      ReasonCode.CounterOutOfRange; ReasonCode.ContinuityGapExceeded; 
      ReasonCode.MissingSamples; ReasonCode.RateIntervalTooShort; 
      ReasonCode.CounterSequenceRegressed; ReasonCode.EqualAuthorityDisagreement; 
      ReasonCode.LowerAuthorityIgnored; ReasonCode.MissingLanes; 
      ReasonCode.LaneCoveragePartial; ReasonCode.BandMatched; ReasonCode.PolicyDefaultApplied; 
      ReasonCode.NonFiniteSample; ReasonCode.UnitMismatch; ReasonCode.SemanticsMismatch; 
      ReasonCode.NegativeValue; ReasonCode.CounterWidthMissing; ReasonCode.EvidenceIdMismatch; 
      ReasonCode.EvidenceTooLarge; ReasonCode.CapabilityMissing; 
      ReasonCode.CapabilityScopeMismatch; ReasonCode.IngestLimitReached; ReasonCode.QueueFull; 
      ReasonCode.RecoveredFromPersistence; ReasonCode.PersistenceDegraded; 
      ReasonCode.FencedGeneration; ReasonCode.FencedIncarnation; 
      ReasonCode.Count] |}; solve_enum.
Defined.
#[export] Instance ReasonCode_Cmp : Cmp ReasonCode.t := enum_cmp.

Definition kReasonNames : list (ReasonCode.t * string) := [
  (ReasonCode.None, "none");
  (ReasonCode.LinkNotRegistered, "link-not-registered");
  (ReasonCode.NoSourcesForLink, "no-sources-for-link");
  (ReasonCode.MetricNotDeclared, "metric-not-declared");
  (ReasonCode.DeclaredUnsupported, "declared-unsupported");
  (ReasonCode.LaneNotDeclared, "lane-not-declared");
  (ReasonCode.LaneOutOfRange, "lane-out-of-range");
  (ReasonCode.NoEvidence, "no-evidence");
  (ReasonCode.NoRuleForMetric, "no-rule-for-metric");
  (ReasonCode.UnknownMetric, "unknown-metric");
  (ReasonCode.EvidenceExpired, "evidence-expired");
  (ReasonCode.RecoveredEvidenceOnly, "recovered-evidence-only");
  (ReasonCode.NoFreshEvidence, "no-fresh-evidence");
  (ReasonCode.PartiallyFreshEvidence, "partially-fresh-evidence");
  (ReasonCode.CounterBaselineOnly, "counter-baseline-only");
  (ReasonCode.CounterReset, "counter-reset");
  (ReasonCode.CounterWrapInferred, "counter-wrap-inferred");
  (ReasonCode.CounterDecreaseAmbiguous, "counter-decrease-ambiguous");
  (ReasonCode.CounterWidthChanged, "counter-width-changed");
  (ReasonCode.CounterSourceReincarnated, "counter-source-reincarnated");
  (ReasonCode.CounterLinkGenerationChanged, "counter-link-generation-changed");
  (ReasonCode.CounterOutOfRange, "counter-out-of-range");
  (ReasonCode.ContinuityGapExceeded, "continuity-gap-exceeded");
  (ReasonCode.MissingSamples, "missing-samples");
  (ReasonCode.RateIntervalTooShort, "rate-interval-too-short");
  (ReasonCode.CounterSequenceRegressed, "counter-sequence-regressed");
  (ReasonCode.EqualAuthorityDisagreement, "equal-authority-disagreement");
  (ReasonCode.LowerAuthorityIgnored, "lower-authority-ignored");
  (ReasonCode.MissingLanes, "missing-lanes");
  (ReasonCode.LaneCoveragePartial, "lane-coverage-partial");
  (ReasonCode.BandMatched, "band-matched");
  (ReasonCode.PolicyDefaultApplied, "policy-default-applied");
  (ReasonCode.NonFiniteSample, "non-finite-sample");
  (ReasonCode.UnitMismatch, "unit-mismatch");
  (ReasonCode.SemanticsMismatch, "semantics-mismatch");
  (ReasonCode.NegativeValue, "negative-value");
  (ReasonCode.CounterWidthMissing, "counter-width-missing");
  (ReasonCode.EvidenceIdMismatch, "evidence-id-mismatch");
  (ReasonCode.EvidenceTooLarge, "evidence-too-large");
  (ReasonCode.CapabilityMissing, "capability-missing");
  (ReasonCode.CapabilityScopeMismatch, "capability-scope-mismatch");
  (ReasonCode.IngestLimitReached, "ingest-limit-reached");
  (ReasonCode.QueueFull, "queue-full");
  (ReasonCode.RecoveredFromPersistence, "recovered-from-persistence");
  (ReasonCode.PersistenceDegraded, "persistence-degraded");
  (ReasonCode.FencedGeneration, "fenced-generation");
  (ReasonCode.FencedIncarnation, "fenced-incarnation")
]%string.

Definition reason_to_string (code : ReasonCode.t) : string :=
  match table_find code kReasonNames with Some n => n | None => "invalid" end.

Definition parse_reason_code (text_value : string) : Outcome ReasonCode.t :=
  table_parse kReasonNames text_value.

(** ** Reason lists *)

Abbreviation ReasonList := (list ReasonCode.t).

Definition has_reason (reasons : ReasonList) (code : ReasonCode.t) : bool :=
  existsb (eqb code) reasons.

Definition add_reason (reasons : ReasonList) (code : ReasonCode.t) : ReasonList :=
  if eqb code ReasonCode.None then reasons
  else if has_reason reasons code then reasons else reasons ++ [code].

Definition add_reasons (reasons codes : ReasonList) : ReasonList :=
  fold_left add_reason codes reasons.

Fixpoint join_reasons (reasons : ReasonList) : string :=
  match reasons with
  | [] => ""
  | [r] => reason_to_string r
  | r :: rs => reason_to_string r +:+ "," +:+ join_reasons rs
  end.

Definition render_reasons (reasons : ReasonList) : string :=
  match join_reasons reasons with EmptyString => "none" | s => s end.

Lemma has_reason_In reasons code : has_reason reasons code = true <-> In code reasons.
Proof.
  unfold has_reason. rewrite existsb_exists. split.
  - intros (x & Hx & E). apply eqb_true in E as <-. exact Hx.
  - intros H. exists code. split; [exact H|apply eqb_refl].
Qed.

Lemma add_reason_In reasons code r :
  In r (add_reason reasons code) <-> In r reasons \/ (r = code /\ code <> ReasonCode.None).
Proof.
  unfold add_reason. destruct (eqb code ReasonCode.None) eqn:E.
  { apply eqb_true in E. intuition congruence. }
  apply eqb_false in E. destruct (has_reason reasons code) eqn:Hr.
  - apply has_reason_In in Hr. split; [auto|]. intros [? | [-> _]]; auto.
  - rewrite in_app_iff. simpl. intuition congruence.
Qed.

(** A reason list never repeats a reason and never holds [None]. *)
Definition reasons_wf (reasons : ReasonList) : Prop :=
  List.NoDup reasons /\ ~ In ReasonCode.None reasons.

Lemma add_reason_wf reasons code : reasons_wf reasons -> reasons_wf (add_reason reasons code).
Proof.
  intros [Hd Hn]. unfold reasons_wf. rewrite add_reason_In. split; [|intuition congruence].
  unfold add_reason. destruct (eqb code ReasonCode.None); [done|].
  destruct (has_reason reasons code) eqn:Hr; [done|].
  apply NoDup_ListNoDup. apply NoDup_app. repeat split.
  - by apply NoDup_ListNoDup.
  - intros x Hx Hin. apply list_elem_of_singleton in Hin as ->.
    apply list_elem_of_In, has_reason_In in Hx. congruence.
  - apply NoDup_singleton.
Qed.

Lemma add_reasons_wf codes reasons : reasons_wf reasons -> reasons_wf (add_reasons reasons codes).
Proof. revert reasons. induction codes; simpl; auto using add_reason_wf. Qed.

Lemma add_reasons_In codes reasons r :
  In r (add_reasons reasons codes) <-> In r reasons \/ (In r codes /\ r <> ReasonCode.None).
Proof.
  revert reasons. induction codes as [|c codes IH]; simpl; intros reasons; [intuition|].
  unfold add_reasons in *. rewrite IH, add_reason_In. intuition (subst; auto).
Qed.

Lemma reasons_wf_nil : reasons_wf [].
Proof. split; [constructor|auto]. Qed.

#[export] Hint Resolve add_reason_wf add_reasons_wf reasons_wf_nil : lqf.

(** ** Severity *)

(** [rank]: one [u8] per state, indexed by the state's value. *)
Record SeverityTable := mkSeverityTable { st_rank : list Z }.

Definition severity_of (table : SeverityTable) (state : QualityState.t) : Z :=
  nth (Z.to_nat (enum_val state)) (st_rank table) 0.

Definition severity_defaults : SeverityTable := mkSeverityTable [0; 1; 2; 3; 4; 5; 6; 7; 8].

(** The loop of [is_total_order]: [seen] marks the ranks met so far. *)
Fixpoint ranks_distinct (seen ranks : list Z) : bool :=
  match ranks with
  | [] => true
  | value :: ranks' =>
      if (kQualityStateCount <=? value) || existsb (Z.eqb value) seen then false
      else ranks_distinct (value :: seen) ranks'
  end.

Definition is_total_order (table : SeverityTable) : bool := ranks_distinct [] (st_rank table).

Definition severity_worst (table : SeverityTable) (lhs rhs : QualityState.t) : QualityState.t :=
  if severity_of table rhs <=? severity_of table lhs then lhs else rhs.

(** The array has one rank per state, each a [u8]. *)
Definition severity_wf (table : SeverityTable) : Prop :=
  List.length (st_rank table) = 9%nat /\ Forall is_u8 (st_rank table).

Lemma existsb_eqb_In v l : existsb (Z.eqb v) l = true <-> In v l.
Proof.
  rewrite existsb_exists. split.
  - intros (x & Hx & E). apply Z.eqb_eq in E. by subst.
  - intros. exists v. by rewrite Z.eqb_refl.
Qed.

Lemma ranks_distinct_spec seen ranks :
  ranks_distinct seen ranks = true <->
  Forall (fun v => v < kQualityStateCount) ranks /\ List.NoDup ranks /\ (forall v, In v ranks -> ~ In v seen).
Proof.
  revert seen. induction ranks as [|v ranks IH]; intros seen; simpl.
  { split; [|done]. intros _. repeat split; auto using Forall_nil_2. constructor. }
  rewrite Forall_cons, NoDup_cons_iff.
  destruct (kQualityStateCount <=? v) eqn:E1; simpl; breflect; [intuition (try congruence; lia)|].
  destruct (existsb (Z.eqb v) seen) eqn:E2.
  { apply existsb_eqb_In in E2. split; [done|]. intros (_ & _ & H). exfalso. eapply H; eauto. }
  assert (~ In v seen) as Hv. { rewrite <- existsb_eqb_In. congruence. }
  rewrite IH. simpl. split.
  - intros (Hf & Hn & Hs). repeat split; auto.
    + intros Hin. apply (Hs v); auto.
    + intros w [<- | Hin]; [done|]. intros Hw. apply (Hs w); auto.
  - intros ([_ Hf] & [Hni Hn] & Hs). repeat split; auto.
    intros w Hin [-> | Hw]; [done|]. apply (Hs w); auto.
Qed.

(** A table the validator accepts ranks different states differently: the
    roll-up has one worst state. *)
Lemma total_order_injective table s1 s2 :
  severity_wf table -> is_total_order table = true ->
  severity_of table s1 = severity_of table s2 -> s1 = s2.
Proof.
  intros [Hl _] Ht E. apply ranks_distinct_spec in Ht as (_ & Hn & _).
  apply enum_val_inj. unfold severity_of in E.
  rewrite (NoDup_nth _ 0) in Hn.
  assert (forall s : QualityState.t, (Z.to_nat (enum_val s) < List.length (st_rank table))%nat) as Hb.
  { intros s. rewrite Hl. destruct s; simpl; lia. }
  pose proof (Hn _ _ (Hb s1) (Hb s2) E).
  assert (forall s : QualityState.t, 0 <= enum_val s) as Hp by (intros []; simpl; lia).
  pose proof (Hp s1). pose proof (Hp s2). lia.
Qed.

(** ** Roll-up: the worst of a sequence *)

Definition worst_of (table : SeverityTable) (s : QualityState.t) (l : list QualityState.t)
  : QualityState.t := fold_left (severity_worst table) l s.

Lemma severity_worst_In table a b : severity_worst table a b = a \/ severity_worst table a b = b.
Proof. unfold severity_worst. case_match; auto. Qed.

Lemma severity_worst_ge table a b :
  severity_of table a <= severity_of table (severity_worst table a b) /\
  severity_of table b <= severity_of table (severity_worst table a b).
Proof. unfold severity_worst. case_match; breflect; lia. Qed.

Lemma worst_of_In table s l : In (worst_of table s l) (s :: l).
Proof.
  unfold worst_of. revert s. induction l as [|x l IH]; intros s; simpl; [auto|].
  specialize (IH (severity_worst table s x)). simpl in IH.
  destruct (severity_worst_In table s x) as [E|E]; rewrite E in *; tauto.
Qed.

Lemma worst_of_ge table s l t :
  In t (s :: l) -> severity_of table t <= severity_of table (worst_of table s l).
Proof.
  unfold worst_of. revert s t. induction l as [|x l IH]; intros s t; simpl.
  { intros [-> | []]. lia. }
  intros Hin. pose proof (severity_worst_ge table s x) as [H1 H2].
  pose proof (IH (severity_worst table s x) (severity_worst table s x) ltac:(simpl; auto)) as H3.
  destruct Hin as [<- | [<- | Hin]]; [lia|lia|].
  apply IH. simpl. auto.
Qed.

(** The roll-up does not depend on the order the metrics are visited in. *)
Lemma worst_of_perm table s1 l1 s2 l2 :
  severity_wf table -> is_total_order table = true ->
  Permutation (s1 :: l1) (s2 :: l2) -> worst_of table s1 l1 = worst_of table s2 l2.
Proof.
  intros Hw Ht Hp. apply (total_order_injective table); auto.
  apply Z.le_antisymm; apply worst_of_ge.
  - eapply Permutation_in; [exact Hp|apply worst_of_In].
  - eapply Permutation_in; [symmetry; exact Hp|apply worst_of_In].
Qed.
