(* ===== verification/Metric.v ===== *)
(** * Units, metric identities and the metric catalog

    [domain/units.*] and [domain/metric.*]: the unit table, the grammar of a
    metric identity, counter widths, and the catalog every declaration, rule and
    observation is checked against. *)

From Stdlib Require Import ZArith Lia Bool List String Ascii.
From stdpp Require Import base decidable list strings.
From S2P Require Import Prelude OrdMap Core Quality.

Open Scope Z_scope.

(** ** Units *)

Module Unit.
Inductive t :=
  | None | DecibelMilliwatt | Decibel | MilliVolt | MilliAmp | MicroAmpere | PicoSecond
  | NanoSecond | MilliSecond | Second | Count | PartsPerMillion | Percent | Ratio
  | BitsPerSecond | Bytes | MilliDegreeCelsius.
End Unit.

#[export] Instance Unit_enum : Enum Unit.t.
Proof.
  refine {| enum_val := fun x => match x with
      | Unit.None => 0 | Unit.DecibelMilliwatt => 1 | Unit.Decibel => 2 | Unit.MilliVolt => 3
      | Unit.MilliAmp => 4 | Unit.MicroAmpere => 5 | Unit.PicoSecond => 6 | Unit.NanoSecond => 7
      | Unit.MilliSecond => 8 | Unit.Second => 9 | Unit.Count => 10 | Unit.PartsPerMillion => 11
      | Unit.Percent => 12 | Unit.Ratio => 13 | Unit.BitsPerSecond => 14 | Unit.Bytes => 15
      | Unit.MilliDegreeCelsius => 16 end;
    enum_all := [Unit.None; Unit.DecibelMilliwatt; Unit.Decibel; Unit.MilliVolt; Unit.MilliAmp; 
      Unit.MicroAmpere; Unit.PicoSecond; Unit.NanoSecond; Unit.MilliSecond; Unit.Second; 
      Unit.Count; Unit.PartsPerMillion; Unit.Percent; Unit.Ratio; Unit.BitsPerSecond; 
      Unit.Bytes; Unit.MilliDegreeCelsius] |}; solve_enum.
Defined.
#[export] Instance Unit_Cmp : Cmp Unit.t := enum_cmp.

Module UnitClass.
Inductive t :=
  | Dimensionless | Power | Ratio | Time | Count | Rate | Temperature | Current.
End UnitClass.

#[export] Instance UnitClass_enum : Enum UnitClass.t.
Proof.
  refine {| enum_val := fun x => match x with
      | UnitClass.Dimensionless => 0 | UnitClass.Power => 1 | UnitClass.Ratio => 2
      | UnitClass.Time => 3 | UnitClass.Count => 4 | UnitClass.Rate => 5
      | UnitClass.Temperature => 6 | UnitClass.Current => 7 end;
    enum_all := [UnitClass.Dimensionless; UnitClass.Power; UnitClass.Ratio; UnitClass.Time; 
      UnitClass.Count; UnitClass.Rate; UnitClass.Temperature; UnitClass.Current] |}; solve_enum.
Defined.
#[export] Instance UnitClass_Cmp : Cmp UnitClass.t := enum_cmp.

Record UnitInfo := mkUnitInfo {
  ui_unit : Unit.t; ui_class : UnitClass.t; ui_name : string; ui_description : string }.

Definition kUnits : list UnitInfo := [
  mkUnitInfo Unit.None UnitClass.Dimensionless "none" "no unit declared";
  mkUnitInfo Unit.DecibelMilliwatt UnitClass.Power "dBm" "power relative to one milliwatt";
  mkUnitInfo Unit.Decibel UnitClass.Ratio "dB" "logarithmic ratio";
  mkUnitInfo Unit.MilliVolt UnitClass.Power "mV" "electrical level";
  mkUnitInfo Unit.MilliAmp UnitClass.Current "mA" "current";
  mkUnitInfo Unit.MicroAmpere UnitClass.Current "uA" "current";
  mkUnitInfo Unit.PicoSecond UnitClass.Time "ps" "time";
  mkUnitInfo Unit.NanoSecond UnitClass.Time "ns" "time";
  mkUnitInfo Unit.MilliSecond UnitClass.Time "ms" "time";
  mkUnitInfo Unit.Second UnitClass.Time "s" "time";
  mkUnitInfo Unit.Count UnitClass.Count "count" "dimensionless event count";
  mkUnitInfo Unit.PartsPerMillion UnitClass.Ratio "ppm" "ratio in parts per million";
  mkUnitInfo Unit.Percent UnitClass.Ratio "percent" "ratio in percent";
  mkUnitInfo Unit.Ratio UnitClass.Ratio "ratio" "dimensionless ratio";
  mkUnitInfo Unit.BitsPerSecond UnitClass.Rate "bit/s" "rate";
  mkUnitInfo Unit.Bytes UnitClass.Count "bytes" "byte volume";
  mkUnitInfo Unit.MilliDegreeCelsius UnitClass.Temperature "mC" "temperature"
]%string.

Definition unit_lookup (unit : Unit.t) : option UnitInfo :=
  find_first (fun info => eqb (ui_unit info) unit) kUnits.

Definition unit_class (unit : Unit.t) : UnitClass.t :=
  match unit_lookup unit with Some info => ui_class info | None => UnitClass.Dimensionless end.

Definition units_compatible (lhs rhs : Unit.t) : bool :=
  if eqb lhs Unit.None || eqb rhs Unit.None then false
  else eqb (unit_class lhs) (unit_class rhs).

Definition unit_to_string (unit : Unit.t) : string :=
  match unit_lookup unit with Some info => ui_name info | None => "invalid" end.

Definition unit_describe (unit : Unit.t) : string :=
  match unit_lookup unit with Some info => ui_description info | None => "unknown unit" end.

Definition parse_unit (text_value : string) : Outcome Unit.t :=
  let trimmed := text.to_lower_ascii (text.trim_ascii text_value) in
  match find_first (fun info => String.eqb trimmed (text.to_lower_ascii (ui_name info))) kUnits with
  | Some info => Good (ui_unit info)
  | None => Bad StatusCode.Invalid
  end.

(** ** Families, semantics, widths and bases *)

Module MetricFamily.
Inductive t :=
  | Unspecified | SignalPower | SignalRatio | ErrorCounter | LossRatio | Timing
  | Throughput | Environmental | Bias | LinkStateHint | Count.
End MetricFamily.

#[export] Instance MetricFamily_enum : Enum MetricFamily.t.
Proof.
  refine {| enum_val := fun x => match x with
      | MetricFamily.Unspecified => 0 | MetricFamily.SignalPower => 1
      | MetricFamily.SignalRatio => 2 | MetricFamily.ErrorCounter => 3
      | MetricFamily.LossRatio => 4 | MetricFamily.Timing => 5 | MetricFamily.Throughput => 6
      | MetricFamily.Environmental => 7 | MetricFamily.Bias => 8
      | MetricFamily.LinkStateHint => 9 | MetricFamily.Count => 10 end;
    enum_all := [MetricFamily.Unspecified; MetricFamily.SignalPower; MetricFamily.SignalRatio; 
      MetricFamily.ErrorCounter; MetricFamily.LossRatio; MetricFamily.Timing; 
      MetricFamily.Throughput; MetricFamily.Environmental; MetricFamily.Bias; 
      MetricFamily.LinkStateHint; MetricFamily.Count] |}; solve_enum.
Defined.
#[export] Instance MetricFamily_Cmp : Cmp MetricFamily.t := enum_cmp.

Definition kFamilies : list (MetricFamily.t * (string * string)) := [
  (MetricFamily.Unspecified, ("unspecified", "no family declared"));
  (MetricFamily.SignalPower, ("signal-power", "received or transmitted signal level"));
  (MetricFamily.SignalRatio, ("signal-ratio", "signal to noise ratio or margin"));
  (MetricFamily.ErrorCounter, ("error-counter", "cumulative error events"));
  (MetricFamily.LossRatio, ("loss-ratio", "loss expressed as a ratio"));
  (MetricFamily.Timing, ("timing", "latency, jitter and skew"));
  (MetricFamily.Throughput, ("throughput", "cumulative volume or a rate"));
  (MetricFamily.Environmental, ("environmental", "temperature and similar"));
  (MetricFamily.Bias, ("bias", "transducer bias current or voltage"));
  (MetricFamily.LinkStateHint, ("link-state-hint", "opaque transport provided hint"))
]%string.

Definition family_to_string (family : MetricFamily.t) : string :=
  match table_find family kFamilies with Some e => e.1 | None => "invalid" end.

Definition family_describe (family : MetricFamily.t) : string :=
  match table_find family kFamilies with Some e => e.2 | None => "unknown family" end.

Definition parse_metric_family (text_value : string) : Outcome MetricFamily.t :=
  table_parse (map (fun e => (e.1, e.2.1)) kFamilies) text_value.

Module SampleSemantics.
Inductive t :=
  | Gauge | Counter.
End SampleSemantics.

#[export] Instance SampleSemantics_enum : Enum SampleSemantics.t.
Proof.
  refine {| enum_val := fun x => match x with
      | SampleSemantics.Gauge => 0 | SampleSemantics.Counter => 1 end;
    enum_all := [SampleSemantics.Gauge; SampleSemantics.Counter] |}; solve_enum.
Defined.
#[export] Instance SampleSemantics_Cmp : Cmp SampleSemantics.t := enum_cmp.

Definition semantics_to_string (semantics : SampleSemantics.t) : string :=
  match semantics with SampleSemantics.Gauge => "gauge" | SampleSemantics.Counter => "counter" end.

Definition parse_sample_semantics (text_value : string) : Outcome SampleSemantics.t :=
  let lowered := text.to_lower_ascii (text.trim_ascii text_value) in
  if String.eqb lowered "gauge" then Good SampleSemantics.Gauge
  else if String.eqb lowered "counter" then Good SampleSemantics.Counter
  else Bad StatusCode.Invalid.

Module CounterWidth.
Inductive t :=
  | Unspecified | Bits32 | Bits64.
End CounterWidth.

#[export] Instance CounterWidth_enum : Enum CounterWidth.t.
Proof.
  refine {| enum_val := fun x => match x with
      | CounterWidth.Unspecified => 0 | CounterWidth.Bits32 => 1 | CounterWidth.Bits64 => 2 end;
    enum_all := [CounterWidth.Unspecified; CounterWidth.Bits32; 
      CounterWidth.Bits64] |}; solve_enum.
Defined.
#[export] Instance CounterWidth_Cmp : Cmp CounterWidth.t := enum_cmp.

Definition width_to_string (width : CounterWidth.t) : string :=
  match width with
  | CounterWidth.Unspecified => "unspecified"
  | CounterWidth.Bits32 => "u32"
  | CounterWidth.Bits64 => "u64"
  end.

Definition counter_modulus (width : CounterWidth.t) : option Z :=
  match width with
  | CounterWidth.Bits32 => Some (Z.shiftl 1 32)
  | CounterWidth.Bits64 => Some 0
  | CounterWidth.Unspecified => None
  end.

Definition counter_value_in_range (value : Z) (width : CounterWidth.t) : bool :=
  match width with
  | CounterWidth.Bits32 => value <=? 4294967295
  | CounterWidth.Bits64 => true
  | CounterWidth.Unspecified => true
  end.

Definition parse_counter_width (text_value : string) : Outcome CounterWidth.t :=
  let lowered := text.to_lower_ascii (text.trim_ascii text_value) in
  if String.eqb lowered "unspecified" || String.eqb lowered "none" then Good CounterWidth.Unspecified
  else if String.eqb lowered "u32" || String.eqb lowered "32" || String.eqb lowered "bits32"
  then Good CounterWidth.Bits32
  else if String.eqb lowered "u64" || String.eqb lowered "64" || String.eqb lowered "bits64"
  then Good CounterWidth.Bits64
  else Bad StatusCode.Invalid.

Module MetricBasis.
Inductive t :=
  | GaugeValue | CounterRatePerSecond | CounterDelta.
End MetricBasis.

#[export] Instance MetricBasis_enum : Enum MetricBasis.t.
Proof.
  refine {| enum_val := fun x => match x with
      | MetricBasis.GaugeValue => 0 | MetricBasis.CounterRatePerSecond => 1
      | MetricBasis.CounterDelta => 2 end;
    enum_all := [MetricBasis.GaugeValue; MetricBasis.CounterRatePerSecond; 
      MetricBasis.CounterDelta] |}; solve_enum.
Defined.
#[export] Instance MetricBasis_Cmp : Cmp MetricBasis.t := enum_cmp.

Definition basis_to_string (basis : MetricBasis.t) : string :=
  match basis with
  | MetricBasis.GaugeValue => "gauge-value"
  | MetricBasis.CounterRatePerSecond => "counter-rate-per-second"
  | MetricBasis.CounterDelta => "counter-delta"
  end.

Definition parse_metric_basis (text_value : string) : Outcome MetricBasis.t :=
  let lowered := text.to_lower_ascii (text.trim_ascii text_value) in
  if String.eqb lowered "gauge-value" || String.eqb lowered "gauge" then Good MetricBasis.GaugeValue
  else if String.eqb lowered "counter-rate-per-second" || String.eqb lowered "rate"
  then Good MetricBasis.CounterRatePerSecond
  else if String.eqb lowered "counter-delta" || String.eqb lowered "delta"
  then Good MetricBasis.CounterDelta
  else Bad StatusCode.Invalid.

(** ** Metric identity *)

Record MetricId := mkMetricId { mi_family : MetricFamily.t; mi_name : string }.

#[export] Instance MetricId_Cmp : Cmp MetricId.
Proof.
  refine (cmp_via (fun m => (mi_family m, mi_name m)) _).
  intros [] [] [= -> ->]. done.
Defined.

Definition kMaxMetricNameBytes : Z := 96.

Definition name_char_ok (c : ascii) : bool :=
  let n := N_of_ascii c in
  (((97 <=? n) && (n <=? 122)) || ((48 <=? n) && (n <=? 57)))%N
  || Ascii.eqb c "_" || Ascii.eqb c "-".

(** The loop of [name_is_valid] over the characters. *)
Fixpoint name_chars_valid (previous_dot : bool) (name : string) : bool :=
  match name with
  | EmptyString => true
  | String c s =>
      if Ascii.eqb c "." then if previous_dot then false else name_chars_valid true s
      else if name_char_ok c then name_chars_valid false s else false
  end.

Definition string_front (s : string) : option ascii :=
  match s with EmptyString => None | String c _ => Some c end.

Fixpoint string_back (s : string) : option ascii :=
  match s with
  | EmptyString => None
  | String c EmptyString => Some c
  | String _ s' => string_back s'
  end.

Definition name_is_valid (name : string) : bool :=
  if String.eqb name "" || (kMaxMetricNameBytes <? zslen name) then false
  else if bool_decide (string_front name = Some "."%char)
          || bool_decide (string_back name = Some "."%char) then false
  else name_chars_valid false name.

Definition validate_metric_id (id : MetricId) : Status :=
  refuse StatusCode.Invalid when eqb (mi_family id) MetricFamily.Unspecified ;;
  refuse StatusCode.Invalid when enum_val MetricFamily.Count <=? enum_val (mi_family id) ;;
  refuse StatusCode.Invalid when negb (name_is_valid (mi_name id)) ;;
  StatusCode.Ok.

Definition render_metric_id (id : MetricId) : string :=
  family_to_string (mi_family id) +:+ ":" +:+ mi_name id.

(** ** The catalog *)

Record MetricDescriptor := mkMetricDescriptor {
  md_id : MetricId;
  md_unit : Unit.t;
  md_semantics : SampleSemantics.t;
  md_basis : MetricBasis.t;
  md_counter_width : CounterWidth.t;
  md_supports_lanes : bool;
  md_description : string;
}.

Record MetricCatalog := mkMetricCatalog {
  mc_descriptors : list MetricDescriptor;
  mc_max_descriptors : Z;
}.

Definition catalog_create (max_descriptors : Z) : MetricCatalog :=
  mkMetricCatalog [] (if max_descriptors =? 0 then 1 else max_descriptors).

Definition catalog_find (catalog : MetricCatalog) (id : MetricId) : option MetricDescriptor :=
  find_first (fun d => eqb (md_id d) id) (mc_descriptors catalog).

Definition catalog_contains (catalog : MetricCatalog) (id : MetricId) : bool :=
  match catalog_find catalog id with Some _ => true | None => false end.

Definition unit_is_countable (unit : Unit.t) : bool :=
  eqb unit Unit.Count || eqb unit Unit.Bytes.

Definition register_descriptor (catalog : MetricCatalog) (descriptor : MetricDescriptor)
  : Status * MetricCatalog :=
  let id_status := validate_metric_id (md_id descriptor) in
  let counter := eqb (md_semantics descriptor) SampleSemantics.Counter in
  if negb (ok id_status) then (id_status, catalog)
  else if eqb (md_unit descriptor) Unit.None then (StatusCode.Invalid, catalog)
  else if counter && negb (unit_is_countable (md_unit descriptor)) then (StatusCode.Invalid, catalog)
  else if negb counter && unit_is_countable (md_unit descriptor) then (StatusCode.Invalid, catalog)
  else if counter && eqb (md_basis descriptor) MetricBasis.GaugeValue then (StatusCode.Invalid, catalog)
  else if negb counter && negb (eqb (md_basis descriptor) MetricBasis.GaugeValue)
  then (StatusCode.Invalid, catalog)
  else match catalog_find catalog (md_id descriptor) with
       | Some existing =>
           if eqb (md_unit existing) (md_unit descriptor)
              && eqb (md_semantics existing) (md_semantics descriptor)
           then (StatusCode.Duplicate, catalog) else (StatusCode.Conflict, catalog)
       | None =>
           if mc_max_descriptors catalog <=? zlen (mc_descriptors catalog)
           then (StatusCode.LimitExceeded, catalog)
           else
             let stored := mkMetricDescriptor (md_id descriptor) (md_unit descriptor)
               (md_semantics descriptor) (md_basis descriptor) (md_counter_width descriptor)
               (md_supports_lanes descriptor)
               (String.substring 0 (Nat.min (String.length (md_description descriptor)) 160)
                  (md_description descriptor)) in
             (StatusCode.Ok,
              mkMetricCatalog (mc_descriptors catalog ++ [stored]) (mc_max_descriptors catalog))
       end.

Definition catalog_snapshot (catalog : MetricCatalog) : list MetricDescriptor :=
  std_sort (fun l r => lessb (md_id l) (md_id r)) (mc_descriptors catalog).

(** The built-in descriptors, in registration order. *)
Definition builtin_descriptors : list MetricDescriptor := [
  mkMetricDescriptor (mkMetricId MetricFamily.SignalPower "rx.level") Unit.DecibelMilliwatt SampleSemantics.Gauge
    MetricBasis.GaugeValue CounterWidth.Unspecified true "received signal level";
  mkMetricDescriptor (mkMetricId MetricFamily.SignalPower "tx.level") Unit.DecibelMilliwatt SampleSemantics.Gauge
    MetricBasis.GaugeValue CounterWidth.Unspecified true "transmitted signal level";
  mkMetricDescriptor (mkMetricId MetricFamily.SignalRatio "snr") Unit.Decibel SampleSemantics.Gauge
    MetricBasis.GaugeValue CounterWidth.Unspecified true "signal to noise ratio";
  mkMetricDescriptor (mkMetricId MetricFamily.SignalRatio "margin") Unit.Decibel SampleSemantics.Gauge
    MetricBasis.GaugeValue CounterWidth.Unspecified true "margin to the decision threshold";
  mkMetricDescriptor (mkMetricId MetricFamily.SignalPower "eye.height") Unit.MilliVolt SampleSemantics.Gauge
    MetricBasis.GaugeValue CounterWidth.Unspecified true "electrical eye height";
  mkMetricDescriptor (mkMetricId MetricFamily.Timing "eye.width") Unit.PicoSecond SampleSemantics.Gauge
    MetricBasis.GaugeValue CounterWidth.Unspecified true "electrical eye width";
  mkMetricDescriptor (mkMetricId MetricFamily.ErrorCounter "errors.symbol") Unit.Count SampleSemantics.Counter
    MetricBasis.CounterRatePerSecond CounterWidth.Bits64 true "cumulative symbol errors";
  mkMetricDescriptor (mkMetricId MetricFamily.ErrorCounter "errors.frame") Unit.Count SampleSemantics.Counter
    MetricBasis.CounterRatePerSecond CounterWidth.Bits64 true "cumulative frame errors";
  mkMetricDescriptor (mkMetricId MetricFamily.ErrorCounter "errors.corrected") Unit.Count SampleSemantics.Counter
    MetricBasis.CounterRatePerSecond CounterWidth.Bits64 true "cumulative corrected errors";
  mkMetricDescriptor (mkMetricId MetricFamily.ErrorCounter "errors.uncorrectable") Unit.Count SampleSemantics.Counter
    MetricBasis.CounterRatePerSecond CounterWidth.Bits64 true "cumulative uncorrectable errors";
  mkMetricDescriptor (mkMetricId MetricFamily.LossRatio "loss.ratio") Unit.PartsPerMillion SampleSemantics.Gauge
    MetricBasis.GaugeValue CounterWidth.Unspecified true "loss ratio reported by the source";
  mkMetricDescriptor (mkMetricId MetricFamily.Timing "latency.roundtrip") Unit.NanoSecond SampleSemantics.Gauge
    MetricBasis.GaugeValue CounterWidth.Unspecified true "round trip latency";
  mkMetricDescriptor (mkMetricId MetricFamily.Timing "jitter.packet-delay") Unit.NanoSecond SampleSemantics.Gauge
    MetricBasis.GaugeValue CounterWidth.Unspecified true "packet delay variation";
  mkMetricDescriptor (mkMetricId MetricFamily.Throughput "octets") Unit.Bytes SampleSemantics.Counter
    MetricBasis.CounterRatePerSecond CounterWidth.Bits64 true "cumulative octets";
  mkMetricDescriptor (mkMetricId MetricFamily.Environmental "temperature") Unit.MilliDegreeCelsius SampleSemantics.Gauge
    MetricBasis.GaugeValue CounterWidth.Unspecified false "module temperature";
  mkMetricDescriptor (mkMetricId MetricFamily.Bias "bias.current") Unit.MicroAmpere SampleSemantics.Gauge
    MetricBasis.GaugeValue CounterWidth.Unspecified false "bias current";
  mkMetricDescriptor (mkMetricId MetricFamily.LinkStateHint "transport.hint") Unit.Ratio SampleSemantics.Gauge
    MetricBasis.GaugeValue CounterWidth.Unspecified false "opaque transport hint, consumed as evidence only and never as authority"
]%string.

Definition with_builtin_descriptors (max_descriptors : Z) : MetricCatalog :=
  fold_left (fun catalog d => (register_descriptor catalog d).2) builtin_descriptors
    (catalog_create max_descriptors).

(** ** The catalog invariant *)

(** A registered descriptor is a valid identity whose unit, semantics and basis
    agree. *)
Definition descriptor_coherent (d : MetricDescriptor) : Prop :=
  validate_metric_id (md_id d) = StatusCode.Ok /\
  md_unit d <> Unit.None /\
  (md_semantics d = SampleSemantics.Counter <-> unit_is_countable (md_unit d) = true) /\
  (md_semantics d = SampleSemantics.Gauge <-> md_basis d = MetricBasis.GaugeValue).

Definition catalog_wf (catalog : MetricCatalog) : Prop :=
  Forall descriptor_coherent (mc_descriptors catalog) /\
  List.NoDup (map md_id (mc_descriptors catalog)) /\
  zlen (mc_descriptors catalog) <= mc_max_descriptors catalog /\
  1 <= mc_max_descriptors catalog.

Lemma catalog_find_Some catalog id d :
  catalog_find catalog id = Some d -> In d (mc_descriptors catalog) /\ md_id d = id.
Proof. intros H. apply find_first_Some in H as [? ?]. by breflect. Qed.

Lemma catalog_find_None catalog id :
  catalog_find catalog id = None -> ~ In id (map md_id (mc_descriptors catalog)).
Proof.
  unfold catalog_find. rewrite find_first_None, Forall_forall, in_map_iff.
  intros H (d & Hid & Hin). specialize (H d ltac:(by apply list_elem_of_In)). by breflect.
Qed.

Lemma ok_true s : ok s = true <-> s = StatusCode.Ok.
Proof. unfold ok. apply bool_decide_eq_true. Qed.

Lemma register_descriptor_wf catalog d :
  catalog_wf catalog -> catalog_wf (register_descriptor catalog d).2.
Proof.
  intros Hw. unfold register_descriptor.
  destruct (negb (ok (validate_metric_id (md_id d)))) eqn:E1; [done|].
  destruct (eqb (md_unit d) Unit.None) eqn:E2; [done|].
  destruct (_ && negb (unit_is_countable _)) eqn:E3; [done|].
  destruct (negb _ && unit_is_countable _) eqn:E4; [done|].
  destruct (_ && eqb (md_basis d) _) eqn:E5; [done|].
  destruct (negb _ && negb _) eqn:E6; [done|].
  destruct (catalog_find catalog (md_id d)) as [ex|] eqn:E7; [by case_match|].
  destruct (_ <=? _) eqn:E8; [done|]. breflect.
  destruct Hw as (Hf & Hn & Hl & Hm). unfold catalog_wf. simpl.
  apply catalog_find_None in E7. repeat split; auto.
  - apply Forall_app. split; [done|]. constructor; [|constructor].
    unfold descriptor_coherent. simpl. split; [by apply ok_true|]. split; [done|].
    destruct (md_semantics d), (unit_is_countable (md_unit d)), (md_basis d); try discriminate;
      by repeat split.
  - rewrite map_app. apply NoDup_ListNoDup, NoDup_app. repeat split.
    + by apply NoDup_ListNoDup.
    + simpl. intros x Hx Hin. apply list_elem_of_singleton in Hin as ->. by apply list_elem_of_In in Hx.
    + apply NoDup_singleton.
  - rewrite zlen_app. simpl. unfold zlen in *. simpl. lia.
Qed.

Lemma catalog_create_wf n : 0 <= n -> catalog_wf (catalog_create n).
Proof.
  intros. unfold catalog_wf, catalog_create. simpl. repeat split; [constructor|constructor|..];
    case_match; breflect; unfold zlen; simpl; lia.
Qed.

Lemma with_builtin_descriptors_wf n : 0 <= n -> catalog_wf (with_builtin_descriptors n).
Proof.
  intros Hn. unfold with_builtin_descriptors.
  generalize (catalog_create_wf n Hn). generalize (catalog_create n).
  induction builtin_descriptors as [|d l IH]; simpl; auto using register_descriptor_wf.
Qed.
