(* ===== verification/Identity.v ===== *)
(** * Identities and observations

    [domain/identity.*] and [domain/observation.*]: who measured what, on which
    link generation, when; and the boundary validation every observation passes
    before anything is stored. *)

From Stdlib Require Import ZArith Lia Bool List String Ascii.
From stdpp Require Import base decidable list strings.
From S2P Require Import Prelude OrdMap Float Core Quality Metric.

Open Scope Z_scope.

Module TransportKind.
Inductive t :=
  | Unspecified | Ethernet | Optical | Electrical | InternalFabric | Synthetic | Other
  | Count.
End TransportKind.

#[export] Instance TransportKind_enum : Enum TransportKind.t.
Proof.
  refine {| enum_val := fun x => match x with
      | TransportKind.Unspecified => 0 | TransportKind.Ethernet => 1
      | TransportKind.Optical => 2 | TransportKind.Electrical => 3
      | TransportKind.InternalFabric => 4 | TransportKind.Synthetic => 5
      | TransportKind.Other => 6 | TransportKind.Count => 7 end;
    enum_all := [TransportKind.Unspecified; TransportKind.Ethernet; TransportKind.Optical; 
      TransportKind.Electrical; TransportKind.InternalFabric; TransportKind.Synthetic; 
      TransportKind.Other; TransportKind.Count] |}; solve_enum.
Defined.
#[export] Instance TransportKind_Cmp : Cmp TransportKind.t := enum_cmp.

Definition kTransportNames : list (TransportKind.t * string) := [
  (TransportKind.Unspecified, "unspecified"); (TransportKind.Ethernet, "ethernet");
  (TransportKind.Optical, "optical"); (TransportKind.Electrical, "electrical");
  (TransportKind.InternalFabric, "internal-fabric");
  (TransportKind.Synthetic, "synthetic"); (TransportKind.Other, "other")
]%string.

Definition transport_to_string (kind : TransportKind.t) : string :=
  match table_find kind kTransportNames with Some n => n | None => "invalid" end.

Definition parse_transport_kind (text_value : string) : Outcome TransportKind.t :=
  table_parse kTransportNames text_value.

Module EvidenceClass.
Inductive t :=
  | Real | Synthetic | Simulated | Count.
End EvidenceClass.

#[export] Instance EvidenceClass_enum : Enum EvidenceClass.t.
Proof.
  refine {| enum_val := fun x => match x with
      | EvidenceClass.Real => 0 | EvidenceClass.Synthetic => 1 | EvidenceClass.Simulated => 2
      | EvidenceClass.Count => 3 end;
    enum_all := [EvidenceClass.Real; EvidenceClass.Synthetic; EvidenceClass.Simulated; 
      EvidenceClass.Count] |}; solve_enum.
Defined.
#[export] Instance EvidenceClass_Cmp : Cmp EvidenceClass.t := enum_cmp.

Definition class_to_string (value : EvidenceClass.t) : string :=
  match value with
  | EvidenceClass.Real => "real"
  | EvidenceClass.Synthetic => "synthetic"
  | EvidenceClass.Simulated => "simulated"
  | EvidenceClass.Count => "invalid"
  end.

Definition parse_evidence_class (text_value : string) : Outcome EvidenceClass.t :=
  let lowered := text.to_lower_ascii (text.trim_ascii text_value) in
  if String.eqb lowered "real" then Good EvidenceClass.Real
  else if String.eqb lowered "synthetic" then Good EvidenceClass.Synthetic
  else if String.eqb lowered "simulated" then Good EvidenceClass.Simulated
  else Bad StatusCode.Invalid.

Module EvidenceOrigin.
Inductive t :=
  | Live | Recovered | Count.
End EvidenceOrigin.

#[export] Instance EvidenceOrigin_enum : Enum EvidenceOrigin.t.
Proof.
  refine {| enum_val := fun x => match x with
      | EvidenceOrigin.Live => 0 | EvidenceOrigin.Recovered => 1 | EvidenceOrigin.Count => 2 end;
    enum_all := [EvidenceOrigin.Live; EvidenceOrigin.Recovered; 
      EvidenceOrigin.Count] |}; solve_enum.
Defined.
#[export] Instance EvidenceOrigin_Cmp : Cmp EvidenceOrigin.t := enum_cmp.

Definition origin_to_string (origin : EvidenceOrigin.t) : string :=
  match origin with
  | EvidenceOrigin.Live => "live"
  | EvidenceOrigin.Recovered => "recovered"
  | EvidenceOrigin.Count => "invalid"
  end.

Record SourceIdentity := mkSourceIdentity { si_id : string; si_incarnation : Z }.
Record LinkIdentity := mkLinkIdentity { li_id : string; li_generation : Z }.

#[export] Instance SourceIdentity_Cmp : Cmp SourceIdentity.
Proof.
  refine (cmp_via (fun s => (si_id s, si_incarnation s)) _).
  intros [] [] [= -> ->]. done.
Defined.

#[export] Instance LinkIdentity_Cmp : Cmp LinkIdentity.
Proof.
  refine (cmp_via (fun l => (li_id l, li_generation l)) _).
  intros [] [] [= -> ->]. done.
Defined.

Record Provenance := mkProvenance {
  pv_transport : TransportKind.t;
  pv_evidence_class : EvidenceClass.t;
  pv_origin : string;
  pv_producer : string;
  pv_clock_synchronized : bool;
  pv_declared_clock_offset_nanos : Z;
}.

(** ** Validation of identities *)

Definition identity_char_ok (c : ascii) : bool :=
  let raw := Z.of_N (N_of_ascii c) in negb ((raw <? 33) || (126 <? raw)).

Definition validate_identity_text (value : string) (max_bytes : Z) : Status :=
  refuse StatusCode.Invalid when String.eqb value "" ;;
  refuse StatusCode.Invalid when max_bytes <? zslen value ;;
  refuse StatusCode.Invalid when negb (all_chars identity_char_ok value) ;;
  StatusCode.Ok.

Definition validate_lane_id (lane max_lanes : Z) : Status :=
  refuse StatusCode.Invalid when max_lanes =? 0 ;;
  refuse StatusCode.Invalid when max_lanes <=? lane ;;
  StatusCode.Ok.

Definition validate_source_identity (identity : SourceIdentity) : Status :=
  validate_identity_text (si_id identity) kMaxIdentityBytes ;;?
  (refuse StatusCode.Invalid when counter_is_zero (si_incarnation identity) ;;
   StatusCode.Ok).

Definition validate_link_identity (identity : LinkIdentity) : Status :=
  validate_identity_text (li_id identity) kMaxIdentityBytes ;;?
  (refuse StatusCode.Invalid when counter_is_zero (li_generation identity) ;;
   StatusCode.Ok).

Definition validate_provenance (provenance : Provenance) (max_origin_bytes : Z) : Status :=
  refuse StatusCode.Invalid when eqb (pv_transport provenance) TransportKind.Count ;;
  refuse StatusCode.Invalid when eqb (pv_evidence_class provenance) EvidenceClass.Count ;;
  (if String.eqb (pv_origin provenance) "" then StatusCode.Ok
   else validate_identity_text (pv_origin provenance) max_origin_bytes) ;;?
  (if String.eqb (pv_producer provenance) "" then StatusCode.Ok
   else validate_identity_text (pv_producer provenance) max_origin_bytes) ;;?
  StatusCode.Ok.

Definition render_source_identity (identity : SourceIdentity) : string :=
  si_id identity +:+ "@" +:+ text.format_u64 (si_incarnation identity).

Definition render_link_identity (identity : LinkIdentity) : string :=
  li_id identity +:+ "/gen" +:+ text.format_u64 (li_generation identity).

(** ** Observations *)

Record Timestamp := mkTimestamp { ts_unix_nanos : Z; ts_synchronized : bool }.
Record ReceiveStamp := mkReceiveStamp { rs_wall_nanos : Z; rs_steady_nanos : Z; rs_epoch : Z }.
Record ClockReading := mkClockReading { cr_wall_nanos : Z; cr_steady_nanos : Z }.

Record GaugeReading := mkGaugeReading { gr_value : double; gr_validity_nanos : Z }.
Record CounterReading := mkCounterReading {
  ctr_value : Z; ctr_width : CounterWidth.t; ctr_reset_declared : bool }.

(** [std::variant<GaugeReading, CounterReading>]. *)
Inductive Reading :=
  | ReadGauge (g : GaugeReading)
  | ReadCounter (c : CounterReading).

Definition is_gauge (r : Reading) : bool := match r with ReadGauge _ => true | _ => false end.
Definition is_counter (r : Reading) : bool := match r with ReadCounter _ => true | _ => false end.

Record StreamKey := mkStreamKey {
  sk_link : LinkIdentity; sk_metric : MetricId; sk_lane : LaneDimension; sk_source : SourceIdentity }.

#[export] Instance StreamKey_Cmp : Cmp StreamKey.
Proof.
  refine (cmp_via (fun k => (sk_link k, (sk_metric k, (sk_lane k, sk_source k)))) _).
  intros [] [] [= -> -> -> ->]. done.
Defined.

Record ObservationLimits := mkObservationLimits {
  ol_max_origin_bytes : Z; ol_max_producer_bytes : Z; ol_max_lanes : Z }.

Record Observation := mkObservation {
  ob_link : LinkIdentity;
  ob_source : SourceIdentity;
  ob_sequence : Z;
  ob_metric : MetricId;
  ob_lane : LaneDimension;
  ob_unit : Unit.t;
  ob_reading : Reading;
  ob_observed_at : Timestamp;
  ob_interval_nanos : option Z;
  ob_authority : Z;
  ob_provenance : Provenance;
}.

Definition ob_semantics (o : Observation) : SampleSemantics.t :=
  if is_gauge (ob_reading o) then SampleSemantics.Gauge else SampleSemantics.Counter.

Record EvidenceRecord := mkEvidenceRecord {
  er_observation : Observation;
  er_received : ReceiveStamp;
  er_ordinal : Z;
  er_origin : EvidenceOrigin.t;
}.

Definition validate_reading (reading : Reading) (unit : Unit.t) : Status :=
  match reading with
  | ReadGauge gauge =>
      refuse StatusCode.Invalid when negb (is_finite (gr_value gauge)) ;;
      refuse StatusCode.Invalid when gr_validity_nanos gauge <? 0 ;;
      refuse StatusCode.Invalid when eqb unit Unit.Count || eqb unit Unit.Bytes ;;
      StatusCode.Ok
  | ReadCounter counter =>
      refuse StatusCode.Invalid when negb (eqb unit Unit.Count) && negb (eqb unit Unit.Bytes) ;;
      refuse StatusCode.Invalid
        when negb (counter_value_in_range (ctr_value counter) (ctr_width counter)) ;;
      StatusCode.Ok
  end.

Definition validate_against_descriptor (o : Observation) (descriptor : option MetricDescriptor)
  : Status :=
  match descriptor with
  | None => StatusCode.Ok
  | Some d =>
      refuse StatusCode.Invalid when negb (eqb (md_semantics d) (ob_semantics o)) ;;
      refuse StatusCode.Invalid when negb (eqb (md_unit d) (ob_unit o)) ;;
      refuse StatusCode.Invalid
        when negb (md_supports_lanes d) && negb (ld_aggregate (ob_lane o)) ;;
      StatusCode.Ok
  end.

Definition validate_observation (o : Observation) (descriptor : option MetricDescriptor)
    (limits : ObservationLimits) : Status :=
  validate_link_identity (ob_link o) ;;?
  validate_source_identity (ob_source o) ;;?
  validate_metric_id (ob_metric o) ;;?
  validate_provenance (ob_provenance o) (ol_max_origin_bytes limits) ;;?
  (refuse StatusCode.Invalid when eqb (ob_unit o) Unit.None ;;
   (if ld_aggregate (ob_lane o) then StatusCode.Ok
    else validate_lane_id (ld_lane (ob_lane o)) (ol_max_lanes limits)) ;;?
   (refuse StatusCode.Invalid
      when match ob_interval_nanos o with Some i => i <=? 0 | None => false end ;;
    validate_reading (ob_reading o) (ob_unit o) ;;?
    validate_against_descriptor o descriptor)).

Definition render_reading `{Charconv} (reading : Reading) (unit : Unit.t) : string :=
  match reading with
  | ReadGauge gauge => format_double (gr_value gauge) +:+ " " +:+ unit_to_string unit
  | ReadCounter counter =>
      text.format_u64 (ctr_value counter) +:+ " " +:+ unit_to_string unit +:+ " ("
        +:+ width_to_string (ctr_width counter) +:+ ")"
        +:+ (if ctr_reset_declared counter then " reset-declared" else "")
  end.

(** ** What a validated observation guarantees *)

(** The reading is finite or fits its width, in a unit of its semantics. *)
Definition reading_admissible (reading : Reading) (unit : Unit.t) : Prop :=
  match reading with
  | ReadGauge g => std_isfinite (gr_value g) = true /\ 0 <= gr_validity_nanos g
                   /\ unit_is_countable unit = false
  | ReadCounter c => counter_value_in_range (ctr_value c) (ctr_width c) = true
                     /\ unit_is_countable unit = true
  end.

Lemma validate_reading_ok reading unit :
  validate_reading reading unit = StatusCode.Ok <-> reading_admissible reading unit.
Proof.
  unfold unit_is_countable. destruct reading as [g|c]; simpl; unfold unit_is_countable;
    rewrite !refuse_ok by discriminate; rewrite ?is_finite_std.
  - rewrite negb_false_iff, Z.ltb_ge. tauto.
  - rewrite <- negb_orb, !negb_false_iff. tauto.
Qed.
