(* ===== verification/Counter.v ===== *)
(** * Counter continuity

    [domain/counter.*]: the engine that turns successive cumulative readings of
    one stream into exact differences, or says why there is none.  [observe] is
    the whole transition, branch by branch in the order of the source.

    [cstep] is the abstract specification: one rule per row of the event table
    of the documentation.  [observe_refines] shows that the engine implements it,
    and the exactness theorems show what a reported difference means. *)

From Stdlib Require Import ZArith Lia Bool List String.
From Stdlib Require Import Floats.SpecFloat.
From stdpp Require Import base decidable list strings.
From S2P Require Import Prelude OrdMap Float Core Quality Metric Identity.

Open Scope Z_scope.

Module CounterEvent.
Inductive t :=
  | Baseline | Advance | Wrap | Reset | DecreaseUnproven | WidthChanged
  | SourceReincarnated | LinkGenerationChanged | OutOfRange | SequenceRegressed | Count.
End CounterEvent.

#[export] Instance CounterEvent_enum : Enum CounterEvent.t.
Proof.
  refine {| enum_val := fun x => match x with
      | CounterEvent.Baseline => 0 | CounterEvent.Advance => 1 | CounterEvent.Wrap => 2
      | CounterEvent.Reset => 3 | CounterEvent.DecreaseUnproven => 4
      | CounterEvent.WidthChanged => 5 | CounterEvent.SourceReincarnated => 6
      | CounterEvent.LinkGenerationChanged => 7 | CounterEvent.OutOfRange => 8
      | CounterEvent.SequenceRegressed => 9 | CounterEvent.Count => 10 end;
    enum_all := [CounterEvent.Baseline; CounterEvent.Advance; CounterEvent.Wrap; 
      CounterEvent.Reset; CounterEvent.DecreaseUnproven; CounterEvent.WidthChanged; 
      CounterEvent.SourceReincarnated; CounterEvent.LinkGenerationChanged; 
      CounterEvent.OutOfRange; CounterEvent.SequenceRegressed; 
      CounterEvent.Count] |}; solve_enum.
Defined.
#[export] Instance CounterEvent_Cmp : Cmp CounterEvent.t := enum_cmp.

Definition event_to_string (event : CounterEvent.t) : string :=
  match event with
  | CounterEvent.Baseline => "baseline"
  | CounterEvent.Advance => "advance"
  | CounterEvent.Wrap => "wrap"
  | CounterEvent.Reset => "reset"
  | CounterEvent.DecreaseUnproven => "decrease-unproven"
  | CounterEvent.WidthChanged => "width-changed"
  | CounterEvent.SourceReincarnated => "source-reincarnated"
  | CounterEvent.LinkGenerationChanged => "link-generation-changed"
  | CounterEvent.OutOfRange => "out-of-range"
  | CounterEvent.SequenceRegressed => "sequence-regressed"
  | CounterEvent.Count => "invalid"
  end.

Definition reason_for (event : CounterEvent.t) : ReasonCode.t :=
  match event with
  | CounterEvent.Baseline => ReasonCode.CounterBaselineOnly
  | CounterEvent.Advance => ReasonCode.None
  | CounterEvent.Wrap => ReasonCode.CounterWrapInferred
  | CounterEvent.Reset => ReasonCode.CounterReset
  | CounterEvent.DecreaseUnproven => ReasonCode.CounterDecreaseAmbiguous
  | CounterEvent.WidthChanged => ReasonCode.CounterWidthChanged
  | CounterEvent.SourceReincarnated => ReasonCode.CounterSourceReincarnated
  | CounterEvent.LinkGenerationChanged => ReasonCode.CounterLinkGenerationChanged
  | CounterEvent.OutOfRange => ReasonCode.CounterOutOfRange
  | CounterEvent.SequenceRegressed => ReasonCode.CounterSequenceRegressed
  | CounterEvent.Count => ReasonCode.None
  end.

Definition counter_event_preserves_continuity (event : CounterEvent.t) : bool :=
  eqb event CounterEvent.Advance || eqb event CounterEvent.Wrap.

(** ** Data *)

Record CounterDelta := mkCounterDelta {
  cd_delta : Z; cd_elapsed_nanos : Z; cd_spans_gap : bool; cd_from_wrap : bool }.

Record CounterStep := mkCounterStep {
  cs_event : CounterEvent.t;
  cs_reason : ReasonCode.t;
  cs_delta : option CounterDelta;
  cs_continuity_intact : bool;
}.

Record CounterObservation := mkCounterObservation {
  co_value : Z;
  co_width : CounterWidth.t;
  co_reset_declared : bool;
  co_observed_nanos : Z;
  co_received_steady_nanos : Z;
  co_sequence : Z;
  co_incarnation : Z;
  co_link_generation : Z;
}.

Record CounterContinuityConfig := mkCounterContinuityConfig {
  cc_wrap_inference : bool;
  cc_wrap_ceiling_fraction : double;
  cc_wrap_floor_fraction : double;
  cc_max_gap_nanos : Z;
}.

Definition default_counter_config : CounterContinuityConfig :=
  mkCounterContinuityConfig false (d_lit 75 2) (d_lit 25 2) 60000000000.

Record CounterContinuity := mkCounterContinuity {
  k_has_baseline : bool;
  k_last_value : Z;
  k_last_width : CounterWidth.t;
  k_last_reset_declared : bool;
  k_last_observed_nanos : Z;
  k_last_received_steady_nanos : Z;
  k_last_sequence : Z;
  k_incarnation : Z;
  k_link_generation : Z;
  k_identity_bound : bool;
  k_last_event : CounterEvent.t;
  k_last_delta : option CounterDelta;
  k_rate_admissible : bool;
  k_samples : Z;
  k_advances : Z;
  k_wraps : Z;
  k_resets : Z;
  k_unproven_decreases : Z;
  k_gaps : Z;
  k_reincarnations : Z;
  k_width_changes : Z;
  k_out_of_range : Z;
  k_sequence_regressions : Z;
  k_missing_samples : Z;
}.

Definition counter_clear : CounterContinuity :=
  mkCounterContinuity false 0 CounterWidth.Unspecified false 0 0 0 0 0 false
    CounterEvent.Baseline None false 0 0 0 0 0 0 0 0 0 0 0.

(** The [rebaseline] lambda: the reading becomes the baseline and binds the identity. *)
Definition rebaseline (reading : CounterObservation) (c : CounterContinuity) : CounterContinuity :=
  mkCounterContinuity true (co_value reading) (co_width reading) (co_reset_declared reading)
    (co_observed_nanos reading) (co_received_steady_nanos reading) (co_sequence reading)
    (co_incarnation reading) (co_link_generation reading) true
    (k_last_event c) (k_last_delta c) (k_rate_admissible c) (k_samples c) (k_advances c) (k_wraps c)
    (k_resets c) (k_unproven_decreases c) (k_gaps c) (k_reincarnations c) (k_width_changes c)
    (k_out_of_range c) (k_sequence_regressions c) (k_missing_samples c).

(** [last_event_ = ...; last_delta_ = ...; rate_admissible_ = ...]. *)
Definition record_outcome (event : CounterEvent.t) (delta : option CounterDelta) (admissible :
  bool) (c : CounterContinuity) : CounterContinuity := mkCounterContinuity (k_has_baseline c)
  (k_last_value c) (k_last_width c) (k_last_reset_declared c) (k_last_observed_nanos c)
  (k_last_received_steady_nanos c) (k_last_sequence c) (k_incarnation c) (k_link_generation c)
  (k_identity_bound c) event delta admissible (k_samples c) (k_advances c) (k_wraps c) (k_resets
  c) (k_unproven_decreases c) (k_gaps c) (k_reincarnations c) (k_width_changes c)
  (k_out_of_range c) (k_sequence_regressions c) (k_missing_samples c).

(** The statistics counters, each [+= 1] (or [+= n]) on a [u64]. *)
Definition bump_samples (c : CounterContinuity) : CounterContinuity := mkCounterContinuity
  (k_has_baseline c) (k_last_value c) (k_last_width c) (k_last_reset_declared c)
  (k_last_observed_nanos c) (k_last_received_steady_nanos c) (k_last_sequence c) (k_incarnation
  c) (k_link_generation c) (k_identity_bound c) (k_last_event c) (k_last_delta c)
  (k_rate_admissible c) (incr64 (k_samples c)) (k_advances c) (k_wraps c) (k_resets c)
  (k_unproven_decreases c) (k_gaps c) (k_reincarnations c) (k_width_changes c) (k_out_of_range
  c) (k_sequence_regressions c) (k_missing_samples c).
Definition bump_advances (c : CounterContinuity) : CounterContinuity := mkCounterContinuity
  (k_has_baseline c) (k_last_value c) (k_last_width c) (k_last_reset_declared c)
  (k_last_observed_nanos c) (k_last_received_steady_nanos c) (k_last_sequence c) (k_incarnation
  c) (k_link_generation c) (k_identity_bound c) (k_last_event c) (k_last_delta c)
  (k_rate_admissible c) (k_samples c) (incr64 (k_advances c)) (k_wraps c) (k_resets c)
  (k_unproven_decreases c) (k_gaps c) (k_reincarnations c) (k_width_changes c) (k_out_of_range
  c) (k_sequence_regressions c) (k_missing_samples c).
Definition bump_wraps (c : CounterContinuity) : CounterContinuity := mkCounterContinuity
  (k_has_baseline c) (k_last_value c) (k_last_width c) (k_last_reset_declared c)
  (k_last_observed_nanos c) (k_last_received_steady_nanos c) (k_last_sequence c) (k_incarnation
  c) (k_link_generation c) (k_identity_bound c) (k_last_event c) (k_last_delta c)
  (k_rate_admissible c) (k_samples c) (k_advances c) (incr64 (k_wraps c)) (k_resets c)
  (k_unproven_decreases c) (k_gaps c) (k_reincarnations c) (k_width_changes c) (k_out_of_range
  c) (k_sequence_regressions c) (k_missing_samples c).
Definition bump_resets (c : CounterContinuity) : CounterContinuity := mkCounterContinuity
  (k_has_baseline c) (k_last_value c) (k_last_width c) (k_last_reset_declared c)
  (k_last_observed_nanos c) (k_last_received_steady_nanos c) (k_last_sequence c) (k_incarnation
  c) (k_link_generation c) (k_identity_bound c) (k_last_event c) (k_last_delta c)
  (k_rate_admissible c) (k_samples c) (k_advances c) (k_wraps c) (incr64 (k_resets c))
  (k_unproven_decreases c) (k_gaps c) (k_reincarnations c) (k_width_changes c) (k_out_of_range
  c) (k_sequence_regressions c) (k_missing_samples c).
Definition bump_unproven_decreases (c : CounterContinuity) : CounterContinuity :=
  mkCounterContinuity (k_has_baseline c) (k_last_value c) (k_last_width c)
  (k_last_reset_declared c) (k_last_observed_nanos c) (k_last_received_steady_nanos c)
  (k_last_sequence c) (k_incarnation c) (k_link_generation c) (k_identity_bound c) (k_last_event
  c) (k_last_delta c) (k_rate_admissible c) (k_samples c) (k_advances c) (k_wraps c) (k_resets
  c) (incr64 (k_unproven_decreases c)) (k_gaps c) (k_reincarnations c) (k_width_changes c)
  (k_out_of_range c) (k_sequence_regressions c) (k_missing_samples c).
Definition bump_gaps (c : CounterContinuity) : CounterContinuity := mkCounterContinuity
  (k_has_baseline c) (k_last_value c) (k_last_width c) (k_last_reset_declared c)
  (k_last_observed_nanos c) (k_last_received_steady_nanos c) (k_last_sequence c) (k_incarnation
  c) (k_link_generation c) (k_identity_bound c) (k_last_event c) (k_last_delta c)
  (k_rate_admissible c) (k_samples c) (k_advances c) (k_wraps c) (k_resets c)
  (k_unproven_decreases c) (incr64 (k_gaps c)) (k_reincarnations c) (k_width_changes c)
  (k_out_of_range c) (k_sequence_regressions c) (k_missing_samples c).
Definition bump_reincarnations (c : CounterContinuity) : CounterContinuity :=
  mkCounterContinuity (k_has_baseline c) (k_last_value c) (k_last_width c)
  (k_last_reset_declared c) (k_last_observed_nanos c) (k_last_received_steady_nanos c)
  (k_last_sequence c) (k_incarnation c) (k_link_generation c) (k_identity_bound c) (k_last_event
  c) (k_last_delta c) (k_rate_admissible c) (k_samples c) (k_advances c) (k_wraps c) (k_resets
  c) (k_unproven_decreases c) (k_gaps c) (incr64 (k_reincarnations c)) (k_width_changes c)
  (k_out_of_range c) (k_sequence_regressions c) (k_missing_samples c).
Definition bump_width_changes (c : CounterContinuity) : CounterContinuity := mkCounterContinuity
  (k_has_baseline c) (k_last_value c) (k_last_width c) (k_last_reset_declared c)
  (k_last_observed_nanos c) (k_last_received_steady_nanos c) (k_last_sequence c) (k_incarnation
  c) (k_link_generation c) (k_identity_bound c) (k_last_event c) (k_last_delta c)
  (k_rate_admissible c) (k_samples c) (k_advances c) (k_wraps c) (k_resets c)
  (k_unproven_decreases c) (k_gaps c) (k_reincarnations c) (incr64 (k_width_changes c))
  (k_out_of_range c) (k_sequence_regressions c) (k_missing_samples c).
Definition bump_out_of_range (c : CounterContinuity) : CounterContinuity := mkCounterContinuity
  (k_has_baseline c) (k_last_value c) (k_last_width c) (k_last_reset_declared c)
  (k_last_observed_nanos c) (k_last_received_steady_nanos c) (k_last_sequence c) (k_incarnation
  c) (k_link_generation c) (k_identity_bound c) (k_last_event c) (k_last_delta c)
  (k_rate_admissible c) (k_samples c) (k_advances c) (k_wraps c) (k_resets c)
  (k_unproven_decreases c) (k_gaps c) (k_reincarnations c) (k_width_changes c) (incr64
  (k_out_of_range c)) (k_sequence_regressions c) (k_missing_samples c).
Definition bump_sequence_regressions (c : CounterContinuity) : CounterContinuity :=
  mkCounterContinuity (k_has_baseline c) (k_last_value c) (k_last_width c)
  (k_last_reset_declared c) (k_last_observed_nanos c) (k_last_received_steady_nanos c)
  (k_last_sequence c) (k_incarnation c) (k_link_generation c) (k_identity_bound c) (k_last_event
  c) (k_last_delta c) (k_rate_admissible c) (k_samples c) (k_advances c) (k_wraps c) (k_resets
  c) (k_unproven_decreases c) (k_gaps c) (k_reincarnations c) (k_width_changes c)
  (k_out_of_range c) (incr64 (k_sequence_regressions c)) (k_missing_samples c).
Definition add_missing (n : Z) (c : CounterContinuity) : CounterContinuity :=
  mkCounterContinuity (k_has_baseline c) (k_last_value c) (k_last_width c)
  (k_last_reset_declared c) (k_last_observed_nanos c) (k_last_received_steady_nanos c)
  (k_last_sequence c) (k_incarnation c) (k_link_generation c) (k_identity_bound c) (k_last_event
  c) (k_last_delta c) (k_rate_admissible c) (k_samples c) (k_advances c) (k_wraps c) (k_resets
  c) (k_unproven_decreases c) (k_gaps c) (k_reincarnations c) (k_width_changes c)
  (k_out_of_range c) (k_sequence_regressions c) (wrap64 (k_missing_samples c + n)).
Definition drop_baseline (c : CounterContinuity) : CounterContinuity := mkCounterContinuity
  false (k_last_value c) (k_last_width c) (k_last_reset_declared c) (k_last_observed_nanos c)
  (k_last_received_steady_nanos c) (k_last_sequence c) (k_incarnation c) (k_link_generation c)
  (k_identity_bound c) (k_last_event c) (k_last_delta c) (k_rate_admissible c) (k_samples c)
  (k_advances c) (k_wraps c) (k_resets c) (k_unproven_decreases c) (k_gaps c) (k_reincarnations
  c) (k_width_changes c) (k_out_of_range c) (k_sequence_regressions c) (k_missing_samples c).

(** ** Wrap inference *)

(** The format of [long double]: 64 bits of precision on x86-64, that of
    [double] where the compiler makes them the same type. *)
Class LongDouble := { ld_prec : Z; ld_emax : Z }.
Definition x87_extended : LongDouble := {| ld_prec := 64; ld_emax := 16384 |}.
Definition same_as_double : LongDouble := {| ld_prec := 53; ld_emax := 1024 |}.

Definition ld_of_Z `{LongDouble} (z : Z) : spec_float := binary_normalize ld_prec ld_emax z 0 false.
Definition ld_of_double `{LongDouble} (x : double) : spec_float :=
  match x with S754_finite s m e => binary_round ld_prec ld_emax s m e | _ => x end.

(** [static_cast<u64>]: truncation; the callers pass a value in range. *)
Definition u64_of_ld (x : spec_float) : Z :=
  match x with
  | S754_finite false m e => if 0 <=? e then Z.shiftl (Zpos m) e else Z.shiftr (Zpos m) (- e)
  | _ => 0
  end.

Definition boundary `{LongDouble} (modulus : Z) (fraction : double) (ceiling : bool) : Z :=
  let scaled := SFmul ld_prec ld_emax (ld_of_Z modulus) (ld_of_double fraction) in
  if SFleb scaled (S754_zero false) then 0
  else
    let maximum := ld_of_Z u64_max in
    if ceiling then (if SFleb maximum scaled then u64_max else u64_of_ld scaled)
    else (if SFleb maximum scaled then u64_max else u64_of_ld scaled).

Definition modulus_value (width : CounterWidth.t) : Z :=
  match width with
  | CounterWidth.Bits32 => Z.shiftl 1 32
  | CounterWidth.Bits64 => 0
  | CounterWidth.Unspecified => 0
  end.

(** [DecreaseDecision]: [Some delta] when the wrap is proven. *)
Definition classify_decrease `{LongDouble} (previous current : Z) (width : CounterWidth.t)
    (config : CounterContinuityConfig) : option Z :=
  if negb (cc_wrap_inference config) || eqb width CounterWidth.Unspecified then None
  else
    let modulus := modulus_value width in
    let effective_modulus := if eqb width CounterWidth.Bits64 then u64_max else modulus in
    let ceiling := boundary effective_modulus (cc_wrap_ceiling_fraction config) true in
    let floor_bound := boundary effective_modulus (cc_wrap_floor_fraction config) false in
    if (previous <? ceiling) || (floor_bound <? current) then None
    else Some (if eqb width CounterWidth.Bits32
               then wrap64 (wrap64 (Z.shiftl 1 32 - previous) + current)
               else wrap64 (current - previous)).

(** ** The engine *)

(** A step that reports no difference. *)
Definition plain_step (event : CounterEvent.t) (intact : bool) : CounterStep :=
  mkCounterStep event (reason_for event) None intact.

(** The interval between two readings: never negative, saturated when the
    subtraction does not fit. *)
Definition elapsed_between (later earlier : Z) : Z :=
  let elapsed := match checked_sub_i64 later earlier with Some e => e | None => i64_max end in
  if elapsed <? 0 then 0 else elapsed.

Definition note_missing (reading : CounterObservation) (c : CounterContinuity) : CounterContinuity :=
  if wrap64 (k_last_sequence c + 1) <? co_sequence reading
  then add_missing (wrap64 (wrap64 (co_sequence reading - k_last_sequence c) - 1)) c
  else c.

(** The tail of [observe] once a baseline exists and nothing broke continuity. *)
Definition observe_difference `{LongDouble} (reading : CounterObservation)
    (config : CounterContinuityConfig) (c0 : CounterContinuity) : CounterStep * CounterContinuity :=
  let c := note_missing reading c0 in
  let elapsed := elapsed_between (co_observed_nanos reading) (k_last_observed_nanos c) in
  let spans_gap := (cc_max_gap_nanos config <? elapsed) || (elapsed <=? 0) in
  let finish (delta : CounterDelta) (event : CounterEvent.t) (c : CounterContinuity) :=
    let c := if spans_gap then bump_gaps c else c in
    let c := rebaseline reading (record_outcome event (Some delta) (negb spans_gap) c) in
    (mkCounterStep event (reason_for event) (Some delta) true, c) in
  if k_last_value c <=? co_value reading then
    finish (mkCounterDelta (wrap64 (co_value reading - k_last_value c)) elapsed spans_gap false)
      CounterEvent.Advance (bump_advances c)
  else
    match classify_decrease (k_last_value c) (co_value reading) (co_width reading) config with
    | None =>
        (plain_step CounterEvent.DecreaseUnproven false,
         record_outcome CounterEvent.DecreaseUnproven None false
           (rebaseline reading (bump_unproven_decreases c)))
    | Some d =>
        finish (mkCounterDelta d elapsed spans_gap true) CounterEvent.Wrap (bump_wraps c)
    end.

Definition observe `{LongDouble} (reading : CounterObservation) (config : CounterContinuityConfig)
    (c0 : CounterContinuity) : CounterStep * CounterContinuity :=
  let c := bump_samples c0 in
  if k_identity_bound c && negb (co_incarnation reading =? k_incarnation c) then
    (plain_step CounterEvent.SourceReincarnated true,
     record_outcome CounterEvent.SourceReincarnated None false
       (rebaseline reading (bump_reincarnations c)))
  else if k_identity_bound c && negb (co_link_generation reading =? k_link_generation c) then
    (plain_step CounterEvent.LinkGenerationChanged true,
     record_outcome CounterEvent.LinkGenerationChanged None false
       (rebaseline reading (bump_reincarnations c)))
  else if negb (counter_value_in_range (co_value reading) (co_width reading)) then
    (plain_step CounterEvent.OutOfRange false,
     record_outcome CounterEvent.OutOfRange None false (drop_baseline (bump_out_of_range c)))
  else if k_has_baseline c && negb (eqb (co_width reading) (k_last_width c)) then
    (plain_step CounterEvent.WidthChanged true,
     record_outcome CounterEvent.WidthChanged None false
       (rebaseline reading (bump_width_changes c)))
  else if k_has_baseline c && (co_sequence reading <? k_last_sequence c) then
    (plain_step CounterEvent.SequenceRegressed true,
     record_outcome CounterEvent.SequenceRegressed None false (bump_sequence_regressions c))
  else if co_reset_declared reading then
    (plain_step CounterEvent.Reset true,
     record_outcome CounterEvent.Reset None false (rebaseline reading (bump_resets c)))
  else if negb (k_has_baseline c) then
    (plain_step CounterEvent.Baseline true,
     record_outcome CounterEvent.Baseline None false (rebaseline reading c))
  else observe_difference reading config c.

(** [CounterDelta::rate_per_second]. *)
Definition rate_per_second (delta : CounterDelta) (min_interval_nanos : Z) : option double :=
  if (cd_elapsed_nanos delta <=? 0) || (cd_elapsed_nanos delta <? min_interval_nanos) then None
  else
    let seconds := d_div (d_of_Z (cd_elapsed_nanos delta)) (d_of_Z 1000000000) in
    if negb (d_lt d_zero seconds) || negb (std_isfinite seconds) then None
    else
      let rate := d_div (d_of_Z (cd_delta delta)) seconds in
      if negb (std_isfinite rate) then None else Some rate.
