(* ===== verification/CounterSpec.v ===== *)
(** * What the counter engine promises

    The abstract continuity machine ([cstep]), the invariant of the engine's
    state, the refinement between the two, and the exactness of the differences
    it reports. *)

From Stdlib Require Import ZArith Lia Bool List String.
From stdpp Require Import base decidable list strings.
From S2P Require Import Prelude OrdMap Float Core Quality Metric Identity Counter.

Open Scope Z_scope.

(** ** The abstract machine *)

Record Base := mkBase { b_value : Z; b_width : CounterWidth.t; b_sequence : Z }.

(** The identity the stream is bound to, and the baseline if there is one. *)
Record AbsCounter := mkAbs { a_identity : option (Z * Z); a_base : option Base }.

Definition base_of (r : CounterObservation) : Base :=
  mkBase (co_value r) (co_width r) (co_sequence r).
Definition rebased (r : CounterObservation) : AbsCounter :=
  mkAbs (Some (co_incarnation r, co_link_generation r)) (Some (base_of r)).

(** The number of values of a declared width. *)
Definition width_span (width : CounterWidth.t) : Z :=
  match width with CounterWidth.Bits32 => 4294967296 | _ => 18446744073709551616 end.

(** The documented near-boundary condition of a proven wrap. *)
Definition wrap_proven `{LongDouble} (config : CounterContinuityConfig) (width : CounterWidth.t)
    (previous current : Z) : Prop :=
  let top := match width with CounterWidth.Bits32 => 4294967296 | _ => u64_max end in
  cc_wrap_inference config = true /\ width <> CounterWidth.Unspecified /\
  boundary top (cc_wrap_ceiling_fraction config) true <= previous /\
  current <= boundary top (cc_wrap_floor_fraction config) false.

Definition same_identity (a : AbsCounter) (r : CounterObservation) : Prop :=
  forall i, a_identity a = Some i -> i = (co_incarnation r, co_link_generation r).

Inductive cstep `{LongDouble} (config : CounterContinuityConfig) :
  AbsCounter -> CounterObservation -> CounterEvent.t -> option Z -> AbsCounter -> Prop :=
  | cs_reincarnated a r i g :
      a_identity a = Some (i, g) -> co_incarnation r <> i ->
      cstep config a r CounterEvent.SourceReincarnated None (rebased r)
  | cs_generation a r g :
      a_identity a = Some (co_incarnation r, g) -> co_link_generation r <> g ->
      cstep config a r CounterEvent.LinkGenerationChanged None (rebased r)
  | cs_out_of_range a r :
      same_identity a r -> counter_value_in_range (co_value r) (co_width r) = false ->
      cstep config a r CounterEvent.OutOfRange None (mkAbs (a_identity a) None)
  | cs_width a r b :
      same_identity a r -> counter_value_in_range (co_value r) (co_width r) = true ->
      a_base a = Some b -> co_width r <> b_width b ->
      cstep config a r CounterEvent.WidthChanged None (rebased r)
  | cs_regressed a r b :
      same_identity a r -> counter_value_in_range (co_value r) (co_width r) = true ->
      a_base a = Some b -> co_width r = b_width b -> co_sequence r < b_sequence b ->
      cstep config a r CounterEvent.SequenceRegressed None a
  | cs_reset a r :
      same_identity a r -> counter_value_in_range (co_value r) (co_width r) = true ->
      (forall b, a_base a = Some b -> co_width r = b_width b /\ b_sequence b <= co_sequence r) ->
      co_reset_declared r = true ->
      cstep config a r CounterEvent.Reset None (rebased r)
  | cs_baseline a r :
      same_identity a r -> counter_value_in_range (co_value r) (co_width r) = true ->
      a_base a = None -> co_reset_declared r = false ->
      cstep config a r CounterEvent.Baseline None (rebased r)
  | cs_advance a r b :
      same_identity a r -> counter_value_in_range (co_value r) (co_width r) = true ->
      a_base a = Some b -> co_width r = b_width b -> b_sequence b <= co_sequence r ->
      co_reset_declared r = false -> b_value b <= co_value r ->
      cstep config a r CounterEvent.Advance (Some (co_value r - b_value b)) (rebased r)
  | cs_wrap a r b :
      same_identity a r -> counter_value_in_range (co_value r) (co_width r) = true ->
      a_base a = Some b -> co_width r = b_width b -> b_sequence b <= co_sequence r ->
      co_reset_declared r = false -> co_value r < b_value b ->
      wrap_proven config (co_width r) (b_value b) (co_value r) ->
      cstep config a r CounterEvent.Wrap
        (Some (wrap64 (width_span (co_width r) - b_value b + co_value r))) (rebased r)
  | cs_decrease a r b :
      same_identity a r -> counter_value_in_range (co_value r) (co_width r) = true ->
      a_base a = Some b -> co_width r = b_width b -> b_sequence b <= co_sequence r ->
      co_reset_declared r = false -> co_value r < b_value b ->
      ~ wrap_proven config (co_width r) (b_value b) (co_value r) ->
      cstep config a r CounterEvent.DecreaseUnproven None (rebased r).

(** ** Abstraction and invariant *)

Definition abs_of (c : CounterContinuity) : AbsCounter :=
  mkAbs (if k_identity_bound c then Some (k_incarnation c, k_link_generation c) else None)
        (if k_has_baseline c then Some (mkBase (k_last_value c) (k_last_width c) (k_last_sequence c))
         else None).

(** A reading that passed the boundary validation. *)
Definition reading_ok (r : CounterObservation) : Prop :=
  is_u64 (co_value r) /\ counter_value_in_range (co_value r) (co_width r) = true.

(** What holds of the engine whatever it was fed: a baseline is an unsigned
    64-bit reading, and the stream is then bound to an identity. *)
Definition counter_wf (c : CounterContinuity) : Prop :=
  k_has_baseline c = true -> k_identity_bound c = true /\ is_u64 (k_last_value c).

(** The baseline is a representable reading bound to an identity, and a rate is
    admissible only for a difference inside the continuity gap. *)
Definition counter_inv (c : CounterContinuity) : Prop :=
  (k_has_baseline c = true ->
     k_identity_bound c = true /\ is_u64 (k_last_value c) /\
     counter_value_in_range (k_last_value c) (k_last_width c) = true) /\
  (k_rate_admissible c = true ->
     k_has_baseline c = true /\ exists d, k_last_delta c = Some d /\ cd_spans_gap d = false
       /\ 0 < cd_elapsed_nanos d) /\
  (forall d, k_last_delta c = Some d -> is_u64 (cd_delta d) /\ 0 <= cd_elapsed_nanos d <= i64_max).

(** Running the engine over a sequence of readings. *)
Fixpoint run `{LongDouble} (config : CounterContinuityConfig) (rs : list CounterObservation)
    (c : CounterContinuity) : list CounterStep * CounterContinuity :=
  match rs with
  | [] => ([], c)
  | r :: rs' =>
      let '(step, c1) := observe r config c in
      let '(steps, c2) := run config rs' c1 in
      (step :: steps, c2)
  end.

Definition delta_sum (steps : list CounterStep) : Z :=
  fold_right (fun s acc => match cs_delta s with Some d => cd_delta d | None => 0 end + acc) 0 steps.

(** ** Lemmas *)

Section Engine.
Context `{LongDouble}.

Lemma elapsed_between_range a b : 0 <= elapsed_between a b <= i64_max.
Proof.
  unfold elapsed_between, checked_sub_i64, checked_add_i64.
  pose proof (to_i64_range (a + to_i64 (- b))) as Hr. unfold is_i64 in Hr.
  assert (0 <= i64_max) by (unfold i64_max; lia).
  repeat case_match; simplify_eq; breflect; lia.
Qed.

Lemma classify_decrease_spec previous current width config :
  is_u64 previous -> is_u64 current -> current < previous ->
  match classify_decrease previous current width config with
  | Some d => wrap_proven config width previous current /\
                d = wrap64 (width_span width - previous + current)
  | None => ~ wrap_proven config width previous current
  end.
Proof.
  intros Hp Hc Hlt. unfold classify_decrease, wrap_proven.
  destruct (cc_wrap_inference config); simpl; [|intros []; discriminate].
  destruct width; simpl in *; [intros (_ & ? & _); done|..];
    unfold modulus_value; change (Z.shiftl 1 32) with 4294967296;
    unfold eqb; simpl;
    match goal with |- context [if ?b then None else _] => destruct b eqn:Hb end;
    [apply orb_true_iff in Hb; rewrite !Z.ltb_lt in Hb; lia | breflect
    |apply orb_true_iff in Hb; rewrite !Z.ltb_lt in Hb; lia | breflect];
    (split; [repeat split; auto; lia|]); unfold wrap64.
  - by rewrite Z.add_mod_idemp_l.
  - rewrite <- (Z.mod_add (current - previous) 1) by done. f_equal. lia.
Qed.

Lemma rebased_abs r e d b c :
  abs_of (record_outcome e d b (rebaseline r c)) = rebased r.
Proof. reflexivity. Qed.

Lemma rebased_abs' r e d b c :
  abs_of (rebaseline r (record_outcome e d b c)) = rebased r.
Proof. reflexivity. Qed.

Lemma note_missing_fields r c :
  k_last_value (note_missing r c) = k_last_value c /\
  k_last_observed_nanos (note_missing r c) = k_last_observed_nanos c /\
  k_last_sequence (note_missing r c) = k_last_sequence c /\
  k_last_width (note_missing r c) = k_last_width c.
Proof. unfold note_missing. by case_match. Qed.

(** The difference branch of the engine, case by case. *)
Lemma observe_difference_cases r config c :
  is_u64 (k_last_value c) -> is_u64 (co_value r) ->
  let '(step, c') := observe_difference r config c in
  abs_of c' = rebased r /\
  (forall d, cs_delta step = Some d ->
     is_u64 (cd_delta d) /\ 0 <= cd_elapsed_nanos d <= i64_max /\
     k_last_delta c' = Some d /\ k_rate_admissible c' = negb (cd_spans_gap d) /\
     (cd_spans_gap d = false -> 0 < cd_elapsed_nanos d)) /\
  (cs_delta step = None -> k_last_delta c' = None /\ k_rate_admissible c' = false) /\
  ((cs_event step = CounterEvent.Advance /\ k_last_value c <= co_value r /\
      cd_delta <$> cs_delta step = Some (co_value r - k_last_value c)) \/
   (cs_event step = CounterEvent.Wrap /\ co_value r < k_last_value c /\
      wrap_proven config (co_width r) (k_last_value c) (co_value r) /\
      cd_delta <$> cs_delta step = Some (wrap64 (width_span (co_width r) - k_last_value c + co_value r))) \/
   (cs_event step = CounterEvent.DecreaseUnproven /\ co_value r < k_last_value c /\
      ~ wrap_proven config (co_width r) (k_last_value c) (co_value r) /\ cs_delta step = None)).
Proof.
  intros Hl Hv. unfold observe_difference.
  destruct (note_missing_fields r c) as (-> & -> & _ & _).
  set (el := elapsed_between _ _).
  assert (0 <= el <= i64_max) as Hel.
  { apply elapsed_between_range. }
  set (gap := (cc_max_gap_nanos config <? el) || (el <=? 0)).
  assert (gap = false -> 0 < el) as Hgap.
  { unfold gap. intros E. breflect. lia. }
  destruct (k_last_value c <=? co_value r) eqn:E; breflect.
  - assert (wrap64 (co_value r - k_last_value c) = co_value r - k_last_value c) as Hw by zify_lia.
    simpl. split; [by destruct gap|]. split.
    { intros d [= <-]. simpl. rewrite Hw. repeat split; auto; try lia;
      unfold_ints; lia. }
    split; [done|]. left. rewrite Hw. auto.
  - pose proof (classify_decrease_spec _ _ (co_width r) config Hl Hv E) as Hd.
    destruct (classify_decrease _ _ _ _) as [d|]; simpl.
    + destruct Hd as [Hwp ->]. split; [by destruct gap|]. split.
      { intros d [= <-]. simpl. repeat split; auto; try lia; zify_lia. }
      split; [done|]. right. left. auto.
    + split; [done|]. split; [done|]. split; [done|]. right. right. auto.
Qed.
End Engine.

Lemma width_span_le w : 0 < width_span w <= 18446744073709551616.
Proof. by destruct w. Qed.

Lemma in_range_span v w :
  is_u64 v -> counter_value_in_range v w = true -> 0 <= v < width_span w.
Proof. unfold counter_value_in_range. destruct w; simpl; intros; breflect; unfold_ints; lia. Qed.

(** Both spans divide 2^64, so reducing a difference modulo 2^64 loses nothing. *)
Lemma wrap64_span w b v :
  (b + wrap64 (width_span w - b + v)) mod width_span w = v mod width_span w.
Proof.
  unfold wrap64. destruct w; simpl width_span; Z.to_euclidean_division_equations; lia.
Qed.

Section Refinement.
Context `{LongDouble}.

(** The engine's bookkeeping around a rebaselining branch establishes the
    invariant. *)
Lemma rebaseline_inv e r c :
  reading_ok r -> counter_inv (record_outcome e None false (rebaseline r c)).
Proof. intros [Hv Hr]. unfold counter_inv. simpl. naive_solver. Qed.

Lemma observe_inv r config c :
  counter_inv c -> reading_ok r -> counter_inv (observe r config c).2.
Proof.
  intros (H1 & H2 & H3) Hr. unfold observe.
  destruct (_ && negb (co_incarnation r =? _)); [simpl; by auto using rebaseline_inv|].
  destruct (_ && negb (co_link_generation r =? _)); [simpl; by auto using rebaseline_inv|].
  destruct (negb (counter_value_in_range (co_value r) (co_width r))) eqn:E1.
  { destruct Hr as [_ Hr]. rewrite Hr in E1. discriminate. }
  destruct (k_has_baseline _ && negb _) eqn:E2; [simpl; by auto using rebaseline_inv|].
  destruct (k_has_baseline _ && (_ <? _)) eqn:E3; [by unfold counter_inv; simpl; split_and!; [exact H1|..]|].
  destruct (co_reset_declared r); [simpl; by auto using rebaseline_inv|].
  destruct (negb (k_has_baseline _)) eqn:E4; [simpl; by auto using rebaseline_inv|].
  simpl in *. apply negb_false_iff in E4. destruct (H1 E4) as (Hb & Hu & Hin).
  rewrite E4 in E2. simpl in E2. breflect.
  pose proof (observe_difference_cases r config (bump_samples c) Hu (proj1 Hr)) as Hd.
  destruct (observe_difference r config (bump_samples c)) as [step c'].
  destruct Hd as (Ha & Hs & Hn & _). unfold counter_inv. simpl.
  assert (k_has_baseline c' = true /\ k_identity_bound c' = true /\ k_last_value c' = co_value r
          /\ k_last_width c' = co_width r) as (B1 & B2 & B3 & B4).
  { unfold abs_of, rebased, base_of in Ha. destruct (k_has_baseline c'), (k_identity_bound c'); by simplify_eq. }
  rewrite B1, B2, B3, B4. destruct Hr as [Hv Hr]. split; [done|].
  destruct (cs_delta step) as [d|] eqn:Ed.
  - destruct (Hs d eq_refl) as (X1 & X2 & X3 & X4 & X5). rewrite X3, X4. split.
    + intros Hg. apply negb_true_iff in Hg. eauto 6.
    + intros d' [= <-]. auto.
  - destruct (Hn eq_refl) as [-> ->]. done.
Qed.

Lemma same_identity_of c r :
  k_identity_bound c && negb (co_incarnation r =? k_incarnation c) = false ->
  k_identity_bound c && negb (co_link_generation r =? k_link_generation c) = false ->
  same_identity (abs_of c) r.
Proof.
  intros E1 E2 i. unfold abs_of. simpl. destruct (k_identity_bound c); [|done].
  simpl in *. breflect. intros [= <-]. by rewrite E1, E2.
Qed.

Lemma observe_simulates r config c :
  counter_wf c -> is_u64 (co_value r) ->
  cstep config (abs_of c) r (cs_event (observe r config c).1)
    (cd_delta <$> cs_delta (observe r config c).1) (abs_of (observe r config c).2).
Proof.
  intros H1 Hv. unfold observe. change (k_identity_bound (bump_samples c)) with (k_identity_bound c).
  simpl k_incarnation. simpl k_link_generation. simpl k_last_width. simpl k_has_baseline.
  simpl k_last_sequence.
  destruct (k_identity_bound c && negb (co_incarnation r =? _)) eqn:E1.
  { simpl. breflect. eapply cs_reincarnated; [|done]. unfold abs_of. by rewrite H0. }
  destruct (k_identity_bound c && negb (co_link_generation r =? _)) eqn:E2.
  { simpl. breflect. rewrite H0 in E1. simpl in E1. breflect.
    eapply cs_generation; [|done]. unfold abs_of. by rewrite H0, E1. }
  pose proof (same_identity_of _ _ E1 E2) as Hid.
  destruct (counter_value_in_range (co_value r) (co_width r)) eqn:Hr; simpl;
    [|by apply cs_out_of_range].
  unfold abs_of in Hid |- *.
  destruct (k_has_baseline c) eqn:Eb; simpl.
  - destruct (H1 Eb) as (Hb & Hu).
    destruct (negb (eqb (co_width r) (k_last_width c))) eqn:E3; breflect.
    { simpl. by eapply cs_width. }
    destruct (co_sequence r <? k_last_sequence c) eqn:E4; breflect.
    { simpl. rewrite Eb. by eapply cs_regressed. }
    destruct (co_reset_declared r) eqn:E5.
    { simpl. eapply cs_reset; try done. intros b [= <-]. done. }
    pose proof (observe_difference_cases r config (bump_samples c) Hu Hv) as Hd.
    destruct (observe_difference r config (bump_samples c)) as [step c'].
    destruct Hd as (Ha & _ & _ & Hc). unfold abs_of in Ha. simpl. rewrite Ha.
    destruct Hc as [(-> & ? & ->)|[(-> & ? & ? & ->)|(-> & ? & ? & ->)]].
    + by apply (cs_advance config _ _ (mkBase (k_last_value c) (k_last_width c) (k_last_sequence c))).
    + by apply (cs_wrap config _ _ (mkBase (k_last_value c) (k_last_width c) (k_last_sequence c))).
    + by apply (cs_decrease config _ _ (mkBase (k_last_value c) (k_last_width c) (k_last_sequence c))).
  - destruct (co_reset_declared r) eqn:E5; simpl.
    + by eapply cs_reset.
    + by eapply cs_baseline.
Qed.

(** Every rule leaves no baseline, the old one, or the reading. *)
Lemma cstep_base config a r e d a' :
  cstep config a r e d a' -> a_base a' = None \/ a' = a \/ a' = rebased r.
Proof. intros S. inversion S; subst; auto. Qed.

Lemma wf_abs c :
  counter_wf c <->
  (forall b, a_base (abs_of c) = Some b -> a_identity (abs_of c) <> None /\ is_u64 (b_value b)).
Proof.
  unfold counter_wf, abs_of. simpl. destruct (k_has_baseline c), (k_identity_bound c); simpl;
    split; intros X; try done.
  - intros b [= <-]. by destruct (X eq_refl).
  - intros _. by destruct (X _ eq_refl).
  - by destruct (X eq_refl).
  - intros _. by destruct (X _ eq_refl).
Qed.

Lemma observe_wf r config c :
  counter_wf c -> is_u64 (co_value r) -> counter_wf (observe r config c).2.
Proof.
  intros Hc Hv. pose proof (observe_simulates r config c Hc Hv) as S.
  rewrite wf_abs in Hc |- *. apply cstep_base in S as [->|[->| ->]]; [done..|].
  by intros b [= <-].
Qed.

Lemma inv_wf c : counter_inv c -> counter_wf c.
Proof. intros (H1 & _) Hb. by destruct (H1 Hb) as (? & ? & _). Qed.

Lemma cstep_deterministic config a r e1 d1 a1 e2 d2 a2 :
  cstep config a r e1 d1 a1 -> cstep config a r e2 d2 a2 -> e1 = e2 /\ d1 = d2 /\ a1 = a2.
Proof.
  intros S1 S2.
  destruct S1; inversion S2; simplify_eq; auto;
    repeat match goal with
      | X : a_identity ?a = Some _, Y : same_identity ?a _ |- _ =>
          specialize (Y _ X); simplify_eq
      | X : a_base ?a = Some _, Y : forall b, a_base ?a = Some b -> _ |- _ =>
          specialize (Y _ X) as [? ?]
      end; (congruence || lia || done).
Qed.

Lemma cstep_same_width config a r e d a' b :
  cstep config a r e (Some d) a' -> a_base a = Some b ->
  a_base a' = Some (base_of r) /\ co_width r = b_width b /\
  (b_value b + d) mod width_span (b_width b) = co_value r mod width_span (b_width b).
Proof.
  intros S E.
  inversion S; subst;
    match goal with X : a_base a = Some ?x, Y : a_base a = Some ?y |- _ =>
      rewrite X in Y; injection Y as <- end;
    simpl; split_and!; try done.
  - f_equal. lia.
  - match goal with X : co_width _ = _ |- _ => rewrite X end.
    apply wrap64_span.
Qed.

(** From a baseline that fits its width the difference is the distance itself. *)
Lemma cstep_exact config a r e d a' b :
  is_u64 (co_value r) -> cstep config a r e (Some d) a' -> a_base a = Some b ->
  0 <= b_value b < width_span (b_width b) ->
  0 <= d < width_span (b_width b).
Proof.
  intros Hv S E Hb.
  inversion S; subst;
    match goal with X : a_base a = Some ?x, Y : a_base a = Some ?y |- _ =>
      rewrite X in Y; injection Y as <- end;
    match goal with X : co_width _ = _, Y : counter_value_in_range _ _ = true |- _ =>
      rewrite X in *; apply in_range_span in Y; [|done] end; [lia|].
  unfold wrap64. rewrite Z.mod_small; [lia|].
  pose proof (width_span_le (b_width b)). lia.
Qed.
End Refinement.

Lemma run_wf `{LongDouble} config rs c :
  counter_wf c -> Forall (fun r => is_u64 (co_value r)) rs -> counter_wf (run config rs c).2.
Proof.
  revert c. induction rs as [|r rs IH]; intros c Hc Hr; simpl; [done|].
  inversion Hr; subst. pose proof (observe_wf r config c Hc H2) as Hc1.
  destruct (observe r config c) as [step c1]. simpl in Hc1.
  specialize (IH c1 Hc1 H3). by destruct (run config rs c1).
Qed.

Lemma run_inv `{LongDouble} config rs c :
  counter_inv c -> Forall reading_ok rs -> counter_inv (run config rs c).2.
Proof.
  revert c. induction rs as [|r rs IH]; intros c Hc Hr; simpl; [done|].
  inversion Hr; subst. pose proof (observe_inv r config c Hc H2) as Hc1.
  destruct (observe r config c) as [step c1]. simpl in Hc1.
  specialize (IH c1 Hc1 H3). by destruct (run config rs c1).
Qed.

Lemma clear_inv : counter_inv counter_clear.
Proof. unfold counter_inv. simpl. repeat split; done. Qed.

(** Σ of the differences of an unbroken run, modulo the declared width. *)
Lemma run_telescopes `{LongDouble} config rs c :
  counter_inv c -> k_has_baseline c = true -> Forall reading_ok rs ->
  Forall (fun s => cs_delta s <> None) (run config rs c).1 ->
  k_last_width (run config rs c).2 = k_last_width c /\
  (k_last_value c + delta_sum (run config rs c).1) mod width_span (k_last_width c)
    = k_last_value (run config rs c).2 mod width_span (k_last_width c).
Proof.
  revert c. induction rs as [|r rs IH]; intros c Hc Hb Hr Hs; simpl in *.
  { split; [done|]. f_equal. lia. }
  inversion Hr; subst.
  pose proof (observe_inv r config c Hc H2) as Hc1.
  pose proof (observe_simulates r config c (inv_wf c Hc) (proj1 H2)) as Hsim.
  destruct (observe r config c) as [step c1]. simpl in *.
  specialize (IH c1 Hc1).
  destruct (run config rs c1) as [steps c2]. simpl in *. inversion Hs; subst.
  destruct (cs_delta step) as [d|] eqn:Ed; [|done].
  assert (a_base (abs_of c) = Some (mkBase (k_last_value c) (k_last_width c) (k_last_sequence c))) as Eb.
  { unfold abs_of. by rewrite Hb. }
  apply (cstep_same_width _ _ _ _ _ _ _ Hsim) in Eb as (Ea & Ew & Em). simpl in *.
  unfold abs_of in Ea. simpl in Ea. destruct (k_has_baseline c1) eqn:Eb1; [|done].
  injection Ea as Ev Ewd _. specialize (IH eq_refl H3 H5). rewrite Ewd, Ew in IH.
  destruct IH as [IH1 IH2]. split; [congruence|].
  assert (width_span (k_last_width c) <> 0) as Hnz by (by destruct (k_last_width c)).
  rewrite <- IH2. replace (k_last_value c + (cd_delta d + delta_sum steps))
    with ((k_last_value c + cd_delta d) + delta_sum steps) by lia.
  rewrite <- (Z.add_mod_idemp_l _ (delta_sum steps)) by done.
  rewrite Em, <- Ev. by rewrite Z.add_mod_idemp_l.
Qed.

(** ** Theorems *)

(** C3: One call of the engine is exactly one step of the abstract continuity
    machine.  Whatever readings a fresh engine was fed before, in range or not,
    the event, the reported difference and the next baseline of the next call
    are those of the rule for the reading, and no other rule applies: a reading
    outside its width drops the baseline, a regressed sequence leaves it
    untouched, and a decrease yields a difference only under the documented
    near-boundary wrap condition.  A difference brings the baseline to the
    reading modulo the declared width, and is less than the number of values of
    that width whenever the baseline fits it. *)
Theorem observe_refines_cstep (LD : LongDouble) config rs r :
  Forall (fun r => is_u64 (co_value r)) (rs ++ [r]) ->
  let c := (run config rs counter_clear).2 in
  cstep config (abs_of c) r (cs_event (observe r config c).1)
    (cd_delta <$> cs_delta (observe r config c).1) (abs_of (observe r config c).2) /\
  (forall e d a, cstep config (abs_of c) r e d a ->
     e = cs_event (observe r config c).1 /\ d = cd_delta <$> cs_delta (observe r config c).1
     /\ a = abs_of (observe r config c).2) /\
  (forall d b, cs_delta (observe r config c).1 = Some d -> a_base (abs_of c) = Some b ->
     (b_value b + cd_delta d) mod width_span (b_width b)
       = co_value r mod width_span (b_width b) /\
     (0 <= b_value b < width_span (b_width b) -> 0 <= cd_delta d < width_span (b_width b))).
Proof.
  intros [Hrs [Hr _]%Forall_cons]%Forall_app c.
  assert (counter_wf c) as Hc by by apply run_wf.
  pose proof (observe_simulates r config c Hc Hr) as Hs.
  split; [exact Hs|]. split.
  - intros e d a Hstep. exact (cstep_deterministic _ _ _ _ _ _ _ _ _ Hstep Hs).
  - intros d b Ed Eb. rewrite Ed in Hs. split.
    + by eapply cstep_same_width.
    + intros Hb. by eapply cstep_exact.
Qed.

Definition sample_reading (value sequence : Z) : CounterObservation :=
  mkCounterObservation value CounterWidth.Bits32 false (sequence * 1000000000) 0 sequence 1 1.
Definition sample_config : CounterContinuityConfig :=
  mkCounterContinuityConfig true (d_lit 75 2) (d_lit 25 2) 60000000000.

Lemma sample_reading_ok v s : 0 <= v <= 4294967295 -> reading_ok (sample_reading v s).
Proof.
  intros. split; simpl; [unfold is_u64, u64_max; lia|]. apply Z.leb_le. lia.
Qed.

Definition sample_baseline : CounterContinuity :=
  (observe (H := x87_extended) (sample_reading 4294967290 1) sample_config counter_clear).2.

Lemma sample_baseline_inv : counter_inv sample_baseline.
Proof.
  apply (observe_inv (H := x87_extended)); [apply clear_inv|]. apply sample_reading_ok. lia.
Qed.

Lemma observe_refines_cstep_witness :
  let history := [sample_reading 4294967290 1] in
  let c := (run (H := x87_extended) sample_config history counter_clear).2 in
  (* a reading outside its width, and a wrap *)
  cstep (H := x87_extended) sample_config (abs_of c) (sample_reading 4294967296 2)
    CounterEvent.OutOfRange None (mkAbs (Some (1, 1)) None) /\
  cstep (H := x87_extended) sample_config (abs_of c) (sample_reading 4 2)
    CounterEvent.Wrap (Some 10) (rebased (sample_reading 4 2)).
Proof.
  intros history c. split.
  - exact (proj1 (observe_refines_cstep x87_extended sample_config history
      (sample_reading 4294967296 2) ltac:(repeat constructor; vm_compute; discriminate))).
  - exact (proj1 (observe_refines_cstep x87_extended sample_config history
      (sample_reading 4 2) ltac:(repeat constructor; vm_compute; discriminate))).
Defined.

(** C25: Over any unbroken run (every step reports a difference) the differences
    add up: the first baseline plus their sum is the last reading, modulo the
    number of values of the declared width.  No difference is invented, dropped
    or counted twice, whatever mix of advances and wraps occurs. *)
Theorem run_differences_exact (LD : LongDouble) config rs c :
  counter_inv c -> k_has_baseline c = true -> Forall reading_ok rs ->
  Forall (fun s => cs_delta s <> None) (run config rs c).1 ->
  (k_last_value c + delta_sum (run config rs c).1) mod width_span (k_last_width c)
    = k_last_value (run config rs c).2 mod width_span (k_last_width c).
Proof. intros Hc Hb Hr Hs. by apply run_telescopes. Qed.

Definition sample_run : list CounterObservation :=
  [sample_reading 4294967295 2; sample_reading 3 3; sample_reading 3 4; sample_reading 100 5].

Lemma run_differences_exact_witness :
  delta_sum (run (H := same_as_double) sample_config sample_run sample_baseline).1 = 106 /\
  (k_last_value sample_baseline
     + delta_sum (run (H := same_as_double) sample_config sample_run sample_baseline).1)
    mod width_span (k_last_width sample_baseline)
  = k_last_value (run (H := same_as_double) sample_config sample_run sample_baseline).2
      mod width_span (k_last_width sample_baseline).
Proof.
  split; [vm_compute; reflexivity|].
  apply (run_differences_exact same_as_double sample_config sample_run sample_baseline).
  - apply sample_baseline_inv.
  - vm_compute; reflexivity.
  - repeat constructor; simpl; try reflexivity; unfold is_u64, u64_max; simpl; lia.
  - vm_compute; repeat constructor; discriminate.
Defined.

(** The state invariant of the engine (a representable, identity-bound
    baseline; a rate admissible only for a positive interval inside the
    continuity gap; differences that are unsigned 64-bit values) holds after any
    sequence of validated readings from a fresh engine. *)
Theorem run_preserves_invariant (LD : LongDouble) config rs :
  Forall reading_ok rs -> counter_inv (run config rs counter_clear).2.
Proof. intros Hr. apply run_inv; [apply clear_inv|done]. Qed.

Lemma run_preserves_invariant_witness :
  counter_inv (run (H := x87_extended) sample_config sample_run counter_clear).2.
Proof.
  exact (run_preserves_invariant x87_extended sample_config sample_run
    ltac:(repeat constructor; simpl; try reflexivity; unfold is_u64, u64_max; simpl; lia)).
Defined.

(** The engine checks the identity of a reading before its range, so a
    reading that does not fit its declared width becomes the baseline of a new
    incarnation instead of being refused; the next small reading is then
    reported as a proven wrap with a difference of almost 2^64.  (Validated
    observations never carry such a reading.) *)
Theorem reincarnation_skips_range_check :
  let bad := mkCounterObservation 4294967301 CounterWidth.Bits32 false 2000000000 0 2 2 1 in
  let next := mkCounterObservation 3 CounterWidth.Bits32 false 3000000000 0 3 2 1 in
  let '(steps, c) := run (H := x87_extended) sample_config [bad; next] sample_baseline in
  counter_value_in_range (co_value bad) (co_width bad) = false /\
  map cs_event steps = [CounterEvent.SourceReincarnated; CounterEvent.Wrap] /\
  map (fun s => cd_delta <$> cs_delta s) steps = [None; Some 18446744073709551614] /\
  k_rate_admissible c = true.
Proof. vm_compute. repeat split. Qed.
