(* ===== verification/Capability.v ===== *)
(** * Capability declarations

    [domain/capability.*]: what a source declares to measure, and the guards a
    declaration passes before it is stored. *)

From Stdlib Require Import ZArith Lia Bool List String Ascii.
From stdpp Require Import base decidable list strings.
From S2P Require Import Prelude OrdMap Core Quality Metric Identity.

Open Scope Z_scope.

Record MetricCapability := mkMetricCapability {
  mcap_metric : MetricId;
  mcap_unit : Unit.t;
  mcap_semantics : SampleSemantics.t;
  mcap_counter_width : CounterWidth.t;
  mcap_lanes_declared : bool;
  mcap_lane_count : Z;
  mcap_validity_nanos : Z;
}.

#[export] Instance MetricCapability_Cmp : Cmp MetricCapability.
Proof.
  refine (cmp_via (fun m => (mcap_metric m, (mcap_unit m, (mcap_semantics m, (mcap_counter_width m,
    (mcap_lanes_declared m, (mcap_lane_count m, mcap_validity_nanos m))))))) _).
  intros [] [] [= -> -> -> -> -> -> ->]. done.
Defined.

Record CapabilityDeclaration := mkCapabilityDeclaration {
  cap_source : SourceIdentity;
  cap_link_scope : option LinkIdentity;
  cap_revision : Z;
  cap_transport : TransportKind.t;
  cap_evidence_class : EvidenceClass.t;
  cap_declared_at : Timestamp;
  cap_metrics : list MetricCapability;
  cap_unsupported_metrics : list MetricId;
  cap_note : string;
}.

Record DeclaredSource := mkDeclaredSource {
  ds_source : SourceIdentity;
  ds_revision : Z;
  ds_evidence_class : EvidenceClass.t;
  ds_transport : TransportKind.t;
  ds_lanes_declared : bool;
  ds_lane_count : Z;
  ds_unit : Unit.t;
  ds_semantics : SampleSemantics.t;
  ds_counter_width : CounterWidth.t;
  ds_validity_nanos : Z;
}.

Record MetricCapabilityView := mkMetricCapabilityView {
  mv_metric : MetricId;
  mv_declared_by : list DeclaredSource;
  mv_declared_unsupported_by : list DeclaredSource;
}.

Definition is_nil {A} (l : list A) : bool := match l with [] => true | _ => false end.

Definition view_supported (v : MetricCapabilityView) : bool := negb (is_nil (mv_declared_by v)).
Definition view_explicitly_unsupported (v : MetricCapabilityView) : bool :=
  is_nil (mv_declared_by v) && negb (is_nil (mv_declared_unsupported_by v)).

(** ** [validate_capability] *)

(** The body of the loop over [declaration.metrics], [seen] being the set of the
    metrics of the earlier iterations. *)
Definition validate_metric_capability (catalog : MetricCatalog) (limits : ObservationLimits)
    (seen : list MetricId) (capability : MetricCapability) : Status :=
  let unit := mcap_unit capability in
  validate_metric_id (mcap_metric capability) ;;?
  (refuse StatusCode.Invalid when set_has (mcap_metric capability) seen ;;
   refuse StatusCode.Unsupported when negb (catalog_contains catalog (mcap_metric capability)) ;;
   refuse StatusCode.Invalid when eqb unit Unit.None ;;
   refuse StatusCode.Conflict
     when match catalog_find catalog (mcap_metric capability) with
          | Some descriptor => negb (eqb (md_unit descriptor) unit)
          | None => false
          end ;;
   refuse StatusCode.Invalid
     when (if eqb (mcap_semantics capability) SampleSemantics.Counter
           then negb (eqb unit Unit.Count) && negb (eqb unit Unit.Bytes)
           else eqb unit Unit.Count || eqb unit Unit.Bytes) ;;
   refuse StatusCode.Invalid
     when (if mcap_lanes_declared capability
           then (mcap_lane_count capability =? 0)
                || (ol_max_lanes limits <? mcap_lane_count capability)
           else negb (mcap_lane_count capability =? 0)) ;;
   refuse StatusCode.Invalid when mcap_validity_nanos capability <? 0 ;;
   StatusCode.Ok).

Fixpoint validate_metric_capabilities (catalog : MetricCatalog) (limits : ObservationLimits)
    (seen : list MetricId) (metrics : list MetricCapability) : Status :=
  match metrics with
  | [] => StatusCode.Ok
  | capability :: rest =>
      validate_metric_capability catalog limits seen capability ;;?
      validate_metric_capabilities catalog limits (mcap_metric capability :: seen) rest
  end.

(** The loop over a list of metrics denied by a declaration or a policy:
    [claimed] are the metrics the same document measures or classifies. *)
Fixpoint validate_unsupported (claimed unsupported metrics : list MetricId) : Status :=
  match metrics with
  | [] => StatusCode.Ok
  | metric :: rest =>
      validate_metric_id metric ;;?
      (refuse StatusCode.Invalid when set_has metric unsupported ;;
       refuse StatusCode.Conflict when set_has metric claimed ;;
       validate_unsupported claimed (metric :: unsupported) rest)
  end.

Definition validate_capability (declaration : CapabilityDeclaration) (catalog : MetricCatalog)
    (limits : ObservationLimits) (max_metrics : Z) : Status :=
  validate_source_identity (cap_source declaration) ;;?
  match cap_link_scope declaration with
  | Some link => validate_link_identity link
  | None => StatusCode.Ok
  end ;;?
  (refuse StatusCode.Invalid when counter_is_zero (cap_revision declaration) ;;
   refuse StatusCode.LimitExceeded when max_metrics <? zlen (cap_metrics declaration) ;;
   refuse StatusCode.Invalid when ol_max_origin_bytes limits <? zslen (cap_note declaration) ;;
   validate_metric_capabilities catalog limits [] (cap_metrics declaration) ;;?
   validate_unsupported (map mcap_metric (cap_metrics declaration)) []
     (cap_unsupported_metrics declaration) ;;?
   (refuse StatusCode.Invalid
      when is_nil (cap_metrics declaration) && is_nil (cap_unsupported_metrics declaration) ;;
    StatusCode.Ok)).

(** ** What a validated declaration guarantees *)

(** One declared metric agrees with the catalog. *)
Definition capability_coherent (catalog : MetricCatalog) (limits : ObservationLimits)
    (m : MetricCapability) : Prop :=
  (exists d, catalog_find catalog (mcap_metric m) = Some d /\ md_unit d = mcap_unit m) /\
  (mcap_semantics m = SampleSemantics.Counter <-> unit_is_countable (mcap_unit m) = true) /\
  (if mcap_lanes_declared m then 0 < mcap_lane_count m <= ol_max_lanes limits
   else mcap_lane_count m = 0) /\
  0 <= mcap_validity_nanos m.

Definition declaration_coherent (catalog : MetricCatalog) (limits : ObservationLimits)
    (c : CapabilityDeclaration) : Prop :=
  Forall (capability_coherent catalog limits) (cap_metrics c) /\
  List.NoDup (map mcap_metric (cap_metrics c)) /\
  List.NoDup (cap_unsupported_metrics c) /\
  (forall m, In m (map mcap_metric (cap_metrics c)) -> ~ In m (cap_unsupported_metrics c)) /\
  (cap_metrics c <> [] \/ cap_unsupported_metrics c <> []) /\
  1 <= cap_revision c.

Lemma validate_metric_capability_ok catalog limits seen m :
  0 <= mcap_lane_count m ->
  validate_metric_capability catalog limits seen m = StatusCode.Ok ->
  capability_coherent catalog limits m /\ ~ In (mcap_metric m) seen.
Proof.
  intros Hl H. unfold validate_metric_capability in H. status_inv H.
  apply set_has_false in Hv0. split; [|done].
  unfold capability_coherent, unit_is_countable, catalog_contains in *.
  destruct (catalog_find catalog (mcap_metric m)) as [d|]; [|done]. breflect.
  split; [eauto|]. split; [|split; [|done]].
  - destruct (mcap_semantics m); simpl in Hv4; [rewrite Hv4|rewrite <- negb_orb, negb_false_iff in Hv4; rewrite Hv4];
      intuition discriminate.
  - destruct (mcap_lanes_declared m); breflect; lia.
Qed.

Lemma validate_metric_capabilities_ok catalog limits metrics : forall seen,
  Forall (fun m => 0 <= mcap_lane_count m) metrics ->
  validate_metric_capabilities catalog limits seen metrics = StatusCode.Ok ->
  Forall (capability_coherent catalog limits) metrics /\
  List.NoDup (map mcap_metric metrics) /\
  (forall m, In m (map mcap_metric metrics) -> ~ In m seen).
Proof.
  induction metrics as [|m metrics IH]; simpl; intros seen Hf H.
  { repeat split; [constructor|constructor|tauto]. }
  inversion_clear Hf as [|? ? Hm Hf']. status_inv H.
  apply validate_metric_capability_ok in Hv as [Hc Hn]; [|done].
  destruct (IH _ Hf' H) as (H1 & H2 & H3). repeat split; [by constructor|..].
  - constructor; [|done]. intros Hin. apply (H3 _ Hin). by left.
  - intros k [<- | Hk]; [done|]. intros Hs. apply (H3 _ Hk). by right.
Qed.

Lemma validate_unsupported_ok claimed metrics : forall unsupported,
  validate_unsupported claimed unsupported metrics = StatusCode.Ok ->
  List.NoDup metrics /\ (forall m, In m metrics -> ~ In m claimed /\ ~ In m unsupported
    /\ validate_metric_id m = StatusCode.Ok).
Proof.
  induction metrics as [|m metrics IH]; simpl; intros unsupported H; [split; [constructor|tauto]|].
  status_inv H. destruct (IH _ H) as [H1 H2]. apply set_has_false in Hv0, Hv1. split.
  - constructor; [|done]. intros Hin. destruct (H2 _ Hin) as (_ & Hx & _). apply Hx. by left.
  - intros k [<- | Hk]; [done|]. destruct (H2 _ Hk) as (? & Hx & ?). repeat split; [done| |done].
    intros ?. apply Hx. by right.
Qed.

Lemma validate_capability_coherent declaration catalog limits max_metrics :
  Forall (fun m => 0 <= mcap_lane_count m) (cap_metrics declaration) ->
  is_u64 (cap_revision declaration) ->
  validate_capability declaration catalog limits max_metrics = StatusCode.Ok ->
  declaration_coherent catalog limits declaration.
Proof.
  intros Hf Hr H. unfold validate_capability in H. status_inv H.
  apply validate_metric_capabilities_ok in Hv4 as (H1 & H2 & _); [|done].
  apply validate_unsupported_ok in Hv5 as [H3 H4].
  unfold declaration_coherent. split_and!; try done.
  - intros m Hm Hu. destruct (H4 _ Hu) as [Hx _]. by apply Hx.
  - destruct (cap_metrics declaration); [|by left]. right. by destruct (cap_unsupported_metrics declaration).
  - unfold counter_is_zero in Hv1. breflect. unfold_ints. lia.
Qed.
