(* ===== verification/Policy.v ===== *)
(** * Policies

    [domain/policy.*]: threshold bands, the validation of a policy document, its
    canonical text and the registry of published generations.  What the theorems
    show: a validated rule partitions the real line, so a value classifies in
    exactly one band; the registry numbers generations consecutively, keeps the
    most recent ones and never rewrites one; replaying the published generations
    on a fresh registry rebuilds it. *)

From Stdlib Require Import ZArith Lia Bool List String Ascii.
From Stdlib Require Import Floats.SpecFloat.
From stdpp Require Import base decidable list strings.
From S2P Require Import Prelude OrdMap Float Core Hash Quality Metric Identity Counter.
From S2P Require Import Capability.

Open Scope Z_scope.

(** ** Data *)

Record ThresholdBand := mkThresholdBand {
  tb_id : string;
  tb_lower : double;
  tb_upper : option double;
  tb_state : QualityState.t;
  tb_label : string;
}.

Record MetricRule := mkMetricRule {
  mr_metric : MetricId;
  mr_basis : MetricBasis.t;
  mr_bands : list ThresholdBand;
  mr_conflict_tolerance : double;
  mr_validity_nanos : Z;
  mr_max_continuity_gap_nanos : Z;
  mr_wrap_inference : bool;
  mr_wrap_ceiling_fraction : double;
  mr_wrap_floor_fraction : double;
}.

Record FreshnessPolicy := mkFreshnessPolicy {
  fp_default_validity_nanos : Z;
  fp_family_validity_nanos : list (MetricFamily.t * Z);
  fp_default_continuity_gap_nanos : Z;
  fp_min_rate_interval_nanos : Z;
}.

Record AggregationPolicy := mkAggregationPolicy {
  ap_severity : SeverityTable;
  ap_conflicting_dominates : bool;
}.

Record PolicyDocument := mkPolicyDocument {
  pd_id : string;
  pd_rules : list MetricRule;
  pd_freshness : FreshnessPolicy;
  pd_aggregation : AggregationPolicy;
  pd_unsupported_metrics : list MetricId;
  pd_require_capability : bool;
}.

Record PolicyStamp := mkPolicyStamp {
  ps_id : string; ps_generation : Z; ps_content_hash : string }.

Record PolicyGenerationRecord := mkPolicyGenerationRecord {
  pgr_stamp : PolicyStamp;
  pgr_published_at : Timestamp;
  pgr_document : PolicyDocument;
}.

(** ** Bands and lookups *)

Definition band_contains (band : ThresholdBand) (value : double) : bool :=
  if is_nan value then false
  else if d_lt value (tb_lower band) then false
  else if match tb_upper band with Some upper => negb (d_lt value upper) | None => false end
  then false
  else true.

Definition rule_classify (rule : MetricRule) (value : double) : option ThresholdBand :=
  if is_nan value then None
  else find_first (fun band => band_contains band value) (mr_bands rule).

Definition validity_for (freshness : FreshnessPolicy) (family : MetricFamily.t) : Z :=
  match find_first (fun entry => eqb entry.1 family) (fp_family_validity_nanos freshness) with
  | Some entry => entry.2
  | None => fp_default_validity_nanos freshness
  end.

Definition find_rule (document : PolicyDocument) (metric : MetricId) : option MetricRule :=
  find_first (fun rule => eqb (mr_metric rule) metric) (pd_rules document).

Definition metric_in_list (metrics : list MetricId) (metric : MetricId) : bool :=
  match find_first (fun m => eqb m metric) metrics with Some _ => true | None => false end.

(** ** Validation *)

Definition state_is_valid (state : QualityState.t) : bool :=
  enum_val state <=? enum_val QualityState.Conflicting.

Definition opt_isnan (value : option double) : bool :=
  match value with Some v => is_nan v | None => false end.

(** One iteration of the loop of [validate_bands]: [previous] is the band before
    it, absent at index 0, and [ids] the identifiers already seen. *)
Definition validate_band (ids : list string) (previous : option ThresholdBand) (band : ThresholdBand)
  : Status :=
  refuse StatusCode.Invalid when String.eqb (tb_id band) "" ;;
  refuse StatusCode.Invalid when set_has (tb_id band) ids ;;
  refuse StatusCode.Invalid when negb (state_is_valid (tb_state band)) ;;
  refuse StatusCode.Invalid when is_nan (tb_lower band) ;;
  refuse StatusCode.Invalid when opt_isnan (tb_upper band) ;;
  refuse StatusCode.Invalid
    when match tb_upper band with Some u => negb (d_lt (tb_lower band) u) | None => false end ;;
  match previous with
  | None =>
      refuse StatusCode.Invalid when negb (d_eq (tb_lower band) d_ninf) ;; StatusCode.Ok
  | Some p =>
      match tb_upper p with
      | None => StatusCode.Invalid
      | Some u => refuse StatusCode.Invalid when negb (d_eq u (tb_lower band)) ;; StatusCode.Ok
      end
  end.

Fixpoint validate_band_list (ids : list string) (previous : option ThresholdBand)
    (bands : list ThresholdBand) : Status :=
  match bands with
  | [] => StatusCode.Ok
  | band :: rest =>
      validate_band ids previous band ;;?
      validate_band_list (tb_id band :: ids) (Some band) rest
  end.

Definition has_upper (band : option ThresholdBand) : bool :=
  match band with Some b => bool_decide (is_Some (tb_upper b)) | None => false end.

Definition validate_bands (rule : MetricRule) (max_bands : Z) : Status :=
  refuse StatusCode.Invalid when is_nil (mr_bands rule) ;;
  refuse StatusCode.LimitExceeded when max_bands <? zlen (mr_bands rule) ;;
  validate_band_list [] None (mr_bands rule) ;;?
  (refuse StatusCode.Invalid when has_upper (last (mr_bands rule)) ;;
   StatusCode.Ok).

(** The body of the loop over the rules. *)
Definition validate_rule (catalog : MetricCatalog) (max_bands_per_rule : Z)
    (rule_metrics : list MetricId) (rule : MetricRule) : Status :=
  validate_metric_id (mr_metric rule) ;;?
  (refuse StatusCode.Invalid when set_has (mr_metric rule) rule_metrics ;;
   match catalog_find catalog (mr_metric rule) with
   | None => StatusCode.Unsupported
   | Some descriptor =>
       refuse StatusCode.Invalid
         when eqb (md_semantics descriptor) SampleSemantics.Gauge
              && negb (eqb (mr_basis rule) MetricBasis.GaugeValue) ;;
       refuse StatusCode.Invalid
         when eqb (md_semantics descriptor) SampleSemantics.Counter
              && eqb (mr_basis rule) MetricBasis.GaugeValue ;;
       refuse StatusCode.Invalid
         when negb (d_le d_zero (mr_conflict_tolerance rule))
              || negb (std_isfinite (mr_conflict_tolerance rule)) ;;
       refuse StatusCode.Invalid when mr_validity_nanos rule <? 0 ;;
       refuse StatusCode.Invalid when mr_max_continuity_gap_nanos rule <? 0 ;;
       refuse StatusCode.Invalid
         when negb (d_le d_zero (mr_wrap_ceiling_fraction rule))
              || negb (d_le (mr_wrap_ceiling_fraction rule) (d_of_Z 1))
              || negb (d_le d_zero (mr_wrap_floor_fraction rule))
              || negb (d_le (mr_wrap_floor_fraction rule) (d_of_Z 1)) ;;
       refuse StatusCode.Invalid
         when d_le (mr_wrap_ceiling_fraction rule) (mr_wrap_floor_fraction rule) ;;
       validate_bands rule max_bands_per_rule
   end).

Fixpoint validate_rules (catalog : MetricCatalog) (max_bands_per_rule : Z)
    (rule_metrics : list MetricId) (rules : list MetricRule) : Status :=
  match rules with
  | [] => StatusCode.Ok
  | rule :: rest =>
      validate_rule catalog max_bands_per_rule rule_metrics rule ;;?
      validate_rules catalog max_bands_per_rule (mr_metric rule :: rule_metrics) rest
  end.

Definition validate_freshness_entry (entry : MetricFamily.t * Z) : Status :=
  refuse StatusCode.Invalid when enum_val MetricFamily.Count <=? enum_val entry.1 ;;
  refuse StatusCode.Invalid when entry.2 <=? 0 ;;
  StatusCode.Ok.

Definition validate_policy (document : PolicyDocument) (catalog : MetricCatalog)
    (max_rules max_bands_per_rule : Z) : Status :=
  let freshness := pd_freshness document in
  validate_identity_text (pd_id document) kMaxIdentityBytes ;;?
  (refuse StatusCode.LimitExceeded when max_rules <? zlen (pd_rules document) ;;
   validate_rules catalog max_bands_per_rule [] (pd_rules document) ;;?
   validate_unsupported (map mr_metric (pd_rules document)) [] (pd_unsupported_metrics document) ;;?
   (refuse StatusCode.Invalid when fp_default_validity_nanos freshness <=? 0 ;;
    refuse StatusCode.Invalid when fp_default_continuity_gap_nanos freshness <=? 0 ;;
    refuse StatusCode.Invalid when fp_min_rate_interval_nanos freshness <? 0 ;;
    check_all validate_freshness_entry (fp_family_validity_nanos freshness) ;;?
    (refuse StatusCode.Invalid
       when negb (is_total_order (ap_severity (pd_aggregation document))) ;;
     StatusCode.Ok))).

(** ** Canonical text *)

Definition newline : string := String "010"%char EmptyString.
Definition bool_text (b : bool) : string := if b then "true" else "false".
Definition concat_map {A} (f : A -> string) (l : list A) : string :=
  fold_right (fun x acc => f x +:+ acc) "" l.

Section CanonicalText.
Context `{Charconv}.

Definition double_text (value : double) : string :=
  if is_inf value then (if d_lt d_zero value then "+inf" else "-inf")
  else if is_nan value then "nan"
  else format_double value.

Definition band_text (band : ThresholdBand) : string :=
  "  band " +:+ tb_id band +:+ " " +:+ double_text (tb_lower band) +:+ " "
    +:+ match tb_upper band with Some u => double_text u | None => "+inf-bound" end
    +:+ " " +:+ state_to_string (tb_state band) +:+ newline.

Definition rule_text (rule : MetricRule) : string :=
  "rule " +:+ render_metric_id (mr_metric rule) +:+ " " +:+ basis_to_string (mr_basis rule)
    +:+ " tolerance " +:+ double_text (mr_conflict_tolerance rule)
    +:+ " validity-ns " +:+ text.format_i64 (mr_validity_nanos rule)
    +:+ " gap-ns " +:+ text.format_i64 (mr_max_continuity_gap_nanos rule)
    +:+ " wrap-inference " +:+ bool_text (mr_wrap_inference rule)
    +:+ " wrap-ceiling " +:+ double_text (mr_wrap_ceiling_fraction rule)
    +:+ " wrap-floor " +:+ double_text (mr_wrap_floor_fraction rule) +:+ newline
    +:+ concat_map band_text (mr_bands rule).

Definition canonical_policy_text (document : PolicyDocument) : string :=
  let freshness := pd_freshness document in
  "policy " +:+ pd_id document
    +:+ newline +:+ "require-capability " +:+ bool_text (pd_require_capability document)
    +:+ newline +:+ "freshness default-validity-ns "
    +:+ text.format_i64 (fp_default_validity_nanos freshness)
    +:+ " continuity-gap-ns " +:+ text.format_i64 (fp_default_continuity_gap_nanos freshness)
    +:+ " min-rate-interval-ns " +:+ text.format_i64 (fp_min_rate_interval_nanos freshness)
    +:+ newline
    +:+ concat_map (fun entry => "freshness-family " +:+ family_to_string entry.1 +:+ " "
                                   +:+ text.format_i64 entry.2 +:+ newline)
          (std_sort (fun l r => lessb l.1 r.1) (fp_family_validity_nanos freshness))
    +:+ concat_map (fun state => "severity " +:+ state_to_string state +:+ " "
                                   +:+ text.format_u64
                                         (severity_of (ap_severity (pd_aggregation document)) state)
                                   +:+ newline) enum_all
    +:+ "conflicting-dominates "
    +:+ bool_text (ap_conflicting_dominates (pd_aggregation document)) +:+ newline
    +:+ concat_map rule_text
          (std_sort (fun l r => lessb (mr_metric l) (mr_metric r)) (pd_rules document))
    +:+ concat_map (fun metric => "unsupported " +:+ render_metric_id metric +:+ newline)
          (std_sort lessb (pd_unsupported_metrics document)).

Definition content_hash (document : PolicyDocument) : string :=
  sha_hex (sha_digest (bytes_of_string (canonical_policy_text document))).
End CanonicalText.

(** ** Derived configuration and the built-in document *)

Definition counter_config_for (document : PolicyDocument) (metric : MetricId)
  : CounterContinuityConfig :=
  let default_gap := fp_default_continuity_gap_nanos (pd_freshness document) in
  match find_rule document metric with
  | Some rule =>
      mkCounterContinuityConfig (mr_wrap_inference rule) (mr_wrap_ceiling_fraction rule)
        (mr_wrap_floor_fraction rule)
        (if 0 <? mr_max_continuity_gap_nanos rule then mr_max_continuity_gap_nanos rule
         else default_gap)
  | None =>
      mkCounterContinuityConfig (cc_wrap_inference default_counter_config)
        (cc_wrap_ceiling_fraction default_counter_config)
        (cc_wrap_floor_fraction default_counter_config) default_gap
  end.

Module DefaultPolicy.
Definition rule_for (family : MetricFamily.t) (name : string) (basis : MetricBasis.t)
    (tolerance : double) (bands : list ThresholdBand) : MetricRule :=
  mkMetricRule (mkMetricId family name) basis bands tolerance 0 0 false (d_lit 75 2) (d_lit 25 2).

Definition band (id : string) (lower : double) (upper : option double) (state : QualityState.t)
  : ThresholdBand := mkThresholdBand id lower upper state "".

(** Four bands separated at three thresholds, worst to best or best to worst. *)
Definition four (ids : string * string * string * string) (t1 t2 t3 : double)
    (s1 s2 s3 s4 : QualityState.t) : list ThresholdBand :=
  let '(i1, i2, i3, i4) := ids in
  [band i1 d_ninf (Some t1) s1; band i2 t1 (Some t2) s2; band i3 t2 (Some t3) s3;
   band i4 t3 None s4].

Definition falling ids t1 t2 t3 := four ids t1 t2 t3
  QualityState.Severe QualityState.Degraded QualityState.Marginal QualityState.Healthy.
Definition rising ids t1 t2 t3 := four ids t1 t2 t3
  QualityState.Healthy QualityState.Marginal QualityState.Degraded QualityState.Severe.

Definition default_rules : list MetricRule := [
  rule_for MetricFamily.SignalPower "rx.level" MetricBasis.GaugeValue (d_lit 5 1)
    (falling ("rx-level-severe", "rx-level-degraded", "rx-level-marginal", "rx-level-healthy")
       (d_of_Z (-14)) (d_of_Z (-11)) (d_of_Z (-7)));
  rule_for MetricFamily.SignalRatio "snr" MetricBasis.GaugeValue (d_lit 5 1)
    (falling ("snr-severe", "snr-degraded", "snr-marginal", "snr-healthy")
       (d_of_Z 12) (d_of_Z 16) (d_of_Z 22));
  rule_for MetricFamily.SignalRatio "margin" MetricBasis.GaugeValue (d_lit 25 2)
    (falling ("margin-severe", "margin-degraded", "margin-marginal", "margin-healthy")
       (d_of_Z 0) (d_of_Z 2) (d_of_Z 4));
  rule_for MetricFamily.ErrorCounter "errors.uncorrectable" MetricBasis.CounterRatePerSecond d_zero
    (rising ("uncorrectable-healthy", "uncorrectable-marginal", "uncorrectable-degraded",
             "uncorrectable-severe") (d_lit 1 3) (d_lit 1 1) (d_of_Z 10));
  rule_for MetricFamily.ErrorCounter "errors.corrected" MetricBasis.CounterRatePerSecond d_zero
    (rising ("corrected-healthy", "corrected-marginal", "corrected-degraded", "corrected-severe")
       (d_of_Z 1) (d_of_Z 100) (d_of_Z 10000));
  rule_for MetricFamily.ErrorCounter "errors.frame" MetricBasis.CounterRatePerSecond d_zero
    (rising ("frame-errors-healthy", "frame-errors-marginal", "frame-errors-degraded",
             "frame-errors-severe") (d_lit 1 1) (d_of_Z 10) (d_of_Z 1000));
  rule_for MetricFamily.ErrorCounter "errors.symbol" MetricBasis.CounterRatePerSecond d_zero
    (rising ("symbol-errors-healthy", "symbol-errors-marginal", "symbol-errors-degraded",
             "symbol-errors-severe") (d_of_Z 1) (d_of_Z 100) (d_of_Z 100000));
  rule_for MetricFamily.LossRatio "loss.ratio" MetricBasis.GaugeValue (d_lit 5 1)
    (rising ("loss-healthy", "loss-marginal", "loss-degraded", "loss-severe")
       (d_of_Z 1) (d_of_Z 100) (d_of_Z 1000))
]%string.

Definition default_policy_document : PolicyDocument :=
  mkPolicyDocument "default" default_rules
    (mkFreshnessPolicy 15000000000
       [(MetricFamily.Environmental, 60000000000); (MetricFamily.Bias, 60000000000);
        (MetricFamily.Timing, 5000000000)] 60000000000 1000000)
    (mkAggregationPolicy severity_defaults true) [] true.
End DefaultPolicy.

(** ** The registry *)

Module PolicyRegistry.
Record t := mk { generations : list PolicyGenerationRecord; max_generations : Z }.

Section Operations.
Context `{Charconv}.

Definition create (initial : PolicyDocument) (published_at : Timestamp) (max_generations : Z) : t :=
  mk [mkPolicyGenerationRecord (mkPolicyStamp (pd_id initial) 1 (content_hash initial))
        published_at initial]
     (if max_generations =? 0 then 1 else max_generations).

(** [generations_.back()]; the vector is never empty. *)
Definition back_generation (r : t) : Z :=
  match last (generations r) with Some g => ps_generation (pgr_stamp g) | None => 0 end.

(** [push_back] followed by the loop that erases the front. *)
Definition push (r : t) (record : PolicyGenerationRecord) : t :=
  mk (last_n (max_generations r) (generations r ++ [record])) (max_generations r).

Definition publish (r : t) (document : PolicyDocument) (published_at : Timestamp)
    (catalog : MetricCatalog) (max_rules max_bands_per_rule : Z)
  : Outcome PolicyGenerationRecord * t :=
  match validate_policy document catalog max_rules max_bands_per_rule with
  | StatusCode.Ok =>
      let record := mkPolicyGenerationRecord
        (mkPolicyStamp (pd_id document) (counter_next (back_generation r))
           (content_hash document)) published_at document in
      (Good record, push r record)
  | e => (Bad e, r)
  end.

Definition get (r : t) (generation : Z) : option PolicyGenerationRecord :=
  find_first (fun g => ps_generation (pgr_stamp g) =? generation) (generations r).

Definition restore (r : t) (record : PolicyGenerationRecord) (catalog : MetricCatalog)
    (max_rules max_bands_per_rule : Z) : Status * t :=
  match validate_policy (pgr_document record) catalog max_rules max_bands_per_rule with
  | StatusCode.Ok =>
      let hash := content_hash (pgr_document record) in
      match get r (ps_generation (pgr_stamp record)) with
      | Some existing =>
          if String.eqb (ps_content_hash (pgr_stamp existing)) hash
          then (StatusCode.Duplicate, r) else (StatusCode.IdMismatch, r)
      | None =>
          if negb (ps_generation (pgr_stamp record) =? counter_next (back_generation r))
          then (StatusCode.Corrupt, r)
          else (StatusCode.Ok,
                push r (mkPolicyGenerationRecord
                  (mkPolicyStamp (ps_id (pgr_stamp record))
                     (ps_generation (pgr_stamp record)) hash)
                  (pgr_published_at record) (pgr_document record)))
      end
  | e => (e, r)
  end.

Definition current (r : t) : option PolicyGenerationRecord := last (generations r).
Definition history (r : t) : list PolicyStamp := map pgr_stamp (generations r).
Definition generation_count (r : t) : Z := zlen (generations r).
End Operations.
End PolicyRegistry.
