(* ===== verification/PolicySpec.v ===== *)
(** * Policies: theorems

    Bands of a validated rule partition the values; the registry is a bounded,
    append-only, consecutively numbered log, and replaying it rebuilds it. *)

From Stdlib Require Import ZArith Lia Bool List String Ascii.
From Stdlib Require Import Floats.SpecFloat.
From stdpp Require Import base decidable list strings.
From S2P Require Import Prelude OrdMap Float Core Hash Quality Metric Identity Counter.
From S2P Require Import Capability Policy.

Open Scope Z_scope.

(** ** Bands *)

Definition count_containing (v : double) (bands : list ThresholdBand) : nat :=
  List.length (List.filter (fun b => band_contains b v) bands).

Lemma count_containing_cons v b bands :
  count_containing v (b :: bands) = ((if band_contains b v then 1 else 0) + count_containing v bands)%nat.
Proof. unfold count_containing. simpl. by destruct (band_contains b v). Qed.

(** A band that validated has ordered bounds that are not NaN. *)
Lemma validate_band_bounds ids previous b :
  validate_band ids previous b = StatusCode.Ok ->
  is_nan (tb_lower b) = false /\
  match tb_upper b with
  | Some u => is_nan u = false /\ d_lt (tb_lower b) u = true
  | None => True
  end /\
  match previous with
  | None => d_eq (tb_lower b) d_ninf = true
  | Some p => exists u, tb_upper p = Some u /\ d_eq u (tb_lower b) = true
  end.
Proof.
  intros H. unfold validate_band in H. status_inv H. split; [done|]. split.
  - destruct (tb_upper b); simpl in *; [|done]. by breflect.
  - destruct previous as [p|]; [destruct (tb_upper p) as [u|]; [|done]|].
    + apply refuse_ok in H as [H _]; [|done]. breflect. eauto.
    + apply refuse_ok in H as [H _]; [|done]. by breflect.
Qed.

Lemma band_contains_iff b v :
  is_nan v = false ->
  band_contains b v =
  negb (d_lt v (tb_lower b)) && match tb_upper b with Some u => d_lt v u | None => true end.
Proof.
  intros Hv. unfold band_contains. rewrite Hv. destruct (d_lt v (tb_lower b)); [done|].
  destruct (tb_upper b) as [u|]; [by destruct (d_lt v u)|done].
Qed.

(** The bands after a band bounded by [u] hold exactly the values from [u] on. *)
Lemma bands_after v rest : forall ids p u,
  is_nan v = false -> is_nan u = false -> tb_upper p = Some u ->
  validate_band_list ids (Some p) rest = StatusCode.Ok ->
  has_upper (last (p :: rest)) = false ->
  count_containing v rest = if d_lt v u then 0%nat else 1%nat.
Proof.
  induction rest as [|b rest IH]; intros ids p u Hv Hu Hp H Hl.
  { simpl in Hl. rewrite Hp in Hl. by apply bool_decide_eq_false in Hl; destruct Hl. }
  simpl in H. apply status_seq_ok in H as [Hb Hr].
  destruct (validate_band_bounds _ _ _ Hb) as (Hlo & Hup & u' & Hu' & Heq). simplify_eq.
  assert (has_upper (last (b :: rest)) = false) as Hl' by done.
  rewrite count_containing_cons, band_contains_iff by done.
  rewrite <- (d_eq_lt_r u (tb_lower b) v) by done.
  destruct (tb_upper b) as [w|] eqn:Eb.
  - destruct Hup as [Hw Hlw]. rewrite (IH _ b w Hv Hw Eb Hr Hl').
    destruct (d_lt v u) eqn:E; simpl; [|by destruct (d_lt v w)].
    rewrite (d_lt_trans v (tb_lower b) w) by (rewrite <- ?(d_eq_lt_r u (tb_lower b) v); done). done.
  - destruct rest as [|c rest].
    + unfold count_containing. simpl. by destruct (d_lt v u).
    + simpl in Hr. apply status_seq_ok in Hr as [Hc _].
      destruct (validate_band_bounds _ _ _ Hc) as (_ & _ & w & Hw & _). congruence.
Qed.

Lemma validated_bands_partition rule max_bands v :
  validate_bands rule max_bands = StatusCode.Ok -> is_nan v = false ->
  count_containing v (mr_bands rule) = 1%nat.
Proof.
  intros H Hv. unfold validate_bands in H. status_inv H.
  destruct (mr_bands rule) as [|b rest]; [done|].
  simpl in Hv2. apply status_seq_ok in Hv2 as [Hb Hr].
  destruct (validate_band_bounds _ _ _ Hb) as (Hlo & Hup & Heq).
  rewrite count_containing_cons, band_contains_iff by done.
  rewrite (d_eq_lt_r (tb_lower b) d_ninf v) by done. rewrite d_lt_ninf. simpl.
  destruct (tb_upper b) as [u|] eqn:Eb.
  - destruct Hup as [Hu _]. rewrite (bands_after v rest _ b u Hv Hu Eb Hr Hv3). by destruct (d_lt v u).
  - destruct rest as [|c rest]; [done|]. simpl in Hr. apply status_seq_ok in Hr as [Hc _].
    destruct (validate_band_bounds _ _ _ Hc) as (_ & _ & w & Hw & _). congruence.
Qed.

Lemma count_one_find_first {A} (f : A -> bool) l :
  List.length (List.filter f l) = 1%nat -> exists x, find_first f l = Some x /\ f x = true.
Proof.
  induction l as [|y l IH]; simpl; [discriminate|]. destruct (f y) eqn:E; [by eauto|]. exact IH.
Qed.

Lemma validate_rules_In catalog mb rules : forall seen rule,
  validate_rules catalog mb seen rules = StatusCode.Ok -> In rule rules ->
  exists seen', validate_rule catalog mb seen' rule = StatusCode.Ok.
Proof.
  induction rules as [|r rules IH]; simpl; intros seen rule H Hin; [done|].
  apply status_seq_ok in H as [H1 H2]. destruct Hin as [-> | Hin]; eauto.
Qed.

Lemma find_rule_Some document metric rule :
  find_rule document metric = Some rule -> In rule (pd_rules document) /\ mr_metric rule = metric.
Proof. intros H. apply find_first_Some in H as [? ?]. by breflect. Qed.

(** What a validated rule guarantees to the classifier. *)
Record rule_sound (catalog : MetricCatalog) (rule : MetricRule) : Prop := {
  rs_partition : forall v, is_nan v = false -> count_containing v (mr_bands rule) = 1%nat;
  rs_basis : exists d, catalog_find catalog (mr_metric rule) = Some d /\
    (md_semantics d = SampleSemantics.Gauge <-> mr_basis rule = MetricBasis.GaugeValue);
  rs_tolerance : std_isfinite (mr_conflict_tolerance rule) = true /\
    d_le d_zero (mr_conflict_tolerance rule) = true;
  rs_validity : 0 <= mr_validity_nanos rule;
  rs_fractions : d_lt (mr_wrap_floor_fraction rule) (mr_wrap_ceiling_fraction rule) = true;
}.

Lemma validate_rule_sound catalog mb seen rule :
  validate_rule catalog mb seen rule = StatusCode.Ok -> rule_sound catalog rule.
Proof.
  intros H. unfold validate_rule in H. status_inv H.
  destruct (catalog_find catalog (mr_metric rule)) as [d|] eqn:Ed; [|done]. status_inv H.
  breflect. constructor.
  - intros v Hv'. by eapply validated_bands_partition.
  - exists d. split; [done|]. destruct (md_semantics d), (mr_basis rule); simpl in *; done.
  - done.
  - done.
  - match goal with Hf : d_le (mr_wrap_ceiling_fraction _) _ = false |- _ =>
      rewrite d_le_nlt in Hf; [by breflect|..] end;
    match goal with Hf : d_le d_zero ?x = true |- is_nan ?x = false =>
      by apply d_le_not_nan in Hf as [_ ?] end.
Qed.

Lemma validated_policy_rule_sound document catalog mr mb metric rule :
  validate_policy document catalog mr mb = StatusCode.Ok ->
  find_rule document metric = Some rule -> rule_sound catalog rule.
Proof.
  intros H Hr. unfold validate_policy in H. status_inv H.
  apply find_rule_Some in Hr as [Hin _].
  destruct (validate_rules_In _ _ _ _ _ Hv1 Hin) as [seen Hs]. by eapply validate_rule_sound.
Qed.

Lemma rule_sound_classify catalog rule v :
  rule_sound catalog rule -> is_nan v = false ->
  exists band, rule_classify rule v = Some band /\ In band (mr_bands rule) /\ band_contains band v = true.
Proof.
  intros Hs Hv. unfold rule_classify. rewrite Hv.
  destruct (count_one_find_first _ _ (rs_partition _ _ Hs v Hv)) as (b & Hb & Hc).
  exists b. split; [done|]. split; [|done]. by apply find_first_Some in Hb as [? _].
Qed.

(** ** The registry as a log

    The abstract registry is the whole log of generations ever published; the
    concrete one keeps its last [max_generations]. *)

Definition gen_of (g : PolicyGenerationRecord) : Z := ps_generation (pgr_stamp g).

Fixpoint consecutive (g : Z) (l : list PolicyGenerationRecord) : Prop :=
  match l with
  | [] => True
  | r :: l' => gen_of r = g /\ consecutive (g + 1) l'
  end.

Lemma consecutive_app l1 : forall g l2,
  consecutive g (l1 ++ l2) <-> consecutive g l1 /\ consecutive (g + zlen l1) l2.
Proof.
  induction l1 as [|r l1 IH]; intros g l2; simpl.
  - unfold zlen. simpl. rewrite Z.add_0_r. tauto.
  - rewrite IH, zlen_cons. replace (g + 1 + zlen l1) with (g + (zlen l1 + 1)) by lia. tauto.
Qed.

Lemma consecutive_In l : forall g r, consecutive g l -> In r l -> g <= gen_of r < g + zlen l.
Proof.
  induction l as [|x l IH]; simpl; intros g r H Hin; [done|].
  destruct H as [Hx H]. rewrite zlen_cons. pose proof (zlen_nonneg l).
  destruct Hin as [-> | Hin]; [lia|]. specialize (IH _ _ H Hin). lia.
Qed.

Lemma last_n_app_one {A} n (l : list A) x :
  1 <= n -> last_n n (last_n n l ++ [x]) = last_n n (l ++ [x]).
Proof.
  intros. rewrite !last_n_last by done. f_equal. unfold last_n.
  rewrite drop_drop, length_drop. f_equal. lia.
Qed.

Lemma last_n_last_opt {A} n (l : list A) : 1 <= n -> last (last_n n l) = last l.
Proof.
  intros. destruct (last_n_split n l) as (d & E & Hd). rewrite E at 2.
  destruct (decide (l = [])) as [-> |]; [by destruct d|].
  rewrite last_app. destruct (last (last_n n l)) eqn:El; [done|].
  apply last_None in El. exfalso. apply n0. unfold last_n in El.
  apply (f_equal List.length) in El. rewrite length_drop in El. simpl in El.
  apply nil_length_inv. lia.
Qed.

Section Registry.
Context `{Charconv}.

(** [r] holds the tail of the log [log]. *)
Record registry_refines (r : PolicyRegistry.t) (log : list PolicyGenerationRecord) : Prop := {
  rr_bound : 1 <= PolicyRegistry.max_generations r;
  rr_tail : PolicyRegistry.generations r = last_n (PolicyRegistry.max_generations r) log;
  rr_numbered : consecutive 1 log;
  rr_nonempty : log <> [];
  rr_hashed : Forall (fun g => ps_content_hash (pgr_stamp g) = content_hash (pgr_document g)) log;
}.

Lemma consecutive_last l g : consecutive g l -> l <> [] ->
  exists x, last l = Some x /\ gen_of x = g + zlen l - 1.
Proof.
  intros Hc Hl. destruct (exists_last Hl) as (l' & x & ->). exists x. rewrite last_snoc. split; [done|].
  apply consecutive_app in Hc as [_ [Hx _]]. rewrite zlen_app, zlen_cons. change (zlen (@nil PolicyGenerationRecord)) with 0.
  lia.
Qed.

Lemma refines_back r log :
  registry_refines r log -> PolicyRegistry.back_generation r = zlen log.
Proof.
  intros [Hb Ht Hc Hn _]. unfold PolicyRegistry.back_generation.
  rewrite Ht, last_n_last_opt by done. destruct (consecutive_last _ _ Hc Hn) as (x & -> & Hx).
  unfold gen_of in Hx. lia.
Qed.

Lemma create_refines initial at_ n :
  0 <= n ->
  registry_refines (PolicyRegistry.create initial at_ n)
    (PolicyRegistry.generations (PolicyRegistry.create initial at_ n)).
Proof.
  intros Hn. constructor; simpl.
  - case_match; breflect; lia.
  - rewrite last_n_all; [done|]. unfold zlen. simpl. case_match; breflect; lia.
  - done.
  - done.
  - by repeat constructor.
Qed.

Lemma push_refines r log record :
  registry_refines r log -> gen_of record = zlen log + 1 ->
  ps_content_hash (pgr_stamp record) = content_hash (pgr_document record) ->
  registry_refines (PolicyRegistry.push r record) (log ++ [record]).
Proof.
  intros [Hb Ht Hc Hn Hh] Hg Hr. constructor; simpl; try done.
  - by rewrite Ht, last_n_app_one.
  - apply consecutive_app. simpl. split; [done|]. split; [lia|done].
  - by destruct log.
  - apply Forall_app. by repeat constructor.
Qed.

Lemma refines_get_next r log :
  registry_refines r log -> PolicyRegistry.get r (zlen log + 1) = None.
Proof.
  intros [Hb Ht Hc Hn _]. unfold PolicyRegistry.get. apply find_first_None, Forall_forall.
  intros x Hx. apply list_elem_of_In in Hx. rewrite Ht in Hx. apply last_n_In in Hx.
  apply (consecutive_In _ _ _ Hc) in Hx. unfold gen_of in Hx. apply Z.eqb_neq. lia.
Qed.

Lemma publish_refines r log document at_ catalog mr mb record r' :
  registry_refines r log -> zlen log < u64_max ->
  PolicyRegistry.publish r document at_ catalog mr mb = (Good record, r') ->
  registry_refines r' (log ++ [record]) /\ gen_of record = zlen log + 1 /\
  pgr_document record = document /\ validate_policy document catalog mr mb = StatusCode.Ok.
Proof.
  intros Hr Hl Hp. unfold PolicyRegistry.publish in Hp. rewrite (refines_back _ _ Hr) in Hp.
  destruct (validate_policy document catalog mr mb) eqn:Ev; simplify_eq.
  assert (counter_next (zlen log) = zlen log + 1) as En.
  { unfold counter_next. apply wrap64_id. pose proof (zlen_nonneg log). unfold_ints. lia. }
  split; [|split; [|done]]; [|done]. by apply push_refines.
Qed.

Lemma publish_restore r log document at_ catalog mr mb record r' :
  registry_refines r log -> zlen log < u64_max ->
  PolicyRegistry.publish r document at_ catalog mr mb = (Good record, r') ->
  PolicyRegistry.restore r record catalog mr mb = (StatusCode.Ok, r').
Proof.
  intros Hr Hl Hp. destruct (publish_refines _ _ _ _ _ _ _ _ _ Hr Hl Hp) as (_ & Hg & Hd & Hv).
  unfold PolicyRegistry.restore. rewrite Hd, Hv. unfold gen_of in Hg.
  rewrite Hg, (refines_get_next _ _ Hr), (refines_back _ _ Hr).
  unfold PolicyRegistry.publish in Hp. rewrite Hv, (refines_back _ _ Hr) in Hp. injection Hp as <- <-. simpl in *.
  by rewrite Hg, Z.eqb_refl.
Qed.

(** Publishing a sequence of documents, and restoring a sequence of records. *)
Fixpoint publish_all (r : PolicyRegistry.t) (docs : list (PolicyDocument * Timestamp))
    (catalog : MetricCatalog) (mr mb : Z) : option (list PolicyGenerationRecord * PolicyRegistry.t) :=
  match docs with
  | [] => Some ([], r)
  | (document, at_) :: rest =>
      match PolicyRegistry.publish r document at_ catalog mr mb with
      | (Good record, r') =>
          match publish_all r' rest catalog mr mb with
          | Some (records, r'') => Some (record :: records, r'')
          | None => None
          end
      | (Bad _, _) => None
      end
  end.

Fixpoint restore_all (r : PolicyRegistry.t) (records : list PolicyGenerationRecord)
    (catalog : MetricCatalog) (mr mb : Z) : list Status * PolicyRegistry.t :=
  match records with
  | [] => ([], r)
  | record :: rest =>
      let '(s, r') := PolicyRegistry.restore r record catalog mr mb in
      let '(ss, r'') := restore_all r' rest catalog mr mb in (s :: ss, r'')
  end.

Lemma publish_all_refines docs : forall r log catalog mr mb records r',
  registry_refines r log -> zlen log + zlen docs <= u64_max ->
  publish_all r docs catalog mr mb = Some (records, r') ->
  registry_refines r' (log ++ records) /\ zlen records = zlen docs /\
  restore_all r records catalog mr mb = (replicate (List.length docs) StatusCode.Ok, r').
Proof.
  induction docs as [|[d at_] docs IH]; intros r log catalog mr mb records r' Hr Hl Hp; simpl in Hp.
  { simplify_eq. by rewrite app_nil_r. }
  destruct (PolicyRegistry.publish r d at_ catalog mr mb) as [[record|?] r1] eqn:E1; [|done].
  destruct (publish_all r1 docs catalog mr mb) as [[records' r'']|] eqn:E2; [|done]. simplify_eq.
  rewrite zlen_cons in Hl. pose proof (zlen_nonneg docs).
  destruct (publish_refines _ _ _ _ _ _ _ _ _ Hr ltac:(lia) E1) as (Hr1 & _).
  assert (zlen (log ++ [record]) + zlen docs <= u64_max) as Hl'.
  { rewrite zlen_app, zlen_cons. change (zlen (@nil PolicyGenerationRecord)) with 0. lia. }
  destruct (IH _ _ _ _ _ _ _ Hr1 Hl' E2) as (H1 & H2 & H3).
  split; [by rewrite <- app_assoc in H1|]. split; [rewrite !zlen_cons; lia|].
  simpl. rewrite (publish_restore _ _ _ _ _ _ _ _ _ Hr ltac:(lia) E1), H3. done.
Qed.
End Registry.

(** ** Two documents with one canonical text

    A band identifier may hold any characters, so it can spell the rest of its
    own line and the head of the next. *)

Lemma append_assoc s t u : (s +:+ t) +:+ u = s +:+ (t +:+ u).
Proof. induction s as [|c s IH]; [reflexivity|]. exact (f_equal (String c) IH). Qed.

Section Collision.
Context `{Charconv}.

Definition band_tail (lower : double) (upper : option double) (state : QualityState.t) : string :=
  " " +:+ double_text lower +:+ " "
    +:+ match upper with Some u => double_text u | None => "+inf-bound" end
    +:+ " " +:+ state_to_string state +:+ newline +:+ "  band ".

Definition bands_a : list ThresholdBand :=
  [mkThresholdBand ("p" +:+ band_tail d_ninf (Some (d_of_Z 5)) QualityState.Degraded +:+ "q")
     d_ninf (Some (d_of_Z 0)) QualityState.Severe "";
   mkThresholdBand ("r" +:+ band_tail (d_of_Z 5) (Some (d_of_Z 9)) QualityState.Healthy +:+ "s")
     (d_of_Z 0) (Some (d_of_Z 9)) QualityState.Marginal "";
   mkThresholdBand "t" (d_of_Z 9) None QualityState.Healthy ""].

Definition bands_b : list ThresholdBand :=
  [mkThresholdBand "p" d_ninf (Some (d_of_Z 5)) QualityState.Degraded "";
   mkThresholdBand ("q" +:+ band_tail d_ninf (Some (d_of_Z 0)) QualityState.Severe +:+ "r")
     (d_of_Z 5) (Some (d_of_Z 9)) QualityState.Healthy "";
   mkThresholdBand ("s" +:+ band_tail (d_of_Z 0) (Some (d_of_Z 9)) QualityState.Marginal +:+ "t")
     (d_of_Z 9) None QualityState.Healthy ""].

Definition one_rule (bands : list ThresholdBand) : MetricRule :=
  DefaultPolicy.rule_for MetricFamily.SignalRatio "snr" MetricBasis.GaugeValue d_zero bands.

Definition one_rule_policy (bands : list ThresholdBand) : PolicyDocument :=
  mkPolicyDocument "edge" [one_rule bands] (pd_freshness DefaultPolicy.default_policy_document)
    (pd_aggregation DefaultPolicy.default_policy_document) [] true.

Lemma bands_same_text : concat_map band_text bands_a = concat_map band_text bands_b.
Proof.
  unfold bands_a, bands_b, concat_map, band_text, band_tail, fold_right.
  cbn [tb_id tb_lower tb_upper tb_state].
  by rewrite !append_assoc.
Qed.

Lemma one_rule_same_text bands bands' :
  concat_map band_text bands = concat_map band_text bands' ->
  canonical_policy_text (one_rule_policy bands) = canonical_policy_text (one_rule_policy bands').
Proof.
  intros E. unfold canonical_policy_text, one_rule_policy.
  cbn [pd_rules pd_id pd_freshness pd_aggregation pd_unsupported_metrics pd_require_capability].
  cbn [std_sort std_sort_acc insert_sorted concat_map fold_right]. unfold std_sort. simpl std_sort_acc.
  unfold rule_text, one_rule, DefaultPolicy.rule_for.
  cbn [mr_bands mr_metric mr_basis mr_conflict_tolerance mr_validity_nanos mr_max_continuity_gap_nanos
    mr_wrap_inference mr_wrap_ceiling_fraction mr_wrap_floor_fraction concat_map fold_right].
  unfold concat_map in *. cbn [fold_right]. 
  rewrite E. reflexivity.
Qed.
End Collision.

(** ** Theorems *)

(** C4: A value classifies exactly once.  Under a policy document that passed
    validation, every value that is not NaN, infinities included, lies in
    exactly one band of a metric's rule, and [MetricRule::classify] returns that
    band; a value can never fall through the policy or match two bands. *)
Theorem validated_policy_classifies_once document catalog max_rules max_bands metric rule v :
  validate_policy document catalog max_rules max_bands = StatusCode.Ok ->
  find_rule document metric = Some rule -> is_nan v = false ->
  exists band, rule_classify rule v = Some band /\ band_contains band v = true /\
    List.filter (fun b => band_contains b v) (mr_bands rule) = [band].
Proof.
  intros Hp Hf Hv. pose proof (validated_policy_rule_sound _ _ _ _ _ _ Hp Hf) as Hs.
  destruct (rule_sound_classify _ _ v Hs Hv) as (b & Hb & Hin & Hc). exists b. split; [done|]. split; [done|].
  pose proof (rs_partition _ _ Hs v Hv) as Hn. unfold count_containing in Hn.
  assert (In b (List.filter (fun b => band_contains b v) (mr_bands rule))) as Hi by (by apply filter_In).
  destruct (List.filter _ (mr_bands rule)) as [|x [|? ?]]; try done. by destruct Hi as [-> |[]].
Qed.

(** The built-in policy document passes the validation every published
    document passes, against the built-in metric catalog. *)
Theorem default_policy_validates :
  validate_policy DefaultPolicy.default_policy_document (with_builtin_descriptors 512) 512 16
  = StatusCode.Ok.
Proof. vm_compute. reflexivity. Qed.

Definition the_rule (metric : MetricId) : MetricRule :=
  match find_rule DefaultPolicy.default_policy_document metric with
  | Some r => r
  | None => DefaultPolicy.rule_for MetricFamily.Timing "" MetricBasis.GaugeValue d_zero []
  end.
Definition snr : MetricId := mkMetricId MetricFamily.SignalRatio "snr".

Lemma validated_policy_classifies_once_witness :
  exists band, rule_classify (the_rule snr) (d_of_Z 20) = Some band /\ tb_state band = QualityState.Marginal.
Proof.
  destruct (validated_policy_classifies_once DefaultPolicy.default_policy_document
    (with_builtin_descriptors 512) 512 16 snr (the_rule snr) (d_of_Z 20)) as (b & Hb & _).
  - vm_compute. reflexivity.
  - vm_compute. reflexivity.
  - vm_compute. reflexivity.
  - exists b. split; [exact Hb|]. vm_compute in Hb. injection Hb as <-. reflexivity.
Defined.

(** C30: The policy registry refines an append-only log.  After any sequence of
    publications it holds exactly the last [max_generations] records of the log
    of everything published, numbered 1, 2, 3, ... without gaps or reuse, each
    with the hash of its own document: publishing appends, and never rewrites a
    generation. *)
Theorem registry_is_bounded_log `{Charconv} initial at_ max docs catalog mr mb records r :
  0 <= max -> zlen docs < u64_max ->
  publish_all (PolicyRegistry.create initial at_ max) docs catalog mr mb = Some (records, r) ->
  let log := PolicyRegistry.generations (PolicyRegistry.create initial at_ max) ++ records in
  PolicyRegistry.generations r = last_n (PolicyRegistry.max_generations r) log /\
  consecutive 1 log /\
  Forall (fun g => ps_content_hash (pgr_stamp g) = content_hash (pgr_document g)) log /\
  PolicyRegistry.current r = last log.
Proof.
  intros Hm Hl Hp log.
  destruct (publish_all_refines docs _ _ catalog mr mb records r (create_refines initial at_ max Hm))
    as ([Hb Ht Hc Hn Hh] & _); [|done|].
  { unfold zlen at 1. simpl. lia. }
  split; [done|]. split; [done|]. split; [done|].
  unfold PolicyRegistry.current. rewrite Ht. by apply last_n_last_opt.
Qed.

(** Recovery of the policy log.  Restoring, in order, the records a sequence
    of publications produced, on a registry created with the same initial
    document, accepts every record and rebuilds the same registry. *)
Theorem policy_replay_rebuilds_registry `{Charconv} initial at_ max docs catalog mr mb records r :
  0 <= max -> zlen docs < u64_max ->
  publish_all (PolicyRegistry.create initial at_ max) docs catalog mr mb = Some (records, r) ->
  restore_all (PolicyRegistry.create initial at_ max) records catalog mr mb
  = (replicate (List.length docs) StatusCode.Ok, r).
Proof.
  intros Hm Hl Hp.
  destruct (publish_all_refines docs _ _ catalog mr mb records r (create_refines initial at_ max Hm))
    as (_ & _ & E); [|done..].
  unfold zlen at 1. simpl. lia.
Qed.

(** A compacted policy log cannot be restored.  Once a registry has
    dropped two generations or more, a snapshot of the generations it retains
    is refused record by record by a fresh registry: each one is reported
    corrupt because it is not the next generation. *)
Theorem compacted_policies_refused `{Charconv} r log record fresh_doc at_ max catalog mr mb :
  registry_refines r log -> PolicyRegistry.max_generations r + 2 <= zlen log ->
  In record (PolicyRegistry.generations r) ->
  validate_policy (pgr_document record) catalog mr mb = StatusCode.Ok ->
  let fresh := PolicyRegistry.create fresh_doc at_ max in
  PolicyRegistry.restore fresh record catalog mr mb = (StatusCode.Corrupt, fresh).
Proof.
  intros [Hb Ht Hc Hn Hh] Hl Hin Hv fresh.
  assert (3 <= gen_of record) as Hg.
  { destruct (last_n_split (PolicyRegistry.max_generations r) log) as (d & E & Hd).
    rewrite Ht in Hin. rewrite E in Hc. apply consecutive_app in Hc as [_ Hc].
    apply (consecutive_In _ _ _ Hc) in Hin. lia. }
  unfold PolicyRegistry.restore. rewrite Hv. unfold gen_of in Hg.
  unfold fresh, PolicyRegistry.get, PolicyRegistry.create, PolicyRegistry.back_generation. simpl.
  destruct (Z.eqb_spec 1 (ps_generation (pgr_stamp record))); [lia|].
  change (counter_next 1) with 2. destruct (Z.eqb_spec (ps_generation (pgr_stamp record)) 2); [lia|done].
Qed.

(** The content hash does not determine the policy.  There are two documents
    that both validate, share their canonical text and therefore their content
    hash, and classify the same value differently: band identifiers are written
    into the canonical text unescaped and may contain line breaks. *)
Theorem content_hash_collision `{Charconv} :
  exists d1 d2 catalog, validate_policy d1 catalog 8 8 = StatusCode.Ok /\
    validate_policy d2 catalog 8 8 = StatusCode.Ok /\
    content_hash d1 = content_hash d2 /\
    exists r1 r2 b1 b2, find_rule d1 snr = Some r1 /\ find_rule d2 snr = Some r2 /\
      rule_classify r1 (d_of_Z 2) = Some b1 /\ rule_classify r2 (d_of_Z 2) = Some b2 /\
      tb_state b1 = QualityState.Marginal /\ tb_state b2 = QualityState.Degraded.
Proof.
  exists (one_rule_policy bands_a), (one_rule_policy bands_b), (with_builtin_descriptors 512).
  split; [vm_compute; reflexivity|]. split; [vm_compute; reflexivity|].
  split; [unfold content_hash; by rewrite (one_rule_same_text _ _ bands_same_text)|].
  exists (one_rule bands_a), (one_rule bands_b).
  do 2 eexists. split; [reflexivity|]. split; [reflexivity|].
  split; [lazy; reflexivity|]. split; [lazy; reflexivity|]. split; reflexivity.
Qed.

Module PolicyExamples.
#[local] Instance no_charconv : Charconv := {| to_chars_double := fun _ => "1.5"%string |}.
Definition doc : PolicyDocument :=
  mkPolicyDocument "edge" [the_rule snr] (pd_freshness DefaultPolicy.default_policy_document)
    (pd_aggregation DefaultPolicy.default_policy_document) [] true.
Definition t0 : Timestamp := mkTimestamp 0 true.
Definition catalog : MetricCatalog := Eval vm_compute in with_builtin_descriptors 512.
Definition three : list (PolicyDocument * Timestamp) := [(doc, t0); (doc, t0); (doc, t0)].
Definition published : list PolicyGenerationRecord * PolicyRegistry.t := Eval vm_compute in
  match publish_all (PolicyRegistry.create doc t0 2) three catalog 8 8 with
  | Some p => p
  | None => ([], PolicyRegistry.create doc t0 2)
  end.

Lemma registry_is_bounded_log_witness :
  List.map gen_of (PolicyRegistry.generations published.2) = [3; 4].
Proof.
  destruct (registry_is_bounded_log doc t0 2 three catalog 8 8 published.1 published.2) as [E _].
  - lia.
  - vm_compute. reflexivity.
  - vm_compute. reflexivity.
  - rewrite E. vm_compute. reflexivity.
Defined.

Lemma policy_replay_rebuilds_registry_witness :
  restore_all (PolicyRegistry.create doc t0 2) published.1 catalog 8 8
  = (replicate 3 StatusCode.Ok, published.2).
Proof.
  apply (policy_replay_rebuilds_registry doc t0 2 three catalog 8 8 published.1 published.2).
  - lia.
  - vm_compute. reflexivity.
  - vm_compute. reflexivity.
Defined.

Definition last_record : PolicyGenerationRecord :=
  match last published.1 with Some g => g | None => mkPolicyGenerationRecord (mkPolicyStamp "" 0 "") t0 doc end.

Lemma compacted_policies_refused_witness :
  PolicyRegistry.restore (PolicyRegistry.create doc t0 2) last_record catalog 8 8
  = (StatusCode.Corrupt, PolicyRegistry.create doc t0 2).
Proof.
  apply (compacted_policies_refused published.2
    (PolicyRegistry.generations (PolicyRegistry.create doc t0 2) ++ published.1)).
  - apply (publish_all_refines three (PolicyRegistry.create doc t0 2) _ catalog 8 8).
    + apply create_refines. lia.
    + vm_compute. discriminate.
    + vm_compute. reflexivity.
  - vm_compute. discriminate.
  - vm_compute. right. left. reflexivity.
  - vm_compute. reflexivity.
Defined.
End PolicyExamples.
