(* ===== verification/Config.v ===== *)
(** * Configuration limits

    [runtime/config.*]: every bound of the runtime and the validation a
    configuration passes at startup. *)

From Stdlib Require Import ZArith Lia Bool List String Ascii.
From stdpp Require Import base decidable list strings.
From S2P Require Import Prelude OrdMap Core.

Open Scope Z_scope.

Record FabricLimits := mkFabricLimits {
  max_links : Z;
  max_generations_per_link : Z;
  max_sources_per_link : Z;
  max_streams_per_link : Z;
  max_capability_declarations : Z;
  max_metrics_per_capability : Z;
  max_policy_rules : Z;
  max_bands_per_rule : Z;
  max_policy_generations : Z;
  max_stream_history : Z;
  max_global_history : Z;
  max_dedup_window : Z;
  max_evidence_batch : Z;
  max_evidence_per_metric : Z;
  max_metrics_per_query : Z;
  max_window_records : Z;
  max_inspection_entries : Z;
  max_string_bytes : Z;
  max_observation_age_nanos : Z;
}.

Definition default_limits : FabricLimits :=
  mkFabricLimits 4096 4 64 1024 1024 128 128 16 8 64 65536 256 1024 8 64 4096 256 128 300000000000.

Definition require_between (value low high : Z) : Status :=
  refuse StatusCode.Invalid when (value <? low) || (high <? value) ;; StatusCode.Ok.

Definition limits_validate (l : FabricLimits) : Status :=
  require_between (max_links l) 1 1048576 ;;?
  require_between (max_generations_per_link l) 1 64 ;;?
  require_between (max_sources_per_link l) 1 4096 ;;?
  require_between (max_streams_per_link l) 1 1048576 ;;?
  require_between (max_capability_declarations l) 1 1048576 ;;?
  require_between (max_metrics_per_capability l) 1 4096 ;;?
  require_between (max_policy_rules l) 1 4096 ;;?
  require_between (max_bands_per_rule l) 2 256 ;;?
  require_between (max_policy_generations l) 1 4096 ;;?
  require_between (max_stream_history l) 1 1048576 ;;?
  require_between (max_global_history l) 1 16777216 ;;?
  require_between (max_dedup_window l) 1 1048576 ;;?
  require_between (max_evidence_batch l) 1 1048576 ;;?
  require_between (max_evidence_per_metric l) 1 1024 ;;?
  require_between (max_metrics_per_query l) 1 4096 ;;?
  require_between (max_window_records l) 1 16777216 ;;?
  require_between (max_inspection_entries l) 1 1048576 ;;?
  require_between (max_string_bytes l) 8 4096 ;;?
  (refuse StatusCode.Invalid when max_observation_age_nanos l <? 0 ;;
   refuse StatusCode.Invalid when max_dedup_window l <? max_stream_history l ;;
   StatusCode.Ok).

Record JournalConfig := mkJournalConfig {
  jc_enabled : bool;
  jc_path : string;
  jc_max_record_bytes : Z;
  jc_max_queue_depth : Z;
  jc_fsync_on_flush : bool;
  jc_compact_after_bytes : Z;
  jc_compact_after_records : Z;
  jc_compact_on_open : bool;
  jc_max_recovery_records : Z;
  jc_max_recovery_bytes : Z;
}.

Definition default_journal_config : JournalConfig :=
  mkJournalConfig false "" 1048576 8192 true 268435456 1000000 false 4000000 2147483648.

Definition journal_config_validate (c : JournalConfig) : Status :=
  require_between (jc_max_record_bytes c) 64 67108864 ;;?
  require_between (jc_max_queue_depth c) 1 4194304 ;;?
  require_between (jc_max_recovery_records c) 1 67108864 ;;?
  (refuse StatusCode.Invalid when jc_enabled c && String.eqb (jc_path c) "" ;;
   refuse StatusCode.Invalid when 512 <? zslen (jc_path c) ;;
   refuse StatusCode.Invalid
     when (jc_compact_after_records c =? 0) && (jc_compact_after_bytes c =? 0) ;;
   StatusCode.Ok).

Lemma require_between_ok value low high :
  require_between value low high = StatusCode.Ok <-> low <= value <= high.
Proof.
  unfold require_between. rewrite refuse_ok by done. rewrite orb_false_iff, !Z.ltb_ge. tauto.
Qed.

(** What the stores rely on of a validated configuration. *)
Record limits_sound (l : FabricLimits) : Prop := {
  ls_links : 1 <= max_links l <= 1048576;
  ls_generations : 1 <= max_generations_per_link l <= 64;
  ls_streams : 1 <= max_streams_per_link l <= 1048576;
  ls_capabilities : 1 <= max_capability_declarations l <= 1048576;
  ls_stream_history : 1 <= max_stream_history l <= 1048576;
  ls_global_history : 1 <= max_global_history l <= 16777216;
  ls_dedup : max_stream_history l <= max_dedup_window l <= 1048576;
  ls_strings : 8 <= max_string_bytes l <= 4096;
  ls_age : 0 <= max_observation_age_nanos l;
}.

Lemma limits_validate_sound l : limits_validate l = StatusCode.Ok -> limits_sound l.
Proof.
  intros H. unfold limits_validate in H. status_inv H.
  repeat match goal with Hx : require_between _ _ _ = _ |- _ => apply require_between_ok in Hx end.
  breflect. constructor; lia.
Qed.
