(* ===== verification/LinkRegistry.v ===== *)
(** * The link registry

    [store/link_registry.*]: the link identities and generations the runtime has
    seen evidence for, the current generation of each link, and the bounded list
    of generations kept per link. *)

From Stdlib Require Import ZArith Lia Bool List String Ascii.
From stdpp Require Import base decidable list strings.
From S2P Require Import Prelude OrdMap Core Identity Config.

Open Scope Z_scope.

Record LinkState := mkLinkState {
  ls_identity : LinkIdentity;
  ls_first_seen : Timestamp;
  ls_first_received : ReceiveStamp;
  ls_evidence_count : Z;
  ls_superseded : bool;
  ls_superseded_by : Z;
}.

Module LinkRegistry.
Record t := mk {
  limits : FabricLimits;
  links : list (LinkIdentity * LinkState);
  current : list (string * Z);
  generations : list (string * list LinkIdentity);
  evicted : list LinkIdentity;
}.

Definition create (limits : FabricLimits) : t := mk limits [] [] [] [].

Definition with_links (r : t) (l : list (LinkIdentity * LinkState)) : t :=
  mk (limits r) l (current r) (generations r) (evicted r).

(** [generations_[link]]: the entry, default-constructed when absent. *)
Definition generations_at (r : t) (link : string) : list LinkIdentity :=
  match om_find link (generations r) with Some g => g | None => [] end.

Definition note_evidence (r : t) (link : LinkIdentity) (observed_at : Timestamp)
    (received : ReceiveStamp) : Status * t :=
  match om_find link (links r) with
  | None =>
      let '(superseded, by_) :=
        match om_find (li_id link) (current r) with
        | Some cur => if li_generation link <? cur then (true, cur) else (false, 0)
        | None => (false, 0)
        end in
      (StatusCode.Ok,
       with_links r (om_emplace link (mkLinkState link observed_at received 1 superseded by_) (links r)))
  | Some s =>
      (StatusCode.Ok,
       with_links r (om_set link
         (mkLinkState (ls_identity s) (ls_first_seen s) (ls_first_received s)
            (incr64 (ls_evidence_count s)) (ls_superseded s) (ls_superseded_by s)) (links r)))
  end.

(** The loop that marks the older generations of [link]. *)
Definition supersede (link : string) (generation : Z) (l : list (LinkIdentity * LinkState))
  : list (LinkIdentity * LinkState) :=
  map (fun e : LinkIdentity * LinkState =>
         let '(k, s) := e in
         if eqb (li_id k) link && (li_generation k <? generation)
         then (k, mkLinkState (ls_identity s) (ls_first_seen s) (ls_first_received s)
                    (ls_evidence_count s) true generation)
         else e) l.

(** The eviction loop: pop the front of [gens] while it is longer than [bound],
    erasing the link state and recording the identity each time. *)
Fixpoint evict (bound : Z) (gens : list LinkIdentity) (l : list (LinkIdentity * LinkState))
    (ev : list LinkIdentity)
  : list LinkIdentity * list (LinkIdentity * LinkState) * list LinkIdentity :=
  match gens with
  | oldest :: rest =>
      if bound <? zlen gens then evict bound rest (om_erase oldest l) (ev ++ [oldest])
      else (gens, l, ev)
  | [] => (gens, l, ev)
  end.

(** From [advance_generation], after the current generation has been set. *)
Definition install_generation (r : t) (link : string) (generation : Z) (at_ : Timestamp)
    (received : ReceiveStamp) : t :=
  let marked := supersede link generation (links r) in
  let identity := mkLinkIdentity link generation in
  let gens := generations_at r link in
  let gens := if existsb (eqb identity) gens then gens else gens ++ [identity] in
  let '(gens, l, ev) := evict (max_generations_per_link (limits r)) gens marked (evicted r) in
  mk (limits r) (om_emplace identity (mkLinkState identity at_ received 0 false 0) l)
    (current r) (om_set link gens (generations r)) ev.

Definition with_current (r : t) (c : list (string * Z)) : t :=
  mk (limits r) (links r) c (generations r) (evicted r).

Definition advance_generation (r : t) (link : string) (generation : Z) (at_ : Timestamp)
    (received : ReceiveStamp) : Status * t :=
  let validation := validate_identity_text link kMaxIdentityBytes in
  if negb (ok validation) then (validation, r)
  else if counter_is_zero generation then (StatusCode.Invalid, r)
  else match om_find link (current r) with
       | Some cur =>
           if generation <? cur then (StatusCode.Fenced, r)
           else if generation =? cur then (StatusCode.Ok, r)
           else (StatusCode.Ok,
                 install_generation (with_current r (om_set link generation (current r)))
                   link generation at_ received)
       | None =>
           if max_links (limits r) <=? zlen (current r) then (StatusCode.LimitExceeded, r)
           else (StatusCode.Ok,
                 install_generation (with_current r (om_emplace link generation (current r)))
                   link generation at_ received)
       end.

Definition observe (r : t) (link : LinkIdentity) (observed_at : Timestamp)
    (received : ReceiveStamp) : Status * t :=
  let validation := validate_link_identity link in
  if negb (ok validation) then (validation, r)
  else match om_find (li_id link) (current r) with
       | None =>
           if max_links (limits r) <=? zlen (current r) then (StatusCode.LimitExceeded, r)
           else
             let r1 := mk (limits r) (links r)
               (om_emplace (li_id link) (li_generation link) (current r))
               (om_set (li_id link) (generations_at r (li_id link) ++ [link]) (generations r))
               (evicted r) in
             note_evidence r1 link observed_at received
       | Some cur =>
           if cur <? li_generation link then
             match advance_generation r (li_id link) (li_generation link) observed_at received with
             | (StatusCode.Ok, r1) => note_evidence r1 link observed_at received
             | (e, r1) => (e, r1)
             end
           else note_evidence r link observed_at received
       end.

Definition mark_registered := observe.

Definition contains (r : t) (link : LinkIdentity) : bool := om_contains link (links r).
Definition find (r : t) (link : LinkIdentity) : option LinkState := om_find link (links r).
Definition current_generation (r : t) (link : string) : option Z := om_find link (current r).
Definition is_current (r : t) (link : LinkIdentity) : bool :=
  match om_find (li_id link) (current r) with
  | Some g => g =? li_generation link
  | None => false
  end.
Definition snapshot (r : t) : list LinkState := om_values (links r).
Definition size (r : t) : Z := zlen (links r).
Definition take_evicted (r : t) : list LinkIdentity * t :=
  (evicted r, mk (limits r) (links r) (current r) (generations r) []).
Definition clear (r : t) : t := mk (limits r) [] [] [] [].
End LinkRegistry.

(** ** The fencing invariant *)

(** Every link state belongs to a link with a current generation [g], is no
    newer than [g], and is marked superseded (by [g]) exactly when it is older. *)
Definition link_fenced (c : list (string * Z)) (k : LinkIdentity) (s : LinkState) : Prop :=
  exists g, om_find (li_id k) c = Some g /\ ls_identity s = k /\ li_generation k <= g /\
    ls_superseded s = (li_generation k <? g) /\
    (ls_superseded s = true -> ls_superseded_by s = g).

Record registry_inv (r : LinkRegistry.t) : Prop := {
  ri_links_wf : om_wf (LinkRegistry.links r);
  ri_current_wf : om_wf (LinkRegistry.current r);
  ri_generations_wf : om_wf (LinkRegistry.generations r);
  ri_fenced : forall k s, om_find k (LinkRegistry.links r) = Some s ->
    link_fenced (LinkRegistry.current r) k s;
  ri_links_bound : zlen (LinkRegistry.current r) <= max_links (LinkRegistry.limits r);
  ri_generations_bound : forall id gs, om_find id (LinkRegistry.generations r) = Some gs ->
    zlen gs <= max_generations_per_link (LinkRegistry.limits r);
  ri_current_listed : forall id, om_find id (LinkRegistry.generations r) <> None ->
    om_find id (LinkRegistry.current r) <> None;
}.

Module LinkRegistryFacts.
Import LinkRegistry.

Definition supersede_state (link : string) (generation : Z) (k : LinkIdentity) (s : LinkState)
  : LinkState :=
  if eqb (li_id k) link && (li_generation k <? generation)
  then mkLinkState (ls_identity s) (ls_first_seen s) (ls_first_received s)
         (ls_evidence_count s) true generation
  else s.

Lemma supersede_map link generation l :
  supersede link generation l = map (fun e => (e.1, supersede_state link generation e.1 e.2)) l.
Proof.
  unfold supersede, supersede_state. apply map_ext. intros [k s]. simpl. by case_match.
Qed.

Lemma evict_spec bound gens : forall l ev gens' l' ev',
  0 <= bound -> om_wf l ->
  evict bound gens l ev = (gens', l', ev') ->
  gens' = last_n bound gens /\ om_wf l' /\
  (forall k s, om_find k l' = Some s -> om_find k l = Some s).
Proof.
  induction gens as [|o rest IH]; intros l ev gens' l' ev' Hb Hw He; simpl in He; [by simplify_eq|].
  destruct (bound <? zlen (o :: rest)) eqn:E; breflect; simplify_eq.
  - destruct (IH _ _ _ _ _ Hb (om_erase_wf o l Hw) He) as (-> & Hw' & Hf). split; [|split; [done|]].
    + unfold last_n. rewrite zlen_cons in E. unfold zlen in E. simpl.
      replace (S (List.length rest) - Z.to_nat bound)%nat
        with (S (List.length rest - Z.to_nat bound)) by lia. done.
    + intros k s Hk. specialize (Hf k s Hk). destruct (decide (k = o)) as [-> |].
      * by rewrite om_find_erase_eq in Hf.
      * by rewrite om_find_erase_ne in Hf.
  - by rewrite last_n_all.
Qed.

Lemma note_evidence_inv r link at_ rcv g :
  registry_inv r -> om_find (li_id link) (current r) = Some g -> li_generation link <= g ->
  registry_inv (note_evidence r link at_ rcv).2.
Proof.
  intros [H1 H2 H3 H4 H5 H6 H7] Hg Hle. unfold note_evidence.
  destruct (om_find link (links r)) as [s|] eqn:Ef; simpl.
  - constructor; simpl; auto with lqf. intros k s'. rewrite om_find_set.
    destruct (eqb k link) eqn:E; [|by apply H4]. apply eqb_true in E as ->. intros. simplify_eq.
    destruct (H4 _ _ Ef) as (g' & ? & ? & ? & ? & ?). exists g'. done.
  - rewrite Hg. destruct (li_generation link <? g) eqn:El; breflect; constructor; simpl; auto with lqf;
      intros k s'; rewrite om_find_emplace;
      destruct (om_find k (links r)) eqn:Ek; intros Hs; simplify_eq; try (by apply H4);
      destruct (eqb k link) eqn:E; simplify_eq; apply eqb_true in E as ->; exists g; simpl;
      repeat split; auto; try discriminate; symmetry; (apply Z.ltb_lt || apply Z.ltb_ge); lia.
Qed.

Lemma install_generation_inv r link generation at_ rcv :
  registry_inv r -> 1 <= max_generations_per_link (limits r) ->
  (forall k s, om_find k (links r) = Some s -> li_id k = link -> li_generation k < generation) ->
  zlen (om_set link generation (current r)) <= max_links (limits r) ->
  registry_inv (install_generation (with_current r (om_set link generation (current r)))
    link generation at_ rcv).
Proof.
  intros [H1 H2 H3 H4 H5 H6 H7] Hb Hnew Hl. unfold install_generation. simpl.
  set (gens := if existsb _ _ then _ else _).
  destruct (evict _ gens _ _) as [[gens' l'] ev'] eqn:Ee.
  apply evict_spec in Ee as (-> & Hw' & Hf);
    [|lia|rewrite supersede_map; by apply (om_map_wf (supersede_state link generation))].
  constructor; simpl; auto with lqf.
  - intros k s. rewrite om_find_emplace. destruct (om_find k l') as [s0|] eqn:Ek.
    + intros. simplify_eq. apply Hf in Ek. rewrite supersede_map in Ek.
      pose proof (om_find_map (supersede_state link generation) k (links r)) as Em.
      rewrite Em in Ek. apply fmap_Some in Ek as (s1 & Es1 & ->).
      destruct (H4 _ _ Es1) as (g & Hg & Hid & Hle & Hsup & Hby).
      unfold supersede_state, link_fenced. rewrite om_find_set.
      destruct (eqb (li_id k) link) eqn:E; simpl.
      * apply eqb_true in E. specialize (Hnew _ _ Es1 E).
        assert ((li_generation k <? generation) = true) as Hlt by (apply Z.ltb_lt; lia).
        rewrite Hlt. exists generation. simpl. repeat split; auto; lia.
      * exists g. repeat split; auto.
    + destruct (eqb k _) eqn:E; [|done]. intros. simplify_eq. apply eqb_true in E as ->.
      exists generation. simpl. rewrite om_find_set_eq, Z.ltb_irrefl. repeat split; [lia|done].
  - intros id gs. rewrite om_find_set. case_match; [|by apply H6]. intros. simplify_eq.
    apply last_n_length. lia.
  - intros id. rewrite !om_find_set. case_match; [done|]. apply H7.
Qed.

Lemma advance_generation_inv r link generation at_ rcv :
  limits_sound (limits r) -> registry_inv r ->
  registry_inv (advance_generation r link generation at_ rcv).2 /\
  ((advance_generation r link generation at_ rcv).1 = StatusCode.Ok ->
   exists g, om_find link (current (advance_generation r link generation at_ rcv).2) = Some g
     /\ generation <= g).
Proof.
  intros Hs Hi. destruct (ls_generations _ Hs) as [Hb _].
  unfold advance_generation. destruct (negb (ok _)) eqn:E1; [by destruct (validate_identity_text _ _)|].
  destruct (counter_is_zero generation); [done|].
  destruct (om_find link (current r)) as [cur|] eqn:Ec.
  - destruct (generation <? cur) eqn:E2; [done|]. destruct (generation =? cur) eqn:E3; breflect.
    + split; [done|]. intros _. exists cur. simpl. rewrite Ec. split; [done|lia].
    + simpl. split.
      * apply install_generation_inv; [done|done| |].
        -- intros k s Hk Hid. destruct (ri_fenced _ Hi _ _ Hk) as (g & Hg & _ & Hle & _).
           rewrite Hid, Ec in Hg. simplify_eq. lia.
        -- rewrite om_set_length by apply Hi. unfold om_contains. rewrite Ec.
           pose proof (ri_links_bound _ Hi). lia.
      * intros _. exists generation. split; [|lia]. unfold install_generation. simpl.
        destruct (evict _ _ _ _) as [[? ?] ?]. simpl. apply om_find_set_eq.
  - destruct (max_links (limits r) <=? zlen (current r)) eqn:E2; [done|]. breflect. simpl.
    rewrite om_emplace_absent by done. split.
    + apply install_generation_inv; [done|done| |].
      * intros k s Hk Hid. destruct (ri_fenced _ Hi _ _ Hk) as (g & Hg & _).
        rewrite Hid, Ec in Hg. done.
      * rewrite om_set_length by apply Hi. unfold om_contains. rewrite Ec. lia.
    + intros _. exists generation. split; [|lia]. unfold install_generation. simpl.
      destruct (evict _ _ _ _) as [[? ?] ?]. simpl. apply om_find_set_eq.
Qed.

Lemma install_limits r link generation at_ rcv :
  limits (install_generation r link generation at_ rcv) = limits r.
Proof. unfold install_generation. by destruct (evict _ _ _ _) as [[? ?] ?]. Qed.

Lemma advance_limits r link generation at_ rcv :
  limits (advance_generation r link generation at_ rcv).2 = limits r.
Proof.
  unfold advance_generation. repeat case_match; try done; simpl; by rewrite install_limits.
Qed.

Lemma note_limits r link at_ rcv : limits (note_evidence r link at_ rcv).2 = limits r.
Proof. unfold note_evidence. by repeat case_match. Qed.

Lemma observe_link_inv r link at_ rcv :
  limits_sound (limits r) -> registry_inv r ->
  registry_inv (observe r link at_ rcv).2 /\ limits (observe r link at_ rcv).2 = limits r.
Proof.
  intros Hs Hi. unfold observe. destruct (negb (ok _)) eqn:E1; [done|].
  destruct (om_find (li_id link) (current r)) as [cur|] eqn:Ec.
  - destruct (cur <? li_generation link) eqn:E2; breflect.
    + destruct (advance_generation_inv r (li_id link) (li_generation link) at_ rcv Hs Hi) as [Ha Hg].
      pose proof (advance_limits r (li_id link) (li_generation link) at_ rcv) as Hl.
      destruct (advance_generation _ _ _ _ _) as [st r1]. simpl in *.
      destruct st; try (by split). destruct Hg as (g & Hg & Hle); [done|].
      split; [|by rewrite note_limits]. by eapply note_evidence_inv.
    + split; [|by rewrite note_limits]. eapply note_evidence_inv; [done|done|lia].
  - destruct (max_links (limits r) <=? zlen (current r)) eqn:E2; [done|]. breflect.
    split; [|by rewrite note_limits].
    eapply note_evidence_inv with (g := li_generation link); simpl; [|by rewrite om_find_emplace, Ec, eqb_refl|lia].
    destruct Hi as [H1 H2 H3 H4 H5 H6 H7]. constructor; simpl; auto with lqf.
    + intros k s Hk. destruct (H4 _ _ Hk) as (g & Hg & ?). exists g. by rewrite om_find_emplace, Hg.
    + rewrite om_emplace_length by done. unfold om_contains. rewrite Ec. lia.
    + intros id gs. rewrite om_find_set. case_match eqn:E; [|by apply H6]. intros. simplify_eq.
      apply eqb_true in E as ->. unfold generations_at.
      destruct (om_find (li_id link) (generations r)) eqn:E3.
      * exfalso. apply (H7 (li_id link)); [by rewrite E3|done].
      * pose proof (ls_generations _ Hs). unfold zlen. simpl. lia.
    + intros id. rewrite om_find_set, om_find_emplace. case_match eqn:E.
      * by case_match.
      * intros Hn. specialize (H7 _ Hn). by destruct (om_find id (current r)).
Qed.
End LinkRegistryFacts.

(** ** Theorems *)

(** The operations the fabric drives the registry with. *)
Inductive LinkOp :=
  | OpObserve (link : LinkIdentity)
  | OpAdvance (link : string) (generation : Z)
  | OpTakeEvicted.

Definition link_step (at_ : Timestamp) (rcv : ReceiveStamp) (op : LinkOp) (r : LinkRegistry.t)
  : LinkRegistry.t :=
  match op with
  | OpObserve link => (LinkRegistry.observe r link at_ rcv).2
  | OpAdvance link g => (LinkRegistry.advance_generation r link g at_ rcv).2
  | OpTakeEvicted => (LinkRegistry.take_evicted r).2
  end.

Definition link_run (limits : FabricLimits) (at_ : Timestamp) (rcv : ReceiveStamp) (ops : list LinkOp)
  : LinkRegistry.t :=
  fold_left (fun r op => link_step at_ rcv op r) ops (LinkRegistry.create limits).

Lemma create_registry_inv limits : limits_sound limits -> registry_inv (LinkRegistry.create limits).
Proof.
  intros Hs. pose proof (ls_links _ Hs).
  constructor; simpl; auto with lqf; try done; intros; unfold zlen; simpl; lia.
Qed.

Lemma link_step_inv at_ rcv op r :
  limits_sound (LinkRegistry.limits r) -> registry_inv r ->
  registry_inv (link_step at_ rcv op r) /\
  LinkRegistry.limits (link_step at_ rcv op r) = LinkRegistry.limits r.
Proof.
  intros Hs Hi. destruct op; simpl.
  - by apply LinkRegistryFacts.observe_link_inv.
  - split; [by apply LinkRegistryFacts.advance_generation_inv|].
    by apply LinkRegistryFacts.advance_limits.
  - split; [|done]. by destruct Hi; constructor.
Qed.

(** C29: Generation fencing.  After any sequence of observations, generation
    advances and evictions, every link state the registry holds belongs to a
    link with a current generation, is not newer than it, and is marked
    superseded, by that current generation, exactly when it is older; the number
    of link identities and of generations listed per link stay within the
    configured bounds. *)
Theorem link_registry_fences_generations limits at_ rcv ops :
  limits_validate limits = StatusCode.Ok -> registry_inv (link_run limits at_ rcv ops).
Proof.
  intros Hv. apply limits_validate_sound in Hv.
  enough (forall r, LinkRegistry.limits r = limits -> registry_inv r ->
    registry_inv (fold_left (fun r op => link_step at_ rcv op r) ops r)) as He.
  { apply He; [done|]. by apply create_registry_inv. }
  induction ops as [|op ops IH]; simpl; intros r Hl Hi; [done|].
  destruct (link_step_inv at_ rcv op r) as [H1 H2]; [by rewrite Hl|done|].
  apply IH; [congruence|done].
Qed.

Definition sample_at : Timestamp := mkTimestamp 0 true.
Definition sample_rcv : ReceiveStamp := mkReceiveStamp 0 0 1.

Lemma link_registry_fences_generations_witness :
  registry_inv (link_run default_limits sample_at sample_rcv
    [OpObserve (mkLinkIdentity "a" 1); OpObserve (mkLinkIdentity "a" 3); OpObserve (mkLinkIdentity "a" 2)]).
Proof. apply link_registry_fences_generations. vm_compute. reflexivity. Defined.

(** Observing an older, unlisted generation adds a link state and nothing else. *)
Lemma observe_older_size r link g at_ rcv :
  om_wf (LinkRegistry.links r) -> validate_link_identity link = StatusCode.Ok ->
  om_find (li_id link) (LinkRegistry.current r) = Some g -> li_generation link < g ->
  om_find link (LinkRegistry.links r) = None ->
  let r' := (LinkRegistry.observe r link at_ rcv).2 in
  LinkRegistry.size r' = LinkRegistry.size r + 1 /\ om_wf (LinkRegistry.links r') /\
  LinkRegistry.current r' = LinkRegistry.current r /\
  (forall k, k <> link -> om_find k (LinkRegistry.links r') = om_find k (LinkRegistry.links r)).
Proof.
  intros Hw Hv Hg Hlt Hn r'. unfold r', LinkRegistry.observe. rewrite Hv. simpl.
  rewrite Hg. destruct (g <? li_generation link) eqn:E; breflect; [lia|].
  unfold LinkRegistry.note_evidence. rewrite Hn, Hg.
  assert ((li_generation link <? g) = true) as -> by (by apply Z.ltb_lt). simpl.
  unfold LinkRegistry.size. simpl. rewrite om_emplace_absent by done.
  split; [|split; [by apply om_set_wf|]]; [|split; [done|]].
  - rewrite om_set_length by done. unfold om_contains. by rewrite Hn.
  - intros k Hk. by apply om_find_set_ne.
Qed.

Lemma validate_link_a g : 0 < g -> validate_link_identity (mkLinkIdentity "a" g) = StatusCode.Ok.
Proof.
  intros Hg. unfold validate_link_identity. simpl. unfold counter_is_zero.
  destruct (Z.eqb_spec g 0); [lia|]. done.
Qed.

(** The number of link states is not bounded by the configured limits.
    Reporting one new generation and then [n] older ones leaves [n + 1] link
    states, although one link and one generation per link are allowed: the
    eviction list only tracks generations that were current. *)
Theorem older_generations_are_not_bounded limits at_ rcv n :
  max_links limits = 1 -> max_generations_per_link limits = 1 -> Z.of_nat n < u64_max ->
  let ops := OpObserve (mkLinkIdentity "a" (Z.of_nat n + 1))
    :: map (fun i => OpObserve (mkLinkIdentity "a" (Z.of_nat i))) (seq 1 n) in
  LinkRegistry.size (link_run limits at_ rcv ops) = Z.of_nat n + 1.
Proof.
  intros Hl Hg Hn ops.
  assert (forall m, (m <= n)%nat ->
    let r := link_run limits at_ rcv (OpObserve (mkLinkIdentity "a" (Z.of_nat n + 1))
      :: map (fun i => OpObserve (mkLinkIdentity "a" (Z.of_nat i))) (seq 1 m)) in
    LinkRegistry.size r = Z.of_nat m + 1 /\ om_wf (LinkRegistry.links r) /\
    om_find "a"%string (LinkRegistry.current r) = Some (Z.of_nat n + 1) /\
    (forall i, (m < i)%nat -> (i <= n)%nat ->
       om_find (mkLinkIdentity "a" (Z.of_nat i)) (LinkRegistry.links r) = None)) as Hm.
  2:{ apply Hm. lia. }
  induction m as [|m IH]; intros Hle.
  - unfold link_run. simpl. unfold LinkRegistry.observe. simpl. rewrite Hl.
    rewrite validate_link_a by lia. simpl. unfold LinkRegistry.note_evidence. simpl. rewrite Z.ltb_irrefl.
    repeat split; try done; [repeat constructor|]. intros i Hi Hi'. simpl.
    unfold cmp, LinkIdentity_Cmp, cmp_via. simpl. destruct (Z.compare_spec (Z.of_nat i) (Z.of_nat n + 1)); try done. lia.
  - destruct IH as (H1 & H2 & H3 & H4); [lia|].
    rewrite seq_S, map_app. unfold link_run in *. rewrite app_comm_cons, fold_left_app.
    set (r := fold_left _ (_ :: _) _) in *. cbn [map fold_left link_step].
    change (1 + m)%nat with (S m) in *.
    destruct (observe_older_size r (mkLinkIdentity "a" (Z.of_nat (S m))) (Z.of_nat n + 1) at_ rcv)
      as (H5 & H6 & H7 & H8); [done|by apply validate_link_a; lia|done|simpl; lia|by apply H4; lia|].
    split; [rewrite H5, H1; lia|]. split; [done|]. split; [by rewrite H7|].
    intros i Hi Hi'. rewrite H8; [apply H4; lia|]. intros [= ?]. lia.
Qed.

Lemma older_generations_are_not_bounded_witness :
  LinkRegistry.size (link_run
    (mkFabricLimits 1 1 64 1024 1024 128 128 16 8 64 65536 256 1024 8 64 4096 256 128 300000000000)
    sample_at sample_rcv
    (OpObserve (mkLinkIdentity "a" 6)
     :: map (fun i => OpObserve (mkLinkIdentity "a" (Z.of_nat i))) (seq 1 5))) = 6.
Proof. apply (older_generations_are_not_bounded _ _ _ 5); reflexivity. Defined.
