(* ===== verification/Classification.v ===== *)
(** * Reports, queries and windows

    [domain/classification.hpp]: the derived data the classifier produces and
    the queries it answers. *)

From Stdlib Require Import ZArith Lia Bool List String Ascii.
From stdpp Require Import base decidable list strings.
From S2P Require Import Prelude OrdMap Float Core Quality Metric Identity Counter Policy.

Open Scope Z_scope.

Record EvidenceRef := mkEvidenceRef {
  ref_source : SourceIdentity;
  ref_sequence : Z;
  ref_lane : LaneDimension;
  ref_metric : MetricId;
  ref_observed_at : Timestamp;
  ref_received : ReceiveStamp;
  ref_origin : EvidenceOrigin.t;
  ref_evidence_class : EvidenceClass.t;
  ref_authority : Z;
  ref_unit : Unit.t;
  ref_value : double;
  ref_counter_reading : option Z;
  ref_delta : option CounterDelta;
  ref_used : bool;
  ref_fresh : bool;
  ref_age_nanos : Z;
  ref_rendered : string;
  ref_provenance : string;
}.

Record MetricAssessment := mkMetricAssessment {
  as_metric : MetricId;
  as_lane : LaneDimension;
  as_state : QualityState.t;
  as_confidence : ConfidenceLevel.t;
  as_reasons : ReasonList;
  as_evidence : list EvidenceRef;
  as_rules : list string;
  as_value : option double;
  as_rate_per_second : option double;
  as_disagreement : option double;
  as_missing_lanes : list Z;
  as_sources_declared : Z;
  as_sources_with_evidence : Z;
  as_sources_fresh : Z;
  as_sources_conflicting : Z;
  as_capability_declared : bool;
  as_interval_rate_per_second : option double;
}.

Record LinkQualityReport := mkLinkQualityReport {
  rep_link : LinkIdentity;
  rep_link_registered : bool;
  rep_evidence_present : bool;
  rep_policy : PolicyStamp;
  rep_epoch : Z;
  rep_overall : QualityState.t;
  rep_confidence : ConfidenceLevel.t;
  rep_reasons : ReasonList;
  rep_metrics : list MetricAssessment;
  rep_evidence_considered : Z;
  rep_evidence_fresh : Z;
  rep_evidence_recovered : Z;
  rep_generated_wall_nanos : Z;
  rep_generated_steady_nanos : Z;
  rep_truncated : bool;
}.

Record QualityQuery := mkQualityQuery {
  qq_link : LinkIdentity;
  qq_lane : option LaneDimension;
  qq_metrics : list MetricId;
  qq_include_evidence : bool;
  qq_max_metrics : Z;
  qq_max_evidence_per_metric : Z;
}.

Module WindowAxis.
Inductive t := ObservationTime | ReceiveTime.
End WindowAxis.

#[export] Instance WindowAxis_enum : Enum WindowAxis.t.
Proof.
  refine {| enum_val := fun x => match x with
      | WindowAxis.ObservationTime => 0 | WindowAxis.ReceiveTime => 1 end;
    enum_all := [WindowAxis.ObservationTime; WindowAxis.ReceiveTime] |}; solve_enum.
Defined.
#[export] Instance WindowAxis_Cmp : Cmp WindowAxis.t := enum_cmp.

Record WindowQuery := mkWindowQuery {
  wq_link : option LinkIdentity;
  wq_metric : option MetricId;
  wq_lane : option LaneDimension;
  wq_source : option string;
  wq_axis : WindowAxis.t;
  wq_from_nanos : Z;
  wq_to_nanos : Z;
  wq_limit : Z;
  wq_include_evidence : bool;
  wq_assess_as_of : bool;
  wq_as_of_steady_nanos : Z;
  wq_max_metrics : Z;
  wq_max_evidence_per_metric : Z;
}.

Record WindowResult := mkWindowResult {
  wr_records : list EvidenceRecord;
  wr_matched : Z;
  wr_returned : Z;
  wr_truncated : bool;
  wr_earliest_available_nanos : Z;
  wr_latest_available_nanos : Z;
  wr_has_available_range : bool;
  wr_as_of_report : option LinkQualityReport;
}.

Record ConflictEntry := mkConflictEntry {
  ce_link : LinkIdentity;
  ce_metric : MetricId;
  ce_lane : LaneDimension;
  ce_claimants : list EvidenceRef;
  ce_spread : double;
  ce_tolerance : double;
}.

Record StaleEntry := mkStaleEntry {
  se_link : LinkIdentity;
  se_metric : MetricId;
  se_lane : LaneDimension;
  se_source : SourceIdentity;
  se_origin : EvidenceOrigin.t;
  se_age_nanos : Z;
  se_received : ReceiveStamp;
  se_reason : ReasonCode.t;
}.

Record FreshnessEntry := mkFreshnessEntry {
  fe_link : LinkIdentity;
  fe_metric : MetricId;
  fe_lane : LaneDimension;
  fe_fresh_sources : Z;
  fe_stale_sources : Z;
  fe_recovered_sources : Z;
  fe_declared_sources : Z;
  fe_newest_age_nanos : Z;
  fe_has_fresh_evidence : bool;
}.

Record InspectionFilter := mkInspectionFilter {
  if_link : option LinkIdentity;
  if_metric : option MetricId;
  if_max_entries : Z;
  if_max_claimants_per_conflict : Z;
}.

Record InspectionReport := mkInspectionReport {
  ir_policy : PolicyStamp;
  ir_epoch : Z;
  ir_generated_wall_nanos : Z;
  ir_conflicts : list ConflictEntry;
  ir_stale : list StaleEntry;
  ir_freshness : list FreshnessEntry;
  ir_links_inspected : Z;
  ir_entries_dropped : Z;
  ir_truncated : bool;
}.
