(* ===== verification/EvidenceStore.v ===== *)
(** * The evidence store

    [store/evidence_store.*]: one bounded stream per link, metric, lane and
    source, with its replay fence ([dedup] and [watermark]), its arrival-ordered
    ring, its counter continuity, and the global history.  [append] is the whole
    admission of one observation. *)

From Stdlib Require Import ZArith Lia Bool List String Ascii.
From stdpp Require Import base decidable list strings.
From S2P Require Import Prelude OrdMap Float Core Hash Quality Metric Identity Counter Config.
From S2P Require Import Policy Classification.

Open Scope Z_scope.

Record StreamStats := mkStreamStats {
  sst_accepted : Z; sst_duplicates : Z; sst_reordered : Z; sst_rejected : Z; sst_evicted : Z;
  sst_missing_samples : Z; sst_continuity_breaks : Z }.

Record StreamState := mkStreamState {
  st_key : StreamKey;
  st_recent : list EvidenceRecord;
  st_dedup : list (Z * Z);
  st_has_watermark : bool;
  st_watermark : Z;
  st_has_fed_sequence : bool;
  st_fed_sequence : Z;
  st_counter : CounterContinuity;
  st_last_counter_event : CounterEvent.t;
  st_last_counter_reason : ReasonCode.t;
  st_last_delta : option CounterDelta;
  st_rate_admissible : bool;
  st_latest_fed : option EvidenceRecord;
  st_stats : StreamStats;
}.

Definition fresh_stream (key : StreamKey) : StreamState :=
  mkStreamState key [] [] false 0 false 0 counter_clear CounterEvent.Baseline ReasonCode.None None
    false None (mkStreamStats 0 0 0 0 0 0 0).

Definition with_stats (s : StreamState) (f : StreamStats -> StreamStats) : StreamState :=
  mkStreamState (st_key s) (st_recent s) (st_dedup s) (st_has_watermark s) (st_watermark s)
    (st_has_fed_sequence s) (st_fed_sequence s) (st_counter s) (st_last_counter_event s)
    (st_last_counter_reason s) (st_last_delta s) (st_rate_admissible s) (st_latest_fed s)
    (f (st_stats s)).

Definition bump_duplicates (s : StreamStats) : StreamStats :=
  mkStreamStats (sst_accepted s) (incr64 (sst_duplicates s)) (sst_reordered s) (sst_rejected s)
    (sst_evicted s) (sst_missing_samples s) (sst_continuity_breaks s).
Definition bump_rejected (s : StreamStats) : StreamStats :=
  mkStreamStats (sst_accepted s) (sst_duplicates s) (sst_reordered s) (incr64 (sst_rejected s))
    (sst_evicted s) (sst_missing_samples s) (sst_continuity_breaks s).

(** The statistics after an acceptance: reordered or not, a continuity break or
    not, [evicted] records dropped from the ring. *)
Definition bump_accepted (reordered broken : bool) (evicted : Z) (s : StreamStats) : StreamStats :=
  mkStreamStats (incr64 (sst_accepted s)) (sst_duplicates s)
    (if reordered then incr64 (sst_reordered s) else sst_reordered s) (sst_rejected s)
    (wrap64 (sst_evicted s + evicted)) (sst_missing_samples s)
    (if broken then incr64 (sst_continuity_breaks s) else sst_continuity_breaks s).

Record IngestOutcome := mkIngestOutcome {
  io_accepted : bool;
  io_duplicate : bool;
  io_reordered : bool;
  io_reason : ReasonCode.t;
  io_counter_event : CounterEvent.t;
  io_continuity_broken : bool;
  io_rate_admissible : bool;
  io_stream_depth : Z;
  io_evicted : Z;
}.

Record WindowScan := mkWindowScan {
  ws_records : list EvidenceRecord;
  ws_matched : Z;
  ws_truncated : bool;
  ws_earliest : Z;
  ws_latest : Z;
  ws_has_range : bool;
}.

Definition stream_key_of (o : Observation) : StreamKey :=
  mkStreamKey (ob_link o) (ob_metric o) (ob_lane o) (ob_source o).

Definition evidence_digest `{Charconv} (o : Observation) : Z :=
  fnv1a64 (bytes_of_string
    (render_metric_id (ob_metric o)
      +:+ "|" +:+ text.format_u64 (if ld_aggregate (ob_lane o) then 18446744073709551615
                                   else ld_lane (ob_lane o))
      +:+ "|" +:+ unit_to_string (ob_unit o)
      +:+ "|" +:+ render_reading (ob_reading o) (ob_unit o)
      +:+ "|" +:+ text.format_i64 (ts_unix_nanos (ob_observed_at o))
      +:+ "|" +:+ text.format_u64 (ob_authority o)
      +:+ "|" +:+ class_to_string (pv_evidence_class (ob_provenance o)))) fnv1a64_offset.

Definition counter_observation_from (o : Observation) (c : CounterReading) (received : ReceiveStamp)
  : CounterObservation :=
  mkCounterObservation (ctr_value c) (ctr_width c) (ctr_reset_declared c)
    (ts_unix_nanos (ob_observed_at o)) (rs_steady_nanos received) (ob_sequence o)
    (si_incarnation (ob_source o)) (li_generation (ob_link o)).

Module EvidenceStore.
Record t := mk {
  limits : FabricLimits;
  streams : list (StreamKey * StreamState);
  history : list EvidenceRecord;
  streams_per_link : list (LinkIdentity * Z);
}.

Definition create (limits : FabricLimits) : t := mk limits [] [] [].

Definition with_stream (s : t) (key : StreamKey) (stream : StreamState) : t :=
  mk (limits s) (om_set key stream (streams s)) (history s) (streams_per_link s).

Definition used_by (s : t) (link : LinkIdentity) : Z :=
  match om_find link (streams_per_link s) with Some n => n | None => 0 end.

Definition admit_stream (s : t) (key : StreamKey) : bool * t :=
  let used := used_by s (sk_link key) in
  let touch n := mk (limits s) (streams s) (history s) (om_set (sk_link key) n (streams_per_link s)) in
  if max_streams_per_link (limits s) <=? used then (false, touch used) else (true, touch (used + 1)).

(** The stream of [key], created when there is room for it. *)
Definition stream_for (s : t) (key : StreamKey) : option StreamState * t :=
  match om_find key (streams s) with
  | Some stream => (Some stream, s)
  | None =>
      match admit_stream s key with
      | (false, s') => (None, s')
      | (true, s') => (Some (fresh_stream key), with_stream s' key (fresh_stream key))
      end
  end.

(** The loop that drops the sequences below the verification window; the map
    is ordered, so it walks from the front. *)
Fixpoint fence (window watermark : Z) (dedup : list (Z * Z)) : list (Z * Z) :=
  match dedup with
  | (oldest, digest) :: rest =>
      if (oldest <=? watermark) && (window <=? watermark - oldest)
      then fence window watermark rest else dedup
  | [] => []
  end.

(** What the replay fence decides before anything is recorded. *)
Inductive Verdict := VDuplicate | VRefuse (s : Status) | VAdmit (reordered : bool).

Definition verdict (window : Z) (stream : StreamState) (sequence digest : Z) : Verdict :=
  if st_has_watermark stream then
    match om_find sequence (st_dedup stream) with
    | Some seen => if seen =? digest then VDuplicate else VRefuse StatusCode.IdMismatch
    | None =>
        if sequence <? st_watermark stream then
          if window <? st_watermark stream - sequence then VRefuse StatusCode.Fenced
          else VAdmit true
        else VAdmit false
    end
  else VAdmit false.

Section Append.
Context `{Charconv} `{LongDouble}.

(** The continuity engine's part of an acceptance. *)
Definition feed_counter (stream : StreamState) (o : Observation) (received : ReceiveStamp)
    (config : CounterContinuityConfig) (feed : bool) : option (CounterStep * CounterContinuity) :=
  match ob_reading o with
  | ReadCounter c =>
      if feed then Some (observe (counter_observation_from o c received) config (st_counter stream))
      else None
  | ReadGauge _ => None
  end.

Definition broken_by (step : option (CounterStep * CounterContinuity)) : bool :=
  match step with
  | Some (s, _) => negb (counter_event_preserves_continuity (cs_event s))
  | None => false
  end.

(** The stream after an accepted record. *)
Definition accept (lim : FabricLimits) (stream : StreamState) (record : EvidenceRecord)
    (digest : Z) (reordered : bool) (config : CounterContinuityConfig) : StreamState :=
  let o := er_observation record in
  let sequence := ob_sequence o in
  let watermark := if negb (st_has_watermark stream) || (st_watermark stream <? sequence)
                   then sequence else st_watermark stream in
  let dedup := fence (max_dedup_window lim) watermark
                 (om_emplace sequence digest (st_dedup stream)) in
  let feed := negb (st_has_fed_sequence stream) || (st_fed_sequence stream <? sequence) in
  let step := feed_counter stream o (er_received record) config feed in
  let ring := st_recent stream ++ [record] in
  let recent := last_n (max_stream_history lim) ring in
  mkStreamState (st_key stream) recent dedup true watermark
    (st_has_fed_sequence stream || feed)
    (if feed then sequence else st_fed_sequence stream)
    (match step with Some (_, c) => c | None => st_counter stream end)
    (match step with Some (s, _) => cs_event s | None => st_last_counter_event stream end)
    (match step with Some (s, _) => cs_reason s | None => st_last_counter_reason stream end)
    (match step with Some (s, _) => cs_delta s | None => st_last_delta stream end)
    (match step with Some (_, c) => k_rate_admissible c | None => st_rate_admissible stream end)
    (if feed then Some record else st_latest_fed stream)
    (bump_accepted reordered (broken_by step) (zlen ring - zlen recent) (st_stats stream)).

Definition append (s : t) (o : Observation) (received : ReceiveStamp) (ordinal : Z)
    (origin : EvidenceOrigin.t) (config : CounterContinuityConfig) : Outcome IngestOutcome * t :=
  let key := stream_key_of o in
  match stream_for s key with
  | (None, s1) => (Bad StatusCode.LimitExceeded, s1)
  | (Some stream, s1) =>
      let digest := evidence_digest o in
      match verdict (max_dedup_window (limits s)) stream (ob_sequence o) digest with
      | VDuplicate =>
          (Good (mkIngestOutcome false true false ReasonCode.None CounterEvent.Baseline false false
                   (zlen (st_recent stream)) 0),
           with_stream s1 key (with_stats stream bump_duplicates))
      | VRefuse e => (Bad e, with_stream s1 key (with_stats stream bump_rejected))
      | VAdmit reordered =>
          let record := mkEvidenceRecord o received ordinal origin in
          let stream' := accept (limits s) stream record digest reordered config in
          let feed := negb (st_has_fed_sequence stream) || (st_fed_sequence stream <? ob_sequence o) in
          let step := feed_counter stream o received config feed in
          (Good (mkIngestOutcome true false reordered ReasonCode.None
                   (match step with Some (st, _) => cs_event st | None => CounterEvent.Baseline end)
                   (broken_by step) (st_rate_admissible stream') (zlen (st_recent stream'))
                   (zlen (st_recent stream) + 1 - zlen (st_recent stream'))),
           mk (limits s1) (om_set key stream' (streams s1))
             (last_n (max_global_history (limits s)) (history s1 ++ [record]))
             (streams_per_link s1))
      end
  end.
End Append.

Definition find (s : t) (key : StreamKey) : option StreamState := om_find key (streams s).

Definition streams_for (s : t) (link : LinkIdentity) (metric : MetricId) : list StreamState :=
  om_values (List.filter (fun e => eqb (sk_link e.1) link && eqb (sk_metric e.1) metric) (streams s)).

Definition streams_for_link (s : t) (link : LinkIdentity) : list StreamState :=
  om_values (List.filter (fun e => eqb (sk_link e.1) link) (streams s)).

(** *** The verification window *)

Definition axis_time (record : EvidenceRecord) (axis : WindowAxis.t) : Z :=
  match axis with
  | WindowAxis.ObservationTime => ts_unix_nanos (ob_observed_at (er_observation record))
  | WindowAxis.ReceiveTime => rs_wall_nanos (er_received record)
  end.

Definition opt_matches {A} `{Cmp A} (wanted : option A) (actual : A) : bool :=
  match wanted with Some w => eqb actual w | None => true end.

Definition record_matches (record : EvidenceRecord) (query : WindowQuery) : bool :=
  let o := er_observation record in
  opt_matches (wq_link query) (ob_link o)
  && opt_matches (wq_metric query) (ob_metric o)
  && opt_matches (wq_lane query) (ob_lane o)
  && opt_matches (wq_source query) (si_id (ob_source o))
  && (wq_from_nanos query <=? axis_time record (wq_axis query))
  && (axis_time record (wq_axis query) <? wq_to_nanos query).

Definition scan_record (query : WindowQuery) (scan : WindowScan) (record : EvidenceRecord)
  : WindowScan :=
  let time := axis_time record (wq_axis query) in
  let earliest := if ws_has_range scan then Z.min (ws_earliest scan) time else time in
  let latest := if ws_has_range scan then Z.max (ws_latest scan) time else time in
  if negb (record_matches record query)
  then mkWindowScan (ws_records scan) (ws_matched scan) (ws_truncated scan) earliest latest true
  else if zlen (ws_records scan) <? wq_limit query
  then mkWindowScan (ws_records scan ++ [record]) (incr64 (ws_matched scan)) (ws_truncated scan)
         earliest latest true
  else mkWindowScan (ws_records scan) (incr64 (ws_matched scan)) true earliest latest true.

Definition window_less (axis : WindowAxis.t) (l r : EvidenceRecord) : bool :=
  if negb (axis_time l axis =? axis_time r axis) then axis_time l axis <? axis_time r axis
  else er_ordinal l <? er_ordinal r.

Definition window (s : t) (query : WindowQuery) : WindowScan :=
  let scan := fold_left (scan_record query) (history s) (mkWindowScan [] 0 false 0 0 false) in
  mkWindowScan (std_sort (window_less (wq_axis query)) (ws_records scan)) (ws_matched scan)
    (ws_truncated scan) (ws_earliest scan) (ws_latest scan) (ws_has_range scan).

(** *** Snapshots and recovery *)

Definition record_sequence (r : EvidenceRecord) : Z := ob_sequence (er_observation r).

Fixpoint unseen_records (emitted : list Z) (records : list EvidenceRecord) : list EvidenceRecord :=
  match records with
  | [] => []
  | r :: rest =>
      if set_has (record_sequence r) emitted then unseen_records emitted rest
      else r :: unseen_records (record_sequence r :: emitted) rest
  end.

Definition retained_of (stream : StreamState) : list EvidenceRecord :=
  match st_latest_fed stream with
  | Some fed => fed :: unseen_records [record_sequence fed] (st_recent stream)
  | None => unseen_records [] (st_recent stream)
  end.

Definition retained_key (r : EvidenceRecord)
  : LinkIdentity * (MetricId * (LaneDimension * (SourceIdentity * Z))) :=
  let o := er_observation r in
  (ob_link o, (ob_metric o, (ob_lane o, (ob_source o, ob_sequence o)))).

Definition retained_records (s : t) : list EvidenceRecord :=
  std_sort (fun l r => lessb (retained_key l) (retained_key r))
    (flat_map retained_of (om_values (streams s))).

Definition dedup_window (s : t) (key : StreamKey) : list (Z * Z) :=
  match om_find key (streams s) with Some stream => st_dedup stream | None => [] end.

Definition stream_keys (s : t) : list StreamKey := om_keys (streams s).

Definition seed_entry (stream : StreamState) (item : Z * Z) : StreamState :=
  let raise := negb (st_has_watermark stream) || (st_watermark stream <? item.1) in
  mkStreamState (st_key stream) (st_recent stream) (om_set item.1 item.2 (st_dedup stream))
    (st_has_watermark stream || raise) (if raise then item.1 else st_watermark stream)
    (st_has_fed_sequence stream) (st_fed_sequence stream) (st_counter stream)
    (st_last_counter_event stream) (st_last_counter_reason stream) (st_last_delta stream)
    (st_rate_admissible stream) (st_latest_fed stream) (st_stats stream).

Definition with_dedup (stream : StreamState) (dedup : list (Z * Z)) : StreamState :=
  mkStreamState (st_key stream) (st_recent stream) dedup
    (st_has_watermark stream) (st_watermark stream)
    (st_has_fed_sequence stream) (st_fed_sequence stream) (st_counter stream)
    (st_last_counter_event stream) (st_last_counter_reason stream) (st_last_delta stream)
    (st_rate_admissible stream) (st_latest_fed stream) (st_stats stream).

Definition seed_dedup_window (s : t) (key : StreamKey) (entries : list (Z * Z)) : Status * t :=
  match stream_for s key with
  | (None, s1) => (StatusCode.LimitExceeded, s1)
  | (Some stream, s1) =>
      let seeded := fold_left seed_entry entries stream in
      (StatusCode.Ok,
       with_stream s1 key
         (with_dedup seeded (last_n (max_dedup_window (limits s)) (st_dedup seeded))))
  end.

Definition stream_count (s : t) : Z := zlen (streams s).
Definition record_count (s : t) : Z := zlen (history s).

Definition drop_link (s : t) (link : LinkIdentity) : Z * t :=
  let kept := List.filter (fun e => negb (eqb (sk_link e.1) link)) (streams s) in
  (zlen (streams s) - zlen kept,
   mk (limits s) kept
     (List.filter (fun r => negb (eqb (ob_link (er_observation r)) link)) (history s))
     (om_erase link (streams_per_link s))).

Definition clear (s : t) : t := mk (limits s) [] [] [].
End EvidenceStore.
