(* ===== verification/EvidenceStoreSpec.v ===== *)
(** * The evidence store: theorems

    The store stays within every configured bound; the replay fence accepts a
    sequence number once (except at the exact edge of its window, which is
    characterised); the continuity engine is fed in strict sequence order; the
    window query is a bounded, sorted selection of the history. *)

From Stdlib Require Import ZArith Lia Bool List String Ascii.
From Stdlib Require Import Sorting.Sorted Sorting.Permutation.
From stdpp Require Import base decidable list strings.
From S2P Require Import Prelude OrdMap Float Core Hash Quality Metric Identity Counter Config.
From S2P Require Import Policy Classification EvidenceStore.

Open Scope Z_scope.

(** ** Maps with integer keys *)

Section CountKeys.
Context {K V : Type} `{Cmp K} (P : K -> bool).

Definition count_keys (m : list (K * V)) : Z := zlen (List.filter (fun e => P e.1) m).

Lemma count_keys_set k v m :
  om_wf m ->
  count_keys (om_set k v m) = count_keys m + (if om_contains k m then 0 else if P k then 1 else 0).
Proof.
  unfold count_keys, om_contains. induction m as [|[k' v'] m IH]; simpl.
  { by destruct (P k). }
  rewrite om_wf_cons. intros [Ha Hw]. specialize (IH Hw).
  destruct (cmp k k') eqn:E; simpl.
  - apply cmp_eq_iff in E as ->. destruct (P k'); rewrite ?zlen_cons; lia.
  - destruct (P k), (P k'); rewrite ?zlen_cons; lia.
  - destruct (P k'); rewrite ?zlen_cons; lia.
Qed.

Lemma count_keys_nonneg m : 0 <= count_keys m.
Proof. apply zlen_nonneg. Qed.
End CountKeys.

Lemma int_keys_bound {V} (m : list (Z * V)) lo hi :
  om_wf m -> Forall (fun e => lo < e.1 <= hi) m -> lo <= hi -> zlen m <= hi - lo.
Proof.
  revert lo. induction m as [|[k v] m IH]; intros lo Hw Hf Hle; [unfold zlen; simpl; lia|].
  apply om_wf_cons in Hw as [Ha Hw]. apply Forall_cons in Hf as [Hk Hf]. simpl in Hk.
  rewrite zlen_cons. assert (zlen m <= hi - k); [|lia]. apply IH; [done| |lia].
  unfold above in Ha. rewrite Forall_forall in *. intros e He. specialize (Ha e He). specialize (Hf e He).
  unfold cmp in Ha. simpl in Ha. rewrite Z.compare_lt_iff in Ha. lia.
Qed.

Lemma fence_filter window watermark dedup :
  om_wf dedup -> Forall (fun e => e.1 <= watermark) dedup ->
  EvidenceStore.fence window watermark dedup
  = List.filter (fun e => (fun k => watermark - k <? window) e.1) dedup.
Proof.
  induction dedup as [|[k d] m IH]; intros Hw Hf; simpl; [done|].
  apply Forall_cons in Hf as [Hk Hf]. apply om_wf_cons in Hw as [Ha Hw]. simpl in Hk.
  destruct (k <=? watermark) eqn:E1; breflect; [|lia]. simpl.
  destruct (window <=? watermark - k) eqn:E2; breflect.
  - assert ((watermark - k <? window) = false) as -> by (apply Z.ltb_ge; lia). by apply IH.
  - assert ((watermark - k <? window) = true) as -> by (apply Z.ltb_lt; lia). f_equal.
    symmetry. apply forallb_filter_id, forallb_forall. intros e He. apply Z.ltb_lt.
    unfold above in Ha. rewrite Forall_forall in Ha. apply list_elem_of_In in He. specialize (Ha e He).
    unfold cmp in Ha. simpl in Ha. rewrite Z.compare_lt_iff in Ha. lia.
Qed.

Lemma om_wf_app_r {K V} `{Cmp K} (m1 m2 : list (K * V)) : om_wf (m1 ++ m2) -> om_wf m2.
Proof.
  induction m1 as [|[k v] m1 IH]; [done|]. simpl. rewrite om_wf_cons. intros [_ Hw]. auto.
Qed.

(** ** Filters *)

Lemma filter_swap {A} (f g : A -> bool) l :
  List.filter f (List.filter g l) = List.filter g (List.filter f l).
Proof.
  induction l as [|x l IH]; simpl; [done|].
  destruct (f x) eqn:Ef, (g x) eqn:Eg; simpl; rewrite ?Ef, ?Eg, ?IH; done.
Qed.

Lemma filter_none {A} (f : A -> bool) l : (forall x, In x l -> f x = false) -> List.filter f l = [].
Proof.
  induction l as [|x l IH]; simpl; intros Hf; [done|]. rewrite (Hf x) by auto. apply IH. auto.
Qed.

Lemma filter_all {A} (f : A -> bool) l : (forall x, In x l -> f x = true) -> List.filter f l = l.
Proof.
  induction l as [|x l IH]; simpl; intros Hf; [done|]. rewrite (Hf x) by auto. f_equal. apply IH. auto.
Qed.

(** ** Stream invariant *)

Definition record_key (r : EvidenceRecord) : StreamKey := stream_key_of (er_observation r).

(** The continuity engine was fed strictly increasing sequences up to [last]. *)
Inductive fed_in_order `{LongDouble} : option Z -> CounterContinuity -> Prop :=
  | fed_nothing : fed_in_order None counter_clear
  | fed_skip last seq c : (forall l, last = Some l -> l < seq) -> fed_in_order last c ->
      fed_in_order (Some seq) c
  | fed_one last c r config : (forall l, last = Some l -> l < co_sequence r) -> fed_in_order last c ->
      fed_in_order (Some (co_sequence r)) (observe r config c).2.

Record stream_inv `{LongDouble} (lim : FabricLimits) (key : StreamKey) (s : StreamState) : Prop := {
  si_key : st_key s = key;
  si_dedup_wf : om_wf (st_dedup s);
  si_dedup_bound : zlen (st_dedup s) <= max_dedup_window lim;
  si_watermark : Forall (fun e => st_has_watermark s = true /\ e.1 <= st_watermark s) (st_dedup s);
  si_recent_bound : zlen (st_recent s) <= max_stream_history lim;
  si_recent_key : Forall (fun r => record_key r = key) (st_recent s);
  si_fed : EvidenceStore.record_sequence <$> st_latest_fed s
    = (if st_has_fed_sequence s then Some (st_fed_sequence s) else None);
  si_fed_key : forall r, st_latest_fed s = Some r -> record_key r = key;
  si_counter : fed_in_order (if st_has_fed_sequence s then Some (st_fed_sequence s) else None)
    (st_counter s);
  si_event : st_last_counter_event s <> CounterEvent.SequenceRegressed;
}.

Record store_inv `{LongDouble} (s : EvidenceStore.t) : Prop := {
  sv_streams_wf : om_wf (EvidenceStore.streams s);
  sv_counts_wf : om_wf (EvidenceStore.streams_per_link s);
  sv_streams : forall key stream, om_find key (EvidenceStore.streams s) = Some stream ->
    stream_inv (EvidenceStore.limits s) key stream;
  sv_counts : forall link, EvidenceStore.used_by s link
    = count_keys (fun k => eqb (sk_link k) link) (EvidenceStore.streams s);
  sv_counts_bound : forall link,
    EvidenceStore.used_by s link <= max_streams_per_link (EvidenceStore.limits s);
  sv_history_bound : zlen (EvidenceStore.history s) <= max_global_history (EvidenceStore.limits s);
  sv_history_streams : Forall (fun r => om_contains (record_key r) (EvidenceStore.streams s) = true)
    (EvidenceStore.history s);
}.

Section Invariants.
Context `{LongDouble}.

Lemma fresh_stream_inv lim key : limits_sound lim -> stream_inv lim key (fresh_stream key).
Proof.
  intros Hs. pose proof (ls_dedup _ Hs). pose proof (ls_stream_history _ Hs).
  constructor; simpl; auto with lqf; try (unfold zlen; simpl; lia); try done. constructor.
Qed.

Lemma with_stats_inv lim key s f : stream_inv lim key s -> stream_inv lim key (with_stats s f).
Proof. intros []. by constructor. Qed.

(** Replacing the state of a stream the store already has. *)
Lemma with_stream_inv s key old stream :
  store_inv s -> om_find key (EvidenceStore.streams s) = Some old ->
  stream_inv (EvidenceStore.limits s) key stream ->
  store_inv (EvidenceStore.with_stream s key stream).
Proof.
  intros [H1 H2 H3 H4 H5 H6 H7] Hf Hi. constructor; simpl; auto with lqf.
  - intros k st. rewrite om_find_set. case_match eqn:E; [|by apply H3].
    intros. simplify_eq. by apply eqb_true in E as ->.
  - intros link. unfold EvidenceStore.used_by. simpl. rewrite count_keys_set by done.
    unfold om_contains. rewrite Hf, Z.add_0_r. apply H4.
  - eapply Forall_impl; [exact H7|]. intros r Hr. simpl in *. rewrite om_contains_set, Hr. apply orb_true_r.
Qed.

Lemma stream_for_inv s key :
  limits_sound (EvidenceStore.limits s) -> store_inv s ->
  let '(o, s1) := EvidenceStore.stream_for s key in
  store_inv s1 /\ EvidenceStore.limits s1 = EvidenceStore.limits s /\
  EvidenceStore.history s1 = EvidenceStore.history s /\
  match o with
  | Some stream => om_find key (EvidenceStore.streams s1) = Some stream /\
      stream_inv (EvidenceStore.limits s) key stream /\
      (om_find key (EvidenceStore.streams s) = Some stream \/
       om_find key (EvidenceStore.streams s) = None /\ stream = fresh_stream key)
  | None => om_find key (EvidenceStore.streams s) = None /\
      EvidenceStore.streams s1 = EvidenceStore.streams s
  end.
Proof.
  intros Hs Hi. unfold EvidenceStore.stream_for.
  destruct (om_find key (EvidenceStore.streams s)) as [st|] eqn:Ef.
  { split_and!; auto. by apply Hi. }
  unfold EvidenceStore.admit_stream. destruct Hi as [H1 H2 H3 H4 H5 H6 H7].
  assert (forall n link, EvidenceStore.used_by
    (EvidenceStore.mk (EvidenceStore.limits s) (EvidenceStore.streams s) (EvidenceStore.history s)
      (om_set (sk_link key) n (EvidenceStore.streams_per_link s))) link
    = if eqb link (sk_link key) then n else EvidenceStore.used_by s link) as Hu.
  { intros n link. unfold EvidenceStore.used_by. simpl. rewrite om_find_set.
    by destruct (eqb link (sk_link key)). }
  destruct (_ <=? _) eqn:E; breflect.
  - split_and!; try done. constructor; simpl; auto with lqf.
    + intros link. rewrite Hu. case_match eqn:El; [|apply H4]. apply eqb_true in El as ->. apply H4.
    + intros link. rewrite Hu. case_match; apply H5.
  - split; [|split; [done|split; [done|split; [apply om_find_set_eq|split; [by apply fresh_stream_inv|by right]]]]].
    constructor; simpl; auto with lqf.
    + intros k st. rewrite om_find_set. case_match eqn:Ek; [|by apply H3].
      intros. simplify_eq. apply eqb_true in Ek as ->. by apply fresh_stream_inv.
    + intros link. unfold EvidenceStore.used_by in *. simpl. rewrite count_keys_set by done.
      specialize (Hu (EvidenceStore.used_by s (sk_link key) + 1) link). unfold EvidenceStore.used_by in Hu.
      simpl in Hu. rewrite Hu. unfold om_contains. rewrite Ef.
      destruct (eqb link (sk_link key)) eqn:El.
      * apply eqb_true in El as ->. rewrite eqb_refl. rewrite <- H4. done.
      * assert (eqb (sk_link key) link = false) as ->.
        { apply eqb_neq. apply eqb_false in El. congruence. }
        rewrite Z.add_0_r. apply H4.
    + intros link. unfold EvidenceStore.used_by in *. simpl.
      specialize (Hu (EvidenceStore.used_by s (sk_link key) + 1) link). unfold EvidenceStore.used_by in Hu.
      simpl in Hu. rewrite Hu. destruct (eqb link (sk_link key)); [lia|apply H5].
    + eapply Forall_impl; [exact H7|]. intros r Hr. simpl in *. rewrite om_contains_set, Hr. apply orb_true_r.
Qed.
End Invariants.

(** ** The continuity engine seen from the store *)

Section Fed.
Context `{LongDouble}.

Lemma observe_baseline r config c :
  k_has_baseline (observe r config c).2 = true ->
  k_last_sequence (observe r config c).2 = co_sequence r \/
  (k_last_sequence (observe r config c).2 = k_last_sequence c /\ k_has_baseline c = true).
Proof.
  unfold observe, observe_difference, note_missing. repeat (case_match; simpl; auto); discriminate.
Qed.

Lemma observe_not_regressed r config c :
  (k_has_baseline c = true -> k_last_sequence c <= co_sequence r) ->
  cs_event (observe r config c).1 <> CounterEvent.SequenceRegressed.
Proof.
  intros Hb. unfold observe, observe_difference, note_missing.
  repeat (case_match; simpl; try discriminate).
  all: match goal with Hx : (_ && (_ <? _))%bool = true |- _ => simpl in Hx; breflect end.
  all: specialize (Hb ltac:(done)); lia.
Qed.

Lemma fed_baseline last c :
  fed_in_order last c -> k_has_baseline c = true ->
  exists l, last = Some l /\ k_last_sequence c <= l.
Proof.
  induction 1 as [|last seq c Hl Hf IH|last c r config Hl Hf IH]; intros Hb; [done| |].
  - destruct (IH Hb) as (l & -> & Hle). exists seq. specialize (Hl l eq_refl). split; [done|lia].
  - exists (co_sequence r). split; [done|].
    destruct (observe_baseline _ _ _ Hb) as [-> | [-> Hb']]; [lia|].
    destruct (IH Hb') as (l & -> & Hle). specialize (Hl l eq_refl). lia.
Qed.
End Fed.

(** ** Acceptance *)

Section Accept.
Context `{Charconv} `{LongDouble}.

Definition new_watermark (s : StreamState) (sequence : Z) : Z :=
  if negb (st_has_watermark s) || (st_watermark s <? sequence) then sequence else st_watermark s.

Lemma new_watermark_ge s sequence :
  sequence <= new_watermark s sequence /\
  (st_has_watermark s = true -> st_watermark s <= new_watermark s sequence).
Proof.
  unfold new_watermark. destruct (st_has_watermark s); simpl; [|split; [lia|done]].
  destruct (_ <? _) eqn:E; breflect; split; intros; lia.
Qed.

Lemma emplaced_below s lim key sequence digest :
  stream_inv lim key s ->
  Forall (fun e => e.1 <= new_watermark s sequence) (om_emplace sequence digest (st_dedup s)).
Proof.
  intros Hi. destruct (new_watermark_ge s sequence) as [Hs Hw].
  rewrite Forall_forall. intros [k d] He. simpl.
  apply list_elem_of_In in He.
  apply om_In_find in He; [|by apply om_emplace_wf, (si_dedup_wf _ _ _ Hi)].
  rewrite om_find_emplace in He. destruct (om_find k (st_dedup s)) as [d'|] eqn:Ek.
  - apply om_find_In in Ek. pose proof (si_watermark _ _ _ Hi) as Hf. rewrite Forall_forall in Hf.
    destruct (Hf (k, d')) as [Hb Hle]; [by apply list_elem_of_In|]. specialize (Hw Hb). simpl in Hle. lia.
  - destruct (eqb k sequence) eqn:E; [|done]. apply eqb_true in E as ->. done.
Qed.

(** The replay fence after an acceptance: exactly the sequences within the
    window below the watermark. *)
Lemma accept_dedup s lim key record digest reordered config k :
  stream_inv lim key s ->
  let seq := ob_sequence (er_observation record) in
  om_find k (st_dedup (EvidenceStore.accept lim s record digest reordered config))
  = if new_watermark s seq - k <? max_dedup_window lim
    then om_find k (om_emplace seq digest (st_dedup s)) else None.
Proof.
  intros Hi seq. unfold EvidenceStore.accept. simpl. fold (new_watermark s seq).
  rewrite fence_filter; [|by apply om_emplace_wf, (si_dedup_wf _ _ _ Hi)|by eapply emplaced_below].
  apply (om_find_filter (fun k => new_watermark s seq - k <? max_dedup_window lim)).
  by apply om_emplace_wf, (si_dedup_wf _ _ _ Hi).
Qed.

Lemma feed_step_inv s lim key record config :
  stream_inv lim key s ->
  let o := er_observation record in
  let feed := negb (st_has_fed_sequence s) || (st_fed_sequence s <? ob_sequence o) in
  let step := EvidenceStore.feed_counter s o (er_received record) config feed in
  fed_in_order (if feed then Some (ob_sequence o)
                else if st_has_fed_sequence s then Some (st_fed_sequence s) else None)
    (match step with Some (_, c) => c | None => st_counter s end) /\
  match step with Some (st, _) => cs_event st | None => st_last_counter_event s end
    <> CounterEvent.SequenceRegressed.
Proof.
  intros Hi o feed step. pose proof (si_counter _ _ _ Hi) as Hc. pose proof (si_event _ _ _ Hi) as He.
  assert (feed = true -> forall l,
    (if st_has_fed_sequence s then Some (st_fed_sequence s) else None) = Some l -> l < ob_sequence o) as Hlt.
  { unfold feed. destruct (st_has_fed_sequence s); simpl; [|done]. intros Hf l [= <-]. by breflect. }
  unfold step, EvidenceStore.feed_counter. destruct (ob_reading o) as [g|c].
  - split; [|done]. destruct feed; [|done]. eapply fed_skip; [by apply Hlt|exact Hc].
  - destruct feed; [|by split]. specialize (Hlt eq_refl).
    set (co := counter_observation_from o c (er_received record)).
    destruct (observe co config (st_counter s)) as [st c'] eqn:Eo. split.
    + change (ob_sequence o) with (co_sequence co).
      replace c' with (observe co config (st_counter s)).2 by (by rewrite Eo).
      eapply fed_one; [exact Hlt|exact Hc].
    + replace st with (observe co config (st_counter s)).1 by (by rewrite Eo).
      apply observe_not_regressed. intros Hb. destruct (fed_baseline _ _ Hc Hb) as (l & El & Hle).
      specialize (Hlt _ El). simpl. lia.
Qed.

Lemma accept_inv s lim key record digest reordered config :
  limits_sound lim -> stream_inv lim key s -> record_key record = key ->
  stream_inv lim key (EvidenceStore.accept lim s record digest reordered config).
Proof.
  intros Hs Hi Hk. set (seq := ob_sequence (er_observation record)).
  pose proof (ls_dedup _ Hs). pose proof (ls_stream_history _ Hs).
  destruct (feed_step_inv s lim key record config Hi) as [Hf He].
  pose proof (emplaced_below s lim key seq digest Hi) as Hbelow.
  pose proof (om_emplace_wf seq digest (st_dedup s) (si_dedup_wf _ _ _ Hi)) as Hwf.
  assert (Forall (fun e => new_watermark s seq - max_dedup_window lim < e.1 <= new_watermark s seq)
    (EvidenceStore.fence (max_dedup_window lim) (new_watermark s seq) (om_emplace seq digest (st_dedup s))))
    as Hrange.
  { rewrite fence_filter by done. rewrite Forall_forall in Hbelow |- *. intros e Hin.
    apply list_elem_of_In, filter_In in Hin as [Hin Hlt]. breflect.
    apply list_elem_of_In in Hin. specialize (Hbelow e Hin). simpl in *. lia. }
  assert (om_wf (EvidenceStore.fence (max_dedup_window lim) (new_watermark s seq)
    (om_emplace seq digest (st_dedup s)))) as Hwf'.
  { rewrite fence_filter by done. by apply om_filter_wf. }
  unfold EvidenceStore.accept. fold seq. fold (new_watermark s seq).
  constructor; cbn [st_key st_dedup st_has_watermark st_watermark st_recent st_latest_fed
    st_has_fed_sequence st_fed_sequence st_counter st_last_counter_event].
  - apply Hi.
  - done.
  - etransitivity; [apply (int_keys_bound _ _ _ Hwf' Hrange)|]; lia.
  - eapply Forall_impl; [exact Hrange|]. intros e ?. simpl in *. split; [done|lia].
  - apply last_n_length. lia.
  - rewrite Forall_forall. intros r Hr. apply list_elem_of_In, last_n_In, in_app_iff in Hr as [Hr | [<- |[]]];
      [|done]. pose proof (si_recent_key _ _ _ Hi) as Hrk. rewrite Forall_forall in Hrk.
    apply Hrk. by apply list_elem_of_In.
  - pose proof (si_fed _ _ _ Hi) as Hfed. destruct (st_has_fed_sequence s); simpl in *; [|done].
    by destruct (_ <? seq).
  - intros r. destruct (negb _ || _); [by intros [= <-]|apply Hi].
  - destruct (st_has_fed_sequence s); simpl in *; [|done]. by destruct (_ <? _).
  - exact He.
Qed.
End Accept.

(** ** Whole-store operations *)

Section Store.
Context `{Charconv} `{LongDouble}.

Lemma append_inv s o received ordinal origin config :
  limits_sound (EvidenceStore.limits s) -> store_inv s ->
  store_inv (EvidenceStore.append s o received ordinal origin config).2 /\
  EvidenceStore.limits (EvidenceStore.append s o received ordinal origin config).2
  = EvidenceStore.limits s.
Proof.
  intros Hs Hi. unfold EvidenceStore.append. set (key := stream_key_of o).
  pose proof (stream_for_inv s key Hs Hi) as Hsf.
  destruct (EvidenceStore.stream_for s key) as [[stream|] s1]; [|by destruct Hsf as (? & ? & _)].
  destruct Hsf as (Hi1 & Hl1 & Hh1 & Hf1 & Hst & _).
  destruct (EvidenceStore.verdict _ _ _ _) as [|e|reordered]; simpl; rewrite Hl1.
  - split; [|done]. eapply with_stream_inv; [done|done|]. rewrite Hl1. by apply with_stats_inv.
  - split; [|done]. eapply with_stream_inv; [done|done|]. rewrite Hl1. by apply with_stats_inv.
  - split; [|done]. set (record := mkEvidenceRecord o received ordinal origin).
    set (stream' := EvidenceStore.accept _ _ _ _ _ _).
    assert (store_inv (EvidenceStore.with_stream s1 key stream')) as [K1 K2 K3 K4 K5 K6 K7].
    { eapply with_stream_inv; [done|done|]. rewrite Hl1. by apply accept_inv. }
    pose proof (ls_global_history _ Hs).
    simpl in *. constructor; simpl; rewrite <- ?Hl1; auto.
    + apply last_n_length. rewrite Hl1. lia.
    + rewrite Forall_forall in *. intros r Hr. apply list_elem_of_In, last_n_In, in_app_iff in Hr as [Hr | [<- |[]]].
      * apply K7. by apply list_elem_of_In.
      * simpl. unfold record_key. simpl. rewrite om_contains_set. fold key. by rewrite eqb_refl.
Qed.

Lemma drop_link_inv s link :
  store_inv s ->
  store_inv (EvidenceStore.drop_link s link).2 /\
  EvidenceStore.limits (EvidenceStore.drop_link s link).2 = EvidenceStore.limits s.
Proof.
  intros [H1 H2 H3 H4 H5 H6 H7]. split; [|done].
  assert (forall k, om_find k (EvidenceStore.streams (EvidenceStore.drop_link s link).2)
    = if negb (eqb (sk_link k) link) then om_find k (EvidenceStore.streams s) else None) as Hf.
  { intros k. by apply (om_find_filter (fun k => negb (eqb (sk_link k) link))). }
  assert (forall l, EvidenceStore.used_by (EvidenceStore.drop_link s link).2 l
    = if eqb l link then 0 else EvidenceStore.used_by s l) as Hu.
  { intros l. unfold EvidenceStore.used_by. simpl. destruct (eqb l link) eqn:E.
    - apply eqb_true in E as ->. by rewrite om_find_erase_eq.
    - apply eqb_false in E. by rewrite om_find_erase_ne. }
  constructor.
  - by apply om_filter_wf.
  - by apply om_erase_wf.
  - intros k st. rewrite Hf. case_match; [|done]. apply H3.
  - intros l. rewrite Hu. simpl. unfold count_keys. rewrite filter_swap.
    destruct (eqb l link) eqn:E.
    + apply eqb_true in E as ->. symmetry. 
      erewrite filter_none; [done|]. intros [k v] Hin. apply filter_In in Hin as [_ Hin]. simpl in *.
      by rewrite Hin.
    + rewrite H4. unfold count_keys. symmetry. f_equal. apply filter_all. intros [k v] Hin.
      apply filter_In in Hin as [_ Hin]. simpl in *. apply eqb_true in Hin as Hin. rewrite Hin, E. done.
  - intros l. rewrite Hu. simpl. case_match; [|apply H5].
    specialize (H5 l). rewrite H4 in H5. pose proof (count_keys_nonneg (fun k => eqb (sk_link k) l) (EvidenceStore.streams s)). lia.
  - simpl. etransitivity; [|exact H6]. unfold zlen. pose proof (filter_length_le (fun r => negb (eqb (ob_link (er_observation r)) link)) (EvidenceStore.history s)). lia.
  - rewrite Forall_forall in *. intros r Hr. simpl in Hr. apply list_elem_of_In, filter_In in Hr as [Hr Hn].
    apply list_elem_of_In in Hr. specialize (H7 _ Hr). unfold om_contains in *. rewrite Hf.
    unfold record_key, stream_key_of in *. simpl in *. by rewrite Hn.
Qed.

(** What seeding a replay fence leaves alone. *)
Definition rest_of (s : StreamState) :=
  (st_key s, st_recent s, st_has_fed_sequence s, st_fed_sequence s, st_counter s,
   st_last_counter_event s, st_latest_fed s).

Definition fence_ok (s : StreamState) : Prop :=
  om_wf (st_dedup s) /\
  Forall (fun e => st_has_watermark s = true /\ e.1 <= st_watermark s) (st_dedup s).

Lemma stream_inv_rest lim key s s' :
  stream_inv lim key s -> rest_of s' = rest_of s -> fence_ok s' ->
  zlen (st_dedup s') <= max_dedup_window lim -> stream_inv lim key s'.
Proof.
  intros [H1 H2 H3 H4 H5 H6 H7 H8 H9 H10] E [Hw Hf] Hb. unfold rest_of in E.
  injection E as E1 E2 E3 E4 E5 E6 E7. constructor; rewrite ?E1, ?E2, ?E3, ?E4, ?E5, ?E6, ?E7; done.
Qed.

Lemma seed_entry_fence s item :
  fence_ok s -> fence_ok (EvidenceStore.seed_entry s item) /\
  rest_of (EvidenceStore.seed_entry s item) = rest_of s.
Proof.
  destruct item as [k d]. intros [Hw Hf]. split; [|done].
  assert (om_wf (om_set k d (st_dedup s))) as Hw1 by (by apply om_set_wf).
  split; [done|]. rewrite Forall_forall in *. intros [k' d'] He.
  apply list_elem_of_In, (om_In_find _ _ _ Hw1) in He. simpl in *. rewrite om_find_set in He.
  destruct (eqb k' k) eqn:E.
  - apply eqb_true in E as ->. destruct (st_has_watermark s); simpl; [|split; [done|lia]].
    destruct (_ <? k) eqn:E2; breflect; (split; [done|lia]).
  - apply om_find_In in He. destruct (Hf (k', d')) as [Hb Hle]; [by apply list_elem_of_In|].
    rewrite Hb. simpl in *. destruct (_ <? k) eqn:E2; breflect; (split; [done|lia]).
Qed.

Lemma seed_entries_fence entries : forall s,
  fence_ok s -> fence_ok (fold_left EvidenceStore.seed_entry entries s) /\
  rest_of (fold_left EvidenceStore.seed_entry entries s) = rest_of s.
Proof.
  induction entries as [|item entries IH]; intros s Hf; simpl; [done|].
  destruct (seed_entry_fence s item Hf) as [H1 H2]. destruct (IH _ H1) as [H3 H4].
  split; [done|]. congruence.
Qed.

Lemma seed_inv s key entries :
  limits_sound (EvidenceStore.limits s) -> store_inv s ->
  store_inv (EvidenceStore.seed_dedup_window s key entries).2 /\
  EvidenceStore.limits (EvidenceStore.seed_dedup_window s key entries).2 = EvidenceStore.limits s.
Proof.
  intros Hs Hi. unfold EvidenceStore.seed_dedup_window.
  pose proof (stream_for_inv s key Hs Hi) as Hsf.
  destruct (EvidenceStore.stream_for s key) as [[stream|] s1]; [|by destruct Hsf as (? & ? & _)].
  destruct Hsf as (Hi1 & Hl1 & Hh1 & Hf1 & Hst & _). simpl. split; [|done].
  eapply with_stream_inv; [done|done|]. rewrite Hl1.
  destruct (seed_entries_fence entries stream) as [[Hw Hf] Hr].
  { split; apply Hst. }
  destruct (last_n_split (max_dedup_window (EvidenceStore.limits s))
    (st_dedup (fold_left EvidenceStore.seed_entry entries stream))) as (d & Ed & _).
  apply (stream_inv_rest _ _ stream); [done|exact Hr| |].
  - split; simpl; rewrite Ed in Hw, Hf; [by eapply om_wf_app_r|]. by apply Forall_app in Hf as [_ ?].
  - apply last_n_length. pose proof (ls_dedup _ Hs). pose proof (ls_stream_history _ Hs). lia.
Qed.
End Store.

(** ** Runs *)

Record Admission := mkAdmission {
  ad_observation : Observation;
  ad_received : ReceiveStamp;
  ad_ordinal : Z;
  ad_origin : EvidenceOrigin.t;
  ad_config : CounterContinuityConfig;
}.

Inductive StoreOp :=
  | OpAppend (a : Admission)
  | OpSeed (key : StreamKey) (entries : list (Z * Z))
  | OpDrop (link : LinkIdentity)
  | OpClear.

Section Runs.
Context `{Charconv} `{LongDouble}.

Definition admit_one (s : EvidenceStore.t) (a : Admission) : Outcome IngestOutcome * EvidenceStore.t :=
  EvidenceStore.append s (ad_observation a) (ad_received a) (ad_ordinal a) (ad_origin a) (ad_config a).

Definition accepts (o : Outcome IngestOutcome) : bool :=
  match o with Good out => io_accepted out | Bad _ => false end.

Definition store_step (s : EvidenceStore.t) (op : StoreOp) : EvidenceStore.t :=
  match op with
  | OpAppend a => (admit_one s a).2
  | OpSeed key entries => (EvidenceStore.seed_dedup_window s key entries).2
  | OpDrop link => (EvidenceStore.drop_link s link).2
  | OpClear => EvidenceStore.clear s
  end.

Lemma create_store_inv limits : limits_sound limits -> store_inv (EvidenceStore.create limits).
Proof.
  intros Hs. pose proof (ls_streams _ Hs). pose proof (ls_global_history _ Hs).
  constructor; simpl; auto with lqf; try done; intros; unfold zlen, EvidenceStore.used_by; simpl; lia.
Qed.

Lemma store_step_inv s op :
  limits_sound (EvidenceStore.limits s) -> store_inv s ->
  store_inv (store_step s op) /\ EvidenceStore.limits (store_step s op) = EvidenceStore.limits s.
Proof.
  intros Hs Hi. destruct op; simpl.
  - by apply append_inv.
  - by apply seed_inv.
  - by apply drop_link_inv.
  - split; [|done]. by apply (create_store_inv (EvidenceStore.limits s)).
Qed.

Lemma store_run_inv ops : forall s,
  limits_sound (EvidenceStore.limits s) -> store_inv s ->
  store_inv (fold_left store_step ops s) /\
  EvidenceStore.limits (fold_left store_step ops s) = EvidenceStore.limits s.
Proof.
  induction ops as [|op ops IH]; intros s Hs Hi; simpl; [done|].
  destruct (store_step_inv s op Hs Hi) as [H1 H2]. rewrite <- H2 in Hs.
  destruct (IH _ Hs H1) as [H3 H4]. split; [done|congruence].
Qed.

(** Admissions only, with the stream and sequence of those accepted. *)
Fixpoint admit_all (s : EvidenceStore.t) (l : list Admission) : list (StreamKey * Z) * EvidenceStore.t :=
  match l with
  | [] => ([], s)
  | a :: rest =>
      let '(o, s1) := admit_one s a in
      let '(acc, s2) := admit_all s1 rest in
      ((if accepts o
        then [(stream_key_of (ad_observation a), ob_sequence (ad_observation a))] else []) ++ acc, s2)
  end.

(** An accepted sequence is below the watermark, and inside the window it is
    in the replay fence. *)
Definition remembered (s : EvidenceStore.t) (key : StreamKey) (seq : Z) : Prop :=
  exists st, om_find key (EvidenceStore.streams s) = Some st /\ st_has_watermark st = true /\
    seq <= st_watermark st /\
    (st_watermark st - seq < max_dedup_window (EvidenceStore.limits s) ->
     exists d, om_find seq (st_dedup st) = Some d).

(** What an admission does to the stream it addresses. *)
Lemma admit_cases s a :
  limits_sound (EvidenceStore.limits s) -> store_inv s ->
  let o := ad_observation a in
  let key := stream_key_of o in
  let lim := EvidenceStore.limits s in
  let '(res, s') := admit_one s a in
  (accepts res = false /\ (forall k st, om_find k (EvidenceStore.streams s) = Some st ->
     exists f, om_find k (EvidenceStore.streams s') = Some (with_stats st f))) \/
  (exists st reordered,
     (om_find key (EvidenceStore.streams s) = Some st \/
      om_find key (EvidenceStore.streams s) = None /\ st = fresh_stream key) /\
     stream_inv lim key st /\
     EvidenceStore.verdict (max_dedup_window lim) st (ob_sequence o) (evidence_digest o)
     = EvidenceStore.VAdmit reordered /\
     accepts res = true /\
     (forall k, om_find k (EvidenceStore.streams s')
       = if eqb k key
         then Some (EvidenceStore.accept lim st
                (mkEvidenceRecord o (ad_received a) (ad_ordinal a) (ad_origin a))
                (evidence_digest o) reordered (ad_config a))
         else om_find k (EvidenceStore.streams s))).
Proof.
  intros Hs Hi o key lim. unfold admit_one, EvidenceStore.append. fold o key.
  pose proof (stream_for_inv s key Hs Hi) as Hsf.
  destruct (EvidenceStore.stream_for s key) as [[stream|] s1] eqn:Esf.
  2:{ left. destruct Hsf as (_ & _ & _ & _ & Est). split; [done|]. intros k st Hk. rewrite Est.
      exists (fun x => x). destruct st. done. }
  destruct Hsf as (Hi1 & Hl1 & _ & Hf1 & Hst & Hor).
  assert (forall k, om_find k (EvidenceStore.streams s1) =
    if eqb k key then Some stream else om_find k (EvidenceStore.streams s)) as Hk1.
  { intros k. unfold EvidenceStore.stream_for in Esf.
    destruct (om_find key (EvidenceStore.streams s)) as [st0|] eqn:Ef.
    - simplify_eq. destruct (eqb k key) eqn:E; [by apply eqb_true in E as ->|done].
    - destruct (EvidenceStore.admit_stream s key) as [[] s0] eqn:Ea; simplify_eq. simpl.
      assert (EvidenceStore.streams s0 = EvidenceStore.streams s) as ->.
      { unfold EvidenceStore.admit_stream in Ea. by case_match; simplify_eq. }
      apply om_find_set. }
  assert (forall f k st, om_find k (EvidenceStore.streams s) = Some st -> exists g,
    om_find k (om_set key (with_stats stream f) (EvidenceStore.streams s1)) = Some (with_stats st g)) as Hrep.
  { intros f k st Hk. rewrite om_find_set, Hk1. destruct (eqb k key) eqn:E.
    - apply eqb_true in E as ->. destruct Hor as [Hor | [Hor _]]; [|congruence]. exists f. congruence.
    - exists (fun x => x). rewrite Hk. by destruct st. }
  destruct (EvidenceStore.verdict _ _ _ _) as [|e|reordered] eqn:Ev; simpl.
  - left. split; [done|]. apply Hrep.
  - left. split; [done|]. apply Hrep.
  - right. exists stream, reordered. split_and!; try done. intros k. rewrite om_find_set, Hk1.
    by destruct (eqb k key).
Qed.

Lemma admit_remembers s a key seq :
  limits_sound (EvidenceStore.limits s) -> store_inv s -> remembered s key seq ->
  remembered (admit_one s a).2 key seq.
Proof.
  intros Hs Hi (st & Hf & Hw & Hle & Hd). pose proof (admit_cases s a Hs Hi) as Hc.
  pose proof (append_inv s (ad_observation a) (ad_received a) (ad_ordinal a) (ad_origin a) (ad_config a) Hs Hi)
    as [_ Hl]. fold (admit_one s a) in Hl. unfold remembered. rewrite Hl.
  destruct (admit_one s a) as [res s']. simpl in *. destruct Hc as [[_ Hc] | (st0 & ro & Hor & Hst & Hv & _ & Hc)].
  { destruct (Hc _ _ Hf) as [f Hf']. exists (with_stats st f). by rewrite Hf'. }
  rewrite Hc. destruct (eqb key _) eqn:E; [|by exists st].
  apply eqb_true in E as ->. destruct Hor as [Hor | [Hor _]]; [|congruence]. simplify_eq.
  set (rec := mkEvidenceRecord _ _ _ _).
  eexists. split; [done|]. split; [done|].
  change (st_watermark (EvidenceStore.accept _ _ rec _ _ _))
    with (new_watermark st (ob_sequence (ad_observation a))).
  destruct (new_watermark_ge st (ob_sequence (ad_observation a))) as [_ Hnw]. specialize (Hnw Hw).
  split; [lia|]. intros Hlt.
  rewrite (accept_dedup st _ _ rec _ _ _ seq Hst). simpl.
  assert ((new_watermark st (ob_sequence (ad_observation a)) - seq <? max_dedup_window (EvidenceStore.limits s)) = true) as ->
    by (by apply Z.ltb_lt).
  destruct Hd as [d Hd]; [lia|]. exists d. by rewrite om_find_emplace, Hd.
Qed.

Lemma admit_accepts_remembered s a :
  limits_sound (EvidenceStore.limits s) -> store_inv s -> accepts (admit_one s a).1 = true ->
  remembered (admit_one s a).2 (stream_key_of (ad_observation a)) (ob_sequence (ad_observation a)).
Proof.
  intros Hs Hi Ha. pose proof (admit_cases s a Hs Hi) as Hc.
  pose proof (append_inv s (ad_observation a) (ad_received a) (ad_ordinal a) (ad_origin a) (ad_config a) Hs Hi)
    as [_ Hl]. fold (admit_one s a) in Hl. unfold remembered. rewrite Hl.
  destruct (admit_one s a) as [res s']. simpl in *.
  destruct Hc as [[Hn _] | (st0 & ro & Hor & Hst & Hv & _ & Hc)]; [congruence|].
  rewrite Hc, eqb_refl. set (rec := mkEvidenceRecord _ _ _ _).
  eexists. split; [done|]. split; [done|].
  change (st_watermark (EvidenceStore.accept _ _ rec _ _ _))
    with (new_watermark st0 (ob_sequence (ad_observation a))).
  split; [by apply new_watermark_ge|]. intros Hlt.
  rewrite (accept_dedup st0 _ _ rec _ _ _ _ Hst). simpl.
  apply Z.ltb_lt in Hlt. rewrite Hlt, om_find_emplace, eqb_refl.
  destruct (om_find (ob_sequence (ad_observation a)) (st_dedup st0)); eauto.
Qed.

Lemma admit_all_remembers l : forall s,
  limits_sound (EvidenceStore.limits s) -> store_inv s ->
  let '(acc, s') := admit_all s l in
  store_inv s' /\ EvidenceStore.limits s' = EvidenceStore.limits s /\
  (forall key seq, remembered s key seq -> remembered s' key seq) /\
  (forall key seq, In (key, seq) acc -> remembered s' key seq).
Proof.
  induction l as [|a l IH]; intros s Hs Hi; simpl; [done|].
  pose proof (append_inv s (ad_observation a) (ad_received a) (ad_ordinal a) (ad_origin a) (ad_config a) Hs Hi)
    as [Hi1 Hl1]. fold (admit_one s a) in Hi1, Hl1.
  pose proof (admit_remembers s a) as Hr. pose proof (admit_accepts_remembered s a Hs Hi) as Ha.
  destruct (admit_one s a) as [o s1]. simpl in *.
  assert (limits_sound (EvidenceStore.limits s1)) as Hs1 by (by rewrite Hl1).
  specialize (IH s1 Hs1 Hi1). destruct (admit_all s1 l) as [acc s2]. destruct IH as (H1 & H2 & H3 & H4).
  split; [done|]. split; [congruence|]. split; [auto|].
  intros key seq Hin. apply in_app_iff in Hin as [Hin | Hin]; [|by apply H4].
  destruct (accepts o); [|done]. destruct Hin as [[= <- <-] | []]. auto.
Qed.
End Runs.

(** ** Concrete inputs *)

Module StoreExamples.
#[local] Instance fixed_charconv : Charconv := {| to_chars_double := fun _ => "1.5"%string |}.
#[local] Instance ld : LongDouble := x87_extended.

(** A window of four sequences. *)
Definition limits : FabricLimits :=
  mkFabricLimits 4 4 64 8 8 8 8 8 8 4 16 4 16 8 8 64 16 128 0.

Definition link : LinkIdentity := mkLinkIdentity "edge-a" 1.
Definition source : SourceIdentity := mkSourceIdentity "probe" 1.
Definition observation (sequence value : Z) : Observation :=
  mkObservation link source sequence (mkMetricId MetricFamily.ErrorCounter "errors.frame")
    aggregate_dimension Unit.Count (ReadCounter (mkCounterReading value CounterWidth.Bits64 false))
    (mkTimestamp (sequence * 1000000000) true) None 1
    (mkProvenance TransportKind.Unspecified EvidenceClass.Real "" "" false 0).
Definition admission (sequence value : Z) : Admission :=
  mkAdmission (observation sequence value) (mkReceiveStamp 0 0 1) sequence EvidenceOrigin.Live
    default_counter_config.
Definition five : list Admission := map (fun i => admission (Z.of_nat i) (Z.of_nat i)) (seq 0 5).
Definition stored : EvidenceStore.t := (admit_all (EvidenceStore.create limits) five).2.
Definition stored_stream : StreamState :=
  match om_find (stream_key_of (observation 0 0)) (EvidenceStore.streams stored) with
  | Some st => st
  | None => fresh_stream (stream_key_of (observation 0 0))
  end.

Lemma limits_ok : limits_validate limits = StatusCode.Ok.
Proof. reflexivity. Qed.

Lemma stored_inv : store_inv stored /\ EvidenceStore.limits stored = limits.
Proof.
  pose proof (admit_all_remembers five (EvidenceStore.create limits)
    (limits_validate_sound _ limits_ok) (create_store_inv _ (limits_validate_sound _ limits_ok))) as Hr.
  unfold stored. destruct (admit_all _ _) as [acc s]. by destruct Hr as (? & ? & _).
Qed.
End StoreExamples.

(** ** Theorems *)

(** C22: Every bound holds in every reachable store.  Under a validated
    configuration, after any sequence of admissions, replay-fence seedings, link
    drops and clears: each stream's ring and replay fence and the global history
    are within their limits, the per-link stream counters equal the number of
    streams stored and respect the limit, every record is filed under its own
    key, no history record outlives its stream, and the continuity engine of a
    stream has only ever been fed strictly increasing sequences (so it never
    reports a regression). *)
Theorem evidence_store_stays_bounded (CC : Charconv) (LD : LongDouble) limits ops :
  limits_validate limits = StatusCode.Ok ->
  store_inv (fold_left store_step ops (EvidenceStore.create limits)).
Proof.
  intros Hv. apply limits_validate_sound in Hv.
  apply store_run_inv; [done|]. by apply create_store_inv.
Qed.

Lemma evidence_store_stays_bounded_witness :
  store_inv (H := x87_extended) (fold_left (store_step (H := StoreExamples.fixed_charconv) (H0 := x87_extended))
    [OpAppend (StoreExamples.admission 3 7); OpAppend (StoreExamples.admission 2 6);
     OpDrop StoreExamples.link] (EvidenceStore.create StoreExamples.limits)).
Proof. apply (evidence_store_stays_bounded StoreExamples.fixed_charconv x87_extended). vm_compute. reflexivity. Defined.

(** C2: Replay fencing.  After any history of admissions, a sequence number of a
    stream that was accepted before is accepted again only when it lies exactly
    [max_dedup_window] below the stream's watermark; everywhere else inside,
    below or above the verification window a second acceptance is impossible. *)
Theorem accepted_once_inside_window (CC : Charconv) (LD : LongDouble) limits before a :
  limits_validate limits = StatusCode.Ok ->
  let run := admit_all (EvidenceStore.create limits) before in
  In (stream_key_of (ad_observation a), ob_sequence (ad_observation a)) run.1 ->
  accepts (admit_one run.2 a).1 = true ->
  exists st, EvidenceStore.find run.2 (stream_key_of (ad_observation a)) = Some st /\
    st_watermark st - ob_sequence (ad_observation a) = max_dedup_window limits.
Proof.
  intros Hv. apply limits_validate_sound in Hv.
  pose proof (admit_all_remembers before (EvidenceStore.create limits) Hv (create_store_inv limits Hv)) as Hr.
  intros run. fold run in Hr. destruct run as [accepted s]. destruct Hr as (Hi & Hl & _ & Hr). simpl in *.
  intros Hin Ha. destruct (Hr _ _ Hin) as (st & Hf & Hw & Hle & Hd). rewrite Hl in Hd.
  assert (limits_sound (EvidenceStore.limits s)) as Hs by (by rewrite Hl).
  pose proof (admit_cases s a Hs Hi) as Hc. destruct (admit_one s a) as [res s']. simpl in *.
  destruct Hc as [[Hn _] | (st0 & ro & Hor & Hst & Hvd & _)]; [congruence|].
  destruct Hor as [Hor | [Hor _]]; [|congruence]. assert (st0 = st) as -> by congruence.
  exists st. split; [done|]. unfold EvidenceStore.verdict in Hvd. rewrite Hw, Hl in Hvd.
  destruct (om_find (ob_sequence (ad_observation a)) (st_dedup st)) eqn:Ed; [by case_match|].
  destruct (decide (st_watermark st - ob_sequence (ad_observation a) < max_dedup_window limits)) as [Hlt|].
  { destruct (Hd Hlt). congruence. }
  pose proof (ls_dedup _ Hv). pose proof (ls_stream_history _ Hv).
  destruct (_ <? st_watermark st) eqn:E1; breflect; [|lia].
  destruct (max_dedup_window limits <? _) eqn:E2; [done|]. breflect. lia.
Qed.

Lemma accepted_once_inside_window_witness :
  exists st, EvidenceStore.find StoreExamples.stored (stream_key_of (StoreExamples.observation 0 0)) = Some st
    /\ st_watermark st - 0 = 4.
Proof.
  apply (accepted_once_inside_window StoreExamples.fixed_charconv x87_extended StoreExamples.limits
    StoreExamples.five (StoreExamples.admission 0 0)).
  - vm_compute. reflexivity.
  - vm_compute. left. reflexivity.
  - vm_compute. reflexivity.
Defined.

(** The edge of the replay fence.  A sequence exactly [max_dedup_window]
    below the watermark is refused by neither guard: it has left the fence, yet
    it is not older than the window.  Resubmitting it is accepted and recorded,
    and leaves the fence as it was, so it can be resubmitted without end. *)
Theorem window_edge_replay_is_accepted (CC : Charconv) (LD : LongDouble) s a st :
  limits_sound (EvidenceStore.limits s) -> store_inv s ->
  let o := ad_observation a in
  let W := max_dedup_window (EvidenceStore.limits s) in
  EvidenceStore.find s (stream_key_of o) = Some st ->
  st_has_watermark st = true -> st_watermark st - ob_sequence o = W ->
  om_find (ob_sequence o) (st_dedup st) = None ->
  accepts (admit_one s a).1 = true /\
  exists st', EvidenceStore.find (admit_one s a).2 (stream_key_of o) = Some st' /\
    st_has_watermark st' = true /\ st_watermark st' - ob_sequence o = W /\
    om_find (ob_sequence o) (st_dedup st') = None.
Proof.
  intros Hs Hi o W Hf Hw Hd Hn. pose proof (ls_dedup _ Hs). pose proof (ls_stream_history _ Hs).
  pose proof (admit_cases s a Hs Hi) as Hc. unfold EvidenceStore.find in *. fold o in Hc.
  assert (EvidenceStore.verdict W st (ob_sequence o) (evidence_digest o) = EvidenceStore.VAdmit true) as Hv.
  { unfold EvidenceStore.verdict. rewrite Hw, Hn.
    destruct (_ <? st_watermark st) eqn:E1; breflect; [|unfold W in *; lia].
    destruct (W <? _) eqn:E2; [|done]. breflect. unfold W in *. lia. }
  assert (accepts (admit_one s a).1 = true) as Ha.
  { unfold admit_one, EvidenceStore.append, EvidenceStore.stream_for. fold o. rewrite Hf. fold W. by rewrite Hv. }
  destruct (admit_one s a) as [res s']. simpl in *. split; [done|].
  destruct Hc as [[Hx _] | (st0 & ro & Hor & Hst & Hvd & _ & Hc)]; [congruence|].
  destruct Hor as [Hor | [Hor _]]; [|congruence]. assert (st0 = st) as -> by congruence.
  rewrite Hc, eqb_refl. eexists. split; [done|]. split; [done|].
  set (rec := mkEvidenceRecord _ _ _ _).
  change (st_watermark (EvidenceStore.accept _ _ rec _ _ _)) with (new_watermark st (ob_sequence o)).
  assert (new_watermark st (ob_sequence o) = st_watermark st) as Enw.
  { unfold new_watermark. rewrite Hw. simpl. destruct (_ <? ob_sequence o) eqn:E; [|done]. breflect.
    unfold W in *. lia. }
  split; [by rewrite Enw|]. rewrite (accept_dedup st _ _ rec _ _ _ _ Hst). simpl. rewrite Enw.
  destruct (_ <? _) eqn:E; [|done]. breflect. unfold W in *. lia.
Qed.

Lemma window_edge_replay_is_accepted_witness :
  accepts (admit_one (H := StoreExamples.fixed_charconv) (H0 := x87_extended) StoreExamples.stored
    (StoreExamples.admission 0 0)).1 = true.
Proof.
  destruct (window_edge_replay_is_accepted StoreExamples.fixed_charconv x87_extended StoreExamples.stored
    (StoreExamples.admission 0 0) StoreExamples.stored_stream) as [Ha _].
  - destruct StoreExamples.stored_inv as [_ ->]. exact (limits_validate_sound _ StoreExamples.limits_ok).
  - exact (proj1 StoreExamples.stored_inv).
  - vm_compute. reflexivity.
  - vm_compute. reflexivity.
  - vm_compute. reflexivity.
  - vm_compute. reflexivity.
  - exact Ha.
Defined.

(** Resubmission is idempotent inside the window.  Once an observation has
    been accepted and still lies inside the verification window, any further
    observation of the same stream with the same sequence is never recorded: it
    is reported as a duplicate when its content digest is the same and refused
    as an identity mismatch when it is not, and nothing but the stream's
    statistics changes. *)
Theorem resubmission_is_idempotent (CC : Charconv) (LD : LongDouble) s a b st :
  limits_sound (EvidenceStore.limits s) -> store_inv s -> accepts (admit_one s a).1 = true ->
  stream_key_of (ad_observation b) = stream_key_of (ad_observation a) ->
  ob_sequence (ad_observation b) = ob_sequence (ad_observation a) ->
  let key := stream_key_of (ad_observation a) in
  let s1 := (admit_one s a).2 in
  EvidenceStore.find s1 key = Some st ->
  st_watermark st - ob_sequence (ad_observation a) < max_dedup_window (EvidenceStore.limits s) ->
  admit_one s1 b =
  if evidence_digest (ad_observation a) =? evidence_digest (ad_observation b)
  then (Good (mkIngestOutcome false true false ReasonCode.None CounterEvent.Baseline false false
                (zlen (st_recent st)) 0),
        EvidenceStore.with_stream s1 key (with_stats st bump_duplicates))
  else (Bad StatusCode.IdMismatch, EvidenceStore.with_stream s1 key (with_stats st bump_rejected)).
Proof.
  intros Hs Hi Ha Hk Hq key s1 Hf Hlt.
  pose proof (append_inv s (ad_observation a) (ad_received a) (ad_ordinal a) (ad_origin a) (ad_config a) Hs Hi)
    as [_ Hl]. fold (admit_one s a) in Hl.
  pose proof (admit_cases s a Hs Hi) as Hc. unfold s1, EvidenceStore.find in *.
  destruct (admit_one s a) as [res s']. simpl in *.
  destruct Hc as [[Hx _] | (st0 & ro & Hor & Hst & Hv & _ & Hc)]; [congruence|].
  pose proof Hf as Hf'. rewrite Hc, eqb_refl in Hf. injection Hf as Hf.
  set (rec := mkEvidenceRecord _ _ _ _) in *.
  assert (om_find (ob_sequence (ad_observation a)) (st_dedup st) = Some (evidence_digest (ad_observation a))
    /\ st_has_watermark st = true) as [Hd Hw].
  { subst st. split; [|done]. rewrite (accept_dedup st0 _ _ rec _ _ _ _ Hst). simpl.
    change (st_watermark (EvidenceStore.accept _ _ rec _ _ _))
      with (new_watermark st0 (ob_sequence (ad_observation a))) in Hlt.
    apply Z.ltb_lt in Hlt. rewrite Hlt, om_find_emplace, eqb_refl.
    destruct (om_find _ (st_dedup st0)) eqn:Ed; [|done].
    unfold EvidenceStore.verdict in Hv. rewrite Ed in Hv.
    pose proof (si_watermark _ _ _ Hst) as Hwm. rewrite Forall_forall in Hwm. apply om_find_In in Ed.
    destruct (Hwm (ob_sequence (ad_observation a), z)) as [Hb _]; [by apply list_elem_of_In|].
    rewrite Hb in Hv. by case_match. }
  unfold admit_one, EvidenceStore.append, EvidenceStore.stream_for. fold key in Hf', Hk. rewrite Hk, Hf', Hq.
  unfold EvidenceStore.verdict. rewrite Hw, Hd. by destruct (_ =? _).
Qed.

Lemma resubmission_is_idempotent_witness :
  (admit_one (H := StoreExamples.fixed_charconv) (H0 := x87_extended)
     (admit_one (H := StoreExamples.fixed_charconv) (H0 := x87_extended) StoreExamples.stored
        (StoreExamples.admission 5 9)).2 (StoreExamples.admission 5 8)).1 = Bad StatusCode.IdMismatch.
Proof.
  rewrite (resubmission_is_idempotent StoreExamples.fixed_charconv x87_extended StoreExamples.stored
    (StoreExamples.admission 5 9) (StoreExamples.admission 5 8)
    (match EvidenceStore.find (admit_one (H := StoreExamples.fixed_charconv) (H0 := x87_extended)
        StoreExamples.stored (StoreExamples.admission 5 9)).2
        (stream_key_of (StoreExamples.observation 5 9)) with
     | Some st => st | None => StoreExamples.stored_stream end)).
  - vm_compute. reflexivity.
  - destruct StoreExamples.stored_inv as [_ ->]. exact (limits_validate_sound _ StoreExamples.limits_ok).
  - exact (proj1 StoreExamples.stored_inv).
  - vm_compute. reflexivity.
  - vm_compute. reflexivity.
  - vm_compute. reflexivity.
  - vm_compute. reflexivity.
  - vm_compute. reflexivity.
Defined.

(** The scan keeps the first [limit] matching records and flags the rest. *)
Lemma scan_fold query l : forall scan,
  0 <= wq_limit query -> zlen (ws_records scan) <= wq_limit query ->
  let scan' := fold_left (EvidenceStore.scan_record query) l scan in
  let all := ws_records scan ++ List.filter (fun r => EvidenceStore.record_matches r query) l in
  ws_records scan' = take (Z.to_nat (wq_limit query)) all /\
  ws_truncated scan' = ws_truncated scan || (wq_limit query <? zlen all).
Proof.
  induction l as [|r l IH]; intros scan Hl Hb; simpl.
  - rewrite app_nil_r. unfold zlen in Hb. rewrite take_ge by lia. split; [done|].
    assert ((wq_limit query <? zlen (ws_records scan)) = false) as -> by (apply Z.ltb_ge; unfold zlen; lia).
    by rewrite orb_false_r.
  - unfold EvidenceStore.scan_record at 2 4. destruct (EvidenceStore.record_matches r query) eqn:E; simpl.
    + destruct (zlen (ws_records scan) <? wq_limit query) eqn:E2; breflect.
      * match goal with |- context [fold_left _ l ?sc] => destruct (IH sc) as [H1 H2] end; simpl; [done|..].
        { rewrite zlen_app, zlen_cons. change (zlen (@nil EvidenceRecord)) with 0. lia. }
        simpl in H1, H2. rewrite <- app_assoc in H1, H2. by rewrite H1, H2.
      * match goal with |- context [fold_left _ l ?sc] => destruct (IH sc) as [H1 H2] end; simpl; [done|done|].
        simpl in H1, H2. rewrite H1, H2.
        assert (zlen (ws_records scan) = wq_limit query) as El by lia.
        split.
        -- rewrite !take_app_le by (unfold zlen in *; lia). done.
        -- rewrite !zlen_app, zlen_cons. pose proof (zlen_nonneg (List.filter (fun r => EvidenceStore.record_matches r query) l)).
           assert ((wq_limit query <? zlen (ws_records scan) +
             (zlen (List.filter (fun r => EvidenceStore.record_matches r query) l) + 1)) = true) as ->
             by (apply Z.ltb_lt; lia). by rewrite orb_true_r.
    + match goal with |- context [fold_left _ l ?sc] => destruct (IH sc) as [H1 H2] end; simpl; [done|done|].
      simpl in H1, H2. by rewrite H1, H2.
Qed.

(** The verification window.  A window query returns, in order of the chosen
    time axis with ties broken by ingest ordinal, exactly the first [limit]
    records of the retained history that match the query, and reports truncation
    exactly when more than [limit] records match. *)
Theorem window_selects_and_sorts s query :
  0 <= wq_limit query ->
  let scan := EvidenceStore.window s query in
  let matching := List.filter (fun r => EvidenceStore.record_matches r query) (EvidenceStore.history s) in
  Permutation (take (Z.to_nat (wq_limit query)) matching) (ws_records scan) /\
  weakly_sorted (EvidenceStore.window_less (wq_axis query)) (ws_records scan) /\
  ws_truncated scan = (wq_limit query <? zlen matching).
Proof.
  intros Hl scan matching. unfold scan, EvidenceStore.window. simpl.
  destruct (scan_fold query (EvidenceStore.history s) (mkWindowScan [] 0 false 0 0 false)) as [H1 H2];
    [done|unfold zlen; simpl; lia|]. simpl in H1, H2. rewrite H1, H2. split; [apply std_sort_perm|]. split; [|done].
  apply std_sort_weak; unfold EvidenceStore.window_less; intros x y.
  - intros H. repeat case_match; breflect; try lia; try done; apply Z.ltb_ge; lia.
  - intros z Hx Hy. repeat case_match; breflect; try lia; try done; apply Z.ltb_ge; lia.
Qed.

Lemma window_selects_and_sorts_witness :
  ws_truncated (EvidenceStore.window StoreExamples.stored
    (mkWindowQuery None None None None WindowAxis.ObservationTime i64_min i64_max 3 true false 0 8 8)) = true.
Proof.
  destruct (window_selects_and_sorts StoreExamples.stored
    (mkWindowQuery None None None None WindowAxis.ObservationTime i64_min i64_max 3 true false 0 8 8)) as (_ & _ & E).
  - vm_compute. discriminate.
  - rewrite E. vm_compute. reflexivity.
Defined.

(** Dropping a link generation removes all of it and nothing else: no stream
    and no history record of the link remains, the dropped count is the number
    of its streams, and every other stream and record is kept as it was. *)
Theorem drop_link_removes_exactly (LD : LongDouble) s link :
  store_inv s ->
  let '(dropped, s') := EvidenceStore.drop_link s link in
  (forall key, EvidenceStore.find s' key
     = if eqb (sk_link key) link then None else EvidenceStore.find s key) /\
  (forall r, In r (EvidenceStore.history s') <->
     In r (EvidenceStore.history s) /\ ob_link (er_observation r) <> link) /\
  dropped = EvidenceStore.used_by s link /\ EvidenceStore.used_by s' link = 0.
Proof.
  intros Hi. unfold EvidenceStore.drop_link, EvidenceStore.find. simpl. split_and!.
  - intros key. pose proof (om_find_filter (fun k => negb (eqb (sk_link k) link)) key (EvidenceStore.streams s)
      (sv_streams_wf _ Hi)) as E. rewrite E. by destruct (eqb (sk_link key) link).
  - intros r. rewrite filter_In, negb_true_iff, eqb_neq. done.
  - rewrite (sv_counts _ Hi). unfold count_keys, zlen.
    pose proof (filter_length (fun e : StreamKey * StreamState => eqb (sk_link e.1) link) (EvidenceStore.streams s)). lia.
  - unfold EvidenceStore.used_by. simpl. by rewrite om_find_erase_eq by apply Hi.
Qed.

Lemma drop_link_removes_exactly_witness :
  EvidenceStore.find (EvidenceStore.drop_link StoreExamples.stored StoreExamples.link).2
    (stream_key_of (StoreExamples.observation 0 0)) = None.
Proof.
  pose proof (drop_link_removes_exactly x87_extended StoreExamples.stored StoreExamples.link
    (proj1 StoreExamples.stored_inv)) as Hd.
  destruct (EvidenceStore.drop_link StoreExamples.stored StoreExamples.link) as [n s'].
  destruct Hd as [Hf _]. exact (Hf (stream_key_of (StoreExamples.observation 0 0))).
Defined.
