(* ===== verification/Codec.v ===== *)
(** * The archive: writers, readers and field codecs

    [persist/archive.hpp] and the primitives of [persist/codec.cpp].  [Writer]
    and [Reader] carry their status the way the classes do: the fixed-width
    writers append without looking at it, the fixed-width readers read without
    looking at it, and the first refusal sticks.  A [codec] is the pair of an
    [Encoder::field] and a [Decoder::field] overload; [CodecLaws] is what every
    pair promises, and each combinator below preserves it:
    - what the encoder accepted, the decoder returns, and consumes exactly;
    - a decoder that succeeds looks at nothing beyond what it consumed;
    - a failed reader stays failed. *)

From Stdlib Require Import ZArith Lia Bool List String Ascii.
From stdpp Require Import base decidable list strings.
From S2P Require Import Prelude OrdMap Float Core Hash Quality.

Open Scope Z_scope.

Record CodecLimits := mkCodecLimits {
  cl_max_string_bytes : Z; cl_max_items : Z; cl_max_total_bytes : Z }.

Definition default_codec_limits : CodecLimits := mkCodecLimits 4096 4096 8388608.

(** ** Little-endian integers *)

Fixpoint le_bytes (n : nat) (value : Z) : list Z :=
  match n with
  | O => []
  | S n' => Z.land value 255 :: le_bytes n' (Z.shiftr value 8)
  end.

Fixpoint le_value (bytes : list Z) : Z :=
  match bytes with
  | [] => 0
  | b :: rest => Z.lor b (Z.shiftl (le_value rest) 8)
  end.

(** ** Writer *)

Record Writer := mkWriter { w_buffer : list Z; w_status : Status }.
Definition empty_writer : Writer := mkWriter [] StatusCode.Ok.

Definition writer_fail (code : Status) (w : Writer) : Writer :=
  if ok (w_status w) then mkWriter (w_buffer w) code else w.

Definition writer_raw (L : CodecLimits) (data : list Z) (w : Writer) : Writer :=
  if negb (ok (w_status w)) then w
  else match checked_add_size (zlen (w_buffer w)) (zlen data) with
       | Some total =>
           if cl_max_total_bytes L <? total then mkWriter (w_buffer w) StatusCode.LimitExceeded
           else mkWriter (w_buffer w ++ data) (w_status w)
       | None => mkWriter (w_buffer w) StatusCode.LimitExceeded
       end.

Definition put_u8 (L : CodecLimits) (value : Z) (w : Writer) : Writer := writer_raw L [value] w.

(** [append_le]: no status check and no byte limit. *)
Definition put_le (n : nat) (value : Z) (w : Writer) : Writer :=
  mkWriter (w_buffer w ++ le_bytes n value) (w_status w).

Definition put_bytes (L : CodecLimits) (value : list Z) (w : Writer) : Writer :=
  if negb (ok (w_status w)) then w
  else if (cl_max_total_bytes L <? zlen value) || (u32_max <? zlen value)
  then writer_fail StatusCode.LimitExceeded w
  else writer_raw L value (put_le 4 (zlen value) w).

Definition put_text (L : CodecLimits) (value : string) (max_bytes : Z) (w : Writer) : Writer :=
  if negb (ok (w_status w)) then w
  else if max_bytes <? zslen value then writer_fail StatusCode.LimitExceeded w
  else put_bytes L (bytes_of_string value) w.

(** ** Reader: the unread suffix of the input and the status *)

Record Reader := mkReader { r_rest : list Z; r_status : Status }.
Definition reader_of (data : list Z) : Reader := mkReader data StatusCode.Ok.

Definition reader_fail (code : Status) (r : Reader) : Reader :=
  if ok (r_status r) then mkReader (r_rest r) code else r.

Definition get_u8 (r : Reader) : option Z * Reader :=
  if negb (ok (r_status r)) then (None, r)
  else match r_rest r with
       | [] => (None, mkReader [] StatusCode.Protocol)
       | b :: rest => (Some b, mkReader rest (r_status r))
       end.

Definition get_le (n : nat) (r : Reader) : option Z * Reader :=
  if (List.length (r_rest r) <? n)%nat then (None, reader_fail StatusCode.Protocol r)
  else (Some (le_value (firstn n (r_rest r))), mkReader (skipn n (r_rest r)) (r_status r)).

Definition get_bytes (L : CodecLimits) (size : Z) (r : Reader) : option (list Z) * Reader :=
  if negb (ok (r_status r)) then (None, r)
  else if cl_max_total_bytes L <? size then (None, mkReader (r_rest r) StatusCode.LimitExceeded)
  else if zlen (r_rest r) <? size then (None, mkReader (r_rest r) StatusCode.Protocol)
  else (Some (firstn (Z.to_nat size) (r_rest r)),
        mkReader (skipn (Z.to_nat size) (r_rest r)) (r_status r)).

Definition string_of_bytes (l : list Z) : string :=
  string_of_list_ascii (map (fun b => ascii_of_N (Z.to_N b)) l).

(** [get_text] sets the status without looking at the previous one. *)
Definition get_text (L : CodecLimits) (max_bytes : Z) (r : Reader) : option string * Reader :=
  match get_le 4 r with
  | (None, r1) => (None, r1)
  | (Some length, r1) =>
      if max_bytes <? length then (None, mkReader (r_rest r1) StatusCode.LimitExceeded)
      else let '(b, r2) := get_bytes L length r1 in (string_of_bytes <$> b, r2)
  end.

(** ** Codecs *)

Record codec (A : Type) := mkCodec {
  enc : CodecLimits -> A -> Writer -> Writer;
  dec : CodecLimits -> Reader -> option A * Reader;
  bytes_of : A -> list Z;
  (** The value is representable in the field's C++ type. *)
  typed : A -> Prop;
  (** The value respects the encoder's limits. *)
  fits : CodecLimits -> A -> Prop;
}.
Arguments mkCodec {A} &.
Arguments enc {A}.
Arguments dec {A}.
Arguments bytes_of {A}.
Arguments typed {A}.
Arguments fits {A}.

Class CodecLaws {A} (c : codec A) : Prop := {
  enc_accepts : forall L a w, typed c a -> w_status (enc c L a w) = StatusCode.Ok ->
    w_status w = StatusCode.Ok /\ fits c L a /\ w_buffer (enc c L a w) = w_buffer w ++ bytes_of c a;
  dec_enc : forall L a q, typed c a -> fits c L a ->
    dec c L (mkReader (bytes_of c a ++ q) StatusCode.Ok) = (Some a, mkReader q StatusCode.Ok);
  dec_local : forall L p q a r, dec c L (mkReader p StatusCode.Ok) = (a, r) ->
    r_status r = StatusCode.Ok ->
    dec c L (mkReader (p ++ q) StatusCode.Ok) = (a, mkReader (r_rest r ++ q) StatusCode.Ok);
  dec_failed : forall L r, r_status r <> StatusCode.Ok -> r_status (dec c L r).2 <> StatusCode.Ok;
  bytes_nonempty : forall a, typed c a -> bytes_of c a <> [];
}.

(** *** Scalars *)

Definition c_u8 : codec Z :=
  mkCodec (fun L v => put_u8 L v) (fun _ => get_u8) (fun v => [v]) (fun v => 0 <= v <= 255) (fun _ _ => True).

Definition c_le (n : nat) : codec Z :=
  mkCodec (fun _ v => put_le n v) (fun _ => get_le n) (le_bytes n)
    (fun v => 0 <= v < 256 ^ Z.of_nat n) (fun _ _ => True).

Definition c_u16 : codec Z := c_le 2.
Definition c_u32 : codec Z := c_le 4.
Definition c_u64 : codec Z := c_le 8.

(** [put_i64] casts to [u64]; [get_i64] copies the bits back. *)
Definition c_i64 : codec Z :=
  mkCodec (fun _ v => put_le 8 (wrap64 v))
    (fun _ r => let '(v, r1) := get_le 8 r in (to_i64 <$> v, r1))
    (fun v => le_bytes 8 (wrap64 v)) is_i64 (fun _ _ => True).

Definition c_f64 : codec double :=
  mkCodec (fun _ v => put_le 8 (bits_of_f64 v))
    (fun _ r => let '(v, r1) := get_le 8 r in (f64_of_bits <$> v, r1))
    (fun v => le_bytes 8 (bits_of_f64 v)) d_valid (fun _ _ => True).

Definition c_bool : codec bool :=
  mkCodec (fun L v => put_u8 L (if v then 1 else 0))
    (fun _ r => match get_u8 r with
                | (None, r1) => (None, r1)
                | (Some raw, r1) =>
                    if 1 <? raw then (None, reader_fail StatusCode.Protocol r1) else (Some (raw =? 1), r1)
                end)
    (fun v => [if v then 1 else 0]) (fun _ => True) (fun _ _ => True).

Definition c_string : codec string :=
  mkCodec (fun L v => put_text L v (cl_max_string_bytes L))
    (fun L => get_text L (cl_max_string_bytes L))
    (fun v => le_bytes 4 (zslen v) ++ bytes_of_string v)
    (fun _ => True)
    (fun L v => zslen v <= cl_max_string_bytes L /\ zslen v <= cl_max_total_bytes L /\ zslen v <= u32_max).

(** An enumeration with an [n]-byte underlying type and the declared maximum. *)
Definition dec_enum {A} `{Enum A} (max_value : Z) (o : option Z * Reader) : option A * Reader :=
  match o with
  | (None, r1) => (None, r1)
  | (Some raw, r1) =>
      if max_value <? raw then (None, reader_fail StatusCode.Protocol r1) else (enum_of raw, r1)
  end.

(** An enumerator above the declared maximum ([Count], say) is written like any
    other, and the decoder refuses it; such a value is not [typed]. *)
Definition c_enum8 {A} `{Enum A} (max_value : Z) : codec A :=
  mkCodec (fun L v => put_u8 L (enum_val v)) (fun _ r => dec_enum max_value (get_u8 r))
    (fun v => [enum_val v]) (fun v => 0 <= enum_val v <= Z.min max_value 255) (fun _ _ => True).

Definition c_enum16 {A} `{Enum A} (max_value : Z) : codec A :=
  mkCodec (fun _ v => put_le 2 (enum_val v)) (fun _ r => dec_enum max_value (get_le 2 r))
    (fun v => le_bytes 2 (enum_val v)) (fun v => 0 <= enum_val v <= Z.min max_value 65535)
    (fun _ _ => True).

(** *** Structure *)

(** A struct is the sequence of its fields: [visit_fields] visits the first,
    then the others, whatever became of the first. *)
Definition c_pair {A B} (ca : codec A) (cb : codec B) : codec (A * B) :=
  mkCodec (fun L v w => enc cb L v.2 (enc ca L v.1 w))
    (fun L r => let '(a, r1) := dec ca L r in
                let '(b, r2) := dec cb L r1 in
                (match a, b with Some a, Some b => Some (a, b) | _, _ => None end, r2))
    (fun v => bytes_of ca v.1 ++ bytes_of cb v.2)
    (fun v => typed ca v.1 /\ typed cb v.2)
    (fun L v => fits ca L v.1 /\ fits cb L v.2).

(** The fields of a record, as a tuple and back. *)
Definition c_iso {A B} (f : B -> A) (g : A -> B) (ca : codec A) : codec B :=
  mkCodec (fun L v => enc ca L (f v))
    (fun L r => let '(a, r1) := dec ca L r in (g <$> a, r1))
    (fun v => bytes_of ca (f v)) (fun v => typed ca (f v)) (fun L v => fits ca L (f v)).

Definition c_option {A} (ca : codec A) : codec (option A) :=
  mkCodec
    (fun L v w => match v with Some x => enc ca L x (put_u8 L 1 w) | None => put_u8 L 0 w end)
    (fun L r => match get_u8 r with
                | (None, r1) => (None, r1)
                | (Some present, r1) =>
                    if present =? 0 then (Some None, r1)
                    else if 1 <? present then (None, reader_fail StatusCode.Protocol r1)
                    else let '(x, r2) := dec ca L r1 in (Some <$> x, r2)
                end)
    (fun v => match v with Some x => 1 :: bytes_of ca x | None => [0] end)
    (fun v => match v with Some x => typed ca x | None => True end)
    (fun L v => match v with Some x => fits ca L x | None => True end).

(** [std::variant] with two alternatives. *)
Definition c_sum {A B} (ca : codec A) (cb : codec B) : codec (A + B) :=
  mkCodec
    (fun L v w => match v with
                  | inl x => enc ca L x (put_u8 L 0 w)
                  | inr y => enc cb L y (put_u8 L 1 w)
                  end)
    (fun L r => match get_u8 r with
                | (None, r1) => (None, r1)
                | (Some index, r1) =>
                    if 2 <=? index then (None, reader_fail StatusCode.Protocol r1)
                    else if index =? 0 then let '(x, r2) := dec ca L r1 in (inl <$> x, r2)
                    else let '(y, r2) := dec cb L r1 in (inr <$> y, r2)
                end)
    (fun v => match v with inl x => 0 :: bytes_of ca x | inr y => 1 :: bytes_of cb y end)
    (fun v => match v with inl x => typed ca x | inr y => typed cb y end)
    (fun L v => match v with inl x => fits ca L x | inr y => fits cb L y end).

(** The element loop of a decoder: it stops at the first element that fails. *)
Fixpoint dec_elements {A} (ca : codec A) (L : CodecLimits) (n : nat) (r : Reader) : option (list A) * Reader :=
  match n with
  | O => (Some [], r)
  | S n' =>
      let '(a, r1) := dec ca L r in
      if negb (ok (r_status r1)) then (None, r1)
      else let '(rest, r2) := dec_elements ca L n' r1 in
           (match a, rest with Some a, Some rest => Some (a :: rest) | _, _ => None end, r2)
  end.

Definition enc_elements {A} (ca : codec A) (L : CodecLimits) (l : list A) (w : Writer) : Writer :=
  fold_left (fun w a => enc ca L a w) l w.

Definition c_vector {A} (ca : codec A) : codec (list A) :=
  mkCodec
    (fun L v w => if cl_max_items L <? zlen v then writer_fail StatusCode.LimitExceeded w
                  else enc_elements ca L v (put_le 4 (wrap32 (zlen v)) w))
    (fun L r => match get_le 4 r with
                | (None, r1) => (None, r1)
                | (Some count, r1) =>
                    if cl_max_items L <? count then (None, reader_fail StatusCode.LimitExceeded r1)
                    else if zlen (r_rest r1) <? count then (None, reader_fail StatusCode.Protocol r1)
                    else dec_elements ca L (Z.to_nat count) r1
                end)
    (fun v => le_bytes 4 (zlen v) ++ concat (map (bytes_of ca) v))
    (fun v => Forall (typed ca) v /\ zlen v <= u32_max)
    (fun L v => zlen v <= cl_max_items L /\ Forall (fits ca L) v).

(** [std::array] of [n] elements: every element is a field of its own. *)
Fixpoint dec_fields {A} (ca : codec A) (L : CodecLimits) (n : nat) (r : Reader) : option (list A) * Reader :=
  match n with
  | O => (Some [], r)
  | S n' =>
      let '(a, r1) := dec ca L r in
      let '(rest, r2) := dec_fields ca L n' r1 in
      (match a, rest with Some a, Some rest => Some (a :: rest) | _, _ => None end, r2)
  end.

Definition c_array {A} (n : nat) (ca : codec A) : codec (list A) :=
  mkCodec (enc_elements ca) (fun L => dec_fields ca L n) (fun v => concat (map (bytes_of ca) v))
    (fun v => Forall (typed ca) v /\ List.length v = n /\ n <> 0%nat) (fun L v => Forall (fits ca L) v).

(** ** Laws of the primitives *)

Lemma lor_split v : 0 <= v -> Z.lor (Z.land v 255) (Z.shiftl (Z.shiftr v 8) 8) = v.
Proof.
  intros. apply Z.bits_inj'. intros n Hn.
  rewrite Z.lor_spec, Z.land_spec, Z.shiftl_spec by done.
  change 255 with (Z.ones 8). rewrite Z.testbit_ones_nonneg by lia.
  destruct (Z.ltb_spec n 8).
  - rewrite (Z.testbit_neg_r _ (n - 8)) by lia. by rewrite andb_true_r, orb_false_r.
  - rewrite Z.shiftr_spec by lia. rewrite andb_false_r. simpl. f_equal. lia.
Qed.

Lemma le_bytes_length n v : List.length (le_bytes n v) = n.
Proof. revert v. induction n; intros; simpl; auto. Qed.

Lemma le_value_bytes n v : 0 <= v < 256 ^ Z.of_nat n -> le_value (le_bytes n v) = v.
Proof.
  revert v. induction n as [|n IH]; intros v Hv; cbn [le_bytes le_value]; [simpl in Hv; lia|].
  rewrite IH; [apply lor_split; lia|]. rewrite Z.shiftr_div_pow2 by lia. change (2 ^ 8) with 256.
  rewrite Nat2Z.inj_succ, Z.pow_succ_r in Hv by lia.
  split; [apply Z.div_pos; lia|]. apply Z.div_lt_upper_bound; lia.
Qed.

Lemma ok_status s : ok s = true <-> s = StatusCode.Ok.
Proof. unfold ok. apply bool_decide_eq_true. Qed.

Lemma ok_status_false s : ok s = false <-> s <> StatusCode.Ok.
Proof. unfold ok. apply bool_decide_eq_false. Qed.

Lemma writer_raw_ok L data w :
  w_status (writer_raw L data w) = StatusCode.Ok ->
  w_status w = StatusCode.Ok /\ w_buffer (writer_raw L data w) = w_buffer w ++ data.
Proof.
  unfold writer_raw. destruct (ok (w_status w)) eqn:E; simpl.
  - apply ok_status in E. destruct (checked_add_size _ _) as [total|]; [|done].
    destruct (_ <? total); simpl; [done|]. by intros _.
  - apply ok_status_false in E. done.
Qed.

Lemma reader_fail_bad code r : code <> StatusCode.Ok -> r_status (reader_fail code r) <> StatusCode.Ok.
Proof.
  unfold reader_fail. destruct (ok (r_status r)) eqn:E; [done|]. intros _. by apply ok_status_false in E.
Qed.

Lemma get_le_append n v q :
  0 <= v < 256 ^ Z.of_nat n ->
  get_le n (mkReader (le_bytes n v ++ q) StatusCode.Ok) = (Some v, mkReader q StatusCode.Ok).
Proof.
  intros Hv. unfold get_le. simpl. rewrite length_app, le_bytes_length.
  destruct (Nat.ltb_spec (n + List.length q) n); [lia|].
  rewrite take_app_length', drop_app_length' by (symmetry; apply le_bytes_length). by rewrite le_value_bytes.
Qed.

Lemma get_le_local n p q a r :
  get_le n (mkReader p StatusCode.Ok) = (a, r) -> r_status r = StatusCode.Ok ->
  get_le n (mkReader (p ++ q) StatusCode.Ok) = (a, mkReader (r_rest r ++ q) StatusCode.Ok).
Proof.
  unfold get_le. simpl. destruct (Nat.ltb_spec (List.length p) n) as [Hlt|Hge].
  - unfold reader_fail. simpl. by intros [= <- <-].
  - intros [= <- <-] _. rewrite length_app. destruct (Nat.ltb_spec (List.length p + List.length q) n); [lia|].
    simpl. rewrite take_app_le, drop_app_le by lia. done.
Qed.

Lemma get_le_failed n r : r_status r <> StatusCode.Ok -> r_status (get_le n r).2 <> StatusCode.Ok.
Proof. intros. unfold get_le. case_match; simpl; [by apply reader_fail_bad|done]. Qed.

Lemma get_u8_local p q a r :
  get_u8 (mkReader p StatusCode.Ok) = (a, r) -> r_status r = StatusCode.Ok ->
  get_u8 (mkReader (p ++ q) StatusCode.Ok) = (a, mkReader (r_rest r ++ q) StatusCode.Ok).
Proof. unfold get_u8. simpl. destruct p; simpl; by intros [= <- <-]. Qed.

Lemma get_u8_failed r : r_status r <> StatusCode.Ok -> get_u8 r = (None, r).
Proof. intros Hr. unfold get_u8. apply ok_status_false in Hr. by rewrite Hr. Qed.

Lemma put_u8_ok L v w :
  w_status (put_u8 L v w) = StatusCode.Ok ->
  w_status w = StatusCode.Ok /\ w_buffer (put_u8 L v w) = w_buffer w ++ [v].
Proof. apply writer_raw_ok. Qed.

(** ** Laws of the scalar codecs *)

#[export] Instance c_u8_laws : CodecLaws c_u8.
Proof.
  constructor; simpl.
  - intros L a w _ H. apply put_u8_ok in H as [? ?]. done.
  - done.
  - intros L. apply get_u8_local.
  - intros L r Hr. by rewrite get_u8_failed.
  - done.
Qed.

#[export] Instance c_le_laws n : CodecLaws (c_le (S n)).
Proof.
  constructor; cbn [c_le enc dec bytes_of typed fits].
  - intros L a w _ H. done.
  - intros L a q Ha _. by apply get_le_append.
  - intros L p q a r. apply get_le_local.
  - intros L r. apply get_le_failed.
  - done.
Qed.

#[export] Instance c_u16_laws : CodecLaws c_u16 := c_le_laws 1.
#[export] Instance c_u32_laws : CodecLaws c_u32 := c_le_laws 3.
#[export] Instance c_u64_laws : CodecLaws c_u64 := c_le_laws 7.

(** A scalar that travels as the eight bytes of another. *)
Lemma c_word_laws {A} (to : A -> Z) (back : Z -> A) (ty : A -> Prop) :
  (forall a, ty a -> is_u64 (to a) /\ back (to a) = a) ->
  CodecLaws (mkCodec (fun _ v => put_le 8 (to v))
    (fun _ r => let '(v, r1) := get_le 8 r in (back <$> v, r1)) (fun v => le_bytes 8 (to v)) ty (fun _ _ => True)).
Proof.
  intros Hto. constructor; cbn [enc dec bytes_of typed fits].
  - done.
  - intros L a q Ha _. destruct (Hto a Ha) as [Hr Ho]. rewrite get_le_append; [simpl; by rewrite Ho|].
    unfold is_u64, u64_max in Hr. change (256 ^ Z.of_nat 8) with 18446744073709551616. lia.
  - intros L p q a r. destruct (get_le 8 (mkReader p _)) as [v r1] eqn:E. intros [= <- <-] Hok.
    by rewrite (get_le_local _ _ q _ _ E Hok).
  - intros L r Hr. pose proof (get_le_failed 8 r Hr). by destruct (get_le 8 r).
  - done.
Qed.

#[export] Instance c_i64_laws : CodecLaws c_i64.
Proof.
  apply c_word_laws. intros a Ha. split; [apply wrap64_range|].
  transitivity (to_i64 a); [|by apply to_i64_id]. unfold to_i64.
  by rewrite (wrap64_id (wrap64 a) (wrap64_range a)).
Qed.

#[export] Instance c_f64_laws : CodecLaws c_f64.
Proof. apply c_word_laws. intros a Ha. split; [by apply bits_of_f64_range|by apply f64_bits_roundtrip]. Qed.

#[export] Instance c_bool_laws : CodecLaws c_bool.
Proof.
  constructor; simpl.
  - intros L a w _ H. apply put_u8_ok in H as [? ?]. done.
  - intros L [] q _ _; done.
  - intros L p q a r. destruct p as [|b p]; simpl; [by intros [= <- <-]|].
    destruct (1 <? b); intros [= <- <-] Hs; simpl in *; [|done].
    unfold reader_fail in Hs. simpl in Hs. done.
  - intros L r Hr. by rewrite get_u8_failed.
  - intros []; done.
Qed.

Lemma string_bytes_roundtrip s : string_of_bytes (bytes_of_string s) = s.
Proof.
  unfold string_of_bytes, bytes_of_string. rewrite map_map.
  rewrite (map_ext _ (fun c => c)).
  - rewrite map_id. apply string_of_list_ascii_of_string.
  - intros c. rewrite N2Z.id. apply ascii_N_embedding.
Qed.

Lemma bytes_of_string_length s : zlen (bytes_of_string s) = zslen s.
Proof.
  unfold zlen, zslen, bytes_of_string. rewrite length_map. f_equal.
  induction s; simpl; auto.
Qed.

Lemma zslen_nonneg s : 0 <= zslen s.
Proof. unfold zslen. lia. Qed.

Lemma get_bytes_local L size p q a r :
  get_bytes L size (mkReader p StatusCode.Ok) = (a, r) -> r_status r = StatusCode.Ok ->
  get_bytes L size (mkReader (p ++ q) StatusCode.Ok) = (a, mkReader (r_rest r ++ q) StatusCode.Ok).
Proof.
  unfold get_bytes. simpl. case_match; [by intros [= <- <-]|].
  destruct (zlen p <? size) eqn:E; breflect; [by intros [= <- <-]|].
  intros [= <- <-] _. rewrite zlen_app. pose proof (zlen_nonneg q).
  destruct (zlen p + zlen q <? size) eqn:E2; breflect; [lia|]. simpl.
  unfold zlen in E. rewrite take_app_le, drop_app_le by lia. done.
Qed.

#[export] Instance c_string_laws : CodecLaws c_string.
Proof.
  constructor; cbn [c_string enc dec bytes_of typed fits].
  - intros L a w _ H. unfold put_text in *. destruct (ok (w_status w)) eqn:E; simpl in *;
      [|apply ok_status_false in E; done].
    destruct (_ <? zslen a) eqn:E1; [unfold writer_fail in H; rewrite E in H; done|].
    unfold put_bytes in *. rewrite E, bytes_of_string_length in *. simpl in *.
    destruct (_ || _) eqn:E2; [unfold writer_fail in H; rewrite E in H; done|]. breflect.
    apply writer_raw_ok in H as [Hw Hb]. simpl in *. rewrite <- app_assoc in Hb. done.
  - intros L a q _ (H1 & H2 & H3). unfold get_text. rewrite <- app_assoc.
    pose proof (zslen_nonneg a). unfold u32_max in H3.
    rewrite get_le_append by (change (256 ^ Z.of_nat 4) with 4294967296; lia).
    destruct (_ <? zslen a) eqn:E; breflect; [lia|].
    unfold get_bytes. simpl. destruct (_ <? zslen a) eqn:E2; breflect; [lia|].
    rewrite zlen_app, bytes_of_string_length. pose proof (zlen_nonneg q).
    destruct (_ <? zslen a) eqn:E3; breflect; [lia|].
    assert (Z.to_nat (zslen a) = List.length (bytes_of_string a)) as ->.
    { rewrite <- bytes_of_string_length. unfold zlen. lia. }
    rewrite take_app_length, drop_app_length. simpl. by rewrite string_bytes_roundtrip.
  - intros L p q a r. unfold get_text. destruct (get_le 4 (mkReader p _)) as [[len|] r1] eqn:E.
    + destruct (_ <? len) eqn:E1; [by intros [= <- <-]|].
      destruct (ok (r_status r1)) eqn:Eok.
      * apply ok_status in Eok. rewrite (get_le_local _ _ q _ _ E Eok), E1.
        destruct r1 as [rest st]. simpl in Eok. subst st. simpl.
        destruct (get_bytes L len (mkReader rest StatusCode.Ok)) as [b r2] eqn:E2. intros [= <- <-] Hr.
        by rewrite (get_bytes_local _ _ _ q _ _ E2 Hr).
      * unfold get_bytes. rewrite Eok. simpl. apply ok_status_false in Eok. by intros [= <- <-].
    + intros [= <- <-] Hr. by rewrite (get_le_local _ _ q _ _ E Hr).
  - intros L r Hr. unfold get_text. pose proof (get_le_failed 4 r Hr) as Hf.
    destruct (get_le 4 r) as [[len|] r1]; simpl in *; [|done]. case_match; simpl; [done|].
    unfold get_bytes. apply ok_status_false in Hf as Hf'. by rewrite Hf'.
  - done.
Qed.

Lemma dec_enum_local {A} `{Enum A} m o r r' a q (o' : option Z * Reader) :
  o = (a, r) -> r_status r = StatusCode.Ok -> o' = (a, mkReader (r_rest r ++ q) StatusCode.Ok) ->
  forall v, dec_enum (A := A) m o = (v, r') -> r_status r' = StatusCode.Ok ->
  dec_enum m o' = (v, mkReader (r_rest r' ++ q) StatusCode.Ok).
Proof.
  intros -> Hr -> v. unfold dec_enum. destruct a as [raw|].
  - destruct (m <? raw); [|by intros [= <- <-]]. intros [= <- <-] Hb.
    exfalso. by apply (reader_fail_bad StatusCode.Protocol r).
  - by intros [= <- <-].
Qed.

Lemma dec_enum_bad {A} `{Enum A} m o :
  r_status o.2 <> StatusCode.Ok -> r_status (dec_enum (A := A) m o).2 <> StatusCode.Ok.
Proof.
  destruct o as [[raw|] r]; simpl; [|done]. intros Hr. destruct (m <? raw); simpl; [by apply reader_fail_bad|done].
Qed.

(** If the reader of the raw value succeeded, so had it before the range check. *)
Lemma dec_enum_ok {A} `{Enum A} m o v r :
  dec_enum (A := A) m o = (v, r) -> r_status r = StatusCode.Ok -> r_status o.2 = StatusCode.Ok.
Proof.
  intros E Hr. destruct (ok (r_status o.2)) eqn:Eo; [by apply ok_status|].
  apply ok_status_false in Eo. exfalso. apply (dec_enum_bad m o Eo). by rewrite E.
Qed.

#[export] Instance c_enum8_laws {A} `{Enum A} m : CodecLaws (c_enum8 (A := A) m).
Proof.
  constructor; cbn [c_enum8 enc dec bytes_of typed fits].
  - intros L a w _ Hs. apply put_u8_ok in Hs as [? ?]. done.
  - intros L a q Ha _. simpl. destruct (m <? enum_val a) eqn:E; breflect; [lia|]. by rewrite enum_of_val.
  - intros L p q a r E Hr. destruct (get_u8 (mkReader p StatusCode.Ok)) as [o r1] eqn:Eg.
    pose proof (dec_enum_ok _ _ _ _ E Hr) as H1.
    eapply dec_enum_local; [exact eq_refl|exact H1|by apply get_u8_local|exact E|exact Hr].
  - intros L r Hr. apply dec_enum_bad. by rewrite get_u8_failed.
  - done.
Qed.

#[export] Instance c_enum16_laws {A} `{Enum A} m : CodecLaws (c_enum16 (A := A) m).
Proof.
  constructor; cbn [c_enum16 enc dec bytes_of typed fits].
  - done.
  - intros L a q Ha _. rewrite get_le_append by (change (256 ^ Z.of_nat 2) with 65536; lia). simpl.
    destruct (m <? enum_val a) eqn:E; breflect; [lia|]. by rewrite enum_of_val.
  - intros L p q a r E Hr. destruct (get_le 2 (mkReader p StatusCode.Ok)) as [o r1] eqn:Eg.
    pose proof (dec_enum_ok _ _ _ _ E Hr) as H1.
    eapply dec_enum_local; [exact eq_refl|exact H1|by apply get_le_local|exact E|exact Hr].
  - intros L r Hr. apply dec_enum_bad. by apply get_le_failed.
  - done.
Qed.

(** ** Laws of the structural codecs *)

Lemma reader_eta r : r_status r = StatusCode.Ok -> r = mkReader (r_rest r) StatusCode.Ok.
Proof. destruct r. simpl. by intros ->. Qed.

(** A decoder that ends well began well. *)
Lemma dec_ok_before {A} (c : codec A) `{!CodecLaws c} L r a r' :
  dec c L r = (a, r') -> r_status r' = StatusCode.Ok -> r_status r = StatusCode.Ok.
Proof.
  intros E Hr. destruct (ok (r_status r)) eqn:Eo; [by apply ok_status|].
  apply ok_status_false in Eo. exfalso. apply (dec_failed L r Eo). by rewrite E.
Qed.

Lemma dec_local' {A} (c : codec A) `{!CodecLaws c} L r q a r' :
  dec c L r = (a, r') -> r_status r' = StatusCode.Ok ->
  dec c L (mkReader (r_rest r ++ q) StatusCode.Ok) = (a, mkReader (r_rest r' ++ q) StatusCode.Ok).
Proof.
  intros E Hr. pose proof (dec_ok_before c L r a r' E Hr) as Hb. rewrite (reader_eta r Hb) in E.
  by apply (dec_local L _ q).
Qed.

#[export] Instance c_pair_laws {A B} (ca : codec A) (cb : codec B) :
  CodecLaws ca -> CodecLaws cb -> CodecLaws (c_pair ca cb).
Proof.
  intros La Lb. constructor; cbn [c_pair enc dec bytes_of typed fits].
  - intros L [a b] w [Ta Tb] H. simpl in *.
    destruct (enc_accepts L b _ Tb H) as (H1 & H2 & H3). destruct (enc_accepts L a w Ta H1) as (H4 & H5 & H6).
    split; [done|]. split; [done|]. by rewrite H3, H6, app_assoc.
  - intros L [a b] q [Ta Tb] [Fa Fb]. simpl in *. rewrite <- app_assoc.
    by rewrite (dec_enc L a _ Ta Fa), (dec_enc L b _ Tb Fb).
  - intros L p q v r. destruct (dec ca L (mkReader p StatusCode.Ok)) as [a r1] eqn:E1.
    destruct (dec cb L r1) as [b r2] eqn:E2. intros [= <- <-] Hr.
    pose proof (dec_ok_before cb _ _ _ _ E2 Hr) as H1.
    by rewrite (dec_local L p q a r1 E1 H1), (dec_local' cb L r1 q b r2 E2 Hr).
  - intros L r Hr. pose proof (dec_failed (c := ca) L r Hr) as H1. destruct (dec ca L r) as [a r1].
    simpl in H1. pose proof (dec_failed (c := cb) L r1 H1) as H2. by destruct (dec cb L r1).
  - intros [a b] [Ta Tb]. simpl in *. pose proof (bytes_nonempty a Ta). by destruct (bytes_of ca a).
Qed.

Lemma c_iso_laws {A B} (f : B -> A) (g : A -> B) (ca : codec A) :
  CodecLaws ca -> (forall b, g (f b) = b) -> CodecLaws (c_iso f g ca).
Proof.
  intros La Hg. constructor; cbn [c_iso enc dec bytes_of typed fits].
  - intros L b w Tb H. by apply enc_accepts.
  - intros L b q Tb Fb. rewrite (dec_enc L (f b) q Tb Fb). simpl. by rewrite Hg.
  - intros L p q v r. destruct (dec ca L (mkReader p StatusCode.Ok)) as [a r1] eqn:E1. intros [= <- <-] Hr.
    by rewrite (dec_local L p q a r1 E1 Hr).
  - intros L r Hr. pose proof (dec_failed (c := ca) L r Hr). by destruct (dec ca L r).
  - intros b Tb. by apply bytes_nonempty.
Qed.

(** A decoder that dispatches on a leading byte. *)
Lemma tagged_local {A} (k : Z -> Reader -> option A * Reader) :
  (forall t r q a r', k t r = (a, r') -> r_status r' = StatusCode.Ok ->
     r_status r = StatusCode.Ok /\
     k t (mkReader (r_rest r ++ q) StatusCode.Ok) = (a, mkReader (r_rest r' ++ q) StatusCode.Ok)) ->
  forall p q a r,
  match get_u8 (mkReader p StatusCode.Ok) with (None, r1) => (None, r1) | (Some t, r1) => k t r1 end = (a, r) ->
  r_status r = StatusCode.Ok ->
  match get_u8 (mkReader (p ++ q) StatusCode.Ok) with (None, r1) => (None, r1) | (Some t, r1) => k t r1 end
  = (a, mkReader (r_rest r ++ q) StatusCode.Ok).
Proof.
  intros Hk p q a r. destruct p as [|t p]; simpl; [by intros [= <- <-]|]. intros E Hr.
  by destruct (Hk _ _ q _ _ E Hr) as [_ ?].
Qed.

Lemma fail_absurd {A} code r q (a : option A) r' :
  code <> StatusCode.Ok -> (@None A, reader_fail code r) = (a, r') -> r_status r' = StatusCode.Ok ->
  r_status r = StatusCode.Ok /\
  (@None A, reader_fail code (mkReader (r_rest r ++ q) StatusCode.Ok)) = (a, mkReader (r_rest r' ++ q) StatusCode.Ok).
Proof. intros Hc [= <- <-] Hr. exfalso. by apply (reader_fail_bad code r). Qed.

#[export] Instance c_option_laws {A} (ca : codec A) : CodecLaws ca -> CodecLaws (c_option ca).
Proof.
  intros La. constructor; cbn [c_option enc dec bytes_of typed fits].
  - intros L [x|] w T H.
    + destruct (enc_accepts L x _ T H) as (H1 & H2 & H3). apply put_u8_ok in H1 as [H4 H5].
      split; [done|]. split; [done|]. by rewrite H3, H5, <- app_assoc.
    + by apply put_u8_ok in H as [? ?].
  - intros L [x|] q T F; simpl; [|done]. by rewrite (dec_enc L x q T F).
  - intros L. apply (tagged_local (fun t r1 => if t =? 0 then (Some None, r1)
      else if 1 <? t then (None, reader_fail StatusCode.Protocol r1)
      else let '(x, r2) := dec ca L r1 in (Some <$> x, r2))).
    intros t r q a r'. case_match; [by intros [= <- <-]|]. case_match; [by apply fail_absurd|].
    destruct (dec ca L r) as [x r2] eqn:E. intros [= <- <-] Hr.
    split; [by eapply dec_ok_before|]. by rewrite (dec_local' ca L r q x r2 E Hr).
  - intros L r Hr. by rewrite get_u8_failed.
  - by intros [x|] _.
Qed.

#[export] Instance c_sum_laws {A B} (ca : codec A) (cb : codec B) :
  CodecLaws ca -> CodecLaws cb -> CodecLaws (c_sum ca cb).
Proof.
  intros La Lb. constructor; cbn [c_sum enc dec bytes_of typed fits].
  - intros L [x|y] w T H.
    + destruct (enc_accepts L x _ T H) as (H1 & H2 & H3). apply put_u8_ok in H1 as [H4 H5].
      split; [done|]. split; [done|]. by rewrite H3, H5, <- app_assoc.
    + destruct (enc_accepts L y _ T H) as (H1 & H2 & H3). apply put_u8_ok in H1 as [H4 H5].
      split; [done|]. split; [done|]. by rewrite H3, H5, <- app_assoc.
  - intros L [x|y] q T F; simpl; [by rewrite (dec_enc L x q T F)|by rewrite (dec_enc L y q T F)].
  - intros L. apply (tagged_local (fun t r1 => if 2 <=? t then (None, reader_fail StatusCode.Protocol r1)
      else if t =? 0 then let '(x, r2) := dec ca L r1 in (inl <$> x, r2)
      else let '(y, r2) := dec cb L r1 in (inr <$> y, r2))).
    intros t r q a r'. case_match; [by apply fail_absurd|]. case_match.
    + destruct (dec ca L r) as [x r2] eqn:E. intros [= <- <-] Hr.
      split; [exact (dec_ok_before ca L r x r2 E Hr)|]. by rewrite (dec_local' ca L r q x r2 E Hr).
    + destruct (dec cb L r) as [x r2] eqn:E. intros [= <- <-] Hr.
      split; [exact (dec_ok_before cb L r x r2 E Hr)|]. by rewrite (dec_local' cb L r q x r2 E Hr).
  - intros L r Hr. by rewrite get_u8_failed.
  - by intros [x|y] _.
Qed.

Lemma enc_elements_accepts {A} (ca : codec A) `{!CodecLaws ca} L l : forall w,
  Forall (typed ca) l -> w_status (enc_elements ca L l w) = StatusCode.Ok ->
  w_status w = StatusCode.Ok /\ Forall (fits ca L) l /\
  w_buffer (enc_elements ca L l w) = w_buffer w ++ concat (map (bytes_of ca) l).
Proof.
  induction l as [|a l IH]; intros w T H; simpl in *; [by rewrite app_nil_r|].
  apply Forall_cons in T as [Ta T]. destruct (IH _ T H) as (H1 & H2 & H3).
  destruct (enc_accepts L a w Ta H1) as (H4 & H5 & H6).
  split; [done|]. split; [by constructor|]. unfold enc_elements in *. by rewrite H3, H6, <- app_assoc.
Qed.

Lemma concat_length_ge {A} (ca : codec A) `{!CodecLaws ca} l :
  Forall (typed ca) l -> zlen l <= zlen (concat (map (bytes_of ca) l)).
Proof.
  induction 1 as [|a l Ta T IH]; simpl; [done|]. rewrite zlen_cons, zlen_app.
  pose proof (bytes_nonempty a Ta). destruct (bytes_of ca a); [done|].
  rewrite zlen_cons. pose proof (zlen_nonneg l0). lia.
Qed.

Lemma dec_elements_enc {A} (ca : codec A) `{!CodecLaws ca} L l q :
  Forall (typed ca) l -> Forall (fits ca L) l ->
  dec_elements ca L (List.length l) (mkReader (concat (map (bytes_of ca) l) ++ q) StatusCode.Ok)
  = (Some l, mkReader q StatusCode.Ok).
Proof.
  induction l as [|a l IH]; intros T F; simpl; [done|].
  apply Forall_cons in T as [Ta T]. apply Forall_cons in F as [Fa F].
  rewrite <- app_assoc, (dec_enc L a _ Ta Fa). simpl. by rewrite IH.
Qed.

Lemma dec_elements_ok_before {A} (ca : codec A) `{!CodecLaws ca} L n r a r' :
  dec_elements ca L n r = (a, r') -> r_status r' = StatusCode.Ok -> r_status r = StatusCode.Ok.
Proof.
  destruct n as [|n]; simpl; [by intros [= <- <-]|].
  destruct (dec ca L r) as [x r1] eqn:E1. destruct (ok (r_status r1)) eqn:Eo; simpl.
  - intros _ _. apply ok_status in Eo. by eapply dec_ok_before.
  - apply ok_status_false in Eo. by intros [= <- <-].
Qed.

Lemma dec_elements_local {A} (ca : codec A) `{!CodecLaws ca} L n : forall r q a r',
  dec_elements ca L n r = (a, r') -> r_status r' = StatusCode.Ok ->
  dec_elements ca L n (mkReader (r_rest r ++ q) StatusCode.Ok) = (a, mkReader (r_rest r' ++ q) StatusCode.Ok).
Proof.
  induction n as [|n IH]; intros r q a r' E Hr; simpl in *; [by simplify_eq|].
  destruct (dec ca L r) as [x r1] eqn:E1. destruct (ok (r_status r1)) eqn:Eo; simpl in *.
  - apply ok_status in Eo. destruct (dec_elements ca L n r1) as [rest r2] eqn:E2. injection E as <- <-.
    rewrite (dec_local' ca L r q x r1 E1 Eo). simpl. by rewrite (IH r1 q rest r2 E2 Hr).
  - apply ok_status_false in Eo. by injection E as <- <-.
Qed.

#[export] Instance c_vector_laws {A} (ca : codec A) : CodecLaws ca -> CodecLaws (c_vector ca).
Proof.
  intros La. constructor; cbn [c_vector enc dec bytes_of typed fits].
  - intros L l w [T Hlen] H. destruct (_ <? zlen l) eqn:E.
    + exfalso. unfold writer_fail in H. destruct (ok (w_status w)) eqn:Eo; [done|]. by apply ok_status_false in Eo.
    + breflect. apply enc_elements_accepts in H as (H1 & H2 & H3); [|done|done]. simpl in *.
      split; [done|]. split; [done|]. rewrite H3, <- app_assoc.
      assert (wrap32 (zlen l) = zlen l) as ->; [|done].
      unfold wrap32, u32_max in *. pose proof (zlen_nonneg l). apply Z.mod_small. lia.
  - intros L l q [T Hlen] [Hm F]. rewrite <- app_assoc. pose proof (zlen_nonneg l). unfold u32_max in Hlen.
    rewrite get_le_append by (change (256 ^ Z.of_nat 4) with 4294967296; lia).
    destruct (_ <? zlen l) eqn:E; breflect; [lia|]. simpl.
    rewrite zlen_app. pose proof (concat_length_ge ca l T). pose proof (zlen_nonneg q).
    destruct (_ <? zlen l) eqn:E2; breflect; [lia|]. unfold zlen at 1. rewrite Nat2Z.id. by apply dec_elements_enc.
  - intros L p q v r. destruct (get_le 4 (mkReader p _)) as [[count|] r1] eqn:E1.
    + destruct (_ <? count) eqn:E2.
      { intros [= <- <-] Hr. exfalso. by apply (reader_fail_bad StatusCode.LimitExceeded r1). }
      destruct (zlen (r_rest r1) <? count) eqn:E3.
      { intros [= <- <-] Hr. exfalso. by apply (reader_fail_bad StatusCode.Protocol r1). }
      intros E Hr. pose proof (dec_elements_ok_before ca _ _ _ _ _ E Hr) as H1.
      rewrite (get_le_local _ _ q _ _ E1 H1), E2. simpl. rewrite zlen_app. pose proof (zlen_nonneg q). breflect.
      destruct (_ <? count) eqn:E4; breflect; [lia|]. by apply dec_elements_local.
    + intros [= <- <-] Hr. by rewrite (get_le_local _ _ q _ _ E1 Hr).
  - intros L r Hr. pose proof (get_le_failed 4 r Hr) as H1. destruct (get_le 4 r) as [[count|] r1]; simpl in *; [|done].
    case_match; [by apply reader_fail_bad|]. case_match; [by apply reader_fail_bad|].
    destruct (dec_elements ca L (Z.to_nat count) r1) as [a r2] eqn:E. simpl. intros Hr2.
    apply H1. by eapply dec_elements_ok_before.
  - done.
Qed.

Lemma dec_fields_ok_before {A} (ca : codec A) `{!CodecLaws ca} L n : forall r a r',
  dec_fields ca L n r = (a, r') -> r_status r' = StatusCode.Ok -> r_status r = StatusCode.Ok.
Proof.
  induction n as [|n IH]; intros r a r'; simpl; [by intros [= <- <-]|].
  destruct (dec ca L r) as [x r1] eqn:E1. destruct (dec_fields ca L n r1) as [rest r2] eqn:E2.
  intros [= <- <-] Hr. apply (dec_ok_before ca L r x r1 E1). by eapply IH.
Qed.

Lemma dec_fields_local {A} (ca : codec A) `{!CodecLaws ca} L n : forall r q a r',
  dec_fields ca L n r = (a, r') -> r_status r' = StatusCode.Ok ->
  dec_fields ca L n (mkReader (r_rest r ++ q) StatusCode.Ok) = (a, mkReader (r_rest r' ++ q) StatusCode.Ok).
Proof.
  induction n as [|n IH]; intros r q a r' E Hr; simpl in *; [by simplify_eq|].
  destruct (dec ca L r) as [x r1] eqn:E1. destruct (dec_fields ca L n r1) as [rest r2] eqn:E2.
  injection E as <- <-. pose proof (dec_fields_ok_before ca L n _ _ _ E2 Hr) as H1.
  by rewrite (dec_local' ca L r q x r1 E1 H1), (IH r1 q rest r2 E2 Hr).
Qed.

#[export] Instance c_array_laws {A} n (ca : codec A) : CodecLaws ca -> CodecLaws (c_array n ca).
Proof.
  intros La. constructor; cbn [c_array enc dec bytes_of typed fits].
  - intros L l w (T & _) H. by apply enc_elements_accepts.
  - intros L l q (T & <- & _) F. clear -T F La. induction l as [|a l IH]; simpl; [done|].
    apply Forall_cons in T as [Ta T]. apply Forall_cons in F as [Fa F].
    rewrite <- app_assoc, (dec_enc L a _ Ta Fa). by rewrite IH.
  - intros L p q a r E Hr. by apply (dec_fields_local ca L n (mkReader p StatusCode.Ok)).
  - intros L r Hr. destruct (dec_fields ca L n r) as [a r'] eqn:E. simpl. intros Hr'.
    apply Hr. by eapply dec_fields_ok_before.
  - intros l (T & <- & Hn). destruct l as [|a l]; [done|]. apply Forall_cons in T as [Ta T]. simpl.
    pose proof (bytes_nonempty a Ta). by destruct (bytes_of ca a).
Qed.

(** ** Whole messages *)

(** Encoding into a fresh writer, and decoding with nothing left over. *)
Definition encode {A} (c : codec A) (L : CodecLimits) (a : A) : Outcome (list Z) :=
  let w := enc c L a empty_writer in
  if ok (w_status w) then Good (w_buffer w) else Bad (w_status w).

Section Messages.
Context {A : Type} (c : codec A) `{!CodecLaws c}.

Lemma encode_decode L a data q :
  typed c a -> encode c L a = Good data ->
  dec c L (reader_of (data ++ q)) = (Some a, mkReader q StatusCode.Ok).
Proof using CodecLaws0.
  intros T. unfold encode. destruct (ok (w_status _)) eqn:E; [|done]. intros [= <-].
  apply ok_status in E. destruct (enc_accepts L a empty_writer T E) as (_ & F & B).
  rewrite B. by apply dec_enc.
Qed.

Lemma encode_injective L a b data :
  typed c a -> typed c b -> encode c L a = Good data -> encode c L b = Good data -> a = b.
Proof using CodecLaws0.
  intros Ta Tb Ea Eb. pose proof (encode_decode L a data [] Ta Ea) as Ha.
  rewrite (encode_decode L b data [] Tb Eb) in Ha. congruence.
Qed.

(** A strict prefix of a message is refused. *)
Lemma truncated_refused L a data p q :
  typed c a -> encode c L a = Good data -> data = p ++ q -> q <> [] ->
  r_status (dec c L (reader_of p)).2 <> StatusCode.Ok.
Proof using CodecLaws0.
  intros T E -> Hq Hok. destruct (dec c L (reader_of p)) as [v r] eqn:Ed. simpl in Hok.
  pose proof (dec_local L p q v r Ed Hok) as H1.
  pose proof (encode_decode L a (p ++ q) [] T E) as H2. rewrite app_nil_r in H2. unfold reader_of in H2.
  rewrite H1 in H2. injection H2 as _ H2. by apply app_nil in H2 as [_ ?].
Qed.
End Messages.
