(* ===== verification/FieldCodecs.v ===== *)
(** * Field descriptions of the persisted and transported types

    [persist/codec.hpp]: one [visit_fields] overload per type, in field order,
    and the declared bounds of the enumerations that cross a boundary. *)

From Stdlib Require Import ZArith Lia Bool List String Ascii.
From stdpp Require Import base decidable list strings.
From S2P Require Import Prelude OrdMap Float Core Hash Quality Metric Identity Counter.
From S2P Require Import Capability Config Policy Classification Codec.

Open Scope Z_scope.

(** ** Enumerations and their bounds *)

Definition c_family : codec MetricFamily.t := c_enum8 (enum_val MetricFamily.Count - 1).
Definition c_transport : codec TransportKind.t := c_enum8 (enum_val TransportKind.Count - 1).
Definition c_evidence_class : codec EvidenceClass.t := c_enum8 (enum_val EvidenceClass.Count - 1).
Definition c_origin : codec EvidenceOrigin.t := c_enum8 (enum_val EvidenceOrigin.Count - 1).
Definition c_reason : codec ReasonCode.t := c_enum16 (enum_val ReasonCode.Count - 1).
Definition c_quality_state : codec QualityState.t := c_enum8 (enum_val QualityState.Conflicting).
Definition c_confidence : codec ConfidenceLevel.t := c_enum8 (enum_val ConfidenceLevel.High).
Definition c_axis : codec WindowAxis.t := c_enum8 (enum_val WindowAxis.ReceiveTime).
Definition c_semantics : codec SampleSemantics.t := c_enum8 (enum_val SampleSemantics.Counter).
Definition c_counter_width : codec CounterWidth.t := c_enum8 (enum_val CounterWidth.Bits64).
Definition c_basis : codec MetricBasis.t := c_enum8 (enum_val MetricBasis.CounterDelta).
Definition c_unit : codec Unit.t := c_enum8 (enum_val Unit.MilliDegreeCelsius).

#[export] Instance c_family_laws : CodecLaws c_family := c_enum8_laws _.
#[export] Instance c_transport_laws : CodecLaws c_transport := c_enum8_laws _.
#[export] Instance c_evidence_class_laws : CodecLaws c_evidence_class := c_enum8_laws _.
#[export] Instance c_origin_laws : CodecLaws c_origin := c_enum8_laws _.
#[export] Instance c_reason_laws : CodecLaws c_reason := c_enum16_laws _.
#[export] Instance c_quality_state_laws : CodecLaws c_quality_state := c_enum8_laws _.
#[export] Instance c_confidence_laws : CodecLaws c_confidence := c_enum8_laws _.
#[export] Instance c_axis_laws : CodecLaws c_axis := c_enum8_laws _.
#[export] Instance c_semantics_laws : CodecLaws c_semantics := c_enum8_laws _.
#[export] Instance c_counter_width_laws : CodecLaws c_counter_width := c_enum8_laws _.
#[export] Instance c_basis_laws : CodecLaws c_basis := c_enum8_laws _.
#[export] Instance c_unit_laws : CodecLaws c_unit := c_enum8_laws _.

(** The laws of a record codec follow from those of its fields. *)
Ltac record_codec := apply c_iso_laws; [apply _ | by intros []].

(** ** Structures *)

Definition c_link_identity : codec LinkIdentity := c_iso (fun v => (li_id v, li_generation v)) (fun
  '(x0, x1) => mkLinkIdentity x0 x1) (c_pair c_string c_u64).
#[export] Instance c_link_identity_laws : CodecLaws c_link_identity. Proof. record_codec. Qed.

Definition c_source_identity : codec SourceIdentity := c_iso (fun v => (si_id v, si_incarnation v))
  (fun '(x0, x1) => mkSourceIdentity x0 x1) (c_pair c_string c_u64).
#[export] Instance c_source_identity_laws : CodecLaws c_source_identity. Proof. record_codec. Qed.

Definition c_lane_dimension : codec LaneDimension := c_iso (fun v => (ld_aggregate v, ld_lane v))
  (fun '(x0, x1) => mkLaneDimension x0 x1) (c_pair c_bool c_u32).
#[export] Instance c_lane_dimension_laws : CodecLaws c_lane_dimension. Proof. record_codec. Qed.

Definition c_provenance : codec Provenance := c_iso (fun v => (pv_transport v, (pv_evidence_class v,
  (pv_origin v, (pv_producer v, (pv_clock_synchronized v, pv_declared_clock_offset_nanos v))))))
  (fun '(x0, (x1, (x2, (x3, (x4, x5))))) => mkProvenance x0 x1 x2 x3 x4 x5) (c_pair c_transport
  (c_pair c_evidence_class (c_pair c_string (c_pair c_string (c_pair c_bool c_i64))))).
#[export] Instance c_provenance_laws : CodecLaws c_provenance. Proof. record_codec. Qed.

Definition c_metric_id : codec MetricId := c_iso (fun v => (mi_family v, mi_name v)) (fun '(x0, x1)
  => mkMetricId x0 x1) (c_pair c_family c_string).
#[export] Instance c_metric_id_laws : CodecLaws c_metric_id. Proof. record_codec. Qed.

Definition c_timestamp : codec Timestamp := c_iso (fun v => (ts_unix_nanos v, ts_synchronized v))
  (fun '(x0, x1) => mkTimestamp x0 x1) (c_pair c_i64 c_bool).
#[export] Instance c_timestamp_laws : CodecLaws c_timestamp. Proof. record_codec. Qed.

Definition c_receive_stamp : codec ReceiveStamp := c_iso (fun v => (rs_wall_nanos v,
  (rs_steady_nanos v, rs_epoch v))) (fun '(x0, (x1, x2)) => mkReceiveStamp x0 x1 x2) (c_pair c_i64
  (c_pair c_i64 c_u64)).
#[export] Instance c_receive_stamp_laws : CodecLaws c_receive_stamp. Proof. record_codec. Qed.

Definition c_gauge_reading : codec GaugeReading := c_iso (fun v => (gr_value v, gr_validity_nanos
  v)) (fun '(x0, x1) => mkGaugeReading x0 x1) (c_pair c_f64 c_i64).
#[export] Instance c_gauge_reading_laws : CodecLaws c_gauge_reading. Proof. record_codec. Qed.

Definition c_counter_reading : codec CounterReading := c_iso (fun v => (ctr_value v, (ctr_width v,
  ctr_reset_declared v))) (fun '(x0, (x1, x2)) => mkCounterReading x0 x1 x2) (c_pair c_u64 (c_pair
  c_counter_width c_bool)).
#[export] Instance c_counter_reading_laws : CodecLaws c_counter_reading. Proof. record_codec. Qed.

(** [std::variant<GaugeReading, CounterReading>]. *)
Definition c_reading : codec Reading :=
  c_iso (fun r => match r with ReadGauge g => inl g | ReadCounter c => inr c end)
    (fun v => match v with inl g => ReadGauge g | inr c => ReadCounter c end)
    (c_sum c_gauge_reading c_counter_reading).
#[export] Instance c_reading_laws : CodecLaws c_reading. Proof. record_codec. Qed.

Definition c_observation : codec Observation := c_iso (fun v => (ob_link v, (ob_source v,
  (ob_sequence v, (ob_metric v, (ob_lane v, (ob_unit v, (ob_reading v, (ob_observed_at v,
  (ob_interval_nanos v, (ob_authority v, ob_provenance v))))))))))) (fun '(x0, (x1, (x2, (x3, (x4,
  (x5, (x6, (x7, (x8, (x9, x10)))))))))) => mkObservation x0 x1 x2 x3 x4 x5 x6 x7 x8 x9 x10) (c_pair
  c_link_identity (c_pair c_source_identity (c_pair c_u64 (c_pair c_metric_id (c_pair
  c_lane_dimension (c_pair c_unit (c_pair c_reading (c_pair c_timestamp (c_pair (c_option c_i64)
  (c_pair c_u64 c_provenance)))))))))).
#[export] Instance c_observation_laws : CodecLaws c_observation. Proof. record_codec. Qed.

Definition c_evidence_record : codec EvidenceRecord := c_iso (fun v => (er_observation v,
  (er_received v, (er_ordinal v, er_origin v)))) (fun '(x0, (x1, (x2, x3))) => mkEvidenceRecord x0
  x1 x2 x3) (c_pair c_observation (c_pair c_receive_stamp (c_pair c_u64 c_origin))).
#[export] Instance c_evidence_record_laws : CodecLaws c_evidence_record. Proof. record_codec. Qed.

Definition c_metric_capability : codec MetricCapability := c_iso (fun v => (mcap_metric v,
  (mcap_unit v, (mcap_semantics v, (mcap_counter_width v, (mcap_lanes_declared v, (mcap_lane_count
  v, mcap_validity_nanos v))))))) (fun '(x0, (x1, (x2, (x3, (x4, (x5, x6)))))) => mkMetricCapability
  x0 x1 x2 x3 x4 x5 x6) (c_pair c_metric_id (c_pair c_unit (c_pair c_semantics (c_pair
  c_counter_width (c_pair c_bool (c_pair c_u32 c_i64)))))).
#[export] Instance c_metric_capability_laws : CodecLaws c_metric_capability. Proof. record_codec. Qed.

Definition c_capability_declaration : codec CapabilityDeclaration := c_iso (fun v => (cap_source v,
  (cap_link_scope v, (cap_revision v, (cap_transport v, (cap_evidence_class v, (cap_declared_at v,
  (cap_metrics v, (cap_unsupported_metrics v, cap_note v))))))))) (fun '(x0, (x1, (x2, (x3, (x4,
  (x5, (x6, (x7, x8)))))))) => mkCapabilityDeclaration x0 x1 x2 x3 x4 x5 x6 x7 x8) (c_pair
  c_source_identity (c_pair (c_option c_link_identity) (c_pair c_u64 (c_pair c_transport (c_pair
  c_evidence_class (c_pair c_timestamp (c_pair (c_vector c_metric_capability) (c_pair (c_vector
  c_metric_id) c_string)))))))).
#[export] Instance c_capability_declaration_laws : CodecLaws c_capability_declaration. Proof. record_codec. Qed.

Definition c_declared_source : codec DeclaredSource := c_iso (fun v => (ds_source v, (ds_revision v,
  (ds_evidence_class v, (ds_transport v, (ds_lanes_declared v, (ds_lane_count v, (ds_unit v,
  (ds_semantics v, (ds_counter_width v, ds_validity_nanos v)))))))))) (fun '(x0, (x1, (x2, (x3, (x4,
  (x5, (x6, (x7, (x8, x9))))))))) => mkDeclaredSource x0 x1 x2 x3 x4 x5 x6 x7 x8 x9) (c_pair
  c_source_identity (c_pair c_u64 (c_pair c_evidence_class (c_pair c_transport (c_pair c_bool
  (c_pair c_u32 (c_pair c_unit (c_pair c_semantics (c_pair c_counter_width c_i64))))))))).
#[export] Instance c_declared_source_laws : CodecLaws c_declared_source. Proof. record_codec. Qed.

Definition c_capability_view : codec MetricCapabilityView := c_iso (fun v => (mv_metric v,
  (mv_declared_by v, mv_declared_unsupported_by v))) (fun '(x0, (x1, x2)) => mkMetricCapabilityView
  x0 x1 x2) (c_pair c_metric_id (c_pair (c_vector c_declared_source) (c_vector c_declared_source))).
#[export] Instance c_capability_view_laws : CodecLaws c_capability_view. Proof. record_codec. Qed.

Definition c_threshold_band : codec ThresholdBand := c_iso (fun v => (tb_id v, (tb_lower v,
  (tb_upper v, (tb_state v, tb_label v))))) (fun '(x0, (x1, (x2, (x3, x4)))) => mkThresholdBand x0
  x1 x2 x3 x4) (c_pair c_string (c_pair c_f64 (c_pair (c_option c_f64) (c_pair c_quality_state
  c_string)))).
#[export] Instance c_threshold_band_laws : CodecLaws c_threshold_band. Proof. record_codec. Qed.

Definition c_metric_rule : codec MetricRule := c_iso (fun v => (mr_metric v, (mr_basis v, (mr_bands
  v, (mr_conflict_tolerance v, (mr_validity_nanos v, (mr_max_continuity_gap_nanos v,
  (mr_wrap_inference v, (mr_wrap_ceiling_fraction v, mr_wrap_floor_fraction v))))))))) (fun '(x0,
  (x1, (x2, (x3, (x4, (x5, (x6, (x7, x8)))))))) => mkMetricRule x0 x1 x2 x3 x4 x5 x6 x7 x8) (c_pair
  c_metric_id (c_pair c_basis (c_pair (c_vector c_threshold_band) (c_pair c_f64 (c_pair c_i64
  (c_pair c_i64 (c_pair c_bool (c_pair c_f64 c_f64)))))))).
#[export] Instance c_metric_rule_laws : CodecLaws c_metric_rule. Proof. record_codec. Qed.

Definition c_freshness_policy : codec FreshnessPolicy := c_iso (fun v => (fp_default_validity_nanos
  v, (fp_family_validity_nanos v, (fp_default_continuity_gap_nanos v, fp_min_rate_interval_nanos
  v)))) (fun '(x0, (x1, (x2, x3))) => mkFreshnessPolicy x0 x1 x2 x3) (c_pair c_i64 (c_pair (c_vector
  (c_pair c_family c_i64)) (c_pair c_i64 c_i64))).
#[export] Instance c_freshness_policy_laws : CodecLaws c_freshness_policy. Proof. record_codec. Qed.

Definition c_severity_table : codec SeverityTable := c_iso (fun v => st_rank v) (fun x0 =>
  mkSeverityTable x0) (c_array 9 c_u8).
#[export] Instance c_severity_table_laws : CodecLaws c_severity_table. Proof. record_codec. Qed.

Definition c_aggregation_policy : codec AggregationPolicy := c_iso (fun v => (ap_severity v,
  ap_conflicting_dominates v)) (fun '(x0, x1) => mkAggregationPolicy x0 x1) (c_pair c_severity_table
  c_bool).
#[export] Instance c_aggregation_policy_laws : CodecLaws c_aggregation_policy. Proof. record_codec. Qed.

Definition c_policy_document : codec PolicyDocument := c_iso (fun v => (pd_id v, (pd_rules v,
  (pd_freshness v, (pd_aggregation v, (pd_unsupported_metrics v, pd_require_capability v)))))) (fun
  '(x0, (x1, (x2, (x3, (x4, x5))))) => mkPolicyDocument x0 x1 x2 x3 x4 x5) (c_pair c_string (c_pair
  (c_vector c_metric_rule) (c_pair c_freshness_policy (c_pair c_aggregation_policy (c_pair (c_vector
  c_metric_id) c_bool))))).
#[export] Instance c_policy_document_laws : CodecLaws c_policy_document. Proof. record_codec. Qed.

Definition c_policy_stamp : codec PolicyStamp := c_iso (fun v => (ps_id v, (ps_generation v,
  ps_content_hash v))) (fun '(x0, (x1, x2)) => mkPolicyStamp x0 x1 x2) (c_pair c_string (c_pair
  c_u64 c_string)).
#[export] Instance c_policy_stamp_laws : CodecLaws c_policy_stamp. Proof. record_codec. Qed.

Definition c_policy_generation : codec PolicyGenerationRecord := c_iso (fun v => (pgr_stamp v,
  (pgr_published_at v, pgr_document v))) (fun '(x0, (x1, x2)) => mkPolicyGenerationRecord x0 x1 x2)
  (c_pair c_policy_stamp (c_pair c_timestamp c_policy_document)).
#[export] Instance c_policy_generation_laws : CodecLaws c_policy_generation. Proof. record_codec. Qed.

Definition c_counter_delta : codec CounterDelta := c_iso (fun v => (cd_delta v, (cd_elapsed_nanos v,
  (cd_spans_gap v, cd_from_wrap v)))) (fun '(x0, (x1, (x2, x3))) => mkCounterDelta x0 x1 x2 x3)
  (c_pair c_u64 (c_pair c_i64 (c_pair c_bool c_bool))).
#[export] Instance c_counter_delta_laws : CodecLaws c_counter_delta. Proof. record_codec. Qed.

Definition c_evidence_ref : codec EvidenceRef := c_iso (fun v => (ref_source v, (ref_sequence v,
  (ref_lane v, (ref_metric v, (ref_observed_at v, (ref_received v, (ref_origin v,
  (ref_evidence_class v, (ref_authority v, (ref_unit v, (ref_value v, (ref_counter_reading v,
  (ref_delta v, (ref_used v, (ref_fresh v, (ref_age_nanos v, (ref_rendered v, ref_provenance
  v)))))))))))))))))) (fun '(x0, (x1, (x2, (x3, (x4, (x5, (x6, (x7, (x8, (x9, (x10, (x11, (x12,
  (x13, (x14, (x15, (x16, x17))))))))))))))))) => mkEvidenceRef x0 x1 x2 x3 x4 x5 x6 x7 x8 x9 x10
  x11 x12 x13 x14 x15 x16 x17) (c_pair c_source_identity (c_pair c_u64 (c_pair c_lane_dimension
  (c_pair c_metric_id (c_pair c_timestamp (c_pair c_receive_stamp (c_pair c_origin (c_pair
  c_evidence_class (c_pair c_u64 (c_pair c_unit (c_pair c_f64 (c_pair (c_option c_u64) (c_pair
  (c_option c_counter_delta) (c_pair c_bool (c_pair c_bool (c_pair c_i64 (c_pair c_string
  c_string))))))))))))))))).
#[export] Instance c_evidence_ref_laws : CodecLaws c_evidence_ref. Proof. record_codec. Qed.

Definition c_metric_assessment : codec MetricAssessment := c_iso (fun v => (as_metric v, (as_lane v,
  (as_state v, (as_confidence v, (as_reasons v, (as_evidence v, (as_rules v, (as_value v,
  (as_rate_per_second v, (as_disagreement v, (as_missing_lanes v, (as_sources_declared v,
  (as_sources_with_evidence v, (as_sources_fresh v, (as_sources_conflicting v,
  (as_capability_declared v, as_interval_rate_per_second v))))))))))))))))) (fun '(x0, (x1, (x2,
  (x3, (x4, (x5, (x6, (x7, (x8, (x9, (x10, (x11, (x12, (x13, (x14, (x15, x16)))))))))))))))) =>
  mkMetricAssessment x0 x1 x2 x3 x4 x5 x6 x7 x8 x9 x10 x11 x12 x13 x14 x15 x16) (c_pair c_metric_id
  (c_pair c_lane_dimension (c_pair c_quality_state (c_pair c_confidence (c_pair (c_vector c_reason)
  (c_pair (c_vector c_evidence_ref) (c_pair (c_vector c_string) (c_pair (c_option c_f64) (c_pair
  (c_option c_f64) (c_pair (c_option c_f64) (c_pair (c_vector c_u32) (c_pair c_u32 (c_pair c_u32
  (c_pair c_u32 (c_pair c_u32 (c_pair c_bool (c_option c_f64))))))))))))))))).
#[export] Instance c_metric_assessment_laws : CodecLaws c_metric_assessment. Proof. record_codec. Qed.

Definition c_link_quality_report : codec LinkQualityReport := c_iso (fun v => (rep_link v,
  (rep_link_registered v, (rep_evidence_present v, (rep_policy v, (rep_epoch v, (rep_overall v,
  (rep_confidence v, (rep_reasons v, (rep_metrics v, (rep_evidence_considered v, (rep_evidence_fresh
  v, (rep_evidence_recovered v, (rep_generated_wall_nanos v, (rep_generated_steady_nanos v,
  rep_truncated v))))))))))))))) (fun '(x0, (x1, (x2, (x3, (x4, (x5, (x6, (x7, (x8, (x9, (x10, (x11,
  (x12, (x13, x14)))))))))))))) => mkLinkQualityReport x0 x1 x2 x3 x4 x5 x6 x7 x8 x9 x10 x11 x12 x13
  x14) (c_pair c_link_identity (c_pair c_bool (c_pair c_bool (c_pair c_policy_stamp (c_pair c_u64
  (c_pair c_quality_state (c_pair c_confidence (c_pair (c_vector c_reason) (c_pair (c_vector
  c_metric_assessment) (c_pair c_u64 (c_pair c_u64 (c_pair c_u64 (c_pair c_i64 (c_pair c_i64
  c_bool)))))))))))))).
#[export] Instance c_link_quality_report_laws : CodecLaws c_link_quality_report. Proof. record_codec. Qed.

Definition c_conflict_entry : codec ConflictEntry := c_iso (fun v => (ce_link v, (ce_metric v,
  (ce_lane v, (ce_claimants v, (ce_spread v, ce_tolerance v)))))) (fun '(x0, (x1, (x2, (x3, (x4,
  x5))))) => mkConflictEntry x0 x1 x2 x3 x4 x5) (c_pair c_link_identity (c_pair c_metric_id (c_pair
  c_lane_dimension (c_pair (c_vector c_evidence_ref) (c_pair c_f64 c_f64))))).
#[export] Instance c_conflict_entry_laws : CodecLaws c_conflict_entry. Proof. record_codec. Qed.

Definition c_stale_entry : codec StaleEntry := c_iso (fun v => (se_link v, (se_metric v, (se_lane v,
  (se_source v, (se_origin v, (se_age_nanos v, (se_received v, se_reason v)))))))) (fun '(x0, (x1,
  (x2, (x3, (x4, (x5, (x6, x7))))))) => mkStaleEntry x0 x1 x2 x3 x4 x5 x6 x7) (c_pair
  c_link_identity (c_pair c_metric_id (c_pair c_lane_dimension (c_pair c_source_identity (c_pair
  c_origin (c_pair c_i64 (c_pair c_receive_stamp c_reason))))))).
#[export] Instance c_stale_entry_laws : CodecLaws c_stale_entry. Proof. record_codec. Qed.

Definition c_freshness_entry : codec FreshnessEntry := c_iso (fun v => (fe_link v, (fe_metric v,
  (fe_lane v, (fe_fresh_sources v, (fe_stale_sources v, (fe_recovered_sources v,
  (fe_declared_sources v, (fe_newest_age_nanos v, fe_has_fresh_evidence v))))))))) (fun '(x0, (x1,
  (x2, (x3, (x4, (x5, (x6, (x7, x8)))))))) => mkFreshnessEntry x0 x1 x2 x3 x4 x5 x6 x7 x8) (c_pair
  c_link_identity (c_pair c_metric_id (c_pair c_lane_dimension (c_pair c_u32 (c_pair c_u32 (c_pair
  c_u32 (c_pair c_u32 (c_pair c_i64 c_bool)))))))).
#[export] Instance c_freshness_entry_laws : CodecLaws c_freshness_entry. Proof. record_codec. Qed.

Definition c_inspection_report : codec InspectionReport := c_iso (fun v => (ir_policy v, (ir_epoch
  v, (ir_generated_wall_nanos v, (ir_conflicts v, (ir_stale v, (ir_freshness v, (ir_links_inspected
  v, (ir_entries_dropped v, ir_truncated v))))))))) (fun '(x0, (x1, (x2, (x3, (x4, (x5, (x6, (x7,
  x8)))))))) => mkInspectionReport x0 x1 x2 x3 x4 x5 x6 x7 x8) (c_pair c_policy_stamp (c_pair c_u64
  (c_pair c_i64 (c_pair (c_vector c_conflict_entry) (c_pair (c_vector c_stale_entry) (c_pair
  (c_vector c_freshness_entry) (c_pair c_u64 (c_pair c_u64 c_bool)))))))).
#[export] Instance c_inspection_report_laws : CodecLaws c_inspection_report. Proof. record_codec. Qed.

Definition c_window_result : codec WindowResult := c_iso (fun v => (wr_records v, (wr_matched v,
  (wr_returned v, (wr_truncated v, (wr_earliest_available_nanos v, (wr_latest_available_nanos v,
  (wr_has_available_range v, wr_as_of_report v)))))))) (fun '(x0, (x1, (x2, (x3, (x4, (x5, (x6,
  x7))))))) => mkWindowResult x0 x1 x2 x3 x4 x5 x6 x7) (c_pair (c_vector c_evidence_record) (c_pair
  c_u64 (c_pair c_u64 (c_pair c_bool (c_pair c_i64 (c_pair c_i64 (c_pair c_bool (c_option
  c_link_quality_report)))))))).
#[export] Instance c_window_result_laws : CodecLaws c_window_result. Proof. record_codec. Qed.

Definition c_quality_query : codec QualityQuery := c_iso (fun v => (qq_link v, (qq_lane v,
  (qq_metrics v, (qq_include_evidence v, (qq_max_metrics v, qq_max_evidence_per_metric v)))))) (fun
  '(x0, (x1, (x2, (x3, (x4, x5))))) => mkQualityQuery x0 x1 x2 x3 x4 x5) (c_pair c_link_identity
  (c_pair (c_option c_lane_dimension) (c_pair (c_vector c_metric_id) (c_pair c_bool (c_pair c_u64
  c_u64))))).
#[export] Instance c_quality_query_laws : CodecLaws c_quality_query. Proof. record_codec. Qed.

Definition c_window_query : codec WindowQuery := c_iso (fun v => (wq_link v, (wq_metric v, (wq_lane
  v, (wq_source v, (wq_axis v, (wq_from_nanos v, (wq_to_nanos v, (wq_limit v, (wq_include_evidence
  v, (wq_assess_as_of v, (wq_as_of_steady_nanos v, (wq_max_metrics v, wq_max_evidence_per_metric
  v))))))))))))) (fun '(x0, (x1, (x2, (x3, (x4, (x5, (x6, (x7, (x8, (x9, (x10, (x11, x12))))))))))))
  => mkWindowQuery x0 x1 x2 x3 x4 x5 x6 x7 x8 x9 x10 x11 x12) (c_pair (c_option c_link_identity)
  (c_pair (c_option c_metric_id) (c_pair (c_option c_lane_dimension) (c_pair (c_option c_string)
  (c_pair c_axis (c_pair c_i64 (c_pair c_i64 (c_pair c_u64 (c_pair c_bool (c_pair c_bool (c_pair
  c_i64 (c_pair c_u64 c_u64)))))))))))).
#[export] Instance c_window_query_laws : CodecLaws c_window_query. Proof. record_codec. Qed.

Definition c_inspection_filter : codec InspectionFilter := c_iso (fun v => (if_link v, (if_metric v,
  (if_max_entries v, if_max_claimants_per_conflict v)))) (fun '(x0, (x1, (x2, x3))) =>
  mkInspectionFilter x0 x1 x2 x3) (c_pair (c_option c_link_identity) (c_pair (c_option c_metric_id)
  (c_pair c_u64 c_u64))).
#[export] Instance c_inspection_filter_laws : CodecLaws c_inspection_filter. Proof. record_codec. Qed.

Definition c_stream_key : codec StreamKey := c_iso (fun v => (sk_link v, (sk_metric v, (sk_lane v,
  sk_source v)))) (fun '(x0, (x1, (x2, x3))) => mkStreamKey x0 x1 x2 x3) (c_pair c_link_identity
  (c_pair c_metric_id (c_pair c_lane_dimension c_source_identity))).
#[export] Instance c_stream_key_laws : CodecLaws c_stream_key. Proof. record_codec. Qed.

Definition c_metric_descriptor : codec MetricDescriptor := c_iso (fun v => (md_id v, (md_unit v,
  (md_semantics v, (md_basis v, (md_counter_width v, (md_supports_lanes v, md_description v)))))))
  (fun '(x0, (x1, (x2, (x3, (x4, (x5, x6)))))) => mkMetricDescriptor x0 x1 x2 x3 x4 x5 x6) (c_pair
  c_metric_id (c_pair c_unit (c_pair c_semantics (c_pair c_basis (c_pair c_counter_width (c_pair
  c_bool c_string)))))).
#[export] Instance c_metric_descriptor_laws : CodecLaws c_metric_descriptor. Proof. record_codec. Qed.

(** ** Limits of the decoders of a fabric *)

Definition codec_limits_for (limits : FabricLimits) : CodecLimits :=
  let items := if max_metrics_per_query limits <? max_evidence_batch limits
               then max_evidence_batch limits else max_metrics_per_query limits in
  mkCodecLimits (if 4096 <? max_string_bytes limits then max_string_bytes limits else 4096)
    (if items <? max_global_history limits then max_global_history limits else items) 8388608.

(** ** Theorems *)

(** C28: What a persisted encoder accepts, its decoder returns.  For evidence
    records, capability declarations, policy generations, replay-fence entries
    and quality reports whose integers are of their width and whose enumerators
    are within the declared maximum, and whatever bytes follow: if the encoder
    reports success the decoder succeeds, yields the same value and consumes exactly
    the encoded bytes. *)
Theorem persisted_types_round_trip L q :
  (forall v data, typed c_evidence_record v -> encode c_evidence_record L v = Good data ->
     dec c_evidence_record L (reader_of (data ++ q)) = (Some v, mkReader q StatusCode.Ok)) /\
  (forall v data, typed c_capability_declaration v -> encode c_capability_declaration L v = Good data ->
     dec c_capability_declaration L (reader_of (data ++ q)) = (Some v, mkReader q StatusCode.Ok)) /\
  (forall v data, typed c_policy_generation v -> encode c_policy_generation L v = Good data ->
     dec c_policy_generation L (reader_of (data ++ q)) = (Some v, mkReader q StatusCode.Ok)) /\
  (forall v data, typed (c_vector (c_pair c_u64 c_u64)) v -> encode (c_vector (c_pair c_u64 c_u64)) L v = Good data ->
     dec (c_vector (c_pair c_u64 c_u64)) L (reader_of (data ++ q)) = (Some v, mkReader q StatusCode.Ok)) /\
  (forall v data, typed c_link_quality_report v -> encode c_link_quality_report L v = Good data ->
     dec c_link_quality_report L (reader_of (data ++ q)) = (Some v, mkReader q StatusCode.Ok)).
Proof. split_and!; intros v data T E; exact (encode_decode _ L v data q T E). Qed.

(** Truncated input is refused.  A strict prefix of the encoding of an
    evidence record, a capability declaration, a policy generation or a quality
    report never decodes: the reader ends in an error status. *)
Theorem truncated_encodings_are_refused L p q :
  q <> [] ->
  (forall v, typed c_evidence_record v -> encode c_evidence_record L v = Good (p ++ q) ->
     r_status (dec c_evidence_record L (reader_of p)).2 <> StatusCode.Ok) /\
  (forall v, typed c_capability_declaration v -> encode c_capability_declaration L v = Good (p ++ q) ->
     r_status (dec c_capability_declaration L (reader_of p)).2 <> StatusCode.Ok) /\
  (forall v, typed c_policy_generation v -> encode c_policy_generation L v = Good (p ++ q) ->
     r_status (dec c_policy_generation L (reader_of p)).2 <> StatusCode.Ok) /\
  (forall v, typed c_link_quality_report v -> encode c_link_quality_report L v = Good (p ++ q) ->
     r_status (dec c_link_quality_report L (reader_of p)).2 <> StatusCode.Ok).
Proof. intros Hq. split_and!; intros v T E; exact (truncated_refused _ L v (p ++ q) p q T E eq_refl Hq). Qed.

Module CodecExamples.
Definition declaration : CapabilityDeclaration :=
  mkCapabilityDeclaration (mkSourceIdentity "probe" 1) (Some (mkLinkIdentity "edge-a" 3)) 2
    TransportKind.Unspecified EvidenceClass.Real (mkTimestamp (-5) true)
    [mkMetricCapability (mkMetricId MetricFamily.SignalRatio "snr") Unit.Decibel SampleSemantics.Gauge
       CounterWidth.Unspecified true 4 0] [mkMetricId MetricFamily.Timing "jitter"] "lab".
Definition bytes : list Z :=
  match encode c_capability_declaration default_codec_limits declaration with Good b => b | Bad _ => [] end.

Lemma declaration_typed : typed c_capability_declaration declaration.
Proof. repeat (split || constructor); vm_compute; done. Qed.

Lemma persisted_types_round_trip_witness :
  dec c_capability_declaration default_codec_limits (reader_of (bytes ++ [7]))
  = (Some declaration, mkReader [7] StatusCode.Ok).
Proof.
  destruct (persisted_types_round_trip default_codec_limits [7]) as (_ & H & _).
  apply H; [exact declaration_typed|vm_compute; reflexivity].
Defined.

Lemma truncated_encodings_are_refused_witness :
  r_status (dec c_capability_declaration default_codec_limits (reader_of (firstn 20 bytes))).2 <> StatusCode.Ok.
Proof.
  destruct (truncated_encodings_are_refused default_codec_limits (firstn 20 bytes) (skipn 20 bytes))
    as (_ & H & _); [vm_compute; discriminate|].
  apply (H declaration); [exact declaration_typed|vm_compute; reflexivity].
Defined.
End CodecExamples.
