(* ===== verification/CapabilityRegistry.v ===== *)
(** * The capability registry

    [store/capability_registry.*]: the declarations of every source and scope,
    revision fencing, and the per-link view the classifier reads. *)

From Stdlib Require Import ZArith Lia Bool List String Ascii.
From stdpp Require Import base decidable list strings.
From S2P Require Import Prelude OrdMap Core Quality Metric Identity Config Capability Codec.
From S2P Require Import FieldCodecs.

Open Scope Z_scope.

(** The encoding compared when a revision is declared again: empty when the
    declaration exceeds the codec's limits. *)
Definition canonical_declaration (declaration : CapabilityDeclaration) : list Z :=
  let w := enc c_capability_declaration (mkCodecLimits 256 4096 8388608) declaration empty_writer in
  if ok (w_status w) then w_buffer w else [].

Module CapabilityRegistry.
Record ScopedKey := mkScopedKey {
  sck_source : SourceIdentity; sck_link_scoped : bool; sck_link : LinkIdentity }.

#[global] Instance ScopedKey_Cmp : Cmp ScopedKey.
Proof.
  refine (cmp_via (fun k => (sck_source k, (sck_link_scoped k, sck_link k))) _).
  intros [] [] [= -> -> ->]. done.
Defined.

Record t := mk { limits : FabricLimits; declarations : list (ScopedKey * CapabilityDeclaration) }.

Definition create (limits : FabricLimits) : t := mk limits [].

Definition key_of (declaration : CapabilityDeclaration) : ScopedKey :=
  match cap_link_scope declaration with
  | Some link => mkScopedKey (cap_source declaration) true link
  | None => mkScopedKey (cap_source declaration) false (mkLinkIdentity "" 0)
  end.

Definition declare (r : t) (declaration : CapabilityDeclaration) (catalog : MetricCatalog)
  : Status * t :=
  let observation_limits := mkObservationLimits (max_string_bytes (limits r)) 96 4096 in
  match validate_capability declaration catalog observation_limits
          (max_metrics_per_capability (limits r)) with
  | StatusCode.Ok =>
      let key := key_of declaration in
      match om_find key (declarations r) with
      | None =>
          if max_capability_declarations (limits r) <=? zlen (declarations r)
          then (StatusCode.LimitExceeded, r)
          else (StatusCode.Ok, mk (limits r) (om_emplace key declaration (declarations r)))
      | Some existing =>
          if cap_revision declaration <? cap_revision existing then (StatusCode.Fenced, r)
          else if cap_revision declaration =? cap_revision existing then
            if bool_decide (canonical_declaration declaration = canonical_declaration existing)
            then (StatusCode.Duplicate, r) else (StatusCode.IdMismatch, r)
          else (StatusCode.Ok, mk (limits r) (om_set key declaration (declarations r)))
      end
  | e => (e, r)
  end.

Definition scoped_to (declaration : CapabilityDeclaration) (link : LinkIdentity) : bool :=
  match cap_link_scope declaration with Some l => eqb l link | None => true end.

Definition declared_source (d : CapabilityDeclaration) (m : MetricCapability) : DeclaredSource :=
  mkDeclaredSource (cap_source d) (cap_revision d) (cap_evidence_class d) (cap_transport d)
    (mcap_lanes_declared m) (mcap_lane_count m) (mcap_unit m) (mcap_semantics m)
    (mcap_counter_width m) (mcap_validity_nanos m).

Definition denied_source (d : CapabilityDeclaration) : DeclaredSource :=
  mkDeclaredSource (cap_source d) (cap_revision d) (cap_evidence_class d) (cap_transport d)
    false 0 Unit.None SampleSemantics.Gauge CounterWidth.Unspecified 0.

(** [views[metric]]: the entry, default-constructed when absent. *)
Definition view_at (views : list (MetricId * MetricCapabilityView)) (metric : MetricId)
  : MetricCapabilityView :=
  match om_find metric views with Some v => v | None => mkMetricCapabilityView metric [] [] end.

Definition note_metric (d : CapabilityDeclaration) (views : list (MetricId * MetricCapabilityView))
    (m : MetricCapability) : list (MetricId * MetricCapabilityView) :=
  let v := view_at views (mcap_metric m) in
  om_set (mcap_metric m)
    (mkMetricCapabilityView (mcap_metric m) (mv_declared_by v ++ [declared_source d m])
       (mv_declared_unsupported_by v)) views.

Definition note_denied (d : CapabilityDeclaration) (views : list (MetricId * MetricCapabilityView))
    (metric : MetricId) : list (MetricId * MetricCapabilityView) :=
  let v := view_at views metric in
  om_set metric
    (mkMetricCapabilityView metric (mv_declared_by v)
       (mv_declared_unsupported_by v ++ [denied_source d])) views.

Definition note_declaration (link : LinkIdentity) (views : list (MetricId * MetricCapabilityView))
    (d : CapabilityDeclaration) : list (MetricId * MetricCapabilityView) :=
  if negb (scoped_to d link) then views
  else fold_left (note_denied d) (cap_unsupported_metrics d)
         (fold_left (note_metric d) (cap_metrics d) views).

Definition source_less (l r : DeclaredSource) : bool := lessb (ds_source l) (ds_source r).

Definition sort_view (v : MetricCapabilityView) : MetricCapabilityView :=
  mkMetricCapabilityView (mv_metric v) (std_sort source_less (mv_declared_by v))
    (std_sort source_less (mv_declared_unsupported_by v)).

Definition view_for_link (r : t) (link : LinkIdentity) : list MetricCapabilityView :=
  map sort_view
    (om_values (fold_left (note_declaration link) (om_values (declarations r)) [])).

Definition sources_for (r : t) (link : LinkIdentity) (metric : MetricId) : list DeclaredSource :=
  match find_first (fun v => eqb (mv_metric v) metric) (view_for_link r link) with
  | Some v => mv_declared_by v
  | None => []
  end.

Definition declared_metrics (r : t) (link : LinkIdentity) : list MetricId :=
  map mv_metric (view_for_link r link).

(** The first declaration of the source that covers the link decides. *)
Definition capability_of (r : t) (link : LinkIdentity) (metric : MetricId) (source : SourceIdentity)
  : option MetricCapability :=
  match find_first (fun d => eqb (cap_source d) source && scoped_to d link)
          (om_values (declarations r)) with
  | Some d => find_first (fun m => eqb (mcap_metric m) metric) (cap_metrics d)
  | None => None
  end.

Definition size (r : t) : Z := zlen (declarations r).
Definition clear (r : t) : t := mk (limits r) [].
End CapabilityRegistry.

(** ** Invariant *)

Definition capability_limits (l : FabricLimits) : ObservationLimits :=
  mkObservationLimits (max_string_bytes l) 96 4096.

(** The integers of a declaration are in the range of their C++ types. *)
Definition declaration_ranges (d : CapabilityDeclaration) : Prop :=
  is_u64 (cap_revision d) /\ Forall (fun m => 0 <= mcap_lane_count m) (cap_metrics d).

Record capability_inv (catalog : MetricCatalog) (r : CapabilityRegistry.t) : Prop := {
  ci_wf : om_wf (CapabilityRegistry.declarations r);
  ci_bound : zlen (CapabilityRegistry.declarations r)
    <= max_capability_declarations (CapabilityRegistry.limits r);
  ci_stored : forall k d, om_find k (CapabilityRegistry.declarations r) = Some d ->
    CapabilityRegistry.key_of d = k /\
    declaration_coherent catalog (capability_limits (CapabilityRegistry.limits r)) d;
}.

Lemma declare_cases r d catalog :
  let '(s, r') := CapabilityRegistry.declare r d catalog in
  (s <> StatusCode.Ok /\ r' = r) \/
  (s = StatusCode.Ok /\
   validate_capability d catalog (capability_limits (CapabilityRegistry.limits r))
     (max_metrics_per_capability (CapabilityRegistry.limits r)) = StatusCode.Ok /\
   r' = CapabilityRegistry.mk (CapabilityRegistry.limits r)
          (om_set (CapabilityRegistry.key_of d) d (CapabilityRegistry.declarations r)) /\
   match om_find (CapabilityRegistry.key_of d) (CapabilityRegistry.declarations r) with
   | Some old => cap_revision old < cap_revision d
   | None => zlen (CapabilityRegistry.declarations r)
       < max_capability_declarations (CapabilityRegistry.limits r)
   end).
Proof.
  unfold CapabilityRegistry.declare. fold (capability_limits (CapabilityRegistry.limits r)).
  destruct (validate_capability _ _ _ _) eqn:Ev; try (left; done).
  destruct (om_find _ _) as [old|] eqn:Ef.
  - destruct (_ <? _) eqn:E1; [left; done|]. destruct (_ =? _) eqn:E2; [case_bool_decide; by left|].
    right. breflect. split_and!; try done. lia.
  - destruct (_ <=? _) eqn:E1; [left; done|]. right. breflect. rewrite om_emplace_absent by done. done.
Qed.

Lemma declare_inv catalog r d :
  capability_inv catalog r -> declaration_ranges d ->
  capability_inv catalog (CapabilityRegistry.declare r d catalog).2 /\
  CapabilityRegistry.limits (CapabilityRegistry.declare r d catalog).2 = CapabilityRegistry.limits r.
Proof.
  intros [H1 H2 H3] [Hr Hl]. pose proof (declare_cases r d catalog) as Hc.
  destruct (CapabilityRegistry.declare r d catalog) as [s r']. simpl.
  destruct Hc as [[_ ->] | (_ & Hv & -> & Hm)]; [done|]. split; [|done]. constructor; simpl.
  - by apply om_set_wf.
  - rewrite om_set_length by done. unfold om_contains.
    destruct (om_find (CapabilityRegistry.key_of d) (CapabilityRegistry.declarations r)); lia.
  - intros k d'. rewrite om_find_set. destruct (eqb k _) eqn:E; [|apply H3]. intros. simplify_eq.
    apply eqb_true in E as ->. split; [done|]. by eapply validate_capability_coherent.
Qed.

(** ** The view *)

Section Views.
Import CapabilityRegistry.

Lemma view_at_set views k' v k :
  view_at (om_set k' v views) k = if eqb k k' then v else view_at views k.
Proof. unfold view_at. rewrite om_find_set. by destruct (eqb k k'). Qed.

Lemma note_metric_views d metrics : forall views k,
  mv_declared_by (view_at (fold_left (note_metric d) metrics views) k)
  = mv_declared_by (view_at views k)
    ++ map (declared_source d) (List.filter (fun m => eqb (mcap_metric m) k) metrics).
Proof.
  induction metrics as [|m metrics IH]; intros views k; simpl; [by rewrite app_nil_r|].
  rewrite IH. unfold note_metric. rewrite view_at_set.
  destruct (eqb (mcap_metric m) k) eqn:E.
  - apply eqb_true in E as <-. rewrite eqb_refl. simpl. by rewrite <- app_assoc.
  - assert (eqb k (mcap_metric m) = false) as ->; [|done].
    apply eqb_neq. apply eqb_false in E. congruence.
Qed.

Lemma note_denied_views d denied : forall views k,
  mv_declared_by (view_at (fold_left (note_denied d) denied views) k) = mv_declared_by (view_at views k).
Proof.
  induction denied as [|m denied IH]; intros views k; simpl; [done|]. rewrite IH.
  unfold note_denied. rewrite view_at_set. destruct (eqb k m) eqn:E; [|done].
  by apply eqb_true in E as ->.
Qed.

(** The declared sources of a metric: one per covering declaration that
    measures it, in key order. *)
Definition declared_by_of (link : LinkIdentity) (ds : list CapabilityDeclaration) (k : MetricId)
  : list DeclaredSource :=
  flat_map (fun d => if scoped_to d link
                     then map (declared_source d) (List.filter (fun m => eqb (mcap_metric m) k) (cap_metrics d))
                     else []) ds.

Lemma declarations_views link ds : forall views k,
  mv_declared_by (view_at (fold_left (note_declaration link) ds views) k)
  = mv_declared_by (view_at views k) ++ declared_by_of link ds k.
Proof.
  induction ds as [|d ds IH]; intros views k; simpl; [by rewrite app_nil_r|].
  rewrite IH. unfold note_declaration. destruct (scoped_to d link); simpl; [|done].
  rewrite note_denied_views, note_metric_views.
  by rewrite <- app_assoc.
Qed.

Definition views_wf (views : list (MetricId * MetricCapabilityView)) : Prop :=
  om_wf views /\ forall k v, om_find k views = Some v -> mv_metric v = k.

Lemma set_views_wf views k v : views_wf views -> mv_metric v = k -> views_wf (om_set k v views).
Proof.
  intros [Hw Hk] Hv. split; [by apply om_set_wf|]. intros k' v'. rewrite om_find_set.
  destruct (eqb k' k) eqn:E; [|apply Hk]. intros. simplify_eq. by apply eqb_true in E as ->.
Qed.

Lemma note_declaration_wf link views d : views_wf views -> views_wf (note_declaration link views d).
Proof.
  intros Hw. unfold note_declaration. destruct (scoped_to d link); simpl; [|done].
  assert (views_wf (fold_left (note_metric d) (cap_metrics d) views)) as Hw1.
  { generalize dependent views. induction (cap_metrics d) as [|m l IH]; simpl; intros views Hw; [done|].
    apply IH. by apply set_views_wf. }
  generalize dependent (fold_left (note_metric d) (cap_metrics d) views).
  induction (cap_unsupported_metrics d) as [|m l IH]; simpl; intros views' Hw'; [done|].
  apply IH. by apply set_views_wf.
Qed.

Lemma all_views_wf link ds : views_wf (fold_left (note_declaration link) ds []).
Proof.
  assert (views_wf []) as Hw by (split; [constructor|done]).
  generalize dependent (@nil (MetricId * MetricCapabilityView)).
  induction ds as [|d ds IH]; simpl; intros views Hw; [done|]. apply IH. by apply note_declaration_wf.
Qed.

(** Looking a metric up in the report is looking it up in the map. *)
Lemma find_view_sorted (views : list (MetricId * MetricCapabilityView)) k :
  views_wf views ->
  find_first (fun v => eqb (mv_metric v) k) (map sort_view (om_values views))
  = sort_view <$> om_find k views.
Proof.
  intros [Hw Hk]. induction views as [|[k' v] views IH]; [done|].
  assert (mv_metric v = k') as Ev.
  { apply Hk. apply om_In_find; [done|]. by left. }
  assert (forall q w, om_find q views = Some w -> mv_metric w = q) as Hk'.
  { intros q w Hq. apply Hk. apply om_In_find; [done|]. right. by apply om_find_In. }
  apply om_wf_cons in Hw as [Ha Hw]. cbn [om_values map find_first sort_view mv_metric fst snd om_find].
  rewrite Ev. unfold eqb at 1. rewrite (cmp_antisym k k').
  destruct (cmp k k') eqn:E; simpl CompOpp; cbv iota; [done| |by apply IH].
  etransitivity; [by apply IH|]. assert (om_find k views = None) as ->; [|done].
  apply above_find. by eapply above_trans.
Qed.
End Views.

(** ** Theorems *)

Definition declare_all (r : CapabilityRegistry.t) (catalog : MetricCatalog)
    (ds : list CapabilityDeclaration) : CapabilityRegistry.t :=
  fold_left (fun r d => (CapabilityRegistry.declare r d catalog).2) ds r.

Lemma declare_all_inv catalog ds : forall r,
  capability_inv catalog r -> Forall declaration_ranges ds -> capability_inv catalog (declare_all r catalog ds).
Proof.
  induction ds as [|d ds IH]; intros r Hi Hr; simpl; [done|]. apply Forall_cons in Hr as [Hd Hr].
  apply IH; [|done]. by apply declare_inv.
Qed.

(** Only coherent declarations are stored.  After any sequence of
    declarations, the registry holds at most the configured number, each under
    the key of its own source and scope, and each agrees with the catalog: units
    and semantics match, lane counts are in range, no metric is declared twice
    or both measured and denied. *)
Theorem capability_registry_stores_coherent limits catalog ds :
  limits_validate limits = StatusCode.Ok -> Forall declaration_ranges ds ->
  capability_inv catalog (declare_all (CapabilityRegistry.create limits) catalog ds).
Proof.
  intros Hv Hr. apply limits_validate_sound in Hv. apply declare_all_inv; [|done].
  constructor; simpl; [constructor|pose proof (ls_capabilities _ Hv); unfold zlen; simpl; lia|done].
Qed.

(** Revision fencing.  A declaration either leaves the registry exactly as it
    was and reports why, or is stored under its key, in which case it replaces a
    declaration of a strictly older revision or takes a free slot; every other
    key keeps its declaration.  When it is reported as a duplicate and its
    encoding is within the codec's limits, it is identical to the one stored. *)
Theorem declarations_are_fenced_by_revision r d catalog :
  typed c_capability_declaration d ->
  (forall k e, om_find k (CapabilityRegistry.declarations r) = Some e -> typed c_capability_declaration e) ->
  let '(s, r') := CapabilityRegistry.declare r d catalog in
  let k := CapabilityRegistry.key_of d in
  (s <> StatusCode.Ok -> r' = r) /\
  (s = StatusCode.Ok ->
     om_find k (CapabilityRegistry.declarations r') = Some d /\
     (forall old, om_find k (CapabilityRegistry.declarations r) = Some old ->
        cap_revision old < cap_revision d) /\
     (forall k', k' <> k -> om_find k' (CapabilityRegistry.declarations r')
        = om_find k' (CapabilityRegistry.declarations r))) /\
  (s = StatusCode.Duplicate -> canonical_declaration d <> [] ->
     validate_capability d catalog (capability_limits (CapabilityRegistry.limits r))
       (max_metrics_per_capability (CapabilityRegistry.limits r)) = StatusCode.Ok ->
     om_find k (CapabilityRegistry.declarations r) = Some d).
Proof.
  intros Td Ts. pose proof (declare_cases r d catalog) as Hc.
  destruct (CapabilityRegistry.declare r d catalog) as [s r'] eqn:Ed. split_and!.
  - intros Hs. by destruct Hc as [[_ ->] | [? _]].
  - intros ->. destruct Hc as [[? _] | (_ & _ & -> & Hm)]; [done|]. simpl. split; [apply om_find_set_eq|].
    split; [intros old Ho; by rewrite Ho in Hm|]. intros k' Hk'. by apply om_find_set_ne.
  - intros -> Hne Hv. unfold CapabilityRegistry.declare in Ed.
    fold (capability_limits (CapabilityRegistry.limits r)) in Ed. rewrite Hv in Ed.
    destruct (om_find _ _) as [old|] eqn:Ef; [|by case_match].
    case_match; [done|]. case_match; [|done]. case_bool_decide as Heq; [|done]. f_equal. symmetry.
    pose proof (Ts _ _ Ef) as To. revert Heq Hne. unfold canonical_declaration.
    set (L := mkCodecLimits 256 4096 8388608).
    destruct (ok (w_status (enc _ L d empty_writer))) eqn:E1; [|done].
    destruct (ok (w_status (enc _ L old empty_writer))) eqn:E2; [|by intros ->].
    intros Heq _. apply (encode_injective c_capability_declaration L d old (w_buffer (enc c_capability_declaration L d empty_writer)));
      [done|done|..]; unfold encode; [by rewrite E1|]. by rewrite E2, Heq.
Qed.

(** The view of a link.  The sources reported for a metric of a link are,
    up to the sort by source, exactly one per stored declaration that covers the
    link (unscoped, or scoped to this very generation) and measures the metric:
    nothing else makes a metric supported. *)
Theorem sources_are_the_covering_declarations r link metric :
  Permutation (CapabilityRegistry.sources_for r link metric)
    (declared_by_of link (om_values (CapabilityRegistry.declarations r)) metric).
Proof.
  unfold CapabilityRegistry.sources_for, CapabilityRegistry.view_for_link.
  rewrite find_view_sorted by apply all_views_wf.
  pose proof (declarations_views link (om_values (CapabilityRegistry.declarations r)) [] metric) as Hd.
  unfold CapabilityRegistry.view_at in Hd. simpl in Hd. rewrite <- Hd.
  destruct (om_find metric _) as [v|]; simpl; [|done]. symmetry. apply std_sort_perm.
Qed.

Module CapabilityExamples.
Definition source : SourceIdentity := mkSourceIdentity "probe" 1.
Definition link : LinkIdentity := mkLinkIdentity "edge-a" 1.
Definition snr : MetricId := mkMetricId MetricFamily.SignalRatio "snr".
Definition margin : MetricId := mkMetricId MetricFamily.SignalRatio "margin".
Definition gauge (m : MetricId) : MetricCapability :=
  mkMetricCapability m Unit.Decibel SampleSemantics.Gauge CounterWidth.Unspecified false 0 0.
Definition declaration (scope : option LinkIdentity) (m : MetricId) (revision : Z) (note : string)
  : CapabilityDeclaration :=
  mkCapabilityDeclaration source scope revision TransportKind.Unspecified EvidenceClass.Real
    (mkTimestamp 0 true) [gauge m] [] note.
Definition catalog : MetricCatalog := with_builtin_descriptors 512.

Lemma capability_registry_stores_coherent_witness :
  capability_inv catalog (declare_all (CapabilityRegistry.create default_limits) catalog
    [declaration None snr 1 ""; declaration (Some link) margin 1 ""]).
Proof.
  apply capability_registry_stores_coherent; [vm_compute; reflexivity|].
  repeat (split || constructor); vm_compute; discriminate.
Defined.

Lemma first_typed : typed c_capability_declaration (declaration None snr 1 "").
Proof. repeat (split || constructor); vm_compute; done. Qed.

Lemma declarations_are_fenced_by_revision_witness :
  om_find (CapabilityRegistry.key_of (declaration None snr 1 ""))
    (CapabilityRegistry.declarations
       (declare_all (CapabilityRegistry.create default_limits) catalog [declaration None snr 1 ""]))
  = Some (declaration None snr 1 "").
Proof.
  set (r := CapabilityRegistry.create default_limits).
  pose proof (declarations_are_fenced_by_revision r (declaration None snr 1 "") catalog) as Hd.
  unfold declare_all. cbn [fold_left].
  assert ((CapabilityRegistry.declare r (declaration None snr 1 "") catalog).1 = StatusCode.Ok) as Hok
    by (vm_compute; reflexivity).
  destruct (CapabilityRegistry.declare r (declaration None snr 1 "") catalog) as [s r'].
  cbn [fst snd] in *. destruct Hd as (_ & H & _).
  - exact first_typed.
  - intros k e He. discriminate He.
  - exact (proj1 (H Hok)).
Defined.
End CapabilityExamples.

(** An unscoped declaration hides a scoped one at admission.  There is a
    registry, built by two accepted declarations of one source, in which a metric
    is reported as supported for a link by that source, while the lookup that
    admits evidence finds no capability for it: the lookup stops at the first
    declaration of the source, which does not mention the metric. *)
Theorem unscoped_declaration_shadows_scoped :
  exists r link metric source,
    r = declare_all (CapabilityRegistry.create default_limits) CapabilityExamples.catalog
      [CapabilityExamples.declaration None CapabilityExamples.snr 1 "";
       CapabilityExamples.declaration (Some CapabilityExamples.link) CapabilityExamples.margin 1 ""] /\
    CapabilityRegistry.size r = 2 /\
    List.map ds_source (CapabilityRegistry.sources_for r link metric) = [source] /\
    CapabilityRegistry.capability_of r link metric source = None.
Proof.
  eexists _, CapabilityExamples.link, CapabilityExamples.margin, CapabilityExamples.source.
  split; [reflexivity|]. vm_compute. repeat split.
Qed.

Fixpoint repeat_char (n : nat) (c : ascii) : string :=
  match n with O => "" | S n' => String c (repeat_char n' c) end.

(** Long notes defeat the identity check.  Where the configuration allows
    strings of more than 256 bytes, re-declaring a revision with a different
    note is reported as a duplicate instead of an identity mismatch: both
    declarations exceed the limit of the comparison's encoder and compare as
    empty. *)
Theorem long_notes_are_called_duplicates :
  let limits := mkFabricLimits 4096 4 64 1024 1024 128 128 16 8 64 65536 256 1024 8 64 4096 256 512 300000000000 in
  let d1 := CapabilityExamples.declaration None CapabilityExamples.snr 1 (repeat_char 300 "a") in
  let d2 := CapabilityExamples.declaration None CapabilityExamples.snr 1 (repeat_char 300 "b") in
  let r := declare_all (CapabilityRegistry.create limits) CapabilityExamples.catalog [d1] in
  limits_validate limits = StatusCode.Ok /\ CapabilityRegistry.size r = 1 /\ d1 <> d2 /\
  (CapabilityRegistry.declare r d2 CapabilityExamples.catalog).1 = StatusCode.Duplicate.
Proof.
  intros limits d1 d2 r. split; [vm_compute; reflexivity|]. split; [vm_compute; reflexivity|].
  split; [discriminate|]. vm_compute. reflexivity.
Qed.
