(* ===== verification/Classifier.v ===== *)
(** * Classification

    [classify/classifier.*]: freshness of a record, the evidence of one lane, the
    assessment of a lane, the roll-up over lanes and metrics, and the inspection
    of the whole fabric.  The counters of sources are plain integers: a lane has
    one source per stream, and a link never has [2^32] streams. *)

From Stdlib Require Import ZArith Lia Bool List String Ascii.
From stdpp Require Import base decidable list strings.
From S2P Require Import Prelude OrdMap Float Core Quality Metric Identity Counter Capability.
From S2P Require Import Config Policy Classification LinkRegistry EvidenceStore.
From S2P Require Import CapabilityRegistry.

Open Scope Z_scope.

(** ** Context and intermediate data *)

(** The context borrows its parts; a Rocq record is never incomplete, so the
    null checks of [ClassifierContext::validate] have no counterpart. *)
Record ClassifierContext := mkClassifierContext {
  cx_links : LinkRegistry.t;
  cx_store : EvidenceStore.t;
  cx_capabilities : CapabilityRegistry.t;
  cx_policy : PolicyGenerationRecord;
  cx_limits : FabricLimits;
  cx_now : ClockReading;
  cx_epoch : Z;
}.

Record Candidate := mkCandidate {
  cand_reference : EvidenceRef;
  cand_value : double;
  cand_authority : Z;
  cand_source : SourceIdentity;
}.

Record LaneContext := mkLaneContext {
  lc_has_evidence : bool;
  lc_has_fresh_reading : bool;
  lc_reasons : ReasonList;
  lc_candidates : list Candidate;
  lc_evidence : list EvidenceRef;
  lc_interval_rate : option double;
  lc_counter_reason : ReasonCode.t;
  lc_counter_event : CounterEvent.t;
  lc_recovered_only : bool;
  lc_sources_with_evidence : Z;
  lc_sources_fresh : Z;
  lc_newest_fresh_age : Z;
  lc_has_fresh_age : bool;
}.

Definition empty_lane_context : LaneContext :=
  mkLaneContext false false [] [] [] None ReasonCode.None CounterEvent.Baseline true 0 0 0 false.

(** ** Freshness *)

(** [record_is_fresh]: the verdict and the reported age. *)
Definition record_is_fresh (record : EvidenceRecord) (validity_nanos : Z) (now : ClockReading)
    (epoch : Z) : bool * Z :=
  if negb (eqb (er_origin record) EvidenceOrigin.Live) || negb (rs_epoch (er_received record) =? epoch)
  then (false, Z.max 0 (cr_wall_nanos now - rs_wall_nanos (er_received record)))
  else
    let age := Z.max 0 (cr_steady_nanos now - rs_steady_nanos (er_received record)) in
    (if validity_nanos <=? 0 then false else age <=? validity_nanos, age).

Definition received_after (record : EvidenceRecord) (now : ClockReading) (epoch : Z) : bool :=
  if negb (eqb (er_origin record) EvidenceOrigin.Live) || negb (rs_epoch (er_received record) =? epoch)
  then false
  else cr_steady_nanos now <? rs_steady_nanos (er_received record).

(** The record a stream contributes at an instant, and whether it is the one the
    continuity engine was last fed. *)
Definition newest_at_or_before (stream : StreamState) (now : ClockReading) (epoch : Z)
  : option (EvidenceRecord * bool) :=
  let from_ring :=
    (fun r => (r, false)) <$> find_first (fun r => negb (received_after r now epoch)) (rev (st_recent stream)) in
  match st_latest_fed stream with
  | Some fed => if negb (received_after fed now epoch) then Some (fed, true) else from_ring
  | None => from_ring
  end.

Definition counter_observation_of (record : EvidenceRecord) : CounterObservation :=
  let o := er_observation record in
  let '(value, width, reset) :=
    match ob_reading o with
    | ReadCounter c => (ctr_value c, ctr_width c, ctr_reset_declared c)
    | ReadGauge _ => (0, CounterWidth.Unspecified, false)
    end in
  mkCounterObservation value width reset (ts_unix_nanos (ob_observed_at o))
    (rs_steady_nanos (er_received record)) (ob_sequence o) (si_incarnation (ob_source o))
    (li_generation (ob_link o)).

Definition effective_validity (policy : PolicyGenerationRecord) (rule : option MetricRule)
    (family : MetricFamily.t) (declaration : option DeclaredSource) : Z :=
  let fallback := validity_for (pd_freshness (pgr_document policy)) family in
  let declared :=
    match declaration with
    | Some d => if 0 <? ds_validity_nanos d then ds_validity_nanos d else fallback
    | None => fallback
    end in
  match rule with
  | Some r => if 0 <? mr_validity_nanos r then mr_validity_nanos r else declared
  | None => declared
  end.

Section Classify.
Context `{Charconv} `{LongDouble}.

(** *** The evidence of one lane *)

(** Replaying the retained records that had been received by the instant. *)
Definition reconstruct_counter (stream : StreamState) (now : ClockReading) (epoch : Z)
    (config : CounterContinuityConfig) : CounterStep * CounterContinuity :=
  fold_left
    (fun (acc : CounterStep * CounterContinuity) r =>
       if received_after r now epoch then acc
       else if is_counter (ob_reading (er_observation r))
       then observe (counter_observation_of r) config acc.2
       else acc)
    (st_recent stream)
    (mkCounterStep CounterEvent.Baseline ReasonCode.None None false, counter_clear).

Definition reference_of (record : EvidenceRecord) (fresh : bool) (age : Z) : EvidenceRef :=
  let o := er_observation record in
  let p := ob_provenance o in
  mkEvidenceRef (ob_source o) (ob_sequence o) (ob_lane o) (ob_metric o) (ob_observed_at o)
    (er_received record) (er_origin record) (pv_evidence_class p) (ob_authority o) (ob_unit o)
    d_zero None None false fresh age (render_reading (ob_reading o) (ob_unit o))
    (if String.eqb (pv_origin p) "" then pv_producer p else pv_origin p).

Definition with_value (r : EvidenceRef) (value : double) : EvidenceRef :=
  mkEvidenceRef (ref_source r) (ref_sequence r) (ref_lane r) (ref_metric r) (ref_observed_at r)
    (ref_received r) (ref_origin r) (ref_evidence_class r) (ref_authority r) (ref_unit r) value
    (ref_counter_reading r) (ref_delta r) (ref_used r) (ref_fresh r) (ref_age_nanos r)
    (ref_rendered r) (ref_provenance r).

Definition with_counter (r : EvidenceRef) (reading : Z) (delta : option CounterDelta) : EvidenceRef :=
  mkEvidenceRef (ref_source r) (ref_sequence r) (ref_lane r) (ref_metric r) (ref_observed_at r)
    (ref_received r) (ref_origin r) (ref_evidence_class r) (ref_authority r) (ref_unit r)
    (ref_value r) (Some reading) delta (ref_used r) (ref_fresh r) (ref_age_nanos r)
    (ref_rendered r) (ref_provenance r).

(** What one reading adds: the reference, a candidate value, a reason, an
    interval rate. *)
Record Contribution := mkContribution {
  ctn_reference : EvidenceRef;
  ctn_candidate : option double;
  ctn_reason : option ReasonCode.t;
  ctn_interval_rate : option double;
  ctn_counter : option (CounterEvent.t * ReasonCode.t);
}.

Definition gauge_contribution (reference : EvidenceRef) (fresh : bool) (gauge : GaugeReading)
  : Contribution :=
  let reference := with_value reference (gr_value gauge) in
  mkContribution reference (if fresh then Some (gr_value gauge) else None) None None None.

Definition counter_contribution (policy : PolicyGenerationRecord) (reference : EvidenceRef)
    (fresh : bool) (validity : Z) (counter : CounterReading) (delta : option CounterDelta)
    (rate_admissible : bool) (event : CounterEvent.t) (reason : ReasonCode.t) : Contribution :=
  let tag := Some (event, reason) in
  match delta with
  | Some d =>
      let reference := with_counter reference (ctr_value counter) (Some d) in
      match rate_per_second d (fp_min_rate_interval_nanos (pd_freshness (pgr_document policy))) with
      | Some rate =>
          if rate_admissible && fresh && (cd_elapsed_nanos d <=? validity)
          then mkContribution (with_value reference rate) (Some rate) None None tag
          else mkContribution reference None
                 (Some (if rate_admissible then ReasonCode.PartiallyFreshEvidence
                        else ReasonCode.ContinuityGapExceeded)) (Some rate) tag
      | None => mkContribution reference None None None tag
      end
  | None =>
      mkContribution (with_counter reference (ctr_value counter) None) None (Some reason) None tag
  end.

Definition contribution (policy : PolicyGenerationRecord) (now : ClockReading) (epoch : Z)
    (stream : StreamState) (record : EvidenceRecord) (from_fed : bool) (fresh : bool) (age validity : Z)
  : Contribution :=
  let reference := reference_of record fresh age in
  match ob_reading (er_observation record) with
  | ReadGauge gauge => gauge_contribution reference fresh gauge
  | ReadCounter counter =>
      let reconstruct := negb from_fed || received_after record now epoch in
      if reconstruct then
        let config := counter_config_for (pgr_document policy) (sk_metric (st_key stream)) in
        let '(step, continuity) := reconstruct_counter stream now epoch config in
        counter_contribution policy reference fresh validity counter (cs_delta step)
          (k_rate_admissible continuity) (cs_event step) (cs_reason step)
      else
        counter_contribution policy reference fresh validity counter (st_last_delta stream)
          (st_rate_admissible stream) (st_last_counter_event stream) (st_last_counter_reason stream)
  end.

(** One iteration of the loop over the streams of the metric. *)
Definition collect_stream (cx : ClassifierContext) (metric : MetricId) (lane : LaneDimension)
    (declared : list DeclaredSource) (max_evidence : Z) (lc : LaneContext) (stream : StreamState)
  : LaneContext :=
  let policy := cx_policy cx in
  let rule := find_rule (pgr_document policy) metric in
  if negb (eqb (sk_lane (st_key stream)) lane) then lc
  else match find_first (fun d => eqb (ds_source d) (sk_source (st_key stream))) declared with
  | None => lc
  | Some declaration =>
      let validity := effective_validity policy rule (mi_family metric) (Some declaration) in
      match newest_at_or_before stream (cx_now cx) (cx_epoch cx) with
      | None => lc
      | Some (record, from_fed) =>
          let '(fresh, age) := record_is_fresh record validity (cx_now cx) (cx_epoch cx) in
          let c := contribution policy (cx_now cx) (cx_epoch cx) stream record from_fed fresh age validity in
          let o := er_observation record in
          mkLaneContext true (lc_has_fresh_reading lc || fresh)
            (match ctn_reason c with Some r => add_reason (lc_reasons lc) r | None => lc_reasons lc end)
            (match ctn_candidate c with
             | Some v => lc_candidates lc ++ [mkCandidate (ctn_reference c) v (ob_authority o) (ob_source o)]
             | None => lc_candidates lc
             end)
            (if zlen (lc_evidence lc) <? max_evidence then lc_evidence lc ++ [ctn_reference c]
             else lc_evidence lc)
            (match ctn_interval_rate c with Some r => Some r | None => lc_interval_rate lc end)
            (match ctn_counter c with Some (_, r) => r | None => lc_counter_reason lc end)
            (match ctn_counter c with Some (e, _) => e | None => lc_counter_event lc end)
            (if eqb (er_origin record) EvidenceOrigin.Live then false else lc_recovered_only lc)
            (lc_sources_with_evidence lc + 1)
            (if fresh then lc_sources_fresh lc + 1 else lc_sources_fresh lc)
            (if fresh && (negb (lc_has_fresh_age lc) || (age <? lc_newest_fresh_age lc))
             then age else lc_newest_fresh_age lc)
            (lc_has_fresh_age lc || fresh)
      end
  end.

Definition collect_lane (cx : ClassifierContext) (link : LinkIdentity) (metric : MetricId)
    (lane : LaneDimension) (declared : list DeclaredSource) (max_evidence : Z) : LaneContext :=
  fold_left (collect_stream cx metric lane declared max_evidence)
    (EvidenceStore.streams_for (cx_store cx) link metric) empty_lane_context.

(** *** The assessment of one lane *)

Definition counter_incomplete_reason (lc : LaneContext) : ReasonCode.t :=
  if negb (eqb (lc_counter_reason lc) ReasonCode.None) then lc_counter_reason lc
  else ReasonCode.CounterBaselineOnly.

Definition confidence_for (state : QualityState.t) (distinct_sources : Z) (age : Z) (has_age : bool)
    (validity : Z) : ConfidenceLevel.t :=
  match state with
  | QualityState.Unknown | QualityState.Unsupported => ConfidenceLevel.None
  | QualityState.Stale | QualityState.Incomplete | QualityState.Conflicting => ConfidenceLevel.Low
  | _ =>
      if 2 <=? distinct_sources then ConfidenceLevel.High
      else if negb has_age || (validity <=? 0) then ConfidenceLevel.Medium
      else if age * 2 <=? validity then ConfidenceLevel.Medium else ConfidenceLevel.Low
  end.

Definition candidate_less (l r : Candidate) : bool :=
  if negb (eqb (cand_source l) (cand_source r)) then lessb (cand_source l) (cand_source r)
  else ref_sequence (cand_reference l) <? ref_sequence (cand_reference r).

Definition best_authority (candidates : list Candidate) : Z :=
  fold_left (fun best c => if best <? cand_authority c then cand_authority c else best) candidates 0.

Definition winners_of (candidates : list Candidate) : list Candidate :=
  let best := best_authority candidates in
  std_sort candidate_less (List.filter (fun c => cand_authority c =? best) candidates).

Definition has_losers (candidates : list Candidate) : bool :=
  existsb (fun c => negb (cand_authority c =? best_authority candidates)) candidates.

(** [highest - lowest] over the winners, made infinite when not finite. *)
Definition spread_of (winners : list Candidate) : double :=
  match winners with
  | [] => d_zero
  | w :: _ =>
      let lowest := fold_left (fun m c => d_min m (cand_value c)) winners (cand_value w) in
      let highest := fold_left (fun m c => d_max m (cand_value c)) winners (cand_value w) in
      let spread := d_sub highest lowest in
      if std_isfinite spread then spread else d_pinf
  end.

Fixpoint distinct_count {A} `{Cmp A} (seen l : list A) : Z :=
  match l with
  | [] => 0
  | x :: rest => if set_has x seen then distinct_count seen rest else 1 + distinct_count (x :: seen) rest
  end.

(** The fields every branch of [assess_lane] leaves alone, filled in once. *)
Definition assessed (metric : MetricId) (lane : LaneDimension) (view : MetricCapabilityView)
    (lc : LaneContext) (state : QualityState.t) (confidence : ConfidenceLevel.t) (reasons : ReasonList)
    (rules : list string) (value rate disagreement : option double) (conflicting : Z)
  : MetricAssessment :=
  mkMetricAssessment metric lane state confidence reasons (lc_evidence lc) rules value rate
    disagreement [] (zlen (mv_declared_by view)) (lc_sources_with_evidence lc) (lc_sources_fresh lc)
    conflicting (view_supported view) (lc_interval_rate lc).

Definition assess_candidates (policy : PolicyGenerationRecord) (metric : MetricId)
    (lane : LaneDimension) (view : MetricCapabilityView) (validity : Z) (lc : LaneContext)
  : MetricAssessment :=
  let rule := find_rule (pgr_document policy) metric in
  let candidates := lc_candidates lc in
  let winners := winners_of candidates in
  let reasons := if has_losers candidates
                 then add_reason (lc_reasons lc) ReasonCode.LowerAuthorityIgnored
                 else lc_reasons lc in
  let tolerance := match rule with Some r => mr_conflict_tolerance r | None => d_zero end in
  let spread := spread_of winners in
  let result := assessed metric lane view lc in
  if (2 <=? zlen winners) && negb (d_le spread tolerance) then
    result QualityState.Conflicting ConfidenceLevel.Low
      (add_reason reasons ReasonCode.EqualAuthorityDisagreement) [] None None (Some spread) (zlen winners)
  else match rule, winners with
  | None, _ =>
      result QualityState.Unknown ConfidenceLevel.None (add_reason reasons ReasonCode.NoRuleForMetric)
        [] None None (Some spread) 0
  | Some r, w :: _ =>
      let value := cand_value w in
      let rate := if eqb (mi_family metric) MetricFamily.ErrorCounter
                     || negb (eqb (mr_basis r) MetricBasis.GaugeValue)
                  then Some value else None in
      match rule_classify r value with
      | None => result QualityState.Unknown ConfidenceLevel.None reasons [] (Some value) rate (Some spread) 0
      | Some band =>
          result (tb_state band)
            (confidence_for (tb_state band) (distinct_count [] (map cand_source winners))
               (lc_newest_fresh_age lc) (lc_has_fresh_age lc) validity)
            (add_reason reasons ReasonCode.BandMatched) [tb_id band] (Some value) rate (Some spread) 0
      end
  | Some _, [] => result QualityState.Unknown ConfidenceLevel.None reasons [] None None (Some spread) 0
  end.

Definition assess_lane (cx : ClassifierContext) (link : LinkIdentity) (metric : MetricId)
    (lane : LaneDimension) (view : MetricCapabilityView) (query : QualityQuery) : MetricAssessment :=
  let policy := cx_policy cx in
  let rule := find_rule (pgr_document policy) metric in
  let validity := effective_validity policy rule (mi_family metric) (hd_error (mv_declared_by view)) in
  if negb (view_supported view) then
    assessed metric lane view empty_lane_context QualityState.Unsupported ConfidenceLevel.None
      [if view_explicitly_unsupported view then ReasonCode.DeclaredUnsupported
       else ReasonCode.MetricNotDeclared] [] None None None 0
  else
    let lc := collect_lane cx link metric lane (mv_declared_by view) (qq_max_evidence_per_metric query) in
    let result := assessed metric lane view lc in
    if negb (lc_has_evidence lc) then
      result QualityState.Unknown ConfidenceLevel.None (add_reason (lc_reasons lc) ReasonCode.NoEvidence)
        [] None None None 0
    else if is_nil (lc_candidates lc) then
      if negb (lc_has_fresh_reading lc) then
        result QualityState.Stale ConfidenceLevel.Low
          (add_reason (lc_reasons lc)
             (if lc_recovered_only lc then ReasonCode.RecoveredEvidenceOnly else ReasonCode.EvidenceExpired))
          [] None None None 0
      else
        result QualityState.Incomplete ConfidenceLevel.Low
          (add_reason (lc_reasons lc) (counter_incomplete_reason lc)) [] None None None 0
    else assess_candidates policy metric lane view validity lc.
End Classify.

(** ** Roll-ups *)

Definition confidence_min (a b : ConfidenceLevel.t) : ConfidenceLevel.t := if lessb b a then b else a.

Section Rollup.
Context `{Charconv} `{LongDouble}.

(** The first lane of the worst severity. *)
Definition worst_lane (severity : SeverityTable) (first : MetricAssessment)
    (per_lane : list MetricAssessment) : MetricAssessment :=
  fold_left (fun w a => if severity_of severity (as_state w) <? severity_of severity (as_state a)
                        then a else w) per_lane first.

Definition lane_is_missing (a : MetricAssessment) : bool :=
  eqb (as_state a) QualityState.Unsupported || eqb (as_state a) QualityState.Unknown.

(** The accumulation of one lane into the aggregate. *)
Definition add_lane (max_evidence : Z) (g a : MetricAssessment) : MetricAssessment :=
  let reasons := add_reasons (as_reasons g) (as_reasons a) in
  let reasons := if eqb (as_state a) QualityState.Conflicting
                 then add_reason reasons ReasonCode.EqualAuthorityDisagreement else reasons in
  let reasons := if lane_is_missing a then add_reason reasons ReasonCode.MissingLanes else reasons in
  mkMetricAssessment (as_metric g) (as_lane g) (as_state g)
    (confidence_min (as_confidence g) (as_confidence a)) reasons
    (take (Z.to_nat max_evidence) (as_evidence g ++ as_evidence a))
    (as_rules g) (as_value g) (as_rate_per_second g) (as_disagreement g)
    (if lane_is_missing a then as_missing_lanes g ++ [ld_lane (as_lane a)] else as_missing_lanes g)
    (Z.max (as_sources_declared g) (as_sources_declared a))
    (as_sources_with_evidence g + as_sources_with_evidence a)
    (as_sources_fresh g + as_sources_fresh a)
    (as_sources_conflicting g + as_sources_conflicting a)
    (as_capability_declared g) (as_interval_rate_per_second g).

Definition with_state (a : MetricAssessment) (state : QualityState.t) (reasons : ReasonList)
  : MetricAssessment :=
  mkMetricAssessment (as_metric a) (as_lane a) state (as_confidence a) reasons (as_evidence a)
    (as_rules a) (as_value a) (as_rate_per_second a) (as_disagreement a) (as_missing_lanes a)
    (as_sources_declared a) (as_sources_with_evidence a) (as_sources_fresh a)
    (as_sources_conflicting a) (as_capability_declared a) (as_interval_rate_per_second a).

(** The roll-up of lanes that have been assessed. *)
Definition combine_lanes (severity : SeverityTable) (metric : MetricId) (supported : bool)
    (max_evidence : Z) (first : MetricAssessment) (per_lane : list MetricAssessment)
  : MetricAssessment :=
  let worst := worst_lane severity first per_lane in
  let start := mkMetricAssessment metric aggregate_dimension (as_state worst) (as_confidence worst)
    [] [] (as_rules worst) (as_value worst) (as_rate_per_second worst) None [] 0 0 0 0 supported
    (as_interval_rate_per_second worst) in
  let g := fold_left (add_lane max_evidence) per_lane start in
  if is_nil (as_missing_lanes g) then g
  else
    let with_missing := severity_worst severity (as_state g) QualityState.Incomplete in
    with_state g with_missing
      (if negb (eqb with_missing (as_state g))
       then add_reason (as_reasons g) ReasonCode.LaneCoveragePartial else as_reasons g).

Definition aggregate_lanes (cx : ClassifierContext) (link : LinkIdentity) (metric : MetricId)
    (view : MetricCapabilityView) (lanes : list Z) (query : QualityQuery) : MetricAssessment :=
  let per_lane := map (fun lane => assess_lane cx link metric (lane_dimension lane) view query) lanes in
  match per_lane with
  | [] => assess_lane cx link metric aggregate_dimension view query
  | first :: _ =>
      combine_lanes (ap_severity (pd_aggregation (pgr_document (cx_policy cx)))) metric
        (view_supported view) (qq_max_evidence_per_metric query) first per_lane
  end.

(** [std::unique] on a sorted range. *)
Fixpoint std_unique {A} `{Cmp A} (l : list A) : list A :=
  match l with
  | x :: rest =>
      match rest with
      | y :: _ => if eqb x y then std_unique rest else x :: std_unique rest
      | [] => [x]
      end
  | [] => []
  end.

Definition resolve_metrics (query : QualityQuery) (views : list MetricCapabilityView) : list MetricId :=
  if negb (is_nil (qq_metrics query)) then
    std_sort lessb
      (std_unique (std_sort lessb (take (Z.to_nat (qq_max_metrics query)) (qq_metrics query))))
  else
    (* the loop stops after the push that reaches the limit *)
    std_sort lessb (take (Z.to_nat (Z.max 1 (qq_max_metrics query))) (map mv_metric views)).

Definition find_view (views : list MetricCapabilityView) (metric : MetricId)
  : option MetricCapabilityView :=
  find_first (fun v => eqb (mv_metric v) metric) views.

Definition default_declared_source : DeclaredSource :=
  mkDeclaredSource (mkSourceIdentity "" 0) 0 EvidenceClass.Real TransportKind.Unspecified false 0
    Unit.None SampleSemantics.Gauge CounterWidth.Unspecified 0.

Definition view_or_standalone (document : PolicyDocument) (views : list MetricCapabilityView)
    (metric : MetricId) : MetricCapabilityView :=
  match find_view views metric with
  | Some v => v
  | None =>
      mkMetricCapabilityView metric []
        (if metric_in_list (pd_unsupported_metrics document) metric
         then [default_declared_source] else [])
  end.

Definition declared_lanes (view : MetricCapabilityView) : Z :=
  fold_left (fun n d => if ds_lanes_declared d then Z.max n (ds_lane_count d) else n)
    (mv_declared_by view) 0.

Definition lane_ids (n : Z) : list Z := map Z.of_nat (seq 0 (Z.to_nat n)).

Definition assess_metric (cx : ClassifierContext) (query : QualityQuery)
    (views : list MetricCapabilityView) (metric : MetricId) : MetricAssessment :=
  let view := view_or_standalone (pgr_document (cx_policy cx)) views metric in
  let whole :=
    match lane_ids (declared_lanes view) with
    | [] => assess_lane cx (qq_link query) metric aggregate_dimension view query
    | lanes => aggregate_lanes cx (qq_link query) metric view lanes query
    end in
  match qq_lane query with
  | Some lane =>
      if ld_aggregate lane then whole else assess_lane cx (qq_link query) metric lane view query
  | None => whole
  end.

(** *** The report of a link *)

Definition overall_of (severity : SeverityTable) (metrics : list MetricAssessment) : QualityState.t :=
  match metrics with
  | [] => QualityState.Unknown
  | a :: rest => fold_left (fun s b => severity_worst severity s (as_state b)) rest (as_state a)
  end.

Definition overall_confidence (metrics : list MetricAssessment) : ConfidenceLevel.t :=
  match metrics with
  | [] => ConfidenceLevel.None
  | a :: rest => fold_left (fun c b => confidence_min c (as_confidence b)) rest (as_confidence a)
  end.

Definition all_evidence (metrics : list MetricAssessment) : list EvidenceRef :=
  flat_map as_evidence metrics.

Definition count_refs (f : EvidenceRef -> bool) (l : list EvidenceRef) : Z := zlen (List.filter f l).

Definition empty_report (cx : ClassifierContext) (link : LinkIdentity) (registered : bool)
    (overall : QualityState.t) (reasons : ReasonList) : LinkQualityReport :=
  mkLinkQualityReport link registered false (pgr_stamp (cx_policy cx)) (cx_epoch cx) overall
    ConfidenceLevel.None reasons [] 0 0 0 (cr_wall_nanos (cx_now cx)) (cr_steady_nanos (cx_now cx)) false.

Definition classify_link (cx : ClassifierContext) (query : QualityQuery) : LinkQualityReport :=
  let document := pgr_document (cx_policy cx) in
  let link_state := LinkRegistry.find (cx_links cx) (qq_link query) in
  let registered := match link_state with Some _ => true | None => false end in
  let reasons :=
    match link_state with
    | None => add_reason [] ReasonCode.LinkNotRegistered
    | Some s => if ls_superseded s then add_reason [] ReasonCode.FencedGeneration else []
    end in
  let views := CapabilityRegistry.view_for_link (cx_capabilities cx) (qq_link query) in
  let metrics := resolve_metrics query views in
  if is_nil views then
    empty_report cx (qq_link query) registered QualityState.Unsupported
      (add_reason reasons ReasonCode.NoSourcesForLink)
  else if is_nil metrics then
    empty_report cx (qq_link query) registered QualityState.Unsupported
      (add_reason reasons ReasonCode.MetricNotDeclared)
  else
    let assessments := map (assess_metric cx query views) metrics in
    let severity := ap_severity (pd_aggregation document) in
    let any_conflict := existsb (fun a => eqb (as_state a) QualityState.Conflicting) assessments in
    let dominated := any_conflict && ap_conflicting_dominates (pd_aggregation document) in
    let reasons := fold_left (fun rs a => add_reasons rs (as_reasons a)) assessments reasons in
    let refs := all_evidence assessments in
    mkLinkQualityReport (qq_link query) registered
      (existsb (fun r => eqb (ref_origin r) EvidenceOrigin.Live) refs)
      (pgr_stamp (cx_policy cx)) (cx_epoch cx)
      (if dominated then QualityState.Conflicting else overall_of severity assessments)
      (if dominated then ConfidenceLevel.Low else overall_confidence assessments)
      (if dominated then add_reason reasons ReasonCode.EqualAuthorityDisagreement else reasons)
      assessments (zlen refs) (count_refs ref_fresh refs)
      (count_refs (fun r => eqb (ref_origin r) EvidenceOrigin.Recovered) refs)
      (cr_wall_nanos (cx_now cx)) (cr_steady_nanos (cx_now cx)) false.

(** *** Inspection *)

Definition stale_entry (link : LinkIdentity) (a : MetricAssessment) (r : EvidenceRef) : StaleEntry :=
  mkStaleEntry link (as_metric a) (as_lane a) (ref_source r) (ref_origin r) (ref_age_nanos r)
    (ref_received r)
    (if eqb (ref_origin r) EvidenceOrigin.Recovered then ReasonCode.RecoveredEvidenceOnly
     else ReasonCode.EvidenceExpired).

(** The state of the loops: the report under construction and the freshness
    entry of the current assessment. *)
Definition inspect_reference (filter : InspectionFilter) (link : LinkIdentity) (a : MetricAssessment)
    (acc : InspectionReport * FreshnessEntry) (r : EvidenceRef) : InspectionReport * FreshnessEntry :=
  let '(rep, f) := acc in
  let newest := if ref_fresh r
                then (if fe_has_fresh_evidence f then Z.min (fe_newest_age_nanos f) (ref_age_nanos r)
                      else ref_age_nanos r)
                else fe_newest_age_nanos f in
  let entry stale recovered :=
    mkFreshnessEntry (fe_link f) (fe_metric f) (fe_lane f) (fe_fresh_sources f) stale recovered
      (fe_declared_sources f) newest (fe_has_fresh_evidence f) in
  if eqb (ref_origin r) EvidenceOrigin.Recovered
  then (rep, entry (fe_stale_sources f) (fe_recovered_sources f + 1))
  else if ref_fresh r then (rep, entry (fe_stale_sources f) (fe_recovered_sources f))
  else
    let rep' :=
      if zlen (ir_stale rep) <? if_max_entries filter
      then mkInspectionReport (ir_policy rep) (ir_epoch rep) (ir_generated_wall_nanos rep)
             (ir_conflicts rep) (ir_stale rep ++ [stale_entry link a r]) (ir_freshness rep)
             (ir_links_inspected rep) (ir_entries_dropped rep) (ir_truncated rep)
      else mkInspectionReport (ir_policy rep) (ir_epoch rep) (ir_generated_wall_nanos rep)
             (ir_conflicts rep) (ir_stale rep) (ir_freshness rep) (ir_links_inspected rep)
             (incr64 (ir_entries_dropped rep)) true in
    (rep', entry (fe_stale_sources f + 1) (fe_recovered_sources f)).

Definition conflict_entry (document : PolicyDocument) (filter : InspectionFilter) (link : LinkIdentity)
    (a : MetricAssessment) : ConflictEntry :=
  mkConflictEntry link (as_metric a) (as_lane a)
    (take (Z.to_nat (if_max_claimants_per_conflict filter)) (as_evidence a))
    (match as_disagreement a with Some d => d | None => d_zero end)
    (match find_rule document (as_metric a) with Some r => mr_conflict_tolerance r | None => d_zero end).

Definition add_conflict (filter : InspectionFilter) (e : ConflictEntry) (rep : InspectionReport)
  : InspectionReport :=
  if zlen (ir_conflicts rep) <? if_max_entries filter
  then mkInspectionReport (ir_policy rep) (ir_epoch rep) (ir_generated_wall_nanos rep)
         (ir_conflicts rep ++ [e]) (ir_stale rep) (ir_freshness rep) (ir_links_inspected rep)
         (ir_entries_dropped rep) (ir_truncated rep)
  else mkInspectionReport (ir_policy rep) (ir_epoch rep) (ir_generated_wall_nanos rep)
         (ir_conflicts rep) (ir_stale rep) (ir_freshness rep) (ir_links_inspected rep)
         (incr64 (ir_entries_dropped rep)) true.

Definition add_freshness (filter : InspectionFilter) (f : FreshnessEntry) (rep : InspectionReport)
  : InspectionReport :=
  if zlen (ir_freshness rep) <? if_max_entries filter
  then mkInspectionReport (ir_policy rep) (ir_epoch rep) (ir_generated_wall_nanos rep)
         (ir_conflicts rep) (ir_stale rep) (ir_freshness rep ++ [f]) (ir_links_inspected rep)
         (ir_entries_dropped rep) (ir_truncated rep)
  else mkInspectionReport (ir_policy rep) (ir_epoch rep) (ir_generated_wall_nanos rep)
         (ir_conflicts rep) (ir_stale rep) (ir_freshness rep) (ir_links_inspected rep)
         (incr64 (ir_entries_dropped rep)) true.

Definition inspect_assessment (document : PolicyDocument) (filter : InspectionFilter)
    (link : LinkIdentity) (rep : InspectionReport) (a : MetricAssessment) : InspectionReport :=
  if match if_metric filter with Some m => negb (eqb (as_metric a) m) | None => false end then rep
  else
    let start := mkFreshnessEntry link (as_metric a) (as_lane a) (as_sources_fresh a) 0 0
      (as_sources_declared a) 0 (0 <? as_sources_fresh a) in
    let '(rep1, freshness) := fold_left (inspect_reference filter link a) (as_evidence a) (rep, start) in
    let rep2 := if eqb (as_state a) QualityState.Conflicting
                then add_conflict filter (conflict_entry document filter link a) rep1 else rep1 in
    add_freshness filter freshness rep2.

Definition inspect_link (cx : ClassifierContext) (filter : InspectionFilter) (rep : InspectionReport)
    (link : LinkIdentity) : InspectionReport :=
  let query := mkQualityQuery link None [] true (max_metrics_per_query (cx_limits cx))
    (max_evidence_per_metric (cx_limits cx)) in
  fold_left (inspect_assessment (pgr_document (cx_policy cx)) filter link)
    (rep_metrics (classify_link cx query)) rep.

Definition inspect_fabric (cx : ClassifierContext) (filter : InspectionFilter) : InspectionReport :=
  let wanted := List.filter
    (fun l => match if_link filter with Some w => eqb l w | None => true end)
    (map ls_identity (LinkRegistry.snapshot (cx_links cx))) in
  let links := std_sort lessb wanted in
  let over := if_max_entries filter <? zlen links in
  let start := mkInspectionReport (pgr_stamp (cx_policy cx)) (cx_epoch cx) (cr_wall_nanos (cx_now cx))
    [] [] [] (zlen links) (if over then zlen links - if_max_entries filter else 0) over in
  fold_left (inspect_link cx filter) (take (Z.to_nat (if_max_entries filter)) links) start.
End Rollup.
