(* ===== verification/ClassifierSpec.v ===== *)
(** * Classification: theorems

    A state that asserts anything about a link rests on evidence that is live,
    of this process incarnation and inside its validity window; roll-ups never
    hide the worst part; authority and conflict are decided as documented. *)

From Stdlib Require Import ZArith Lia Bool List String Ascii.
From stdpp Require Import base decidable list strings.
From S2P Require Import Prelude OrdMap Float Core Quality Metric Identity Counter Capability.
From S2P Require Import Config Policy PolicySpec Classification LinkRegistry EvidenceStore.
From S2P Require Import EvidenceStoreSpec CapabilityRegistry Classifier.

Open Scope Z_scope.

#[local] Arguments enum_val : simpl never.

(** ** Freshness *)

(** The record was received live by this incarnation, [age] ago, within its
    validity window. *)
Definition admissibly_fresh (record : EvidenceRecord) (validity : Z) (now : ClockReading) (epoch : Z) : Prop :=
  er_origin record = EvidenceOrigin.Live /\ rs_epoch (er_received record) = epoch /\ 0 < validity /\
  cr_steady_nanos now - rs_steady_nanos (er_received record) <= validity.

Lemma record_is_fresh_iff record validity now epoch :
  (record_is_fresh record validity now epoch).1 = true <-> admissibly_fresh record validity now epoch.
Proof.
  unfold record_is_fresh, admissibly_fresh.
  destruct (eqb (er_origin record) EvidenceOrigin.Live) eqn:E1; simpl; breflect.
  - destruct (rs_epoch (er_received record) =? epoch) eqn:E2; simpl; breflect; [|intuition congruence].
    destruct (validity <=? 0) eqn:E3; breflect; [split; [done|lia]|].
    rewrite Z.leb_le. split; [intros; split_and!; try done; lia|lia].
  - split; [done|]. tauto.
Qed.

(** A stream of the lane whose newest record is fresh and whose source is
    declared. *)
Definition fresh_in (cx : ClassifierContext) (link : LinkIdentity) (metric : MetricId)
    (lane : LaneDimension) (declared : list DeclaredSource) : Prop :=
  exists stream record from_fed d,
    In stream (EvidenceStore.streams_for (cx_store cx) link metric) /\
    sk_lane (st_key stream) = lane /\ In d declared /\ ds_source d = sk_source (st_key stream) /\
    newest_at_or_before stream (cx_now cx) (cx_epoch cx) = Some (record, from_fed) /\
    admissibly_fresh record
      (effective_validity (cx_policy cx) (find_rule (pgr_document (cx_policy cx)) metric)
         (mi_family metric) (Some d)) (cx_now cx) (cx_epoch cx).

Section Lane.
Context `{Charconv} `{LongDouble}.

Lemma contribution_fresh policy now epoch stream record ff fresh age validity v :
  ctn_candidate (contribution policy now epoch stream record ff fresh age validity) = Some v -> fresh = true.
Proof.
  unfold contribution. destruct (ob_reading (er_observation record)) as [g|c]; simpl.
  - by destruct fresh.
  - assert (forall delta ra ev rs,
      ctn_candidate (counter_contribution policy (reference_of record fresh age) fresh validity c delta ra ev rs)
      = Some v -> fresh = true) as Hc.
    { intros delta ra ev rs. unfold counter_contribution. destruct delta as [d|]; [|done].
      destruct (rate_per_second _ _); [|done]. destruct ra, fresh; simpl; done. }
    destruct (negb ff || _); [|apply Hc]. destruct (reconstruct_counter _ _ _ _). apply Hc.
Qed.

(** Something fresh in the lane context comes from a fresh stream. *)
Definition claims_fresh (lc : LaneContext) : Prop :=
  lc_has_fresh_reading lc = true \/ lc_candidates lc <> [] \/ lc_sources_fresh lc <> 0.

Lemma collect_stream_fresh cx link metric lane declared me lc stream :
  In stream (EvidenceStore.streams_for (cx_store cx) link metric) ->
  claims_fresh (collect_stream cx metric lane declared me lc stream) ->
  claims_fresh lc \/ fresh_in cx link metric lane declared.
Proof.
  intros Hin. unfold collect_stream.
  destruct (eqb (sk_lane (st_key stream)) lane) eqn:E1; simpl; [|by left].
  destruct (find_first _ declared) as [d|] eqn:E2; [|by left].
  destruct (newest_at_or_before stream (cx_now cx) (cx_epoch cx)) as [[record ff]|] eqn:E3; [|by left].
  destruct (record_is_fresh _ _ _ _) as [fresh age] eqn:E4. destruct fresh.
  - intros _. right. apply eqb_true in E1. apply find_first_Some in E2 as [Hd Hs]. apply eqb_true in Hs.
    exists stream, record, ff, d. split_and!; try done. apply record_is_fresh_iff. by rewrite E4.
  - unfold claims_fresh. simpl. rewrite orb_false_r.
    destruct (ctn_candidate _) eqn:Ec; [|by left]. by apply contribution_fresh in Ec.
Qed.

Lemma collect_lane_fresh cx link metric lane declared me :
  claims_fresh (collect_lane cx link metric lane declared me) -> fresh_in cx link metric lane declared.
Proof.
  unfold collect_lane.
  assert (forall l, (forall s, In s l -> In s (EvidenceStore.streams_for (cx_store cx) link metric)) ->
    forall lc, claims_fresh (fold_left (collect_stream cx metric lane declared me) l lc) ->
    claims_fresh lc \/ fresh_in cx link metric lane declared) as Hf.
  { induction l as [|s l IH]; simpl; intros Hl lc Hc; [by left|].
    destruct (IH (fun s' Hs => Hl s' (or_intror Hs)) _ Hc) as [Hc' | Hc']; [|by right].
    apply (collect_stream_fresh cx link metric lane declared me lc s); auto. }
  intros Hc. destruct (Hf _ (fun s Hs => Hs) _ Hc) as [[Hx | [Hx | Hx]] | Hx]; done.
Qed.

(** The states that assert nothing about current quality. *)
Definition asserts_nothing (s : QualityState.t) : bool :=
  match s with
  | QualityState.Unknown | QualityState.Unsupported | QualityState.Stale | QualityState.Incomplete => true
  | _ => false
  end.

Lemma assess_lane_fresh cx link metric lane view query :
  let a := assess_lane cx link metric lane view query in
  asserts_nothing (as_state a) = false \/ as_value a <> None ->
  fresh_in cx link metric lane (mv_declared_by view).
Proof.
  intros a. unfold a, assess_lane. destruct (view_supported view); simpl; [|by intros [?|?]].
  set (lc := collect_lane _ _ _ _ _ _).
  destruct (lc_has_evidence lc); simpl; [|by intros [?|?]].
  destruct (is_nil (lc_candidates lc)) eqn:En; simpl.
  - destruct (lc_has_fresh_reading lc); simpl; by intros [?|?].
  - intros _. eapply collect_lane_fresh with (me := qq_max_evidence_per_metric query).
    fold lc. right. left. by destruct (lc_candidates lc).
Qed.
End Lane.

(** ** Roll-up over lanes *)

Lemma confidence_min_le a b :
  enum_val (confidence_min a b) <= enum_val a /\ enum_val (confidence_min a b) <= enum_val b /\
  (confidence_min a b = a \/ confidence_min a b = b).
Proof. destruct a, b; vm_compute; intuition (try discriminate). Qed.

Section Lanes.
Context (severity : SeverityTable).

Lemma worst_lane_spec l : forall first,
  let w := worst_lane severity first l in
  (w = first \/ In w l) /\
  severity_of severity (as_state first) <= severity_of severity (as_state w) /\
  (forall a, In a l -> severity_of severity (as_state a) <= severity_of severity (as_state w)).
Proof.
  induction l as [|b l IH]; intros first; simpl; [split_and!; [by left|lia|done]|].
  set (f := if _ <? _ then b else first).
  assert ((f = first \/ f = b) /\ severity_of severity (as_state first) <= severity_of severity (as_state f)
    /\ severity_of severity (as_state b) <= severity_of severity (as_state f)) as (Hf & H1 & H2).
  { unfold f. destruct (_ <? _) eqn:E; breflect; split_and!; auto; lia. }
  destruct (IH f) as (H3 & H4 & H5). fold (worst_lane severity f l) in *. split_and!.
  - destruct H3 as [-> | H3]; [|by right; right]. destruct Hf as [-> | ->]; [by left|by right; left].
  - lia.
  - intros a [<- | Ha]; [lia|by apply H5].
Qed.

(** Folding the lanes into the aggregate leaves the state alone. *)
Lemma add_lanes_spec me l : forall g,
  let g' := fold_left (add_lane me) l g in
  as_state g' = as_state g /\ as_value g' = as_value g /\ as_rules g' = as_rules g /\
  as_missing_lanes g' = as_missing_lanes g
    ++ map (fun a => ld_lane (as_lane a)) (List.filter lane_is_missing l) /\
  enum_val (as_confidence g') <= enum_val (as_confidence g) /\
  (forall a, In a l -> enum_val (as_confidence g') <= enum_val (as_confidence a)).
Proof.
  induction l as [|a l IH]; intros g; simpl; [rewrite app_nil_r; split_and!; done|].
  destruct (IH (add_lane me g a)) as (H1 & H2 & H3 & H4 & H5 & H6).
  destruct (confidence_min_le (as_confidence g) (as_confidence a)) as (H7 & H8 & _).
  rewrite H1, H2, H3, H4. cbn [add_lane as_state as_value as_rules as_missing_lanes as_confidence] in *.
  split_and!; try done.
  - destruct (lane_is_missing a); simpl; [by rewrite <- app_assoc|done].
  - lia.
  - intros b [<- | Hb]; [lia|by apply H6].
Qed.

Lemma combine_lanes_spec metric supported me first l :
  In first l ->
  let g := combine_lanes severity metric supported me first l in
  (In (as_state g) (map as_state l) \/ as_state g = QualityState.Incomplete) /\
  (forall a, In a l -> severity_of severity (as_state a) <= severity_of severity (as_state g)) /\
  as_missing_lanes g = map (fun a => ld_lane (as_lane a)) (List.filter lane_is_missing l) /\
  (as_missing_lanes g <> [] ->
     severity_of severity QualityState.Incomplete <= severity_of severity (as_state g)) /\
  (forall a, In a l -> enum_val (as_confidence g) <= enum_val (as_confidence a)).
Proof.
  intros Hin. unfold combine_lanes. destruct (worst_lane_spec l first) as (H1 & H2 & H3).
  set (w := worst_lane severity first l) in *. set (start := mkMetricAssessment _ _ _ _ _ _ _ _ _ _ _ _ _ _ _ _ _).
  destruct (add_lanes_spec me l start) as (H4 & H5 & H6 & H7 & H8 & H9). simpl in H4, H7.
  set (g := fold_left (add_lane me) l start) in *.
  assert (In (as_state w) (map as_state l)) as Hw by (apply in_map; destruct H1 as [-> |]; done).
  destruct (is_nil (as_missing_lanes g)) eqn:En.
  - destruct (as_missing_lanes g) eqn:Em; [|done]. rewrite H4. split_and!; try done. by left.
  - simpl. rewrite H4. destruct (severity_worst_ge severity (as_state w) QualityState.Incomplete) as [Hg1 Hg2].
    split_and!; try done.
    + destruct (severity_worst_In severity (as_state w) QualityState.Incomplete) as [-> | ->]; [by left|by right].
    + intros a Ha. specialize (H3 a Ha). lia.
Qed.
End Lanes.

(** ** Whole reports *)

Section Reports.
Context `{Charconv} `{LongDouble}.

Lemma assess_lane_lane cx link metric lane view query :
  as_lane (assess_lane cx link metric lane view query) = lane.
Proof.
  unfold assess_lane, assess_candidates. repeat (case_match; simpl; try done).
Qed.

Lemma newest_is_stored stream now epoch record ff :
  newest_at_or_before stream now epoch = Some (record, ff) ->
  In record (st_recent stream) \/ st_latest_fed stream = Some record.
Proof.
  unfold newest_at_or_before. intros E.
  assert (forall x, (fun r => (r, false)) <$> find_first (fun r => negb (received_after r now epoch))
    (rev (st_recent stream)) = Some (x, ff) -> In x (st_recent stream)) as Hr.
  { intros x Hx. apply fmap_Some in Hx as (y & Hy & [= -> _]). apply find_first_Some in Hy as [Hy _].
    by apply in_rev. }
  destruct (st_latest_fed stream) as [fed|]; [|by left; apply Hr].
  destruct (negb _); [|by left; apply Hr]. right. congruence.
Qed.

(** Nothing stored was received live by this incarnation. *)
Definition nothing_live (cx : ClassifierContext) : Prop :=
  forall stream r, In stream (om_values (EvidenceStore.streams (cx_store cx))) ->
    In r (st_recent stream) \/ st_latest_fed stream = Some r ->
    er_origin r <> EvidenceOrigin.Live \/ rs_epoch (er_received r) <> cx_epoch cx.

Lemma streams_for_In store link metric stream :
  In stream (EvidenceStore.streams_for store link metric) -> In stream (om_values (EvidenceStore.streams store)).
Proof.
  unfold EvidenceStore.streams_for, om_values. rewrite !in_map_iff. intros (e & <- & He).
  apply filter_In in He as [He _]. eauto.
Qed.

Lemma nothing_live_not_fresh cx link metric lane declared :
  nothing_live cx -> ~ fresh_in cx link metric lane declared.
Proof.
  intros Hn (stream & record & ff & d & Hin & _ & _ & _ & Hnew & Hf).
  destruct Hf as (H1 & H2 & _).
  destruct (Hn stream record); [by eapply streams_for_In|by eapply newest_is_stored|done|done].
Qed.

Lemma assess_lane_nothing_live cx link metric lane view query :
  nothing_live cx ->
  asserts_nothing (as_state (assess_lane cx link metric lane view query)) = true /\
  as_value (assess_lane cx link metric lane view query) = None.
Proof.
  intros Hn. pose proof (assess_lane_fresh cx link metric lane view query) as Hf. simpl in Hf.
  pose proof (nothing_live_not_fresh cx link metric lane (mv_declared_by view) Hn) as Hnf.
  destruct (asserts_nothing _); [|exfalso; auto]. split; [done|].
  destruct (as_value _); [|done]. exfalso. apply Hnf, Hf. by right.
Qed.

Lemma aggregate_lanes_cons cx link metric view lane lanes query :
  aggregate_lanes cx link metric view (lane :: lanes) query =
  let f := fun lane => assess_lane cx link metric (lane_dimension lane) view query in
  combine_lanes (ap_severity (pd_aggregation (pgr_document (cx_policy cx)))) metric
    (view_supported view) (qq_max_evidence_per_metric query) (f lane) (map f (lane :: lanes)).
Proof. reflexivity. Qed.

Lemma assess_metric_nothing_live cx query views metric :
  nothing_live cx -> asserts_nothing (as_state (assess_metric cx query views metric)) = true.
Proof.
  intros Hn. unfold assess_metric. set (view := view_or_standalone _ _ _).
  assert (asserts_nothing (as_state
    match lane_ids (declared_lanes view) with
    | [] => assess_lane cx (qq_link query) metric aggregate_dimension view query
    | lanes => aggregate_lanes cx (qq_link query) metric view lanes query
    end) = true) as Hw.
  { destruct (lane_ids (declared_lanes view)) as [|lane lanes]; [by apply assess_lane_nothing_live|].
    rewrite aggregate_lanes_cons. cbv zeta. set (f := fun lane => assess_lane _ _ _ (lane_dimension lane) _ _).
    destruct (combine_lanes_spec (ap_severity (pd_aggregation (pgr_document (cx_policy cx)))) metric
      (view_supported view) (qq_max_evidence_per_metric query) (f lane) (map f (lane :: lanes)))
      as ([Hs | Hs] & _); [by left| |by rewrite Hs].
    rewrite map_map in Hs. apply in_map_iff in Hs as (l & <- & _). by apply assess_lane_nothing_live. }
  destruct (qq_lane query) as [lane|]; [|done]. destruct (ld_aggregate lane); [done|].
  by apply assess_lane_nothing_live.
Qed.

Lemma overall_worst severity a l :
  overall_of severity (a :: l) = worst_of severity (as_state a) (map as_state l).
Proof.
  unfold overall_of, worst_of. generalize (as_state a). induction l as [|b l IH]; intros s; simpl; [done|]. apply IH.
Qed.

Lemma overall_confidence_le l b :
  In b l -> enum_val (overall_confidence l) <= enum_val (as_confidence b).
Proof.
  unfold overall_confidence. destruct l as [|a l]; [done|].
  assert (forall l c, let c' := fold_left (fun c b => confidence_min c (as_confidence b)) l c in
    enum_val c' <= enum_val c /\ (forall b, In b l -> enum_val c' <= enum_val (as_confidence b))) as Hf.
  { clear. induction l as [|x l IH]; intros c; simpl; [split; [lia|done]|].
    destruct (IH (confidence_min c (as_confidence x))) as [H1 H2].
    destruct (confidence_min_le c (as_confidence x)) as (H3 & H4 & _).
    split; [lia|]. intros b [<- | Hb]; [lia|auto]. }
  destruct (Hf l (as_confidence a)) as [H1 H2]. intros [<- | Hb]; auto.
Qed.
End Reports.

(** ** Authority *)

Lemma best_authority_max l : forall b,
  let m := fold_left (fun best c => if best <? cand_authority c then cand_authority c else best) l b in
  b <= m /\ (forall c, In c l -> cand_authority c <= m) /\ (m = b \/ exists c, In c l /\ cand_authority c = m).
Proof.
  induction l as [|c l IH]; intros b; simpl; [split_and!; [lia|done|by left]|].
  set (b' := if b <? cand_authority c then cand_authority c else b).
  assert (b <= b' /\ cand_authority c <= b' /\ (b' = b \/ b' = cand_authority c)) as (H1 & H2 & H3).
  { unfold b'. destruct (_ <? _) eqn:E; breflect; split_and!; auto; lia. }
  destruct (IH b') as (H4 & H5 & H6). split_and!; [lia| |].
  - intros x [<- | Hx]; [lia|auto].
  - destruct H6 as [-> | (x & Hx & Ex)]; [|right; eauto]. destruct H3 as [-> | ->]; [by left|right; eauto].
Qed.

Lemma best_authority_filter l :
  Forall (fun c => 0 <= cand_authority c) l ->
  best_authority (List.filter (fun c => cand_authority c =? best_authority l) l) = best_authority l.
Proof.
  intros Hn. unfold best_authority at 1 3.
  destruct (best_authority_max l 0) as (H1 & H2 & H3). fold (best_authority l) in *.
  destruct (best_authority_max (List.filter (fun c => cand_authority c =? best_authority l) l) 0) as (H4 & H5 & H6).
  set (m := fold_left _ (List.filter _ _) 0) in *. apply Z.le_antisymm.
  - destruct H6 as [-> | (c & Hc & <-)]; [done|]. apply filter_In in Hc as [Hc _]. auto.
  - destruct H3 as [E | (c & Hc & Ec)]; [lia|]. rewrite <- Ec. apply H5. apply filter_In. split; [done|].
    by apply Z.eqb_eq.
Qed.

Lemma winners_filter l :
  Forall (fun c => 0 <= cand_authority c) l ->
  winners_of (List.filter (fun c => cand_authority c =? best_authority l) l) = winners_of l.
Proof.
  intros Hn. unfold winners_of. rewrite best_authority_filter by done. f_equal.
  apply filter_all. intros c Hc. by apply filter_In in Hc as [_ ?].
Qed.

Definition with_candidates (lc : LaneContext) (l : list Candidate) : LaneContext :=
  mkLaneContext (lc_has_evidence lc) (lc_has_fresh_reading lc) (lc_reasons lc) l (lc_evidence lc)
    (lc_interval_rate lc) (lc_counter_reason lc) (lc_counter_event lc) (lc_recovered_only lc)
    (lc_sources_with_evidence lc) (lc_sources_fresh lc) (lc_newest_fresh_age lc) (lc_has_fresh_age lc).

(** ** What a report is made of *)

Section ReportParts.
Context `{Charconv} `{LongDouble}.

Lemma classify_link_metrics cx query :
  let r := classify_link cx query in
  let views := CapabilityRegistry.view_for_link (cx_capabilities cx) (qq_link query) in
  (rep_metrics r = [] /\ rep_overall r = QualityState.Unsupported) \/
  (resolve_metrics query views <> [] /\
   rep_metrics r = map (assess_metric cx query views) (resolve_metrics query views)).
Proof.
  unfold classify_link. simpl.
  destruct (is_nil (CapabilityRegistry.view_for_link _ _)); [by left|].
  destruct (resolve_metrics query _) eqn:E; simpl; [by left|by right].
Qed.

(** With at least one assessment, the overall state and confidence are the
    folds over the assessments unless a conflict dominates. *)
Lemma classify_link_overall cx query :
  let r := classify_link cx query in
  let aggregation := pd_aggregation (pgr_document (cx_policy cx)) in
  let dominated := existsb (fun a => eqb (as_state a) QualityState.Conflicting) (rep_metrics r)
                   && ap_conflicting_dominates aggregation in
  rep_metrics r <> [] ->
  rep_overall r = (if dominated then QualityState.Conflicting
                   else overall_of (ap_severity aggregation) (rep_metrics r)) /\
  rep_confidence r = (if dominated then ConfidenceLevel.Low else overall_confidence (rep_metrics r)).
Proof.
  unfold classify_link. simpl.
  destruct (is_nil (CapabilityRegistry.view_for_link _ _)); [done|].
  destruct (is_nil (resolve_metrics query _)) eqn:E; done.
Qed.

Lemma overall_of_In severity l : l <> [] -> In (overall_of severity l) (map as_state l).
Proof.
  destruct l as [|a l]; [done|]. intros _. rewrite overall_worst. apply worst_of_In.
Qed.

Lemma assess_lane_metric cx link metric lane view query :
  as_metric (assess_lane cx link metric lane view query) = metric.
Proof. unfold assess_lane, assess_candidates. repeat (case_match; simpl; try done). Qed.

Lemma add_lanes_metric me l : forall g, as_metric (fold_left (add_lane me) l g) = as_metric g.
Proof. induction l as [|a l IH]; intros g; simpl; [done|]. by rewrite IH. Qed.

Lemma combine_lanes_metric severity metric supported me first l :
  as_metric (combine_lanes severity metric supported me first l) = metric.
Proof. unfold combine_lanes. case_match; simpl; by rewrite add_lanes_metric. Qed.

(** An assessment that asserts something asserts it for one of its lanes. *)
Lemma assess_metric_fresh cx query views metric :
  let view := view_or_standalone (pgr_document (cx_policy cx)) views metric in
  asserts_nothing (as_state (assess_metric cx query views metric)) = false ->
  exists lane, fresh_in cx (qq_link query) metric lane (mv_declared_by view).
Proof.
  unfold assess_metric. set (view := view_or_standalone _ _ _). simpl.
  assert (forall lane, asserts_nothing (as_state (assess_lane cx (qq_link query) metric lane view query)) = false ->
    exists lane, fresh_in cx (qq_link query) metric lane (mv_declared_by view)) as Hl.
  { intros lane Ha. exists lane. eapply assess_lane_fresh. by left. }
  assert (asserts_nothing (as_state
    match lane_ids (declared_lanes view) with
    | [] => assess_lane cx (qq_link query) metric aggregate_dimension view query
    | lanes => aggregate_lanes cx (qq_link query) metric view lanes query
    end) = false -> exists lane, fresh_in cx (qq_link query) metric lane (mv_declared_by view)) as Hw.
  { destruct (lane_ids (declared_lanes view)) as [|lane lanes]; [by apply Hl|].
    rewrite aggregate_lanes_cons. cbv zeta. set (f := fun lane => assess_lane _ _ _ (lane_dimension lane) _ _).
    destruct (combine_lanes_spec (ap_severity (pd_aggregation (pgr_document (cx_policy cx)))) metric
      (view_supported view) (qq_max_evidence_per_metric query) (f lane) (map f (lane :: lanes)))
      as ([Hs | Hs] & _); [by left| |by rewrite Hs].
    rewrite map_map in Hs. apply in_map_iff in Hs as (l & <- & _). by apply Hl. }
  destruct (qq_lane query) as [lane|]; [|done]. destruct (ld_aggregate lane); [done|]. apply Hl.
Qed.

Lemma assess_metric_metric cx query views metric :
  as_metric (assess_metric cx query views metric) = metric.
Proof.
  unfold assess_metric. set (view := view_or_standalone _ _ _).
  assert (as_metric match lane_ids (declared_lanes view) with
    | [] => assess_lane cx (qq_link query) metric aggregate_dimension view query
    | lanes => aggregate_lanes cx (qq_link query) metric view lanes query
    end = metric) as Hw.
  { destruct (lane_ids (declared_lanes view)) as [|lane lanes]; [apply assess_lane_metric|].
    rewrite aggregate_lanes_cons. apply combine_lanes_metric. }
  destruct (qq_lane query) as [lane|]; [|done]. destruct (ld_aggregate lane); [done|]. apply assess_lane_metric.
Qed.
End ReportParts.

(** ** Ages of the cited evidence *)

Section Ages.
Context `{Charconv} `{LongDouble}.

Definition aged (r : EvidenceRef) : Prop := 0 <= ref_age_nanos r.

Lemma record_age record validity now epoch : 0 <= (record_is_fresh record validity now epoch).2.
Proof. unfold record_is_fresh. case_match; simpl; lia. Qed.

Lemma contribution_age policy now epoch stream record ff fresh age validity :
  0 <= age -> aged (ctn_reference (contribution policy now epoch stream record ff fresh age validity)).
Proof.
  intros Ha. unfold contribution, gauge_contribution, counter_contribution, aged.
  repeat (case_match; simpl; try done).
Qed.

Lemma collect_lane_age cx link metric lane declared me :
  Forall aged (lc_evidence (collect_lane cx link metric lane declared me)).
Proof.
  unfold collect_lane. generalize (EvidenceStore.streams_for (cx_store cx) link metric) as l.
  assert (Forall aged (lc_evidence empty_lane_context)) as He by constructor. revert He.
  generalize empty_lane_context as lc. intros lc He l. revert lc He.
  induction l as [|s l IH]; intros lc Hlc; simpl; [done|]. apply IH. unfold collect_stream.
  destruct (negb _); [done|]. destruct (find_first _ _) as [d|]; [|done].
  destruct (newest_at_or_before _ _ _) as [[record ff]|]; [|done].
  pose proof (record_age record (effective_validity (cx_policy cx)
    (find_rule (pgr_document (cx_policy cx)) metric) (mi_family metric) (Some d)) (cx_now cx) (cx_epoch cx)) as Ha.
  destruct (record_is_fresh _ _ _ _) as [fresh age]. cbn [lc_evidence]. destruct (_ <? _); [|done].
  apply Forall_app. split; [done|]. constructor; [by apply contribution_age|done].
Qed.

Lemma assess_lane_age cx link metric lane view query :
  Forall aged (as_evidence (assess_lane cx link metric lane view query)).
Proof.
  pose proof (collect_lane_age cx link metric lane (mv_declared_by view) (qq_max_evidence_per_metric query)) as Hc.
  unfold assess_lane, assess_candidates. repeat (case_match; simpl; try done).
Qed.

Lemma add_lanes_age me l : Forall (fun a => Forall aged (as_evidence a)) l ->
  forall g, Forall aged (as_evidence g) -> Forall aged (as_evidence (fold_left (add_lane me) l g)).
Proof.
  induction 1 as [|a l Ha Hl IH]; intros g Hg; simpl; [done|]. apply IH. simpl. apply Forall_take, Forall_app. done.
Qed.

Lemma combine_lanes_age severity metric supported me first l :
  Forall (fun a => Forall aged (as_evidence a)) l ->
  Forall aged (as_evidence (combine_lanes severity metric supported me first l)).
Proof. intros Hl. unfold combine_lanes. case_match; simpl; by apply add_lanes_age. Qed.

Lemma assess_metric_age cx query views metric :
  Forall aged (as_evidence (assess_metric cx query views metric)).
Proof.
  unfold assess_metric. set (view := view_or_standalone _ _ _).
  assert (Forall aged (as_evidence match lane_ids (declared_lanes view) with
    | [] => assess_lane cx (qq_link query) metric aggregate_dimension view query
    | lanes => aggregate_lanes cx (qq_link query) metric view lanes query
    end)) as Hw.
  { destruct (lane_ids (declared_lanes view)) as [|lane lanes]; [apply assess_lane_age|].
    rewrite aggregate_lanes_cons. apply combine_lanes_age, Forall_map, Forall_true. intros. apply assess_lane_age. }
  destruct (qq_lane query) as [lane|]; [|done]. destruct (ld_aggregate lane); [done|]. apply assess_lane_age.
Qed.

Lemma classify_link_age cx query a :
  In a (rep_metrics (classify_link cx query)) -> Forall aged (as_evidence a).
Proof.
  destruct (classify_link_metrics cx query) as [[E _] | [_ E]]; simpl in E; rewrite E; [done|].
  intros Ha. apply in_map_iff in Ha as (m & <- & _). apply assess_metric_age.
Qed.

(** The minimum with the initial zero. *)
Definition age_collapsed (f : FreshnessEntry) : Prop :=
  fe_has_fresh_evidence f = true -> fe_newest_age_nanos f = 0.

Lemma inspect_references_age filter link a l : Forall aged l -> forall rep f,
  age_collapsed f ->
  let acc := fold_left (inspect_reference filter link a) l (rep, f) in
  ir_freshness acc.1 = ir_freshness rep /\ age_collapsed acc.2.
Proof.
  induction 1 as [|r l Hr Hl IH]; intros rep f Hf; cbn [fold_left]; [done|].
  destruct (inspect_reference filter link a (rep, f) r) as [rep' f'] eqn:E.
  assert (ir_freshness rep' = ir_freshness rep /\ age_collapsed f') as [Ef Hf'].
  { revert E Hr Hf. unfold inspect_reference, age_collapsed, aged. destruct f. simpl. intros E Hr Hf.
    repeat case_match; injection E as <- <-; simpl; split; try done; intros Hfr; try done; try (by congruence);
      specialize (Hf Hfr); simplify_eq; lia. }
  destruct (IH rep' f' Hf') as [E1 E2]. by rewrite E1, Ef.
Qed.

Lemma inspect_assessment_age document filter link rep a :
  Forall aged (as_evidence a) -> Forall age_collapsed (ir_freshness rep) ->
  Forall age_collapsed (ir_freshness (inspect_assessment document filter link rep a)).
Proof.
  intros Ha Hrep. unfold inspect_assessment. case_match; [done|].
  destruct (inspect_references_age filter link a (as_evidence a) Ha rep
    (mkFreshnessEntry link (as_metric a) (as_lane a) (as_sources_fresh a) 0 0
      (as_sources_declared a) 0 (0 <? as_sources_fresh a))) as [E1 E2]; [by intros _|].
  destruct (fold_left _ _ _) as [rep1 f]. simpl in E1, E2. rewrite <- E1 in Hrep.
  unfold add_freshness, add_conflict. repeat (case_match; simpl; try done);
    (apply Forall_app; split; [done|by constructor]).
Qed.

Lemma fold_left_keeps {A B} (P : B -> Prop) (f : B -> A -> B) l :
  (forall a b, In a l -> P b -> P (f b a)) -> forall b, P b -> P (fold_left f l b).
Proof.
  induction l as [|a l IH]; intros Hf b Hb; simpl; [done|]. apply IH; [|by apply Hf; [left|]].
  intros a' b' Ha'. apply Hf. by right.
Qed.

Lemma inspect_fabric_ages cx filter :
  Forall age_collapsed (ir_freshness (inspect_fabric cx filter)).
Proof.
  unfold inspect_fabric.
  apply (fold_left_keeps (fun rep => Forall age_collapsed (ir_freshness rep))); [|constructor].
  intros link rep _ Hrep. unfold inspect_link.
  apply (fold_left_keeps (fun rep => Forall age_collapsed (ir_freshness rep))); [|done].
  intros a rep' Ha. apply inspect_assessment_age. by eapply classify_link_age.
Qed.
End Ages.

(** ** Candidates *)

Lemma winners_spec l c :
  In c (winners_of l) <-> In c l /\ cand_authority c = best_authority l.
Proof.
  unfold winners_of. split.
  - intros Hc. apply (Permutation_in _ (Permutation_sym (std_sort_perm candidate_less _))) in Hc. apply filter_In in Hc as [? ?].
    split; [done|by apply Z.eqb_eq].
  - intros [Hc Ha]. apply (Permutation_in _ (std_sort_perm candidate_less _)). apply filter_In.
    split; [done|by apply Z.eqb_eq].
Qed.

(** A state with a band: Conflicting, Unknown, Stale, Unsupported and Incomplete
    have none. *)
Definition banded (s : QualityState.t) : bool := negb (asserts_nothing s) && negb (eqb s QualityState.Conflicting).

(** The candidates no other candidate outranks. *)
Definition top_candidates (l : list Candidate) : list Candidate :=
  List.filter (fun c => forallb (fun c' => cand_authority c' <=? cand_authority c) l) l.

(** [lo] and [hi] are the least and the greatest of the values of [l]. *)
Definition extremes (l : list Candidate) (lo hi : double) : Prop :=
  In lo (map cand_value l) /\ In hi (map cand_value l) /\
  forall c, In c l -> d_le lo (cand_value c) = true /\ d_le (cand_value c) hi = true.

(** The distance between two readings; infinite when it is no finite double. *)
Definition distance (lo hi : double) : double :=
  if std_isfinite (d_sub hi lo) then d_sub hi lo else d_pinf.

(** Comparable readings: none is NaN. *)
Definition comparable (l : list Candidate) : Prop :=
  forall c, In c l -> is_nan (cand_value c) = false.

(** The assessment [a] of candidates [l] follows the policy's rule: the value of
    a top candidate lies in the band whose state is reported, and the least and
    the greatest value of the top candidates, if there are several, are within
    the rule's tolerance of each other. *)
Definition follows_band (policy : PolicyGenerationRecord) (l : list Candidate) (a : MetricAssessment) : Prop :=
  exists rule c band,
    find_rule (pgr_document policy) (as_metric a) = Some rule /\
    In c l /\ (forall c', In c' l -> cand_authority c' <= cand_authority c) /\
    as_value a = Some (cand_value c) /\ rule_classify rule (cand_value c) = Some band /\
    as_state a = tb_state band /\ as_rules a = [tb_id band] /\
    (2 <= zlen (top_candidates l) -> comparable (top_candidates l) ->
       exists lo hi, extremes (top_candidates l) lo hi /\
         d_le (distance lo hi) (mr_conflict_tolerance rule) = true).

(** The assessment reports a conflict: several top candidates, of which the
    least and the greatest value are further apart than the tolerance. *)
Definition reports_conflict (policy : PolicyGenerationRecord) (l : list Candidate) (a : MetricAssessment) : Prop :=
  as_state a = QualityState.Conflicting /\ 2 <= zlen (top_candidates l) /\
  as_sources_conflicting a = zlen (top_candidates l) /\ as_value a = None /\
  (comparable (top_candidates l) ->
     exists lo hi, extremes (top_candidates l) lo hi /\ as_disagreement a = Some (distance lo hi) /\
       d_le (distance lo hi)
         (match find_rule (pgr_document policy) (as_metric a) with
          | Some r => mr_conflict_tolerance r | None => d_zero end) = false).

(** When there is a winner, the winners are the top candidates. *)
Lemma winners_are_top l : winners_of l <> [] -> Permutation (winners_of l) (top_candidates l).
Proof.
  intros Hne. destruct (winners_of l) as [|w ws] eqn:Ew; [done|]. rewrite <- Ew.
  assert (In w (winners_of l)) as [Hw Ha]%winners_spec by (rewrite Ew; by left).
  unfold winners_of. rewrite <- std_sort_perm. unfold top_candidates.
  erewrite List.filter_ext_in; [done|]. intros c Hc. simpl.
  pose proof (proj1 (proj2 (best_authority_max l 0))) as Hmax. fold (best_authority l) in Hmax.
  destruct (forallb _ l) eqn:E.
  - rewrite forallb_forall in E. specialize (E w Hw). specialize (Hmax c Hc). breflect. lia.
  - apply Z.eqb_neq. intros Ec. apply not_true_iff_false in E. apply E, forallb_forall.
    intros c' Hc'. specialize (Hmax c' Hc'). apply Z.leb_le. lia.
Qed.

(** A running minimum or maximum is one of the values, and bounds the others. *)
Lemma running_extreme (pick : double -> double -> double) (below : double -> double -> Prop) l :
  (forall x y, is_nan x = false -> is_nan y = false ->
     (pick x y = x \/ pick x y = y) /\ below (pick x y) x /\ below (pick x y) y) ->
  (forall x y z, is_nan x = false -> is_nan y = false -> is_nan z = false ->
     below x y -> below y z -> below x z) ->
  forall m, is_nan m = false -> comparable l ->
  let r := fold_left (fun m c => pick m (cand_value c)) l m in
  is_nan r = false /\ (r = m \/ In r (map cand_value l)) /\ (l <> [] -> below r m) /\
  forall c, In c l -> below r (cand_value c).
Proof.
  intros Hp Ht. induction l as [|c l IH]; intros m Hm Hc; simpl; [by split_and!; [|left|..]|].
  assert (is_nan (cand_value c) = false) as Hv by (apply Hc; by left).
  destruct (Hp m (cand_value c) Hm Hv) as (Hor & Hb1 & Hb2).
  assert (is_nan (pick m (cand_value c)) = false) as Hn by (by destruct Hor as [-> | ->]).
  destruct (IH _ Hn) as (I1 & I2 & I3 & I4); [intros c' ?; apply Hc; by right|].
  set (r := fold_left _ l _) in *.
  assert (forall x, is_nan x = false -> below (pick m (cand_value c)) x -> below r x) as Hle.
  { intros x Hx Hbx. destruct l as [|c' l']; [exact Hbx|].
    apply (Ht r (pick m (cand_value c)) x I1 Hn Hx); [by apply I3|done]. }
  split_and!; [done| |by auto|].
  - destruct I2 as [-> | ?]; [|by auto]. destruct Hor as [-> | ->]; [by left|right; by left].
  - intros c' [<- | Hc']; auto.
Qed.

Lemma spread_extremes l :
  l <> [] -> comparable l -> exists lo hi, extremes l lo hi /\ spread_of l = distance lo hi.
Proof.
  intros Hne Hc. destruct l as [|w ws]; [done|].
  assert (is_nan (cand_value w) = false) as Hw by (apply Hc; by left).
  destruct (running_extreme d_min (fun x y => d_le x y = true) (w :: ws))
    with (m := cand_value w) as (_ & Lo & _ & L); auto.
  { intros x y Hx Hy. destruct (d_min_le x y Hx Hy) as (_ & ? & ?). split; [|done].
    unfold d_min. destruct (d_lt y x); auto. }
  { intros x y z Hx Hy Hz. by apply d_le_trans. }
  destruct (running_extreme d_max (fun x y => d_le y x = true) (w :: ws))
    with (m := cand_value w) as (_ & Hi & _ & U); auto.
  { intros x y Hx Hy. destruct (d_max_ge x y Hx Hy) as (_ & ? & ?). split; [|done].
    unfold d_max. destruct (d_lt x y); auto. }
  { intros x y z Hx Hy Hz ? ?. by apply (d_le_trans z y x). }
  do 2 eexists. split; [|unfold spread_of; reflexivity].
  split; [|split].
  - destruct Lo as [-> | ?]; [by left|done].
  - destruct Hi as [-> | ?]; [by left|done].
  - intros c Hin. auto.
Qed.

(** The spread the classifier computes is the distance of the extremes of the
    top candidates. *)
Lemma winners_spread l :
  winners_of l <> [] -> comparable (top_candidates l) ->
  exists lo hi, extremes (top_candidates l) lo hi /\ spread_of (winners_of l) = distance lo hi.
Proof.
  intros Hne Hc. pose proof (winners_are_top l Hne) as P.
  destruct (spread_extremes (winners_of l) Hne) as (lo & hi & (H1 & H2 & H3) & Hs).
  { intros c Hin. apply Hc. by apply (Permutation_in _ P). }
  exists lo, hi. split; [|done]. split_and!.
  - eapply Permutation_in; [|exact H1]. by apply Permutation_map.
  - eapply Permutation_in; [|exact H2]. by apply Permutation_map.
  - intros c Hin. apply H3. by apply (Permutation_in _ (Permutation_sym P)).
Qed.

Section Candidates.
Context `{Charconv} `{LongDouble}.

Lemma assess_candidates_explained policy metric lane view validity lc :
  let a := assess_candidates policy metric lane view validity lc in
  asserts_nothing (as_state a) = false ->
  follows_band policy (lc_candidates lc) a \/ reports_conflict policy (lc_candidates lc) a.
Proof.
  unfold assess_candidates. set (winners := winners_of (lc_candidates lc)).
  set (rule := find_rule _ _).
  set (tol := match rule with Some r => mr_conflict_tolerance r | None => d_zero end).
  assert (winners <> [] -> zlen winners = zlen (top_candidates (lc_candidates lc))) as Hlen.
  { intros Hne. unfold zlen. f_equal. apply Permutation_length. by apply winners_are_top. }
  destruct ((2 <=? zlen winners) && negb (d_le (spread_of winners) tol)) eqn:Ec; simpl.
  - intros _. right. apply andb_true_iff in Ec as [Ec1 Ec2]. apply negb_true_iff in Ec2.
    apply Z.leb_le in Ec1. assert (winners <> []) as Hne by (by intros E; rewrite E in Ec1).
    specialize (Hlen Hne). split_and!; try done; [lia|]. intros Hc.
    destruct (winners_spread _ Hne Hc) as (lo & hi & He & Hs). exists lo, hi.
    split_and!; [done|..]; [simpl; f_equal|]; by rewrite <- Hs.
  - destruct rule as [r|] eqn:Er; [|done]. destruct winners as [|w ws] eqn:Ew; [done|].
    destruct (rule_classify r (cand_value w)) as [band|] eqn:Eb; [|done].
    intros _. left. exists r, w, band.
    assert (In w (winners_of (lc_candidates lc))) as [Hw1 Hw2]%winners_spec
      by (fold winners; rewrite Ew; by left).
    split_and!; try done.
    + intros c' Hc'. rewrite Hw2. by apply (best_authority_max (lc_candidates lc) 0).
    + intros H2 Hc. rewrite <- Hlen in H2 by done.
      apply andb_false_iff in Ec as [Ec | Ec]; [apply Z.leb_gt in Ec; lia|].
      apply negb_false_iff in Ec.
      destruct (winners_spread (lc_candidates lc)) as (lo & hi & He & Hs); [by fold winners; rewrite Ew|done|].
      exists lo, hi. split; [done|]. rewrite <- Hs. fold winners. by rewrite Ew.
Qed.

(** The verdict depends on the candidates of the top authority only. *)
Lemma assess_candidates_filter policy metric lane view validity lc :
  Forall (fun c => 0 <= cand_authority c) (lc_candidates lc) ->
  let top := List.filter (fun c => cand_authority c =? best_authority (lc_candidates lc)) (lc_candidates lc) in
  let a := assess_candidates policy metric lane view validity lc in
  let b := assess_candidates policy metric lane view validity (with_candidates lc top) in
  as_state a = as_state b /\ as_value a = as_value b /\ as_confidence a = as_confidence b /\
  as_rules a = as_rules b /\ as_disagreement a = as_disagreement b.
Proof.
  intros Hn. unfold assess_candidates. cbn [lc_candidates with_candidates].
  rewrite winners_filter by done. cbv zeta.
  set (winners := winners_of (lc_candidates lc)). destruct (_ && _); [done|].
  destruct (find_rule _ _) as [r|]; [|done]. destruct winners as [|w ws]; [done|].
  destruct (rule_classify r (cand_value w)); done.
Qed.
End Candidates.

(** ** A concrete context for the witnesses *)

(** One source measures the signal ratio of a two-lane link; lane 1 has been
    silent since before the restart. *)
Module ClassifierExamples.
#[export] Instance fixed_charconv : Charconv := {| to_chars_double := fun _ => "1.5"%string |}.
#[export] Instance ld : LongDouble := x87_extended.

Definition link : LinkIdentity := mkLinkIdentity "edge-a" 1.
Definition probe : SourceIdentity := mkSourceIdentity "probe" 1.
Definition snr : MetricId := mkMetricId MetricFamily.SignalRatio "snr".
Definition declaration (lanes : Z) : CapabilityDeclaration :=
  mkCapabilityDeclaration probe None 1 TransportKind.Unspecified EvidenceClass.Real (mkTimestamp 0 true)
    [mkMetricCapability snr Unit.Decibel SampleSemantics.Gauge CounterWidth.Unspecified (0 <? lanes) lanes 0] [] "".
Definition capabilities (lanes : Z) : CapabilityRegistry.t :=
  declare_all (CapabilityRegistry.create default_limits) (with_builtin_descriptors 512) [declaration lanes].
Definition sample (sequence value : Z) (lane : LaneDimension) (origin : EvidenceOrigin.t) : Admission :=
  mkAdmission
    (mkObservation link probe sequence snr lane Unit.Decibel (ReadGauge (mkGaugeReading (d_of_Z value) 0))
       (mkTimestamp 0 true) None 1 (mkProvenance TransportKind.Unspecified EvidenceClass.Real "" "" false 0))
    (mkReceiveStamp 1000 1000 1) sequence origin default_counter_config.
Definition policy : PolicyGenerationRecord :=
  mkPolicyGenerationRecord (mkPolicyStamp "default" 1 "") (mkTimestamp 0 true)
    DefaultPolicy.default_policy_document.
Definition context (lanes : Z) (evidence : list Admission) : ClassifierContext :=
  mkClassifierContext
    (link_run default_limits (mkTimestamp 0 true) (mkReceiveStamp 0 0 1) [OpObserve link])
    (admit_all (EvidenceStore.create default_limits) evidence).2 (capabilities lanes) policy default_limits
    (mkClockReading 2000 2000) 1.
Definition query : QualityQuery := mkQualityQuery link None [] true 64 8.

Definition one_lane_live : ClassifierContext :=
  context 2 [sample 1 35 (lane_dimension 0) EvidenceOrigin.Live;
             sample 2 35 (lane_dimension 1) EvidenceOrigin.Recovered].
Definition all_recovered : ClassifierContext :=
  context 2 [sample 1 35 (lane_dimension 0) EvidenceOrigin.Recovered;
             sample 2 35 (lane_dimension 1) EvidenceOrigin.Recovered].
Definition whole_link : ClassifierContext := context 0 [sample 1 20 aggregate_dimension EvidenceOrigin.Live].
End ClassifierExamples.

Import ClassifierExamples.

(** ** Theorems *)

(** C1: No assessment of a link report states Healthy, Marginal, Degraded,
    Severe or Conflicting unless some stream of that very link and metric, whose
    source has declared the metric, holds a record received live by this process
    incarnation and no older than its validity window. *)
Theorem asserted_quality_rests_on_fresh_evidence (CC : Charconv) (LD : LongDouble) cx query a :
  In a (rep_metrics (classify_link cx query)) -> asserts_nothing (as_state a) = false ->
  exists lane,
    fresh_in cx (qq_link query) (as_metric a) lane
      (mv_declared_by (view_or_standalone (pgr_document (cx_policy cx))
         (CapabilityRegistry.view_for_link (cx_capabilities cx) (qq_link query)) (as_metric a))).
Proof.
  destruct (classify_link_metrics cx query) as [[E _] | [_ E]]; simpl in E; rewrite E; [done|].
  intros Ha Hs. apply in_map_iff in Ha as (m & <- & _). rewrite assess_metric_metric. by apply assess_metric_fresh.
Qed.

Lemma asserted_quality_rests_on_fresh_evidence_witness :
  exists lane, fresh_in whole_link link snr lane
    (mv_declared_by (view_or_standalone DefaultPolicy.default_policy_document
       (CapabilityRegistry.view_for_link (capabilities 0) link) snr)).
Proof.
  apply (asserted_quality_rests_on_fresh_evidence fixed_charconv ld whole_link query
    (hd (assess_metric whole_link query [] snr) (rep_metrics (classify_link whole_link query)))).
  - vm_compute. left. reflexivity.
  - vm_compute. reflexivity.
Defined.

Lemma classify_nothing_live (CC : Charconv) (LD : LongDouble) cx query :
  nothing_live cx ->
  asserts_nothing (rep_overall (classify_link cx query)) = true /\
  Forall (fun a => asserts_nothing (as_state a) = true) (rep_metrics (classify_link cx query)).
Proof.
  intros Hn.
  assert (Forall (fun a => asserts_nothing (as_state a) = true) (rep_metrics (classify_link cx query))) as Hall.
  { destruct (classify_link_metrics cx query) as [[E _] | [_ E]]; simpl in E; rewrite E; [constructor|].
    apply Forall_map, Forall_true. intros. by apply assess_metric_nothing_live. }
  split; [|done].
  destruct (classify_link_metrics cx query) as [[_ ->] | [Hne E]]; [done|]. simpl in E.
  assert (rep_metrics (classify_link cx query) <> []) as Hm by (rewrite E; by destruct (resolve_metrics _ _)).
  destruct (classify_link_overall cx query Hm) as [-> _].
  destruct (existsb _ _) eqn:Ex; simpl.
  - apply existsb_exists in Ex as (a & Ha & Hs). apply eqb_true in Hs.
    rewrite List.Forall_forall in Hall. specialize (Hall a Ha). by rewrite Hs in Hall.
  - pose proof (overall_of_In (ap_severity (pd_aggregation (pgr_document (cx_policy cx)))) _ Hm) as Ho.
    apply in_map_iff in Ho as (a & <- & Ha). rewrite List.Forall_forall in Hall. auto.
Qed.

(** C23: After a restart nothing is healthy until it is observed again.  When no
    stored record was received live by this incarnation, the report of every
    link, and each of its assessments, asserts nothing: the overall state is
    Unknown, Unsupported, Stale or Incomplete, whatever the recovered values
    say. *)
Theorem recovered_evidence_never_asserts (CC : Charconv) (LD : LongDouble) cx query :
  nothing_live cx ->
  asserts_nothing (rep_overall (classify_link cx query)) = true /\
  Forall (fun a => asserts_nothing (as_state a) = true) (rep_metrics (classify_link cx query)).
Proof. apply classify_nothing_live. Qed.

Lemma recovered_evidence_never_asserts_witness :
  rep_overall (classify_link all_recovered query) = QualityState.Stale /\
  asserts_nothing (rep_overall (classify_link all_recovered query)) = true.
Proof.
  split; [vm_compute; reflexivity|].
  apply (recovered_evidence_never_asserts fixed_charconv ld all_recovered query).
  intros stream r Hs Hr. vm_compute in Hs. left.
  destruct Hs as [<- | [<- | []]]; destruct Hr as [[<- | []] | [= <-]]; vm_compute; discriminate.
Defined.

(** C26: The roll-up over lanes never hides a lane.  The aggregate is at least as
    severe as every lane; its confidence is at most that of every lane; the
    missing lanes are exactly the lanes assessed Unknown or Unsupported, and as
    soon as there is one the aggregate is at least as severe as Incomplete.
    Under the default severities a Healthy aggregate means that every declared
    lane is Healthy. *)
Theorem aggregate_never_hides_a_lane (CC : Charconv) (LD : LongDouble) cx link metric view lanes query :
  lanes <> [] ->
  let severity := ap_severity (pd_aggregation (pgr_document (cx_policy cx))) in
  let at_lane lane := assess_lane cx link metric (lane_dimension lane) view query in
  let g := aggregate_lanes cx link metric view lanes query in
  (forall lane, In lane lanes ->
     severity_of severity (as_state (at_lane lane)) <= severity_of severity (as_state g) /\
     enum_val (as_confidence g) <= enum_val (as_confidence (at_lane lane))) /\
  as_missing_lanes g = List.filter (fun lane => lane_is_missing (at_lane lane)) lanes /\
  (as_missing_lanes g <> [] ->
     severity_of severity QualityState.Incomplete <= severity_of severity (as_state g)) /\
  (severity = severity_defaults -> as_state g = QualityState.Healthy ->
     forall lane, In lane lanes -> as_state (at_lane lane) = QualityState.Healthy).
Proof.
  destruct lanes as [|lane lanes]; [done|]. intros _ severity at_lane g.
  destruct (combine_lanes_spec severity metric (view_supported view) (qq_max_evidence_per_metric query)
    (at_lane lane) (map at_lane (lane :: lanes))) as (_ & H1 & H2 & H3 & H4); [by left|].
  assert (forall l, In l (lane :: lanes) ->
     severity_of severity (as_state (at_lane l)) <= severity_of severity (as_state g)) as Hsev
    by (intros l Hl; by apply (H1 (at_lane l)), in_map).
  split_and!.
  - intros l Hl. split; [by apply Hsev|]. by apply (H4 (at_lane l)), in_map.
  - transitivity (map (fun a => ld_lane (as_lane a)) (List.filter lane_is_missing (map at_lane (lane :: lanes))));
      [done|]. clear. induction (lane :: lanes) as [|x l IH]; [done|]. cbn [map List.filter].
    destruct (lane_is_missing (at_lane x)); [|done]. cbn [map]. rewrite IH. unfold at_lane at 1.
    by rewrite assess_lane_lane.
  - exact H3.
  - intros Es Hg l Hl. specialize (Hsev l Hl).
    destruct (lane_is_missing (at_lane l)) eqn:Em.
    + assert (as_missing_lanes g <> []) as Hne.
      { intros E. change (as_missing_lanes g = map (fun a => ld_lane (as_lane a))
          (List.filter lane_is_missing (map at_lane (lane :: lanes)))) in H2.
        rewrite E in H2. symmetry in H2. apply map_eq_nil in H2.
        assert (In (at_lane l) (List.filter lane_is_missing (map at_lane (lane :: lanes)))) as Hi
          by (apply filter_In; split; [by apply in_map|done]). by rewrite H2 in Hi. }
      specialize (H3 Hne : severity_of severity _ <= severity_of severity (as_state g)).
      rewrite Hg, Es in H3. by vm_compute in H3.
    + rewrite Hg, Es in Hsev. unfold lane_is_missing in Em.
      destruct (as_state (at_lane l)); vm_compute in Hsev, Em; done.
Qed.

Lemma aggregate_never_hides_a_lane_witness :
  let view := view_or_standalone DefaultPolicy.default_policy_document
    (CapabilityRegistry.view_for_link (capabilities 2) link) snr in
  as_state (aggregate_lanes one_lane_live link snr view [0; 1] query) = QualityState.Stale /\
  severity_of severity_defaults (as_state (assess_lane one_lane_live link snr (lane_dimension 1) view query))
    <= severity_of severity_defaults (as_state (aggregate_lanes one_lane_live link snr view [0; 1] query)).
Proof.
  split; [vm_compute; reflexivity|].
  assert ([0; 1] <> []) as Hl by discriminate.
  destruct (aggregate_never_hides_a_lane fixed_charconv ld one_lane_live link snr
    (view_or_standalone DefaultPolicy.default_policy_document
      (CapabilityRegistry.view_for_link (capabilities 2) link) snr) [0; 1] query Hl) as [H _].
  apply (H 1). right. left. reflexivity.
Defined.

(** The overall state of a report is its worst metric.  A conflict
    dominates when the policy says so; otherwise the overall state is the state
    of one of the metrics and at least as severe as each of them, and the
    overall confidence is at most that of each metric. *)
Theorem overall_is_the_worst_metric (CC : Charconv) (LD : LongDouble) cx query :
  let r := classify_link cx query in
  let aggregation := pd_aggregation (pgr_document (cx_policy cx)) in
  let severity := ap_severity aggregation in
  rep_metrics r <> [] ->
  (ap_conflicting_dominates aggregation = true ->
     (exists a, In a (rep_metrics r) /\ as_state a = QualityState.Conflicting) ->
     rep_overall r = QualityState.Conflicting /\ rep_confidence r = ConfidenceLevel.Low) /\
  (rep_overall r <> QualityState.Conflicting ->
     In (rep_overall r) (map as_state (rep_metrics r)) /\
     forall a, In a (rep_metrics r) ->
       severity_of severity (as_state a) <= severity_of severity (rep_overall r) /\
       enum_val (rep_confidence r) <= enum_val (as_confidence a)).
Proof.
  intros r aggregation severity Hm. destruct (classify_link_overall cx query Hm) as [Eo Ec].
  fold r aggregation severity in Eo, Ec.
  set (dominated := existsb _ _ && _) in *. split.
  - intros Hd (a & Ha & Hs). assert (dominated = true) as Hdom.
    { unfold dominated. rewrite Hd, andb_true_r. apply existsb_exists. exists a. split; [done|].
      rewrite Hs. by vm_compute. }
    by rewrite Eo, Ec, Hdom.
  - destruct dominated eqn:Hdom; [done|]. rewrite Eo, Ec. intros _. split; [by apply overall_of_In|].
    intros a Ha. split; [|by apply overall_confidence_le].
    destruct (rep_metrics r) as [|b l] eqn:Er; [done|]. rewrite overall_worst. apply worst_of_ge.
    destruct Ha as [-> | Ha]; [by left|right; by apply in_map].
Qed.

Lemma overall_is_the_worst_metric_witness :
  rep_overall (classify_link whole_link query) = QualityState.Marginal /\
  In (rep_overall (classify_link whole_link query)) (map as_state (rep_metrics (classify_link whole_link query))).
Proof.
  split; [vm_compute; reflexivity|].
  assert (rep_metrics (classify_link whole_link query) <> []) as Hm by (vm_compute; discriminate).
  destruct (overall_is_the_worst_metric fixed_charconv ld whole_link query Hm) as [_ H].
  assert (rep_overall (classify_link whole_link query) <> QualityState.Conflicting) as Hc
    by (vm_compute; discriminate).
  exact (proj1 (H Hc)).
Defined.

(** C27: A lane that asserts something is explained.  Either the value of a
    candidate no other candidate outranks lies in the band of the policy's rule
    whose state and id are reported, and the least and the greatest value among
    the candidates of that authority, when there are several, lie within the
    rule's tolerance of each other; or the state is Conflicting, and at least
    two candidates of the top authority have their least and greatest value
    further apart than the tolerance, which is the disagreement reported.  (The
    comparison of values is for candidates none of which is NaN; observations
    that pass validation are finite.) *)
Theorem asserted_lane_is_explained (CC : Charconv) (LD : LongDouble) cx link metric lane view query :
  let a := assess_lane cx link metric lane view query in
  let l := lc_candidates (collect_lane cx link metric lane (mv_declared_by view)
             (qq_max_evidence_per_metric query)) in
  asserts_nothing (as_state a) = false -> follows_band (cx_policy cx) l a \/ reports_conflict (cx_policy cx) l a.
Proof.
  intros a l. unfold a, assess_lane. destruct (negb (view_supported view)); [by intros [=]|]. cbv zeta.
  destruct (negb (lc_has_evidence _)); [by intros [=]|]. destruct (is_nil (lc_candidates _)).
  - destruct (negb (lc_has_fresh_reading _)); by intros [=].
  - apply assess_candidates_explained.
Qed.

Lemma asserted_lane_is_explained_witness :
  let view := view_or_standalone DefaultPolicy.default_policy_document
    (CapabilityRegistry.view_for_link (capabilities 0) link) snr in
  let a := assess_lane whole_link link snr aggregate_dimension view query in
  let l := lc_candidates (collect_lane whole_link link snr aggregate_dimension (mv_declared_by view) 8) in
  follows_band policy l a \/ reports_conflict policy l a.
Proof.
  apply (asserted_lane_is_explained fixed_charconv ld whole_link link snr aggregate_dimension
    (view_or_standalone DefaultPolicy.default_policy_document
      (CapabilityRegistry.view_for_link (capabilities 0) link) snr) query).
  vm_compute. reflexivity.
Defined.

(** Lower authority is ignored.  Dropping every candidate below the top
    authority leaves the state, the value, the confidence, the matched rule and
    the disagreement of the assessment as they were. *)
Theorem lower_authority_never_decides (CC : Charconv) (LD : LongDouble) policy metric lane view validity lc :
  Forall (fun c => 0 <= cand_authority c) (lc_candidates lc) ->
  let top := List.filter (fun c => cand_authority c =? best_authority (lc_candidates lc)) (lc_candidates lc) in
  let a := assess_candidates policy metric lane view validity lc in
  let b := assess_candidates policy metric lane view validity (with_candidates lc top) in
  as_state a = as_state b /\ as_value a = as_value b /\ as_confidence a = as_confidence b /\
  as_rules a = as_rules b /\ as_disagreement a = as_disagreement b.
Proof. apply assess_candidates_filter. Qed.

Definition two_ranks : LaneContext :=
  with_candidates empty_lane_context
    (map (fun p => mkCandidate
            (reference_of (mkEvidenceRecord (ad_observation (sample 1 p.1 aggregate_dimension EvidenceOrigin.Live))
               (mkReceiveStamp 1000 1000 1) 1 EvidenceOrigin.Live) true 0)
            (d_of_Z p.1) p.2 probe) [(35, 2); (1, 1)]).

Lemma lower_authority_never_decides_witness :
  as_state (assess_candidates policy snr aggregate_dimension (mkMetricCapabilityView snr [] []) 0 two_ranks)
  = QualityState.Healthy.
Proof.
  destruct (lower_authority_never_decides fixed_charconv ld policy snr aggregate_dimension
    (mkMetricCapabilityView snr [] []) 0 two_ranks) as [E _].
  - repeat constructor; vm_compute; discriminate.
  - rewrite E. vm_compute. reflexivity.
Defined.

(** The freshness report loses the age of the newest evidence: every entry
    with fresh evidence reports a newest age of 0, however old that evidence is,
    because the running minimum starts at 0. *)
Theorem newest_age_is_always_zero (CC : Charconv) (LD : LongDouble) cx filter f :
  In f (ir_freshness (inspect_fabric cx filter)) -> fe_has_fresh_evidence f = true ->
  fe_newest_age_nanos f = 0.
Proof.
  intros Hin. pose proof (inspect_fabric_ages cx filter) as Ha. rewrite List.Forall_forall in Ha. by apply Ha.
Qed.

Definition first_entry : FreshnessEntry :=
  hd (mkFreshnessEntry link snr aggregate_dimension 0 0 0 0 0 false)
    (ir_freshness (inspect_fabric whole_link (mkInspectionFilter None None 16 16))).

Lemma newest_age_is_always_zero_witness :
  map ref_age_nanos (all_evidence (rep_metrics (classify_link whole_link query))) = [1000] /\
  fe_newest_age_nanos first_entry = 0.
Proof.
  split; [vm_compute; reflexivity|].
  apply (newest_age_is_always_zero fixed_charconv ld whole_link (mkInspectionFilter None None 16 16)).
  - vm_compute. left. reflexivity.
  - vm_compute. reflexivity.
Defined.
