(* ===== verification/Journal.v ===== *)
(** * The journal: file format, reader and background writer

    [persist/journal.*].  A file is the list of its bytes; a stream opened on it
    has a position.  Calls that can fail at the operating system (probing for a
    file, opening, removing, reading the header, a short write, seeking, [fsync],
    [rename]) take their result from a record of faults, so every error path is a
    value; the reads of [next] never fail below the end of the file.  [RecoveryReport::detail] is diagnostic text and is left out. *)

From Stdlib Require Import ZArith Lia Bool List String Ascii.
From stdpp Require Import base decidable list strings.
From S2P Require Import Prelude OrdMap Core Hash Quality Config Codec.

Open Scope Z_scope.

(** ** Records *)

Module JournalRecordKind.
Inductive t := Capability | Policy | LinkObserved | LinkGenerationAdvanced | Evidence | Snapshot | DedupWindow.
End JournalRecordKind.

#[export] Instance JournalRecordKind_enum : Enum JournalRecordKind.t.
Proof.
  refine {| enum_val := fun k => match k with
      | JournalRecordKind.Capability => 1 | JournalRecordKind.Policy => 2
      | JournalRecordKind.LinkObserved => 3 | JournalRecordKind.LinkGenerationAdvanced => 4
      | JournalRecordKind.Evidence => 5 | JournalRecordKind.Snapshot => 6
      | JournalRecordKind.DedupWindow => 7 end;
    enum_all := [JournalRecordKind.Capability; JournalRecordKind.Policy; JournalRecordKind.LinkObserved;
      JournalRecordKind.LinkGenerationAdvanced; JournalRecordKind.Evidence; JournalRecordKind.Snapshot;
      JournalRecordKind.DedupWindow] |}; solve_enum.
Defined.
#[export] Instance JournalRecordKind_Cmp : Cmp JournalRecordKind.t := enum_cmp.

Definition kind_count : Z := 8.

Definition kind_to_string (kind : JournalRecordKind.t) : string :=
  match kind with
  | JournalRecordKind.Capability => "capability"
  | JournalRecordKind.Policy => "policy"
  | JournalRecordKind.LinkObserved => "link-observed"
  | JournalRecordKind.LinkGenerationAdvanced => "link-generation-advanced"
  | JournalRecordKind.Evidence => "evidence"
  | JournalRecordKind.Snapshot => "snapshot"
  | JournalRecordKind.DedupWindow => "dedup-window"
  end.

Definition parse_journal_record_kind (raw : Z) : Outcome JournalRecordKind.t :=
  if (raw =? 0) || (kind_count <=? raw) then Bad StatusCode.Protocol
  else match enum_of raw with Some k => Good k | None => Bad StatusCode.Protocol end.

Record JournalRecord := mkJournalRecord {
  jrec_kind : JournalRecordKind.t; jrec_ordinal : Z; jrec_body : list Z }.

Record RecoveryReport := mkRecoveryReport {
  rr_opened : bool; rr_header_valid : bool; rr_torn_tail : bool; rr_degraded : bool;
  rr_truncated_file : bool; rr_temp_discarded : bool; rr_snapshot_loaded : bool; rr_limit_reached : bool;
  rr_records_read : Z; rr_bytes_read : Z; rr_bytes_discarded : Z; rr_first_bad_offset : Z;
  rr_status : Status }.

Definition empty_report : RecoveryReport :=
  mkRecoveryReport false false false false false false false false 0 0 0 0 StatusCode.Ok.

(** ** The file format *)

(** Set by the build: [CMakeLists.txt]. *)
Definition LQF_JOURNAL_FORMAT_VERSION : Z := 1.

Definition kMagic : list Z := bytes_of_string "LQFJRNL1".
Definition kFileHeaderBytes : Z := 40.
Definition kRecordHeaderBytes : Z := 8.
Definition kRecordPrefixBytes : Z := 9.

Definition build_file_header (producer_epoch created_wall_nanos : Z) : list Z :=
  let head := kMagic ++ le_bytes 4 LQF_JOURNAL_FORMAT_VERSION ++ le_bytes 4 0 ++ le_bytes 8 producer_epoch
              ++ le_bytes 8 (wrap64 created_wall_nanos) in
  head ++ le_bytes 4 (crc32c head 0) ++ le_bytes 4 0.

(** The [n] bytes at [offset], or as many as there are. *)
Definition slice (offset n : Z) (bytes : list Z) : list Z :=
  take (Z.to_nat (Z.min n (zlen bytes))) (drop (Z.to_nat (Z.min offset (zlen bytes))) bytes).

Definition decode_u32 (offset : Z) (bytes : list Z) : Z := le_value (slice offset 4 bytes).
Definition decode_u64 (offset : Z) (bytes : list Z) : Z := le_value (slice offset 8 bytes).

Definition bytes_eqb (a b : list Z) : bool := bool_decide (a = b).

Definition validate_file_header (header : list Z) : Outcome Z :=
  if negb (zlen header =? kFileHeaderBytes) then Bad StatusCode.Corrupt
  else if negb (bytes_eqb (slice 0 8 header) kMagic) then Bad StatusCode.Corrupt
  else if negb (decode_u32 8 header =? LQF_JOURNAL_FORMAT_VERSION) then Bad StatusCode.Unsupported
  else if negb (decode_u32 32 header =? crc32c (slice 0 32 header) 0) then Bad StatusCode.Corrupt
  else Good (decode_u64 16 header).

Definition record_payload (record : JournalRecord) : list Z :=
  le_bytes 8 (jrec_ordinal record) ++ enum_val (jrec_kind record) :: jrec_body record.

Definition encode_record_bytes (record : JournalRecord) : list Z :=
  let payload := record_payload record in
  le_bytes 4 (zlen payload) ++ le_bytes 4 (crc32c payload 0) ++ payload.

(** ** Record bundles *)

Definition bundle_limits (max_bytes : Z) : CodecLimits := mkCodecLimits 1048576 1048576 max_bytes.

Definition put_record (L : CodecLimits) (record : JournalRecord) (w : Writer) : Writer :=
  put_bytes L (jrec_body record) (put_u8 L (enum_val (jrec_kind record)) (put_le 8 (jrec_ordinal record) w)).

(** The loop returns at the first record the writer refuses. *)
Fixpoint put_records (L : CodecLimits) (records : list JournalRecord) (w : Writer) : Writer :=
  match records with
  | [] => w
  | r :: rest => let w1 := put_record L r w in if ok (w_status w1) then put_records L rest w1 else w1
  end.

Definition encode_record_bundle (records : list JournalRecord) (max_bytes : Z) : Outcome (list Z) :=
  let L := bundle_limits max_bytes in
  if u32_max <? zlen records then Bad StatusCode.LimitExceeded
  else
    let w := put_records L records (put_le 4 (zlen records) empty_writer) in
    if ok (w_status w) then Good (w_buffer w) else Bad (w_status w).

Definition get_record (L : CodecLimits) (max_bytes : Z) (r : Reader) : Outcome (JournalRecord * Reader) :=
  match get_le 8 r with
  | (None, r1) => Bad (r_status r1)
  | (Some ordinal, r1) =>
      match get_u8 r1 with
      | (None, r2) => Bad (r_status r2)
      | (Some raw, r2) =>
          match parse_journal_record_kind raw with
          | Bad s => Bad s
          | Good kind =>
              match get_le 4 r2 with
              | (None, r3) => Bad (r_status r3)
              | (Some length, r3) =>
                  if max_bytes <? length then Bad StatusCode.LimitExceeded
                  else match get_bytes L length r3 with
                       | (None, r4) => Bad (r_status r4)
                       | (Some body, r4) => Good (mkJournalRecord kind ordinal body, r4)
                       end
              end
          end
      end
  end.

Fixpoint get_records (L : CodecLimits) (max_bytes : Z) (count : nat) (r : Reader)
  : Outcome (list JournalRecord * Reader) :=
  match count with
  | O => Good ([], r)
  | S n =>
      match get_record L max_bytes r with
      | Bad s => Bad s
      | Good (record, r1) =>
          match get_records L max_bytes n r1 with
          | Bad s => Bad s
          | Good (rest, r2) => Good (record :: rest, r2)
          end
      end
  end.

Definition decode_record_bundle (body : list Z) (max_records max_bytes : Z) : Outcome (list JournalRecord) :=
  let L := bundle_limits max_bytes in
  match get_le 4 (reader_of body) with
  | (None, r) => Bad (r_status r)
  | (Some count, r) =>
      if max_records <? count then Bad StatusCode.LimitExceeded
      else match get_records L max_bytes (Z.to_nat count) r with
           | Bad s => Bad s
           | Good (records, r') =>
               match r_rest r' with [] => Good records | _ :: _ => Bad StatusCode.Protocol end
           end
  end.

(** ** The file system the journal sees *)

(** The journal at [path] and the temporary at [path + ".tmp"]. *)
Record Disk := mkDisk { disk_main : option (list Z); disk_temp : option (list Z) }.

(** [fwrite] at [position]: overwrite, extending the file at its end. *)
Definition write_at (position : Z) (data content : list Z) : list Z :=
  take (Z.to_nat position) content ++ data ++ drop (Z.to_nat position + List.length data) content.

(** What a write that may be cut short leaves of its data: [None] is a complete
    write, [Some n] one that stops after [n] bytes. *)
Definition written_of (limit : option Z) (data : list Z) : list Z :=
  match limit with None => data | Some n => take (Z.to_nat n) data end.
Definition write_complete (limit : option Z) (data : list Z) : bool :=
  match limit with None => true | Some n => zlen data <=? n end.

(** The calls of the library by what the system answers.  [sync_ok] below is
    whether [sync_file] succeeds. *)
Definition sync_file (fflush_ok fsync_ok durable : bool) : Status :=
  if negb fflush_ok then StatusCode.Io
  else if negb durable then StatusCode.Ok
  else if negb fsync_ok then StatusCode.Io
  else StatusCode.Ok.

(** [rename] puts the temporary in the place of the journal, or changes nothing. *)
Definition replace_file_atomically (rename_ok : bool) (d : Disk) : Status * Disk :=
  if negb rename_ok then (StatusCode.Io, d) else (StatusCode.Ok, mkDisk (disk_temp d) None).

Definition remove_file (remove_ok : bool) (content : option (list Z)) : Status * option (list Z) :=
  if negb remove_ok then (StatusCode.Io, content) else (StatusCode.Ok, None).

(** [told]: what [ftell] answers at the end of the file, negative on failure. *)
Definition file_size_bytes (open_ok seek_ok : bool) (told : Z) (content : option (list Z)) : Outcome Z :=
  match content with
  | None => Bad StatusCode.NotFound
  | Some _ =>
      if negb open_ok then Bad StatusCode.NotFound
      else if negb seek_ok then Bad StatusCode.Io
      else if told <? 0 then Bad StatusCode.Io
      else Good (wrap64 told)
  end.

(** The results of the calls of [open] that can fail.  [fa_temp_seen] and
    [fa_main_seen]: the probe [file_exists] can open a file that is there.
    [fa_read]: how much of the header [fread] returns.  [fa_seek_ok] and
    [fa_tell_ok] are for the journal opened to append. *)
Record Faults := mkFaults {
  fa_temp_seen : bool; fa_main_seen : bool;
  fa_remove_ok : bool; fa_open_ok : bool; fa_read : option Z; fa_seek_ok : bool; fa_tell_ok : bool;
  fa_written : option Z; fa_sync_ok : bool }.

Definition no_faults : Faults := mkFaults true true true true None true true None true.

(** [file_exists] opens the file for reading; [seen] is whether that succeeds. *)
Definition file_exists (seen : bool) (content : option (list Z)) : bool :=
  match content with Some _ => seen | None => false end.

(** What a stream opened with "r+b" or "w+b" starts from. *)
Definition opened_content (existed : bool) (content : option (list Z)) : list Z :=
  if existed then match content with Some c => c | None => [] end else [].

(** ** JournalReader *)

Module JournalReader.
Record t := mk {
  content : option (list Z);   (* the bytes of the open file; [None]: [file_] is null *)
  position : Z;
  report : RecoveryReport;
  config : JournalConfig;
  last_good_offset : Z;
  have_ordinal : bool;
  expected_ordinal : Z;
  reached_end : bool;
}.

Definition next_ordinal (r : t) : Z := expected_ordinal r.

Definition with_report (r : t) (report : RecoveryReport) : t :=
  mk (content r) (position r) report (config r) (last_good_offset r) (have_ordinal r) (expected_ordinal r)
    (reached_end r).

(** The flags a refusal sets; the reading position no longer matters. *)
Definition stop_torn (r : t) : t :=
  let p := report r in
  mk (content r) (position r)
    (mkRecoveryReport (rr_opened p) (rr_header_valid p) true (rr_degraded p) (rr_truncated_file p)
       (rr_temp_discarded p) (rr_snapshot_loaded p) (rr_limit_reached p) (rr_records_read p)
       (rr_bytes_read p) (rr_bytes_discarded p) (last_good_offset r) (rr_status p))
    (config r) (last_good_offset r) (have_ordinal r) (expected_ordinal r) true.

Definition stop_degraded (r : t) : t :=
  let p := report r in
  mk (content r) (position r)
    (mkRecoveryReport (rr_opened p) (rr_header_valid p) (rr_torn_tail p) true (rr_truncated_file p)
       (rr_temp_discarded p) (rr_snapshot_loaded p) (rr_limit_reached p) (rr_records_read p)
       (rr_bytes_read p) (rr_bytes_discarded p) (last_good_offset r) (rr_status p))
    (config r) (last_good_offset r) (have_ordinal r) (expected_ordinal r) true.

Definition stop_limit (r : t) : t :=
  let p := report r in
  mk (content r) (position r)
    (mkRecoveryReport (rr_opened p) (rr_header_valid p) (rr_torn_tail p) (rr_degraded p)
       (rr_truncated_file p) (rr_temp_discarded p) (rr_snapshot_loaded p) true (rr_records_read p)
       (rr_bytes_read p) (rr_bytes_discarded p) (rr_first_bad_offset p) (rr_status p))
    (config r) (last_good_offset r) (have_ordinal r) (expected_ordinal r) true.

Definition stop_end (r : t) : t :=
  mk (content r) (position r) (report r) (config r) (last_good_offset r) (have_ordinal r)
    (expected_ordinal r) true.

(** [open]: the outcome, the reader and the disk it leaves. *)
Definition open (faults : Faults) (config : JournalConfig) (disk : Disk)
  : Outcome RecoveryReport * t * Disk :=
  let base discarded :=
    mkRecoveryReport false false false false false discarded false false 0 0 0 0 StatusCode.Ok in
  let opened discarded :=
    mkRecoveryReport true false false false false discarded false false 0 0 0 0 StatusCode.Ok in
  let valid discarded :=
    mkRecoveryReport true true false false false discarded false false 0 0 0 0 StatusCode.Ok in
  let state content p last ended := mk content 40 p config last false 0 ended in
  let discarded := file_exists (fa_temp_seen faults) (disk_temp disk) in
  let temp := if discarded then None else disk_temp disk in
  if discarded && negb (fa_remove_ok faults)
  then (Bad StatusCode.Io, state None (base true) 0 false, disk)
  else if negb (fa_open_ok faults)
  then (Bad StatusCode.Io, state None (base discarded) 0 false, mkDisk (disk_main disk) temp)
  else
    let existed := file_exists (fa_main_seen faults) (disk_main disk) in
    let c := opened_content existed (disk_main disk) in
    let header := written_of (fa_read faults) (take 40 c) in
    match header with
    | [] =>
        let fresh := build_file_header 0 0 in
        let c' := write_at 0 (written_of (fa_written faults) fresh) c in
        let disk' := mkDisk (Some c') temp in
        if negb (write_complete (fa_written faults) fresh)
        then (Bad StatusCode.Io, state (Some c') (opened discarded) 0 false, disk')
        else if negb (fa_sync_ok faults)
        then (Bad StatusCode.Io, state (Some c') (opened discarded) 0 false, disk')
        else (Good (valid discarded), state (Some c') (valid discarded) kFileHeaderBytes true, disk')
    | _ =>
        let disk' := mkDisk (Some c) temp in
        if zlen header <? kFileHeaderBytes
        then (Bad StatusCode.Corrupt,
              state (Some c)
                (mkRecoveryReport true false true false false discarded false false 0 0
                   (kFileHeaderBytes - zlen header) 0 StatusCode.Ok) 0 false, disk')
        else match validate_file_header header with
             | Bad s =>
                 (Bad s, state (Some c)
                    (mkRecoveryReport true false false false false discarded false false 0 0 0 0 s) 0 false, disk')
             | Good _ =>
                 (Good (valid discarded), state (Some c) (valid discarded) kFileHeaderBytes false, disk')
             end
    end.

(** The scan of one candidate offset of the buffer. *)
Definition intact_at (config : JournalConfig) (buffer : list Z) (offset : Z) : bool :=
  let length := decode_u32 offset buffer in
  let crc := decode_u32 (offset + 4) buffer in
  if (length <? kRecordPrefixBytes) || (jc_max_record_bytes config <? length) then false
  else if zlen buffer <? offset + kRecordHeaderBytes + length then false
  else crc32c (slice (offset + kRecordHeaderBytes) length buffer) 0 =? crc.

(** The reads are of 65536 bytes while fewer than the limit have been read. *)
Definition scan_bytes (config : JournalConfig) : Z :=
  (jc_max_recovery_bytes config + 65535) / 65536 * 65536.

Definition intact_record_follows (r : t) (from_offset : Z) : bool :=
  match content r with
  | None => false
  | Some c =>
      if from_offset <? 0 then false
      else
        let buffer := slice from_offset (scan_bytes (config r)) c in
        if zlen buffer <? kRecordHeaderBytes then false
        else existsb (fun i => intact_at (config r) buffer (Z.of_nat i))
               (seq 0 (List.length buffer - 7))
  end.

Definition accept (r : t) (payload_length : Z) (record : JournalRecord) : t :=
  let p := report r in
  let bytes := kRecordHeaderBytes + payload_length in
  mk (content r) (position r + bytes)
    (mkRecoveryReport (rr_opened p) (rr_header_valid p) (rr_torn_tail p) (rr_degraded p)
       (rr_truncated_file p) (rr_temp_discarded p)
       (rr_snapshot_loaded p || eqb (jrec_kind record) JournalRecordKind.Snapshot) (rr_limit_reached p)
       (incr64 (rr_records_read p)) (wrap64 (rr_bytes_read p + bytes)) (rr_bytes_discarded p)
       (rr_first_bad_offset p) (rr_status p))
    (config r) (last_good_offset r + bytes) true (wrap64 (jrec_ordinal record + 1)) (reached_end r).

(** [next]: [Good None] is the [false] that ends the replay. *)
Definition next (r : t) : Outcome (option JournalRecord) * t :=
  match content r with
  | None => (Bad StatusCode.Unavailable, r)
  | Some c =>
      if reached_end r then (Good None, r)
      else if (jc_max_recovery_records (config r) <=? rr_records_read (report r))
           || (jc_max_recovery_bytes (config r) <=? rr_bytes_read (report r))
      then (Good None, stop_limit r)
      else
        let header := slice (position r) kRecordHeaderBytes c in
        if zlen header =? 0 then (Good None, stop_end r)
        else if zlen header <? kRecordHeaderBytes then (Good None, stop_torn r)
        else
          let payload_length := decode_u32 0 header in
          let expected_crc := decode_u32 4 header in
          if (payload_length <? kRecordPrefixBytes) || (jc_max_record_bytes (config r) <? payload_length)
          then (Good None, stop_torn r)
          else
            let payload := slice (position r + kRecordHeaderBytes) payload_length c in
            if zlen payload <? payload_length then (Good None, stop_torn r)
            else if negb (crc32c payload 0 =? expected_crc)
            then (Good None,
                  if intact_record_follows r (last_good_offset r + kRecordHeaderBytes)
                  then stop_degraded r else stop_torn r)
            else
              let ordinal := decode_u64 0 payload in
              match parse_journal_record_kind (nth 8 payload 0) with
              | Bad _ => (Good None, stop_degraded r)
              | Good kind =>
                  if have_ordinal r && (ordinal <=? wrap64 (expected_ordinal r - 1))
                  then (Good None, stop_degraded r)
                  else if have_ordinal r && negb (ordinal =? expected_ordinal r)
                  then (Good None, stop_degraded r)
                  else
                    let record := mkJournalRecord kind ordinal (drop 9 payload) in
                    (Good (Some record), accept r payload_length record)
              end
  end.

(** [close]: the stream is given up; the report stays. *)
Definition close (r : t) : t :=
  mk None (position r) (report r) (config r) (last_good_offset r) (have_ordinal r) (expected_ordinal r)
    (reached_end r).

(** [repair_torn_tail]: truncation to the last verified record. *)
Definition repair_torn_tail (truncate_ok sync_ok : bool) (r : t) : Status * t :=
  match content r with
  | None => (StatusCode.Unavailable, r)
  | Some c =>
      if negb (rr_torn_tail (report r)) then (StatusCode.Refused, r)
      else if negb truncate_ok then (StatusCode.Io, r)
      else
        let c' := take (Z.to_nat (last_good_offset r)) c in
        let r' p := mk (Some c') (position r) p (config r) (last_good_offset r) (have_ordinal r)
          (expected_ordinal r) (reached_end r) in
        if negb sync_ok then (StatusCode.Io, r' (report r))
        else
          let p := report r in
          (StatusCode.Ok,
           r' (mkRecoveryReport (rr_opened p) (rr_header_valid p) (rr_torn_tail p) (rr_degraded p) true
                 (rr_temp_discarded p) (rr_snapshot_loaded p) (rr_limit_reached p) (rr_records_read p)
                 (rr_bytes_read p) (Z.max 0 (zlen c - last_good_offset r)) (rr_first_bad_offset p)
                 (rr_status p)))
  end.

(** The replay loop of a caller: read until [next] ends it. *)
Fixpoint read_all (fuel : nat) (r : t) : list JournalRecord * t :=
  match fuel with
  | O => ([], r)
  | S n =>
      match next r with
      | (Good (Some record), r1) => let '(rest, r2) := read_all n r1 in (record :: rest, r2)
      | (_, r1) => ([], r1)
      end
  end.
End JournalReader.

(** ** BackgroundJournal

    One mutex guards the queue and the flags; the writer thread pops a record
    under it, writes the record outside it and records the result under it
    again.  The writer is therefore two operations, between which [append] may
    run.  [flush], [compact] and [stop] wait for a condition: they return [None]
    while it does not hold.  [compact] holds the compaction lock exclusively and
    [append] and [flush] share it, so compaction is one operation. *)

Record JournalStats := mkJournalStats {
  js_open : bool; js_records_written : Z; js_records_dropped : Z; js_bytes_written : Z; js_flushes : Z;
  js_compactions : Z; js_queue_depth : Z; js_queue_high_water : Z; js_rejected_appends : Z }.

Definition empty_stats : JournalStats := mkJournalStats false 0 0 0 0 0 0 0 0.

(** The results of the calls of [compact] that can fail. *)
Record CompactFaults := mkCompactFaults {
  cf_temp_open_ok : bool; cf_header_written : option Z; cf_snapshot_written : option Z;
  cf_sync_ok : bool; cf_rename_ok : bool; cf_reopen_ok : bool; cf_retry_ok : bool }.

Definition compact_ok : CompactFaults := mkCompactFaults true None None true true true true.

Module BackgroundJournal.
Record t := mk {
  config : JournalConfig;
  disk : Disk;
  file : option Z;                    (* the position of [file_]; [None]: null *)
  queue : list JournalRecord;
  writing : option JournalRecord;     (* [writing_], with the record popped *)
  is_open : bool;
  stopping : bool;
  accepting : bool;
  failed : bool;
  failure : Status;
  stats : JournalStats;
  last_ordinal_written : Z;
  expected_ordinal : Z;
  has_expected_ordinal : bool;
  last_enqueued_ordinal : Z;
  has_enqueued_ordinal : bool;
  joinable : bool;                    (* the writer thread has not been joined *)
}.

Definition create (config : JournalConfig) (disk : Disk) : t :=
  mk config disk None [] None false false false false StatusCode.Ok empty_stats 0 0 false 0 false false.

Definition with_stats (j : t) (s : JournalStats) : t :=
  mk (config j) (disk j) (file j) (queue j) (writing j) (is_open j) (stopping j) (accepting j) (failed j)
    (failure j) s (last_ordinal_written j) (expected_ordinal j) (has_expected_ordinal j)
    (last_enqueued_ordinal j) (has_enqueued_ordinal j) (joinable j).

Definition with_file (j : t) (d : Disk) (f : option Z) : t :=
  mk (config j) d f (queue j) (writing j) (is_open j) (stopping j) (accepting j) (failed j)
    (failure j) (stats j) (last_ordinal_written j) (expected_ordinal j) (has_expected_ordinal j)
    (last_enqueued_ordinal j) (has_enqueued_ordinal j) (joinable j).

Definition content_of (d : Disk) : list Z := match disk_main d with Some c => c | None => [] end.

Definition open (faults : Faults) (epoch wall_nanos : Z) (j : t) : Status * t :=
  if negb (jc_enabled (config j)) then (StatusCode.Refused, j)
  else if is_open j then (StatusCode.Busy, j)
  else
    let leftover := file_exists (fa_temp_seen faults) (disk_temp (disk j)) in
    let temp := if leftover then None else disk_temp (disk j) in
    if leftover && negb (fa_remove_ok faults) then (StatusCode.Io, j)
    else if negb (fa_open_ok faults) then (StatusCode.Io, with_file j (mkDisk (disk_main (disk j)) temp) None)
    else
      let c := opened_content (file_exists (fa_main_seen faults) (disk_main (disk j))) (disk_main (disk j)) in
      let start := if fa_seek_ok faults then zlen c else 0 in
      let position := if fa_tell_ok faults then start else -1 in
      let opened d position :=
        mk (config j) d (Some position) (queue j) (writing j) true false true false StatusCode.Ok
          (let s := stats j in
           mkJournalStats true (js_records_written s) (js_records_dropped s) (js_bytes_written s)
             (js_flushes s) (js_compactions s) (js_queue_depth s) (js_queue_high_water s)
             (js_rejected_appends s))
          (last_ordinal_written j) (expected_ordinal j) (has_expected_ordinal j)
          (last_enqueued_ordinal j) (has_enqueued_ordinal j) true in
      if position <=? 0 then
        let header := build_file_header epoch wall_nanos in
        let d' := mkDisk (Some (write_at start (written_of (fa_written faults) header) c)) temp in
        if negb (write_complete (fa_written faults) header) then (StatusCode.Io, with_file j d' None)
        else if negb (fa_sync_ok faults) then (StatusCode.Io, with_file j d' None)
        else (StatusCode.Ok, opened d' (start + zlen header))
      else (StatusCode.Ok, opened (mkDisk (Some c) temp) start).

Definition has_capacity (j : t) : bool :=
  jc_enabled (config j) && (is_open j && accepting j && negb (failed j)
    && (zlen (queue j) <? jc_max_queue_depth (config j))).

(** [stats]: the counters, with the queue as it is now. *)
Definition stats_now (j : t) : JournalStats :=
  let s := stats j in
  mkJournalStats (js_open s) (js_records_written s) (js_records_dropped s) (js_bytes_written s) (js_flushes s)
    (js_compactions s) (zlen (queue j)) (js_queue_high_water s) (js_rejected_appends s).

(** The size of the file by its name, 0 when it cannot be read. *)
Definition journal_file_size (open_ok seek_ok : bool) (told : Z) (j : t) : Z :=
  match file_size_bytes open_ok seek_ok told (disk_main (disk j)) with Good size => size | Bad _ => 0 end.

Definition append (kind : JournalRecordKind.t) (ordinal : Z) (body : list Z) (j : t) : Status * t :=
  if negb (jc_enabled (config j)) then (StatusCode.Refused, j)
  else if jc_max_record_bytes (config j) <? zlen body then (StatusCode.LimitExceeded, j)
  else if negb (is_open j) || negb (accepting j) then (StatusCode.Unavailable, j)
  else if failed j then (failure j, j)
  else
    let s := stats j in
    if jc_max_queue_depth (config j) <=? zlen (queue j) then
      (StatusCode.Busy,
       with_stats j (mkJournalStats (js_open s) (js_records_written s) (js_records_dropped s)
         (js_bytes_written s) (js_flushes s) (js_compactions s) (js_queue_depth s) (js_queue_high_water s)
         (incr64 (js_rejected_appends s))))
    else if has_enqueued_ordinal j && negb (ordinal =? wrap64 (last_enqueued_ordinal j + 1))
    then (StatusCode.Internal, j)
    else
      let queue' := queue j ++ [mkJournalRecord kind ordinal body] in
      (StatusCode.Ok,
       mk (config j) (disk j) (file j) queue' (writing j) (is_open j) (stopping j) (accepting j) (failed j)
         (failure j)
         (mkJournalStats (js_open s) (js_records_written s) (js_records_dropped s) (js_bytes_written s)
            (js_flushes s) (js_compactions s) (zlen queue') (Z.max (js_queue_high_water s) (zlen queue'))
            (js_rejected_appends s))
         (last_ordinal_written j) (expected_ordinal j) (has_expected_ordinal j) ordinal true (joinable j)).

(** The first critical section of the writer: take the front of the queue. *)
Definition writer_pop (j : t) : option t :=
  match writing j, queue j with
  | None, record :: rest =>
      Some (mk (config j) (disk j) (file j) rest (Some record) (is_open j) (stopping j) (accepting j)
        (failed j) (failure j) (stats j) (last_ordinal_written j) (expected_ordinal j)
        (has_expected_ordinal j) (last_enqueued_ordinal j) (has_enqueued_ordinal j) (joinable j))
  | _, _ => None
  end.

Definition written (j : t) (record : JournalRecord) (d : Disk) (f : option Z) : t :=
  let s := stats j in
  mk (config j) d f (queue j) None (is_open j) (stopping j) (accepting j) (failed j) (failure j)
    (mkJournalStats (js_open s) (incr64 (js_records_written s)) (js_records_dropped s)
       (wrap64 (js_bytes_written s + (kRecordHeaderBytes + kRecordPrefixBytes + zlen (jrec_body record))))
       (js_flushes s) (js_compactions s) (zlen (queue j)) (js_queue_high_water s) (js_rejected_appends s))
    (jrec_ordinal record) (wrap64 (jrec_ordinal record + 1)) true
    (last_enqueued_ordinal j) (has_enqueued_ordinal j) (joinable j).

Definition write_failed (j : t) (code : Status) (d : Disk) (f : option Z) : t :=
  let s := stats j in
  mk (config j) d f [] None (is_open j) (stopping j) (accepting j) true code
    (mkJournalStats (js_open s) (js_records_written s) (wrap64 (js_records_dropped s + zlen (queue j)))
       (js_bytes_written s) (js_flushes s) (js_compactions s) 0 (js_queue_high_water s)
       (js_rejected_appends s))
    (last_ordinal_written j) (expected_ordinal j) (has_expected_ordinal j)
    (last_enqueued_ordinal j) (has_enqueued_ordinal j) (joinable j).

(** The write outside the lock and the second critical section. *)
Definition writer_write (limit : option Z) (j : t) : option t :=
  match writing j with
  | None => None
  | Some record =>
      match file j with
      | None => Some (write_failed j StatusCode.Unavailable (disk j) None)
      | Some position =>
          let encoded := encode_record_bytes record in
          let data := written_of limit encoded in
          let d := mkDisk (Some (write_at position data (content_of (disk j)))) (disk_temp (disk j)) in
          let f := Some (position + zlen data) in
          if write_complete limit encoded then Some (written j record d f)
          else Some (write_failed j StatusCode.Io d f)
      end
  end.

Definition idle (j : t) : bool :=
  match queue j, writing j with [], None => true | _, _ => false end.

Definition flush (sync_ok : bool) (j : t) : option (Status * t) :=
  if negb (jc_enabled (config j)) then Some (StatusCode.Refused, j)
  else if negb (idle j || failed j || negb (is_open j)) then None
  else if negb (is_open j) then Some (StatusCode.Unavailable, j)
  else if failed j then Some (failure j, j)
  else
    let s := stats j in
    if match file j with Some _ => negb sync_ok | None => false end then
      Some (StatusCode.Io,
        mk (config j) (disk j) (file j) (queue j) (writing j) (is_open j) (stopping j) (accepting j) true
          StatusCode.Io s (last_ordinal_written j) (expected_ordinal j) (has_expected_ordinal j)
          (last_enqueued_ordinal j) (has_enqueued_ordinal j) (joinable j))
    else
      Some (StatusCode.Ok,
        with_stats j (mkJournalStats (js_open s) (js_records_written s) (js_records_dropped s)
          (js_bytes_written s) (incr64 (js_flushes s)) (js_compactions s) (js_queue_depth s)
          (js_queue_high_water s) (js_rejected_appends s))).

(** The temporary file: its status and its bytes. *)
Definition write_temporary (faults : CompactFaults) (snapshot : JournalRecord) : Status * option (list Z) :=
  if negb (cf_temp_open_ok faults) then (StatusCode.Io, None)
  else
    let header := build_file_header 0 0 in
    let h := written_of (cf_header_written faults) header in
    if negb (write_complete (cf_header_written faults) header) then (StatusCode.Io, Some h)
    else
      let encoded := encode_record_bytes snapshot in
      let c := h ++ written_of (cf_snapshot_written faults) encoded in
      if negb (write_complete (cf_snapshot_written faults) encoded) then (StatusCode.Io, Some c)
      else if negb (cf_sync_ok faults) then (StatusCode.Io, Some c)
      else (StatusCode.Ok, Some c).

(** The replacement: its status, the disk and the reopened position.  On
    success the stream is moved to the end; after a failure the journal is
    opened again and the stream left where [fopen] puts it, at the start. *)
Definition replace (faults : CompactFaults) (snapshot : JournalRecord) (d : Disk) : Status * Disk * option Z :=
  let '(status, temp) := write_temporary faults snapshot in
  let d1 := mkDisk (disk_main d) (match temp with Some _ => temp | None => disk_temp d end) in
  let retried := if cf_retry_ok faults then Some 0 else None in
  match status with
  | StatusCode.Ok =>
      if cf_rename_ok faults then
        let d2 := mkDisk temp None in
        if cf_reopen_ok faults then (StatusCode.Ok, d2, Some (zlen (content_of d2)))
        else (StatusCode.Io, d2, retried)
      else (StatusCode.Io, d1, retried)
  | s => (s, d1, retried)
  end.

Definition compact (faults : CompactFaults) (snapshot_ordinal : Z) (snapshot_body : list Z) (j : t)
  : option (Status * t) :=
  if negb (jc_enabled (config j)) then Some (StatusCode.Refused, j)
  else if jc_max_record_bytes (config j) <? zlen snapshot_body then Some (StatusCode.LimitExceeded, j)
  else if negb (idle j || failed j || negb (is_open j)) then None
  else if negb (is_open j) then Some (StatusCode.Unavailable, j)
  else if failed j then Some (failure j, j)
  else if has_expected_ordinal j && (wrap64 (snapshot_ordinal + 1) <? expected_ordinal j)
  then Some (StatusCode.Internal, j)
  else
    let snapshot := mkJournalRecord JournalRecordKind.Snapshot snapshot_ordinal snapshot_body in
    let s := stats j in
    match replace faults snapshot (disk j) with
    | (StatusCode.Ok, d, f) =>
        Some (StatusCode.Ok,
          mk (config j) d f (queue j) (writing j) (is_open j) (stopping j) (accepting j) (failed j) (failure j)
            (mkJournalStats (js_open s) (js_records_written s) (js_records_dropped s)
               (wrap64 (js_bytes_written s + (kFileHeaderBytes + kRecordHeaderBytes + kRecordPrefixBytes)))
               (js_flushes s) (incr64 (js_compactions s)) (zlen (queue j)) (js_queue_high_water s)
               (js_rejected_appends s))
            snapshot_ordinal (wrap64 (snapshot_ordinal + 1)) true snapshot_ordinal true (joinable j))
    | (code, d, Some position) =>
        Some (code,
          with_stats (with_file j d (Some position))
            (mkJournalStats (js_open s) (js_records_written s) (js_records_dropped s) (js_bytes_written s)
               (js_flushes s) (js_compactions s) (zlen (queue j)) (js_queue_high_water s)
               (js_rejected_appends s)))
    | (code, d, None) =>
        Some (code,
          mk (config j) d None (queue j) (writing j) false (stopping j) false true code
            (mkJournalStats false (js_records_written s) (js_records_dropped s) (js_bytes_written s)
               (js_flushes s) (js_compactions s) (zlen (queue j)) (js_queue_high_water s)
               (js_rejected_appends s))
            (last_ordinal_written j) (expected_ordinal j) (has_expected_ordinal j)
            (last_enqueued_ordinal j) (has_enqueued_ordinal j) (joinable j))
    end.

(** [stop] joins the writer, which first drains the queue and syncs the file;
    then [stop] syncs and closes it. *)
Definition stop (writer_sync_ok stop_sync_ok : bool) (j : t) : option (Status * t) :=
  if negb (idle j) then None
  else
    let has_file := match file j with Some _ => true | None => false end in
    let unsynced := joinable j && has_file && negb writer_sync_ok in
    let failed' := failed j || unsynced in
    let failure' := if unsynced then StatusCode.Io else failure j in
    let result := if failed' then failure' else StatusCode.Ok in
    let s := stats j in
    Some (if has_file && negb stop_sync_ok && ok result then StatusCode.Io else result,
      mk (config j) (disk j) None (queue j) (writing j) false (stopping j || is_open j || joinable j) false
        failed' failure'
        (mkJournalStats false (js_records_written s) (js_records_dropped s) (js_bytes_written s)
           (js_flushes s) (js_compactions s) (zlen (queue j)) (js_queue_high_water s)
           (js_rejected_appends s))
        (last_ordinal_written j) (expected_ordinal j) (has_expected_ordinal j)
        (last_enqueued_ordinal j) (has_enqueued_ordinal j) false).
End BackgroundJournal.
