(* ===== verification/JournalSpec.v ===== *)
(** * The journal: theorems

    Recovery returns exactly the records whose append completed, whatever the
    point at which an append was cut; corruption that intact records follow is
    reported and left alone; the background writer never reorders, duplicates or
    invents a record. *)

From Stdlib Require Import ZArith Lia Bool List String Ascii.
From stdpp Require Import base decidable list strings.
From S2P Require Import Prelude OrdMap Core Hash Quality Config Codec Journal.

Open Scope Z_scope.

#[local] Arguments enum_val : simpl never.
#[local] Arguments le_bytes : simpl never.
#[local] Arguments crc32c : simpl never.
#[local] Arguments slice : simpl never.
#[local] Arguments record_payload : simpl never.
#[local] Arguments encode_record_bytes : simpl never.
#[local] Arguments build_file_header : simpl never.

(** ** Bytes *)

Lemma land_255_byte v : is_byte (Z.land v 255).
Proof.
  unfold is_byte. change 255 with (Z.ones 8). rewrite Z.land_ones by lia. apply Z.mod_pos_bound. lia.
Qed.

Lemma le_bytes_are_bytes n v : Forall is_byte (le_bytes n v).
Proof.
  revert v. induction n as [|n IH]; intros v; [constructor|]. constructor; [apply land_255_byte|apply IH].
Qed.

Lemma byte_high b k : is_byte b -> 8 <= k -> Z.testbit b k = false.
Proof.
  intros Hb Hk. destruct (Z.eq_dec b 0) as [->|Hnz]; [apply Z.bits_0|].
  apply Z.bits_above_log2; [apply Hb|]. apply Z.lt_le_trans with 8; [|done].
  apply Z.log2_lt_pow2; [|apply Hb]. unfold is_byte in Hb. lia.
Qed.

Lemma lor_land_byte b x : is_byte b -> 0 <= x -> Z.land (Z.lor b (Z.shiftl x 8)) 255 = b.
Proof.
  intros Hb Hx. apply Z.bits_inj'. intros k Hk. rewrite Z.land_spec, Z.lor_spec.
  change 255 with (Z.ones 8). destruct (Z.lt_ge_cases k 8) as [Hlt|Hge].
  - rewrite Z.ones_spec_low, Z.shiftl_spec_low by lia. by rewrite orb_false_r, andb_true_r.
  - rewrite Z.ones_spec_high, andb_false_r by lia. symmetry. by apply byte_high.
Qed.

Lemma lor_shift_byte b x : is_byte b -> 0 <= x -> Z.shiftr (Z.lor b (Z.shiftl x 8)) 8 = x.
Proof.
  intros Hb Hx. rewrite Z.shiftr_lor. rewrite Z.shiftr_shiftl_l by lia. rewrite Z.shiftl_0_r.
  rewrite Z.shiftr_div_pow2 by lia. rewrite Z.div_small; [done|exact Hb].
Qed.

Lemma le_value_nonneg b : Forall is_byte b -> 0 <= le_value b.
Proof.
  induction 1 as [|x b Hx Hb IH]; cbn [le_value]; [done|]. apply Z.lor_nonneg. split; [apply Hx|].
  by apply Z.shiftl_nonneg.
Qed.

Lemma le_bytes_value b : Forall is_byte b -> le_bytes (List.length b) (le_value b) = b.
Proof.
  induction 1 as [|x b Hx Hb IH]; [done|]. cbn [List.length le_value]. unfold le_bytes. fold le_bytes.
  pose proof (le_value_nonneg b Hb) as Hn. rewrite lor_land_byte, lor_shift_byte by done. by rewrite IH.
Qed.

Lemma le_value_lt b : Forall is_byte b -> le_value b < 256 ^ Z.of_nat (List.length b).
Proof.
  induction 1 as [|x b Hx Hb IH]; cbn [le_value List.length]; [done|].
  pose proof (le_value_nonneg b Hb) as Hn. rewrite Nat2Z.inj_succ, Z.pow_succ_r by lia.
  assert (Z.lor x (Z.shiftl (le_value b) 8) = x + le_value b * 256) as ->.
  { assert (Z.land x (Z.shiftl (le_value b) 8) = 0) as Hl.
    { apply Z.bits_inj'. intros k Hk. rewrite Z.land_spec, Z.bits_0.
      destruct (Z.lt_ge_cases k 8) as [Hlt|Hge]; [rewrite (Z.shiftl_spec_low _ _ _ Hlt); apply andb_false_r|].
      rewrite (byte_high x k) by done. done. }
    rewrite <- (Z.lxor_lor _ _ Hl), <- (Z.add_nocarry_lxor _ _ Hl). by rewrite Z.shiftl_mul_pow2 by lia. }
  unfold is_byte in Hx. nia.
Qed.

Lemma table_bound : forallb (fun v => (0 <=? v) && (v <? 4294967296)) crc_table = true.
Proof. vm_compute. reflexivity. Qed.

Lemma lxor_bound a b n : 0 <= a < 2 ^ n -> 0 <= b < 2 ^ n -> 0 < n -> 0 <= Z.lxor a b < 2 ^ n.
Proof.
  intros Ha Hb Hn. assert (0 <= Z.lxor a b) as H0 by (apply Z.lxor_nonneg; lia). split; [done|].
  destruct (Z.eq_dec (Z.lxor a b) 0) as [->|Hnz]; [lia|].
  apply Z.log2_lt_pow2; [lia|]. pose proof (Z.log2_lxor a b ltac:(lia) ltac:(lia)) as Hl.
  assert (forall c, 0 <= c < 2 ^ n -> Z.log2 c < n) as Hlog.
  { intros c Hc. destruct (Z.eq_dec c 0) as [->|]; [simpl; lia|]. apply Z.log2_lt_pow2; lia. }
  pose proof (Hlog a Ha). pose proof (Hlog b Hb). lia.
Qed.

Lemma crc_update_bound crc byte : 0 <= crc < 2 ^ 32 -> 0 <= crc_update crc byte < 2 ^ 32.
Proof.
  intros Hc. unfold crc_update. apply lxor_bound; [| |lia].
  - pose proof table_bound as Ht. rewrite forallb_forall in Ht.
    destruct (nth_in_or_default (Z.to_nat (Z.land (Z.lxor crc byte) 255)) crc_table 0) as [Hi| ->]; [|lia].
    specialize (Ht _ Hi). breflect. lia.
  - rewrite Z.shiftr_div_pow2 by lia. split; [apply Z.div_pos; lia|]. apply Z.div_lt_upper_bound; lia.
Qed.

Lemma crc32c_bound data : 0 <= crc32c data 0 < 256 ^ Z.of_nat 4.
Proof.
  change (256 ^ Z.of_nat 4) with (2 ^ 32).
  unfold crc32c. assert (forall l c, 0 <= c < 2 ^ 32 -> 0 <= fold_left crc_update l c < 2 ^ 32) as Hf.
  { induction l as [|b l IH]; intros c Hc; simpl; [done|]. apply IH. by apply crc_update_bound. }
  unfold crc_not. apply lxor_bound; [apply Hf, lxor_bound; lia|lia|lia].
Qed.

(** ** Slices *)

Lemma slice_eq offset n b : slice offset n b = take (Z.to_nat n) (drop (Z.to_nat offset) b).
Proof.
  unfold slice, zlen. destruct (Z.le_gt_cases offset (Z.of_nat (List.length b))) as [Ho|Ho].
  - rewrite (Z.min_l offset) by done. destruct (Z.le_gt_cases n (Z.of_nat (List.length b))) as [Hn|Hn].
    + by rewrite Z.min_l.
    + rewrite Z.min_r by lia. rewrite !take_ge; [done| |]; rewrite length_drop; lia.
  - rewrite (Z.min_r offset) by lia. rewrite !drop_ge by lia. by rewrite !take_nil.
Qed.

Lemma slice_app offset n p q :
  zlen p = offset -> 0 <= n <= zlen q -> slice offset n (p ++ q) = take (Z.to_nat n) q.
Proof.
  intros <- Hn. rewrite slice_eq. unfold zlen in *. rewrite Nat2Z.id, drop_app_length. done.
Qed.

Lemma slice_mid offset n p q s :
  zlen p = offset -> zlen q = n -> slice offset n (p ++ q ++ s) = q.
Proof.
  intros Hp Hq. rewrite (slice_app _ _ p) by (try done; rewrite zlen_app; pose proof (zlen_nonneg q);
    pose proof (zlen_nonneg s); lia).
  unfold zlen in Hq. rewrite <- Hq, Nat2Z.id. apply take_app_length.
Qed.

Lemma slice_front n q s : zlen q = n -> slice 0 n (q ++ s) = q.
Proof. intros Hq. apply (slice_mid 0 n []); done. Qed.

Lemma zlen_le_bytes n v : zlen (le_bytes n v) = Z.of_nat n.
Proof. unfold zlen. by rewrite le_bytes_length. Qed.

Lemma zlen_take {A} (n : nat) (l : list A) : zlen (take n l) = Z.min (Z.of_nat n) (zlen l).
Proof. unfold zlen. rewrite length_take. lia. Qed.

(** ** Headers *)

Lemma zlen_file_header e w : zlen (build_file_header e w) = kFileHeaderBytes.
Proof. unfold build_file_header. rewrite !zlen_app, !zlen_le_bytes. reflexivity. Qed.

Lemma zlen_header_head e w :
  zlen (kMagic ++ le_bytes 4 LQF_JOURNAL_FORMAT_VERSION ++ le_bytes 4 0 ++ le_bytes 8 e ++ le_bytes 8 (wrap64 w)) = 32.
Proof. rewrite !zlen_app, !zlen_le_bytes. reflexivity. Qed.

Lemma file_header_valid e w : is_u64 e -> validate_file_header (build_file_header e w) = Good e.
Proof.
  intros He. unfold validate_file_header. rewrite zlen_file_header. cbn [negb Z.eqb kFileHeaderBytes].
  rewrite Z.eqb_refl. cbn [negb]. unfold build_file_header.
  set (head := kMagic ++ _) in *. set (crc := crc32c head 0).
  assert (zlen head = 32) as Hh by apply zlen_header_head.
  rewrite (slice_front 32 head) by done. fold crc.
  assert (decode_u32 32 (head ++ le_bytes 4 crc ++ le_bytes 4 0) = crc) as ->.
  { unfold decode_u32. rewrite (slice_mid 32 4) by (done || apply zlen_le_bytes).
    apply le_value_bytes, crc32c_bound. }
  rewrite (Z.eqb_refl crc). unfold head. rewrite <- !app_assoc.
  rewrite (slice_front 8 kMagic) by done. unfold bytes_eqb. rewrite bool_decide_true by done.
  unfold decode_u32. rewrite (slice_mid 8 4) by (done || apply zlen_le_bytes).
  rewrite le_value_bytes by (vm_compute; split; congruence). rewrite Z.eqb_refl. cbn [negb].
  f_equal. unfold decode_u64.
  rewrite (app_assoc kMagic), (app_assoc (kMagic ++ _)).
  rewrite (slice_mid 16 8) by (rewrite ?zlen_app, ?zlen_le_bytes; reflexivity).
  apply le_value_bytes. change (256 ^ Z.of_nat 8) with 18446744073709551616. unfold_ints. lia.
Qed.

(** ** Records *)

(** A record the writer can number and the reader accepts the size of. *)
Definition record_fits (config : JournalConfig) (r : JournalRecord) : Prop :=
  is_u64 (jrec_ordinal r) /\ zlen (jrec_body r) + kRecordPrefixBytes <= jc_max_record_bytes config /\
  jc_max_record_bytes config <= u32_max.

Lemma zlen_payload r : zlen (record_payload r) = kRecordPrefixBytes + zlen (jrec_body r).
Proof. unfold record_payload. rewrite zlen_app, zlen_cons, zlen_le_bytes. unfold kRecordPrefixBytes. lia. Qed.

Lemma zlen_record r : zlen (encode_record_bytes r) = kRecordHeaderBytes + zlen (record_payload r).
Proof. unfold encode_record_bytes. rewrite !zlen_app, !zlen_le_bytes. unfold kRecordHeaderBytes. lia. Qed.

Lemma parse_kind_val k : parse_journal_record_kind (enum_val k) = Good k.
Proof. destruct k; reflexivity. Qed.

Lemma payload_fields r : is_u64 (jrec_ordinal r) ->
  decode_u64 0 (record_payload r) = jrec_ordinal r /\
  nth 8 (record_payload r) 0 = enum_val (jrec_kind r) /\ drop 9 (record_payload r) = jrec_body r.
Proof.
  intros Ho. unfold record_payload. split_and!.
  - unfold decode_u64. rewrite (slice_front 8) by apply zlen_le_bytes. apply le_value_bytes.
    change (256 ^ Z.of_nat 8) with 18446744073709551616. unfold_ints. lia.
  - rewrite app_nth2; rewrite le_bytes_length; (done || lia).
  - rewrite drop_app_ge by (rewrite le_bytes_length; lia). by rewrite le_bytes_length.
Qed.

Lemma record_header_fields config r s : record_fits config r ->
  let header := slice 0 8 (encode_record_bytes r ++ s) in
  zlen header = 8 /\ decode_u32 0 header = zlen (record_payload r) /\
  decode_u32 4 header = crc32c (record_payload r) 0.
Proof.
  intros (_ & Hs & Hm). unfold encode_record_bytes. set (crc := crc32c _ _).
  assert (slice 0 8 ((le_bytes 4 (zlen (record_payload r)) ++ le_bytes 4 crc ++ record_payload r) ++ s)
    = le_bytes 4 (zlen (record_payload r)) ++ le_bytes 4 crc) as ->.
  { rewrite <- !app_assoc, (app_assoc (le_bytes 4 _)). apply slice_front. rewrite zlen_app, !zlen_le_bytes. done. }
  cbv zeta. split_and!.
  - rewrite zlen_app, !zlen_le_bytes. done.
  - unfold decode_u32. rewrite (slice_front 4) by apply zlen_le_bytes. apply le_value_bytes.
    pose proof (zlen_nonneg (record_payload r)). rewrite zlen_payload in *.
    change (256 ^ Z.of_nat 4) with 4294967296. unfold u32_max in Hm. lia.
  - unfold decode_u32. rewrite <- (app_nil_r (le_bytes 4 crc)).
    rewrite (slice_mid 4 4) by apply zlen_le_bytes. apply le_value_bytes, crc32c_bound.
Qed.

Section Reading.
Import JournalReader.

(** The reader stands at the end of the bytes [p], with [s] to read. *)
Definition stands (r : t) (p s : list Z) : Prop :=
  content r = Some (p ++ s) /\ position r = zlen p /\ last_good_offset r = zlen p /\ reached_end r = false.

Definition below_limits (r : t) : Prop :=
  rr_records_read (report r) < jc_max_recovery_records (config r) /\
  rr_bytes_read (report r) < jc_max_recovery_bytes (config r).

Definition in_sequence (r : t) (ordinal : Z) : Prop :=
  have_ordinal r = true -> ordinal = expected_ordinal r /\ 0 < ordinal.

Lemma slice_shift p s offset n : 0 <= offset -> slice (zlen p + offset) n (p ++ s) = slice offset n s.
Proof.
  intros Ho. rewrite !slice_eq. f_equal. rewrite drop_app_ge by (unfold zlen; lia).
  f_equal. unfold zlen. lia.
Qed.

Lemma below_limits_test r : below_limits r ->
  (jc_max_recovery_records (config r) <=? rr_records_read (report r))
  || (jc_max_recovery_bytes (config r) <=? rr_bytes_read (report r)) = false.
Proof. intros [H1 H2]. apply orb_false_iff. rewrite !Z.leb_gt. done. Qed.

(** What [next] does once it is known to try to read. *)
Lemma next_at r p s : stands r p s -> below_limits r ->
  next r =
    let header := slice 0 8 s in
    if zlen header =? 0 then (Good None, stop_end r)
    else if zlen header <? kRecordHeaderBytes then (Good None, stop_torn r)
    else if (decode_u32 0 header <? kRecordPrefixBytes)
            || (jc_max_record_bytes (config r) <? decode_u32 0 header)
    then (Good None, stop_torn r)
    else
      let payload := slice 8 (decode_u32 0 header) s in
      if zlen payload <? decode_u32 0 header then (Good None, stop_torn r)
      else if negb (crc32c payload 0 =? decode_u32 4 header)
      then (Good None, if intact_record_follows r (zlen p + 8) then stop_degraded r else stop_torn r)
      else match parse_journal_record_kind (nth 8 payload 0) with
           | Bad _ => (Good None, stop_degraded r)
           | Good kind =>
               if have_ordinal r && (decode_u64 0 payload <=? wrap64 (expected_ordinal r - 1))
               then (Good None, stop_degraded r)
               else if have_ordinal r && negb (decode_u64 0 payload =? expected_ordinal r)
               then (Good None, stop_degraded r)
               else
                 let record := mkJournalRecord kind (decode_u64 0 payload) (drop 9 payload) in
                 (Good (Some record), accept r (decode_u32 0 header) record)
           end.
Proof.
  intros (Hc & Hp & Hl & He) Hb. unfold next. rewrite Hc, He, (below_limits_test r Hb), Hp, Hl.
  unfold kRecordHeaderBytes. rewrite (slice_shift p s 8) by lia.
  replace (slice (zlen p) 8 (p ++ s)) with (slice 0 8 s)
    by (rewrite <- (slice_shift p s 0) by lia; f_equal; lia).
  done.
Qed.

Lemma next_record r p record s : stands r p (encode_record_bytes record ++ s) -> below_limits r ->
  record_fits (config r) record -> in_sequence r (jrec_ordinal record) ->
  next r = (Good (Some record), accept r (zlen (record_payload record)) record).
Proof.
  intros Hs Hb Hf Hq. rewrite (next_at r p _ Hs Hb). cbv zeta.
  destruct (record_header_fields _ record s Hf) as (H1 & H2 & H3). cbv zeta in H1, H2, H3. rewrite H1, H2, H3.
  destruct Hf as (Ho & Hsz & Hm). pose proof (zlen_payload record) as Hlp. pose proof (zlen_nonneg (jrec_body record)).
  change (8 =? 0) with false. change (8 <? kRecordHeaderBytes) with false. cbv iota.
  unfold kRecordPrefixBytes in *.
  destruct (zlen (record_payload record) <? 9) eqn:E1; breflect; [lia|].
  destruct (jc_max_record_bytes (config r) <? zlen (record_payload record)) eqn:E2; breflect; [lia|]. cbn [orb negb andb].
  assert (slice 8 (zlen (record_payload record)) (encode_record_bytes record ++ s) = record_payload record) as ->.
  { unfold encode_record_bytes. rewrite <- !app_assoc, (app_assoc (le_bytes 4 _)).
    apply slice_mid; [rewrite zlen_app, !zlen_le_bytes|]; done. }
  rewrite Z.ltb_irrefl, Z.eqb_refl. cbn [orb negb andb].
  destruct (payload_fields record Ho) as (-> & -> & ->). rewrite parse_kind_val.
  destruct (have_ordinal r) eqn:Eh; cbn [orb negb andb].
  - destruct (Hq Eh) as [Eq Hpos]. rewrite Eq in *.
    rewrite wrap64_id by (unfold_ints; lia).
    destruct (expected_ordinal r <=? expected_ordinal r - 1) eqn:E3; breflect; [lia|].
    rewrite Z.eqb_refl. cbn [orb negb andb]. rewrite <- Eq. by destruct record.
  - by destruct record.
Qed.

(** A proper prefix of an encoded record is a torn tail, or the clean end of
    the file when it is empty. *)
Lemma next_torn r p record n : stands r p (take n (encode_record_bytes record)) -> below_limits r ->
  record_fits (config r) record -> (n < List.length (encode_record_bytes record))%nat ->
  next r = (Good None, if (n =? 0)%nat then stop_end r else stop_torn r).
Proof.
  intros Hs Hb Hf Hn. rewrite (next_at r p _ Hs Hb). cbv zeta.
  set (enc := encode_record_bytes record) in *.
  assert (zlen (take n enc) = Z.of_nat n) as Hlen by (rewrite zlen_take; unfold zlen; lia).
  destruct n as [|n']; [done|]. set (n := S n') in *.
  assert (zlen (slice 0 8 (take n enc)) = Z.min 8 (Z.of_nat n)) as Hl8.
  { rewrite slice_eq, drop_0, zlen_take, Hlen. lia. }
  rewrite Hl8. destruct (Z.min 8 (Z.of_nat n) =? 0) eqn:E0; breflect; [lia|].
  destruct (Z.min 8 (Z.of_nat n) <? kRecordHeaderBytes) eqn:E1; [done|]. breflect.
  unfold kRecordHeaderBytes in *.
  assert (slice 0 8 (take n enc) = slice 0 8 (enc ++ [])) as Esl.
  { rewrite !slice_eq, !drop_0, app_nil_r. rewrite take_take. f_equal. lia. }
  rewrite Esl. destruct (record_header_fields _ record [] Hf) as (H1 & H2 & H3). cbv zeta in H2. fold enc in H2.
  rewrite H2. destruct (_ || _) eqn:E2; [done|].
  assert ((zlen (slice 8 (zlen (record_payload record)) (take n enc)) <? zlen (record_payload record)) = true) as ->;
    [|done].
  apply Z.ltb_lt. rewrite slice_eq, zlen_take. unfold zlen at 2. rewrite length_drop.
  pose proof (zlen_record record) as Hr. fold enc in Hr. unfold zlen, kRecordHeaderBytes in *. lia.
Qed.

Lemma stands_accept r p record s : stands r p (encode_record_bytes record ++ s) ->
  stands (accept r (zlen (record_payload record)) record) (p ++ encode_record_bytes record) s.
Proof.
  intros (Hc & Hp & Hl & He). pose proof (zlen_record record) as Hr.
  unfold stands, accept. simpl. rewrite <- app_assoc, zlen_app, Hc, Hp, Hl, Hr. done.
Qed.
End Reading.

(** ** Replaying a whole file *)

(** The bytes of a sequence of records. *)
Definition encode_records (l : list JournalRecord) : list Z := flat_map encode_record_bytes l.

(** Ordinals [n], [n + 1], ... *)
Fixpoint numbered (n : Z) (l : list JournalRecord) : Prop :=
  match l with
  | [] => True
  | r :: rest => jrec_ordinal r = n /\ numbered (n + 1) rest
  end.

Section Replay.
Import JournalReader.

(** Room for [k] more records of [b] more bytes, and one more attempt. *)
Definition budget (r : t) (k b : Z) : Prop :=
  0 <= rr_records_read (report r) /\ 0 <= rr_bytes_read (report r) /\
  rr_records_read (report r) + k < jc_max_recovery_records (config r) <= u64_max /\
  rr_bytes_read (report r) + b < jc_max_recovery_bytes (config r) <= u64_max.

(** The flags of the report no accepted record changes. *)
Definition same_verdict (r r' : t) : Prop :=
  config r' = config r /\ rr_torn_tail (report r') = rr_torn_tail (report r) /\
  rr_degraded (report r') = rr_degraded (report r) /\
  rr_limit_reached (report r') = rr_limit_reached (report r).

Lemma budget_accept r k b record : 0 <= k -> 0 <= b ->
  budget r (1 + k) (zlen (encode_record_bytes record) + b) ->
  budget (accept r (zlen (record_payload record)) record) k b.
Proof.
  intros Hk Hb (H1 & H2 & H3 & H4). pose proof (zlen_nonneg (encode_record_bytes record)).
  rewrite zlen_record in *. unfold budget, accept. cbn [report config rr_records_read rr_bytes_read].
  unfold incr64. rewrite !wrap64_id by (unfold_ints; lia). split_and!; lia.
Qed.

Lemma read_all_records records : forall n r p s,
  stands r p (encode_records records ++ s) -> numbered n records -> Forall (record_fits (config r)) records ->
  in_sequence r n -> 0 <= n -> n + zlen records <= u64_max -> budget r (zlen records) (zlen (encode_records records)) ->
  exists r1,
    (forall fuel, read_all (List.length records + fuel) r
       = ((records ++ (read_all fuel r1).1), (read_all fuel r1).2)) /\
    stands r1 (p ++ encode_records records) s /\ below_limits r1 /\ same_verdict r r1 /\
    (records <> [] -> have_ordinal r1 = true /\ expected_ordinal r1 = n + zlen records) /\
    (records = [] -> r1 = r).
Proof.
  induction records as [|record records IH]; intros n r p s Hst Hn Hf Hq Hn0 Hn1 Hb.
  - exists r. simpl. rewrite app_nil_r. split_and!; try done.
    + intros fuel. by destruct (read_all fuel r).
    + destruct Hb as (_ & _ & H3 & H4). unfold zlen in *. simpl in *. split; lia.
  - destruct Hn as [Ho Hn]. apply Forall_cons in Hf as [Hf1 Hf2]. rewrite zlen_cons in *.
    change (encode_records (record :: records)) with (encode_record_bytes record ++ encode_records records) in *.
    rewrite <- app_assoc in Hst. rewrite zlen_app in Hb.
    pose proof (zlen_nonneg records). pose proof (zlen_nonneg (encode_records records)) as Hz.
    pose proof (zlen_nonneg (encode_record_bytes record)).
    assert (below_limits r) as Hbl by (destruct Hb as (_ & _ & H3 & H4); split; lia).
    pose proof (next_record r p record _ Hst Hbl Hf1 ltac:(by rewrite Ho)) as Hnext.
    set (ra := accept r (zlen (record_payload record)) record) in *.
    destruct (IH (n + 1) ra (p ++ encode_record_bytes record) s) as (r1 & H1 & H2 & H3 & H4 & H5 & H6).
    + by apply stands_accept.
    + done.
    + done.
    + intros _. unfold ra, accept. simpl. rewrite Ho, wrap64_id by (unfold_ints; lia). lia.
    + lia.
    + lia.
    + apply budget_accept; [done|done|].
      replace (1 + zlen records) with (zlen records + 1) by lia. done.
    + exists r1. rewrite app_assoc. split_and!; try done.
      * intros fuel. cbn [List.length Nat.add read_all]. rewrite Hnext, H1. done.
      * intros _. destruct records as [|r' records].
        -- rewrite (H6 eq_refl). unfold ra, accept. simpl. rewrite Ho, wrap64_id by (unfold_ints; lia).
           unfold zlen. simpl. split; [done|lia].
        -- destruct (H5 ltac:(done)) as [E1 E2]. rewrite E1, E2. split; [done|lia].
Qed.
End Replay.

Section Recovery.
Import JournalReader.

(** Opening a file that starts with a header of this format. *)
Lemma open_valid config e w s : is_u64 e ->
  exists r p, open no_faults config (mkDisk (Some (build_file_header e w ++ s)) None)
    = (Good p, r, mkDisk (Some (build_file_header e w ++ s)) None) /\
  stands r (build_file_header e w) s /\ JournalReader.config r = config /\ have_ordinal r = false /\
  report r = mkRecoveryReport true true false false false false false false 0 0 0 0 StatusCode.Ok.
Proof.
  intros He. unfold open. cbn [disk_temp disk_main andb fa_open_ok fa_main_seen fa_temp_seen fa_read no_faults negb file_exists opened_content written_of].
  assert (take 40 (build_file_header e w ++ s) = build_file_header e w) as ->.
  { pose proof (zlen_file_header e w) as Hz. unfold zlen, kFileHeaderBytes in Hz.
    apply take_app_length'. lia. }
  rewrite zlen_file_header, file_header_valid by done.
  destruct (build_file_header e w) as [|b h] eqn:E; [by pose proof (zlen_file_header e w) as Hz; rewrite E in Hz|].
  rewrite <- E. change (kFileHeaderBytes <? kFileHeaderBytes) with false. cbv iota.
  eexists _, _. split; [reflexivity|]. unfold stands. cbn [content position last_good_offset reached_end].
  rewrite zlen_file_header. done.
Qed.

(** Replay of whole records followed by anything: the reader that stands
    before it. *)
Lemma replay_prefix config e w first records s : is_u64 e -> numbered first records -> 0 <= first ->
  first + zlen records <= u64_max -> Forall (record_fits config) records ->
  zlen records < jc_max_recovery_records config <= u64_max ->
  zlen (encode_records records) < jc_max_recovery_bytes config <= u64_max ->
  let o := open no_faults config (mkDisk (Some (build_file_header e w ++ encode_records records ++ s)) None) in
  outcome_status o.1.1 = StatusCode.Ok /\ o.2 = mkDisk (Some (build_file_header e w ++ encode_records records ++ s)) None /\
  exists r1,
    (forall fuel, read_all (List.length records + fuel) o.1.2
       = ((records ++ (read_all fuel r1).1), (read_all fuel r1).2)) /\
    stands r1 (build_file_header e w ++ encode_records records) s /\ below_limits r1 /\
    JournalReader.config r1 = config /\ rr_torn_tail (report r1) = false /\ rr_degraded (report r1) = false /\
    rr_limit_reached (report r1) = false /\
    (records <> [] -> have_ordinal r1 = true /\ expected_ordinal r1 = first + zlen records) /\
    (records = [] -> have_ordinal r1 = false).
Proof.
  intros He Hn H0 H1 Hf Hr Hb o. unfold o.
  destruct (open_valid config e w (encode_records records ++ s) He) as (r & p & Ho & Hst & Hc & Hh & Hrep).
  rewrite Ho. cbn [fst snd outcome_status]. split; [done|]. split; [done|].
  destruct (read_all_records records first r _ s Hst Hn) as (r1 & E1 & E2 & E3 & E4 & E5 & E6); try assumption.
  - by rewrite Hc.
  - intros Hh'. congruence.
  - unfold budget. rewrite Hrep, Hc. simpl. lia.
  - exists r1. destruct E4 as (F1 & F2 & F3 & F4). rewrite F1, F2, F3, F4, Hrep, Hc.
    split_and!; try assumption; try reflexivity. intros ->. by rewrite E6.
Qed.
End Recovery.

(** C9: Recovery after a crash in the middle of an append.  Let every record's body
    leave room for the nine bytes of its prefix within the record limit, and the
    completed records be within the limits of recovery.  Whatever proper prefix of
    the last record reached the disk, recovery opens the file, returns exactly the
    records whose append completed, in order, never reports corruption, and reports a
    torn tail if and only if part of a record is there; the repair then truncates the
    file to exactly the completed records, and the next append is numbered after
    them. *)
Theorem torn_append_is_recovered config epoch wall first records record n :
  let good := build_file_header epoch wall ++ encode_records records in
  let o := JournalReader.open no_faults config
             (mkDisk (Some (good ++ take n (encode_record_bytes record))) None) in
  let replay := JournalReader.read_all (S (List.length records)) o.1.2 in
  is_u64 epoch -> numbered first records -> 0 <= first -> first + zlen records <= u64_max ->
  Forall (record_fits config) (record :: records) -> (n < List.length (encode_record_bytes record))%nat ->
  zlen records < jc_max_recovery_records config <= u64_max ->
  zlen (encode_records records) < jc_max_recovery_bytes config <= u64_max ->
  outcome_status o.1.1 = StatusCode.Ok /\
  replay.1 = records /\
  rr_degraded (JournalReader.report replay.2) = false /\
  rr_torn_tail (JournalReader.report replay.2) = negb (n =? 0)%nat /\
  (records <> [] -> JournalReader.next_ordinal replay.2 = first + zlen records) /\
  (n <> 0%nat ->
     (JournalReader.repair_torn_tail true true replay.2).1 = StatusCode.Ok /\
     JournalReader.content (JournalReader.repair_torn_tail true true replay.2).2 = Some good).
Proof.
  intros good o replay He Hn H0 H1 Hf Hlt Hr Hb. apply Forall_cons in Hf as [Hf1 Hf2].
  assert (o = JournalReader.open no_faults config (mkDisk (Some (build_file_header epoch wall
    ++ encode_records records ++ take n (encode_record_bytes record))) None)) as Eo
    by (unfold o, good; by rewrite <- app_assoc).
  unfold replay. rewrite Eo. clear Eo replay o.
  destruct (replay_prefix config epoch wall first records (take n (encode_record_bytes record)))
    as (Ho & _ & r1 & E1 & E2 & E3 & E4 & E5 & E6 & E7 & E8 & _); try assumption.
  set (o := JournalReader.open _ _ _) in *.
  pose proof (next_torn r1 _ record n E2 E3 ltac:(by rewrite E4) Hlt) as Hnext.
  assert (JournalReader.read_all (S (List.length records)) o.1.2
    = (records, if (n =? 0)%nat then JournalReader.stop_end r1 else JournalReader.stop_torn r1)) as Er.
  { replace (S (List.length records)) with (List.length records + 1)%nat by lia. rewrite E1.
    cbn [JournalReader.read_all]. rewrite Hnext. cbn [fst snd]. by rewrite app_nil_r. }
  rewrite Er. cbn [fst snd]. split; [done|]. split; [done|].
  destruct n as [|n']; cbn [Nat.eqb negb].
  { split_and!; [exact E6|exact E5|intros Hne; apply (E8 Hne)|congruence]. }
  split_and!; [exact E6|reflexivity|intros Hne; apply (E8 Hne)|].
  - intros _. unfold JournalReader.repair_torn_tail, JournalReader.stop_torn.
    destruct E2 as (C1 & C2 & C3 & C4). cbn. rewrite C1, C3. cbn. split; [done|]. f_equal.
    unfold zlen. rewrite Nat2Z.id. apply take_app_length.
Qed.

(** ** What recovery trusts *)

Section Sound.
Import JournalReader.

Lemma payload_rebuilt payload kind : Forall is_byte payload -> 9 <= zlen payload ->
  parse_journal_record_kind (nth 8 payload 0) = Good kind ->
  record_payload (mkJournalRecord kind (decode_u64 0 payload) (drop 9 payload)) = payload /\
  is_u64 (decode_u64 0 payload).
Proof.
  intros Hb Hl Hk. unfold decode_u64. rewrite slice_eq, drop_0. change (Z.to_nat 8) with 8%nat.
  assert (Forall is_byte (take 8 payload)) as Hb8 by by apply Forall_take.
  assert (List.length (take 8 payload) = 8%nat) as Hl8 by (rewrite length_take; unfold zlen in Hl; lia).
  pose proof (le_bytes_value _ Hb8) as Hv. pose proof (le_value_lt _ Hb8) as Hlt.
  pose proof (le_value_nonneg _ Hb8). rewrite Hl8 in Hv, Hlt. split.
  - unfold record_payload. cbn [jrec_ordinal jrec_kind jrec_body]. rewrite Hv.
    assert (enum_val kind = nth 8 payload 0) as ->.
    { unfold parse_journal_record_kind in Hk. destruct (_ || _); [done|].
      destruct (enum_of (nth 8 payload 0)) as [k|] eqn:E; [|done]. injection Hk as <-. by apply enum_val_of. }
    rewrite <- (take_drop 8 payload) at 4. f_equal.
    assert (8 < List.length payload)%nat as H8 by (unfold zlen in Hl; lia). clear -H8.
    do 9 (destruct payload as [|? payload]; [simpl in H8; lia|]). reflexivity.
  - change (256 ^ Z.of_nat 8) with 18446744073709551616 in Hlt. unfold_ints. lia.
Qed.

(** The eight header bytes of a record, from the two words they decode to. *)
Lemma header_rebuilt s : Forall is_byte s -> 8 <= zlen s ->
  le_bytes 4 (decode_u32 0 (slice 0 8 s)) ++ le_bytes 4 (decode_u32 4 (slice 0 8 s)) = take 8 s.
Proof.
  intros Hb H8. unfold decode_u32. rewrite !slice_eq, !drop_0.
  change (Z.to_nat 8) with 8%nat. change (Z.to_nat 4) with 4%nat. rewrite take_take.
  change (4 `min` 8)%nat with 4%nat.
  assert (forall l, Forall is_byte l -> List.length l = 4%nat -> le_bytes 4 (le_value l) = l) as H4.
  { intros l Hl1 Hl2. rewrite <- Hl2 at 1. by apply le_bytes_value. }
  rewrite !H4; [| | |by apply Forall_take|].
  - clear -H8. unfold zlen in H8. do 8 (destruct s as [|? s]; [simpl in H8; lia|]). reflexivity.
  - by apply Forall_take, Forall_drop, Forall_take.
  - rewrite length_take, length_drop, length_take. unfold zlen in H8. lia.
  - rewrite length_take. unfold zlen in H8. lia.
Qed.

Lemma next_sound r p s record r' : stands r p s -> Forall is_byte s ->
  next r = (Good (Some record), r') ->
  exists s', s = encode_record_bytes record ++ s' /\ stands r' (p ++ encode_record_bytes record) s' /\
    r' = accept r (zlen (record_payload record)) record /\ is_u64 (jrec_ordinal record) /\
    (have_ordinal r = true -> is_u64 (expected_ordinal r) ->
       jrec_ordinal record = expected_ordinal r /\ 0 < jrec_ordinal record).
Proof.
  intros Hs Hb Hn.
  assert (below_limits r) as Hbl.
  { unfold next in Hn. destruct Hs as (Hc & _ & _ & He). rewrite Hc, He in Hn.
    destruct (_ || _) eqn:E in Hn; [done|]. breflect. split; done. }
  rewrite (next_at r p s Hs Hbl) in Hn. cbv zeta in Hn.
  destruct (zlen (slice 0 8 s) =? 0); [done|].
  destruct (zlen (slice 0 8 s) <? kRecordHeaderBytes) eqn:E1; [done|]. breflect.
  set (L := decode_u32 0 (slice 0 8 s)) in *.
  destruct ((L <? kRecordPrefixBytes) || (jc_max_record_bytes (config r) <? L)) eqn:E2; [done|].
  apply orb_false_iff in E2 as [E2 E2']. breflect.
  destruct (zlen (slice 8 L s) <? L) eqn:E3; [done|]. breflect.
  destruct (crc32c (slice 8 L s) 0 =? decode_u32 4 (slice 0 8 s)) eqn:E4; [|done]. cbn [negb] in Hn. breflect.
  destruct (parse_journal_record_kind _) as [kind|] eqn:E5; [|done].
  destruct (have_ordinal r && (_ <=? _)) eqn:E6; [done|]. destruct (have_ordinal r && negb _) eqn:E7; [done|].
  injection Hn as <- <-. unfold kRecordHeaderBytes, kRecordPrefixBytes in *.
  assert (Forall is_byte (slice 8 L s)) as Hbp by (rewrite slice_eq; by apply Forall_take, Forall_drop).
  assert (zlen (slice 8 L s) = L) as HL.
  { apply Z.le_antisymm; [|done]. rewrite slice_eq, zlen_take. lia. }
  destruct (payload_rebuilt (slice 8 L s) kind Hbp) as [Epay Hord]; [lia|done|].
  set (record := mkJournalRecord kind _ _) in *.
  assert (8 <= zlen s) as H8 by (rewrite slice_eq, drop_0, zlen_take in E1; lia).
  pose proof (header_rebuilt s Hb H8) as Ehead. fold L in Ehead.
  assert (s = encode_record_bytes record ++ drop (8 + Z.to_nat L) s) as Es.
  { unfold encode_record_bytes. rewrite Epay, HL, E4, (app_assoc (le_bytes 4 L)), Ehead.
    rewrite slice_eq. change (Z.to_nat 8) with 8%nat. rewrite <- drop_drop, <- app_assoc, take_drop, take_drop. done. }
  exists (drop (8 + Z.to_nat L) s). split; [done|].
  assert (L = zlen (record_payload record)) as EL by (by rewrite Epay).
  assert (accept r L record = accept r (zlen (record_payload record)) record) as -> by by rewrite <- EL.
  split; [apply stands_accept; by rewrite <- Es|]. split; [done|]. split; [done|].
  intros Hh Hu. rewrite Hh in E6, E7. cbn [andb] in E6, E7. breflect.
  change (jrec_ordinal record) with (decode_u64 0 (slice 8 L s)).
  split; [done|]. destruct (Z.eq_dec (expected_ordinal r) 0) as [E0|]; [|unfold_ints; lia].
  exfalso. rewrite E0 in E6. vm_compute (wrap64 (0 - 1)) in E6. unfold_ints. lia.
Qed.

(** No report says both that the tail is torn and that the file is corrupt. *)
Definition one_verdict (r : t) : Prop := rr_torn_tail (report r) && rr_degraded (report r) = false.
Definition undecided (r : t) : Prop := rr_torn_tail (report r) = false /\ rr_degraded (report r) = false.

Lemma next_stops r o r' : next r = (o, r') -> undecided r -> (forall x, o <> Good (Some x)) ->
  one_verdict r' /\ content r' = content r /\ last_good_offset r' = last_good_offset r.
Proof.
  intros Hn [Ht Hd] Ho. unfold one_verdict. revert Hn. unfold next.
  repeat case_match; intros [= <- <-]; simpl; rewrite ?Ht, ?Hd; try done; exfalso; by eapply Ho.
Qed.

Lemma read_all_sound fuel : forall r p s,
  stands r p s -> Forall is_byte s -> undecided r ->
  exists s', let '(records, r') := read_all fuel r in
    s = encode_records records ++ s' /\ content r' = Some (p ++ s) /\
    last_good_offset r' = zlen (p ++ encode_records records) /\ one_verdict r' /\
    (have_ordinal r = true -> is_u64 (expected_ordinal r) ->
       numbered (expected_ordinal r) records /\ (records = [] \/ 0 < expected_ordinal r)) /\
    (forall a rest, records = a :: rest -> numbered (jrec_ordinal a) records).
Proof.
  induction fuel as [|fuel IH]; intros r p s Hs Hb Hu.
  - exists s. simpl. destruct Hs as (Hc & Hp & Hl & _). rewrite app_nil_r.
    split_and!; try done; [unfold one_verdict; by destruct Hu as [-> ->]|by auto].
  - simpl. destruct (next r) as [[[record|]|st] r1] eqn:En.
    + destruct (next_sound r p s record r1 Hs Hb En) as (s1 & -> & Hs1 & Hr1 & Ho & Hq).
      apply Forall_app in Hb as [_ Hb1].
      destruct (IH r1 _ s1 Hs1 Hb1) as (s' & Hrec). { by rewrite Hr1. }
      exists s'. destruct (read_all fuel r1) as [rest r2]. destruct Hrec as (-> & H1 & H2 & H3 & H4 & H5).
      assert (forall n, jrec_ordinal record = n -> numbered n (record :: rest)) as Hnum.
      { intros n <-. split; [done|]. rewrite Hr1 in H4. simpl in H4.
        destruct (H4 eq_refl (wrap64_range _)) as [Hn Hor].
        destruct Hor as [-> | Hpos]; [done|].
        destruct (Z.eq_dec (jrec_ordinal record) u64_max) as [Emax|Hne].
        - rewrite Emax in Hpos. by vm_compute in Hpos.
        - rewrite wrap64_id in Hn by (unfold_ints; lia). done. }
      simpl. fold (encode_records rest). rewrite <- !app_assoc in *. split_and!; try done.
      * intros Hh Hx. destruct (Hq Hh Hx) as [E1 E2]. split; [by apply Hnum|]. right. lia.
      * intros a rest' [= <- <-]. by apply Hnum.
    + destruct (next_stops r _ r1 En Hu) as (H1 & H2 & H3); [done|]. exists s. simpl.
      destruct Hs as (Hc & Hp & Hl & _). rewrite app_nil_r, H2, H3. split_and!; auto; done.
    + destruct (next_stops r _ r1 En Hu) as (H1 & H2 & H3); [done|]. exists s. simpl.
      destruct Hs as (Hc & Hp & Hl & _). rewrite app_nil_r, H2, H3. split_and!; auto; done.
Qed.
End Sound.

Lemma validate_header_bad header s : validate_file_header header = Bad s -> s <> StatusCode.Ok.
Proof. unfold validate_file_header. repeat (case_match; [congruence|]). done. Qed.

(** ** Damage inside the file *)

Section Damage.
Import JournalReader.

Lemma intact_at_record cfg q record s : record_fits cfg record ->
  intact_at cfg (q ++ encode_record_bytes record ++ s) (zlen q) = true.
Proof.
  intros Hf. destruct (record_header_fields _ record s Hf) as (_ & H2 & H3). cbv zeta in H2, H3.
  destruct Hf as (_ & Hs & Hm). pose proof (zlen_payload record) as Hl. pose proof (zlen_nonneg (jrec_body record)).
  unfold intact_at, decode_u32, kRecordPrefixBytes, kRecordHeaderBytes in *. rewrite !slice_shift by lia.
  replace (slice (zlen q) 4 (q ++ encode_record_bytes record ++ s)) with (slice 0 4 (encode_record_bytes record ++ s))
    by (rewrite <- (slice_shift q _ 0) by lia; f_equal; lia).
  assert (slice 0 4 (slice 0 8 (encode_record_bytes record ++ s)) = slice 0 4 (encode_record_bytes record ++ s)) as E1.
  { rewrite !slice_eq, !drop_0, take_take. done. }
  assert (slice 4 4 (slice 0 8 (encode_record_bytes record ++ s)) = slice 4 4 (encode_record_bytes record ++ s)) as E2.
  { rewrite !slice_eq, !drop_0. rewrite skipn_firstn_comm, take_take. done. }
  rewrite E1 in H2. rewrite E2 in H3. rewrite H2, H3. unfold kRecordPrefixBytes, kRecordHeaderBytes in *.
  destruct (zlen (record_payload record) <? 9) eqn:E3; breflect; [lia|].
  destruct (jc_max_record_bytes cfg <? zlen (record_payload record)) eqn:E4; breflect; [lia|]. cbn [orb].
  assert (slice 8 (zlen (record_payload record)) (encode_record_bytes record ++ s) = record_payload record) as ->.
  { unfold encode_record_bytes. rewrite <- !app_assoc, (app_assoc (le_bytes 4 _)).
    apply slice_mid; [rewrite zlen_app, !zlen_le_bytes|]; done. }
  rewrite Z.eqb_refl. destruct (_ <? _) eqn:E5; [|done]. breflect. rewrite !zlen_app, zlen_record in E5.
  unfold kRecordHeaderBytes in E5. pose proof (zlen_nonneg s). lia.
Qed.

Lemma scan_bytes_ge cfg : 0 <= jc_max_recovery_bytes cfg -> jc_max_recovery_bytes cfg <= scan_bytes cfg.
Proof. intros. unfold scan_bytes. Z.to_euclidean_division_equations. lia. Qed.

Lemma intact_follows r p h q record s : content r = Some (p ++ h ++ q ++ encode_record_bytes record ++ s) ->
  zlen h = 8 -> record_fits (config r) record ->
  zlen (q ++ encode_record_bytes record ++ s) <= jc_max_recovery_bytes (config r) ->
  intact_record_follows r (zlen p + 8) = true.
Proof.
  intros Hc Hh Hf Hl. unfold intact_record_follows. rewrite Hc.
  destruct (zlen p + 8 <? 0) eqn:E; breflect; [pose proof (zlen_nonneg p); lia|].
  set (body := q ++ encode_record_bytes record ++ s) in *. pose proof (zlen_nonneg body) as Hb0.
  pose proof (scan_bytes_ge (config r) ltac:(lia)) as Hsc.
  assert (slice (zlen p + 8) (scan_bytes (config r)) (p ++ h ++ body) = body) as ->.
  { rewrite slice_shift by lia. rewrite <- (Z.add_0_r 8), <- Hh, slice_shift by lia.
    rewrite slice_eq, drop_0. apply take_ge. unfold zlen in *. lia. }
  assert (zlen (encode_record_bytes record) <= zlen body - zlen q /\ 17 <= zlen (encode_record_bytes record)) as [Hz1 Hz2].
  { unfold body. rewrite !zlen_app, zlen_record, zlen_payload. unfold kRecordHeaderBytes, kRecordPrefixBytes.
    pose proof (zlen_nonneg (jrec_body record)). pose proof (zlen_nonneg s). lia. }
  pose proof (zlen_nonneg q). destruct (zlen body <? kRecordHeaderBytes) eqn:E2; breflect.
  { unfold kRecordHeaderBytes in E2. lia. }
  apply existsb_exists. exists (List.length q). split.
  - apply in_seq. unfold zlen in *. lia.
  - change (Z.of_nat (List.length q)) with (zlen q). by apply intact_at_record.
Qed.

(** A record whose checksum does not match its bytes. *)
Definition damaged (cfg : JournalConfig) (length : Z) (crc payload : list Z) : Prop :=
  kRecordPrefixBytes <= length <= jc_max_record_bytes cfg /\ jc_max_record_bytes cfg <= u32_max /\
  zlen payload = length /\ zlen crc = 4 /\ crc32c payload 0 <> le_value crc.

Lemma next_damaged r p length crc payload s : stands r p (le_bytes 4 length ++ crc ++ payload ++ s) ->
  below_limits r -> damaged (config r) length crc payload ->
  next r = (Good None, if intact_record_follows r (zlen p + 8) then stop_degraded r else stop_torn r).
Proof.
  intros Hs Hb (H1 & H2 & H3 & H4 & H5). rewrite (next_at r p _ Hs Hb). cbv zeta.
  assert (slice 0 8 (le_bytes 4 length ++ crc ++ payload ++ s) = le_bytes 4 length ++ crc) as ->.
  { rewrite app_assoc. apply slice_front. rewrite zlen_app, zlen_le_bytes. lia. }
  assert (decode_u32 4 (le_bytes 4 length ++ crc) = le_value crc) as ->.
  { unfold decode_u32. rewrite <- (app_nil_r crc) at 1. by rewrite (slice_mid 4 4) by (done || apply zlen_le_bytes). }
  unfold decode_u32. rewrite (slice_front 4) by apply zlen_le_bytes.
  rewrite le_value_bytes by (unfold kRecordPrefixBytes, u32_max in *; change (256 ^ Z.of_nat 4) with 4294967296; lia).
  rewrite !zlen_app, zlen_le_bytes, H4. change (Z.of_nat 4 + 4) with 8.
  change (8 =? 0) with false. change (8 <? kRecordHeaderBytes) with false. cbv iota.
  destruct (length <? kRecordPrefixBytes) eqn:E1; breflect; [lia|].
  destruct (jc_max_record_bytes (config r) <? length) eqn:E2; breflect; [lia|]. cbn [orb].
  assert (slice 8 length (le_bytes 4 length ++ crc ++ payload ++ s) = payload) as ->.
  { rewrite app_assoc. apply slice_mid; [rewrite zlen_app, zlen_le_bytes; lia|done]. }
  rewrite H3, Z.ltb_irrefl. destruct (_ =? _) eqn:E3; breflect; [done|]. done.
Qed.
End Damage.

(** Recovery trusts only what it verified.  For every byte string on disk
    that opens, the records returned are, encoded again, exactly the bytes that
    follow the header, with consecutive ordinals; the replay never changes the
    file; a torn tail is repaired to exactly the trusted bytes; and when the file
    is reported corrupt the repair is refused and the file left alone. *)
Theorem recovery_trusts_only_verified_records config content fuel :
  let o := JournalReader.open no_faults config (mkDisk (Some content) None) in
  let replay := JournalReader.read_all fuel o.1.2 in
  let repaired := JournalReader.repair_torn_tail true true replay.2 in
  Forall is_byte content -> content <> [] -> outcome_status o.1.1 = StatusCode.Ok ->
  exists header rest,
    content = header ++ encode_records replay.1 ++ rest /\ zlen header = kFileHeaderBytes /\
    (forall a l, replay.1 = a :: l -> numbered (jrec_ordinal a) replay.1) /\
    JournalReader.content replay.2 = Some content /\
    (rr_torn_tail (JournalReader.report replay.2) = true ->
       repaired.1 = StatusCode.Ok /\ JournalReader.content repaired.2 = Some (header ++ encode_records replay.1)) /\
    (rr_degraded (JournalReader.report replay.2) = true ->
       repaired.1 = StatusCode.Refused /\ JournalReader.content repaired.2 = Some content).
Proof.
  intros o replay repaired Hb Hne Hok.
  assert (JournalReader.content o.1.2 = Some content /\ JournalReader.position o.1.2 = 40 /\
    JournalReader.last_good_offset o.1.2 = 40 /\ JournalReader.reached_end o.1.2 = false /\
    undecided o.1.2 /\ 40 <= zlen content) as (C1 & C2 & C3 & C4 & C5 & C6).
  { revert Hok. unfold o, JournalReader.open. cbn [disk_temp disk_main andb fa_open_ok fa_main_seen fa_temp_seen fa_read no_faults negb file_exists opened_content written_of].
    destruct (take 40 content) as [|b h] eqn:Et; [by destruct content|]. rewrite <- Et.
    destruct (zlen (take 40 content) <? kFileHeaderBytes) eqn:El; [done|]. breflect.
    destruct (validate_file_header _) as [epoch|s] eqn:Ev; [|intros Es; by apply validate_header_bad in Ev].
    intros _. cbn.
    rewrite zlen_take in El. unfold kFileHeaderBytes in El. split_and!; try done. lia. }
  assert (zlen (take 40 content) = 40) as Hh by (rewrite zlen_take; lia).
  assert (stands o.1.2 (take 40 content) (drop 40 content)) as Hst.
  { unfold stands. rewrite C1, C2, C3, C4, take_drop, Hh. done. }
  destruct (read_all_sound fuel o.1.2 _ _ Hst (Forall_drop _ _ _ Hb) C5) as (rest & Hs).
  fold replay in Hs. destruct replay as [records r'] eqn:Er. cbn [fst snd].
  destruct Hs as (H1 & H2 & H3 & H4 & _ & H6). rewrite take_drop in H2.
  exists (take 40 content), rest. rewrite <- H1, take_drop. split_and!; try done.
  - intros Ht. unfold repaired. cbn [snd]. unfold JournalReader.repair_torn_tail. rewrite H2, Ht, H3. cbn.
    split; [done|]. f_equal. unfold zlen. rewrite Nat2Z.id.
    assert (content = (take 40 content ++ encode_records records) ++ rest) as Ec
      by (by rewrite <- app_assoc, <- H1, take_drop).
    rewrite Ec at 2. apply take_app_length.
  - intros Hd. unfold repaired, JournalReader.repair_torn_tail. cbn [snd]. rewrite H2.
    unfold one_verdict in H4. rewrite Hd, andb_true_r in H4. rewrite H4. done.
Qed.

(** C31: A failed checksum inside the journal is never truncated away.  When a record's
    checksum does not match and an intact record follows anywhere after it (the
    rest of the file being within the recovery byte limit), recovery returns the
    records before the damage, reports the journal corrupt and not torn, and
    the repair refuses to touch the file. *)
Theorem interior_corruption_is_reported config epoch wall first records length crc payload mid record tail :
  let bad := le_bytes 4 length ++ crc ++ payload in
  let content := build_file_header epoch wall ++ encode_records records ++ bad ++ mid
                 ++ encode_record_bytes record ++ tail in
  let o := JournalReader.open no_faults config (mkDisk (Some content) None) in
  let replay := JournalReader.read_all (S (List.length records)) o.1.2 in
  is_u64 epoch -> numbered first records -> 0 <= first -> first + zlen records <= u64_max ->
  Forall (record_fits config) (record :: records) -> damaged config length crc payload ->
  zlen records < jc_max_recovery_records config <= u64_max -> jc_max_recovery_bytes config <= u64_max ->
  zlen (encode_records records) < jc_max_recovery_bytes config ->
  zlen (payload ++ mid ++ encode_record_bytes record ++ tail) <= jc_max_recovery_bytes config ->
  replay.1 = records /\
  rr_degraded (JournalReader.report replay.2) = true /\ rr_torn_tail (JournalReader.report replay.2) = false /\
  (JournalReader.repair_torn_tail true true replay.2).1 = StatusCode.Refused.
Proof.
  intros bad content o replay He Hn H0 H1 Hf Hd Hr Hm Hb Ht. apply Forall_cons in Hf as [Hf1 Hf2].
  destruct (replay_prefix config epoch wall first records (bad ++ mid ++ encode_record_bytes record ++ tail))
    as (Ho & _ & r1 & E1 & E2 & E3 & E4 & E5 & E6 & E7 & E8 & _); try assumption; [lia|].
  fold content in E1, Ho. fold o in E1.
  assert (JournalReader.next r1 = (Good None, JournalReader.stop_degraded r1)) as Hnext.
  { unfold bad in E2. rewrite <- !app_assoc in E2.
    rewrite (next_damaged r1 _ length crc payload _ E2 E3) by by rewrite E4.
    destruct Hd as (_ & _ & _ & Hc & _).
    rewrite (intact_follows r1 (build_file_header epoch wall ++ encode_records records) (le_bytes 4 length ++ crc)
      (payload ++ mid) record tail); [done| | |by rewrite E4|rewrite E4, <- app_assoc; done].
    - destruct E2 as (-> & _). f_equal. by rewrite <- !app_assoc.
    - rewrite zlen_app, zlen_le_bytes. lia. }
  assert (replay = (records, JournalReader.stop_degraded r1)) as Er.
  { unfold replay. replace (S (List.length records)) with (List.length records + 1)%nat by lia. rewrite E1.
    cbn [JournalReader.read_all]. rewrite Hnext. cbn [fst snd]. by rewrite app_nil_r. }
  rewrite Er. cbn [fst snd]. split_and!; [done|reflexivity|exact E5|].
  unfold JournalReader.repair_torn_tail, JournalReader.stop_degraded. cbn.
  destruct E2 as (-> & _). by rewrite E5.
Qed.

(** A length field out of range ends the replay as a torn tail. *)
Lemma replay_bad_length config epoch wall first records length rest content :
  let good := build_file_header epoch wall ++ encode_records records in
  let o := JournalReader.open no_faults config (mkDisk (Some content) None) in
  let replay := JournalReader.read_all (S (List.length records)) o.1.2 in
  let repaired := JournalReader.repair_torn_tail true true replay.2 in
  is_u64 epoch -> numbered first records -> 0 <= first -> first + zlen records <= u64_max ->
  Forall (record_fits config) records -> is_u32 length ->
  length < kRecordPrefixBytes \/ jc_max_record_bytes config < length -> 4 <= zlen rest ->
  zlen records < jc_max_recovery_records config <= u64_max ->
  zlen (encode_records records) < jc_max_recovery_bytes config <= u64_max ->
  content = good ++ le_bytes 4 length ++ rest ->
  (replay.1 = records /\ rr_degraded (JournalReader.report replay.2) = false) /\
  repaired.1 = StatusCode.Ok /\ JournalReader.content repaired.2 = Some good.
Proof.
  intros good o replay repaired He Hn H0 H1 Hf Hu Hlen Hrest Hr Hb ->.
  assert (o = JournalReader.open no_faults config (mkDisk (Some (build_file_header epoch wall
    ++ encode_records records ++ le_bytes 4 length ++ rest)) None)) as Eo
    by (unfold o, good; by rewrite <- app_assoc).
  unfold repaired, replay. rewrite Eo. clear Eo repaired replay o.
  destruct (replay_prefix config epoch wall first records (le_bytes 4 length ++ rest))
    as (Ho & _ & r1 & E1 & E2 & E3 & E4 & E5 & E6 & E7 & E8 & _); try assumption.
  set (o := JournalReader.open _ _ _) in *.
  assert (JournalReader.next r1 = (Good None, JournalReader.stop_torn r1)) as Hnext.
  { rewrite (next_at r1 _ _ E2 E3). cbv zeta.
    assert (zlen (slice 0 8 (le_bytes 4 length ++ rest)) = 8) as Hl8.
    { rewrite slice_eq, drop_0, zlen_take, zlen_app, zlen_le_bytes. lia. }
    rewrite Hl8. change (8 =? 0) with false. change (8 <? kRecordHeaderBytes) with false. cbv iota.
    assert (decode_u32 0 (slice 0 8 (le_bytes 4 length ++ rest)) = length) as ->.
    { unfold decode_u32. rewrite !slice_eq, !drop_0, take_take. change (Z.to_nat 4 `min` Z.to_nat 8)%nat with 4%nat.
      rewrite take_app_length' by (by rewrite le_bytes_length). apply le_value_bytes.
      change (256 ^ Z.of_nat 4) with 4294967296. unfold_ints. lia. }
    rewrite E4. destruct ((length <? kRecordPrefixBytes) || (jc_max_record_bytes config <? length)) eqn:El; [done|].
    breflect. lia. }
  assert (JournalReader.read_all (S (List.length records)) o.1.2 = (records, JournalReader.stop_torn r1)) as Er.
  { replace (S (List.length records)) with (List.length records + 1)%nat by lia. rewrite E1.
    cbn [JournalReader.read_all]. rewrite Hnext. cbn [fst snd]. by rewrite app_nil_r. }
  rewrite Er. cbn [fst snd]. split_and!; [done|exact E6| |];
    unfold JournalReader.repair_torn_tail, JournalReader.stop_torn;
    destruct E2 as (C1 & C2 & C3 & C4); cbn; rewrite C1; cbn; [done|].
  rewrite C3. f_equal. unfold zlen. rewrite Nat2Z.id. apply take_app_length.
Qed.

(** A damaged length field is taken for a torn tail.  When the length field
    of a record is outside the permitted range, recovery does not look for
    intact records behind it: the tail is called torn and the repair truncates
    everything from there on, although the header file promises that only a
    short read at the end of the file is truncated. *)
Theorem damaged_length_discards_the_rest config epoch wall first records length rest :
  let good := build_file_header epoch wall ++ encode_records records in
  let o := JournalReader.open no_faults config (mkDisk (Some (good ++ le_bytes 4 length ++ rest)) None) in
  let replay := JournalReader.read_all (S (List.length records)) o.1.2 in
  let repaired := JournalReader.repair_torn_tail true true replay.2 in
  is_u64 epoch -> numbered first records -> 0 <= first -> first + zlen records <= u64_max ->
  Forall (record_fits config) records -> is_u32 length ->
  length < kRecordPrefixBytes \/ jc_max_record_bytes config < length -> 4 <= zlen rest ->
  zlen records < jc_max_recovery_records config <= u64_max ->
  zlen (encode_records records) < jc_max_recovery_bytes config <= u64_max ->
  replay.1 = records /\ rr_degraded (JournalReader.report replay.2) = false /\
  repaired.1 = StatusCode.Ok /\ JournalReader.content repaired.2 = Some good.
Proof.
  intros good o replay repaired He Hn H0 H1 Hf Hu Hlen Hrest Hr Hb.
  destruct (replay_bad_length config epoch wall first records length rest (good ++ le_bytes 4 length ++ rest))
    as [[R1 R2] R3]; try assumption; [reflexivity|]. exact (conj R1 (conj R2 R3)).
Qed.

(** ** Bundles *)

Lemma put_bytes_ok L value w : w_status (put_bytes L value w) = StatusCode.Ok ->
  w_status w = StatusCode.Ok /\ zlen value <= cl_max_total_bytes L /\ zlen value <= u32_max /\
  w_buffer (put_bytes L value w) = w_buffer w ++ le_bytes 4 (zlen value) ++ value.
Proof.
  unfold put_bytes. destruct (ok (w_status w)) eqn:E; cbn [negb]; [|apply ok_status_false in E; done].
  apply ok_status in E. destruct (_ || _) eqn:E2.
  - unfold writer_fail. apply ok_status in E. rewrite E. done.
  - intros Hw. apply writer_raw_ok in Hw as [_ Hw]. breflect. split_and!; try done.
    rewrite Hw. unfold put_le. cbn [w_buffer]. by rewrite <- app_assoc.
Qed.

(** A record's place in a bundle. *)
Definition bundled (r : JournalRecord) : list Z :=
  le_bytes 8 (jrec_ordinal r) ++ [enum_val (jrec_kind r)] ++ le_bytes 4 (zlen (jrec_body r)) ++ jrec_body r.

Definition bundles (max_bytes : Z) (r : JournalRecord) : Prop :=
  zlen (jrec_body r) <= max_bytes /\ zlen (jrec_body r) <= u32_max.

Lemma put_record_ok max_bytes r w : w_status (put_record (bundle_limits max_bytes) r w) = StatusCode.Ok ->
  bundles max_bytes r /\ w_buffer (put_record (bundle_limits max_bytes) r w) = w_buffer w ++ bundled r.
Proof.
  unfold put_record. intros Hw. apply put_bytes_ok in Hw as (H1 & H2 & H3 & ->).
  apply put_u8_ok in H1 as [_ ->]. split; [done|]. unfold put_le, bundled. cbn [w_buffer].
  by rewrite <- !app_assoc.
Qed.

Lemma put_records_ok max_bytes l : forall w,
  w_status (put_records (bundle_limits max_bytes) l w) = StatusCode.Ok ->
  Forall (bundles max_bytes) l /\ w_buffer (put_records (bundle_limits max_bytes) l w) = w_buffer w ++ flat_map bundled l.
Proof.
  induction l as [|r l IH]; intros w; cbn [put_records flat_map]; [rewrite app_nil_r; done|].
  destruct (ok _) eqn:E; intros Hw.
  - apply ok_status in E. apply put_record_ok in E as [E1 E2]. apply IH in Hw as [H1 H2].
    split; [by constructor|]. by rewrite H2, E2, app_assoc.
  - by apply ok_status_false in E.
Qed.

Lemma get_record_bundled max_bytes r q : is_u64 (jrec_ordinal r) -> bundles max_bytes r ->
  get_record (bundle_limits max_bytes) max_bytes (mkReader (bundled r ++ q) StatusCode.Ok)
  = Good (r, mkReader q StatusCode.Ok).
Proof.
  intros Ho [H1 H2]. unfold get_record, bundled. rewrite <- !app_assoc.
  rewrite get_le_append by (change (256 ^ Z.of_nat 8) with 18446744073709551616; unfold_ints; lia).
  cbn [app]. unfold get_u8. cbn [r_status r_rest ok negb]. change (ok StatusCode.Ok) with true. cbn [negb].
  rewrite parse_kind_val. pose proof (zlen_nonneg (jrec_body r)).
  rewrite get_le_append by (change (256 ^ Z.of_nat 4) with 4294967296; unfold u32_max in H2; lia).
  destruct (max_bytes <? zlen (jrec_body r)) eqn:E; breflect; [lia|].
  unfold get_bytes. cbn [r_status r_rest cl_max_total_bytes bundle_limits]. change (ok StatusCode.Ok) with true. cbn [negb].
  destruct (max_bytes <? zlen (jrec_body r)) eqn:E2; breflect; [lia|]. rewrite zlen_app.
  destruct (zlen (jrec_body r) + zlen q <? zlen (jrec_body r)) eqn:E3; breflect; [pose proof (zlen_nonneg q); lia|].
  unfold zlen. rewrite Nat2Z.id, take_app_length, drop_app_length. by destruct r.
Qed.

Lemma get_records_bundled max_bytes l q : Forall (fun r => is_u64 (jrec_ordinal r)) l ->
  Forall (bundles max_bytes) l ->
  get_records (bundle_limits max_bytes) max_bytes (List.length l) (mkReader (flat_map bundled l ++ q) StatusCode.Ok)
  = Good (l, mkReader q StatusCode.Ok).
Proof.
  induction l as [|r l IH]; intros Ho Hb; cbn [get_records flat_map List.length app]; [done|].
  apply Forall_cons in Ho as [Ho1 Ho2]. apply Forall_cons in Hb as [Hb1 Hb2].
  rewrite <- app_assoc, get_record_bundled by done. by rewrite IH.
Qed.

(** Snapshot bundles round-trip.  Whatever list of records the encoder
    accepts, the decoder with the same byte limit returns, provided the record
    limit admits their number; compaction therefore loses no record it wrote. *)
Theorem record_bundle_round_trips records max_bytes max_records body :
  encode_record_bundle records max_bytes = Good body ->
  Forall (fun r => is_u64 (jrec_ordinal r)) records -> zlen records <= max_records ->
  decode_record_bundle body max_records max_bytes = Good records.
Proof.
  unfold encode_record_bundle. intros He Ho Hm. destruct (u32_max <? zlen records) eqn:E1; [done|]. breflect.
  destruct (ok _) eqn:E2; [|done]. injection He as <-. apply ok_status in E2.
  apply put_records_ok in E2 as [Hb ->]. unfold put_le, empty_writer. cbn [w_buffer app].
  unfold decode_record_bundle, reader_of. pose proof (zlen_nonneg records).
  rewrite get_le_append by (change (256 ^ Z.of_nat 4) with 4294967296; unfold u32_max in E1; lia).
  destruct (max_records <? zlen records) eqn:E3; breflect; [lia|].
  unfold zlen. rewrite Nat2Z.id, <- (app_nil_r (flat_map bundled records)), get_records_bundled by done. done.
Qed.

(** ** Witnesses *)

Lemma bytes_checked l : forallb (fun b => (0 <=? b) && (b <? 256)) l = true -> Forall is_byte l.
Proof.
  rewrite forallb_forall, List.Forall_forall. intros H b Hb. specialize (H b Hb). breflect. split; done.
Qed.

Module JournalExamples.
Definition config : JournalConfig := mkJournalConfig true "j" 64 4 true 0 8 false 16 4096.
Definition record (ordinal : Z) (body : list Z) : JournalRecord :=
  mkJournalRecord JournalRecordKind.Evidence ordinal body.
(** The side conditions on concrete records. *)
Ltac small := repeat (split || constructor); vm_compute; congruence.

Definition two : list JournalRecord := [record 5 [1; 2; 3]; record 6 []].
Definition torn_file : list Z :=
  (build_file_header 7 0 ++ encode_records two) ++ take 10 (encode_record_bytes (record 7 [9; 9])).

Lemma torn_append_is_recovered_witness :
  JournalReader.content
    (JournalReader.repair_torn_tail true true
       (JournalReader.read_all 3 (JournalReader.open no_faults config (mkDisk (Some torn_file) None)).1.2).2).2
  = Some (build_file_header 7 0 ++ encode_records two).
Proof.
  destruct (torn_append_is_recovered config 7 0 5 two (record 7 [9; 9]) 10) as (_ & _ & _ & _ & _ & H).
  - small.
  - small.
  - small.
  - small.
  - small.
  - vm_compute. lia.
  - small.
  - small.
  - exact (proj2 (H ltac:(discriminate))).
Defined.

Lemma recovery_trusts_only_verified_records_witness :
  (JournalReader.read_all 3 (JournalReader.open no_faults config (mkDisk (Some torn_file) None)).1.2).1 = two /\
  exists header rest, torn_file = header ++ encode_records two ++ rest /\ zlen header = kFileHeaderBytes.
Proof.
  split; [vm_compute; reflexivity|].
  destruct (recovery_trusts_only_verified_records config torn_file 3) as (header & rest & H1 & H2 & _).
  - apply bytes_checked. vm_compute. reflexivity.
  - vm_compute. discriminate.
  - vm_compute. reflexivity.
  - exists header, rest. split; [exact H1|exact H2].
Defined.

Definition flipped : list Z := [0; 0; 0; 0; 0; 0; 0; 0; 5].

Lemma interior_corruption_is_reported_witness :
  rr_degraded (JournalReader.report (JournalReader.read_all 3 (JournalReader.open no_faults config
    (mkDisk (Some (build_file_header 7 0 ++ encode_records two ++ (le_bytes 4 9 ++ [0; 0; 0; 0] ++ flipped) ++ []
       ++ encode_record_bytes (record 8 [1]) ++ [])) None)).1.2).2) = true.
Proof.
  destruct (interior_corruption_is_reported config 7 0 5 two 9 [0; 0; 0; 0] flipped [] (record 8 [1]) [])
    as (_ & H & _).
  - small.
  - small.
  - small.
  - small.
  - small.
  - small.
  - small.
  - small.
  - small.
  - small.
  - exact H.
Defined.

Lemma damaged_length_discards_the_rest_witness :
  JournalReader.content
    (JournalReader.repair_torn_tail true true
       (JournalReader.read_all 3 (JournalReader.open no_faults config
          (mkDisk (Some ((build_file_header 7 0 ++ encode_records two) ++ le_bytes 4 0
             ++ [0; 0; 0; 0] ++ encode_record_bytes (record 8 [1]))) None)).1.2).2).2
  = Some (build_file_header 7 0 ++ encode_records two).
Proof.
  destruct (damaged_length_discards_the_rest config 7 0 5 two 0 ([0; 0; 0; 0] ++ encode_record_bytes (record 8 [1])))
    as (_ & _ & _ & H).
  - small.
  - small.
  - small.
  - small.
  - small.
  - small.
  - left. reflexivity.
  - small.
  - small.
  - small.
  - exact H.
Defined.

Lemma record_bundle_round_trips_witness :
  decode_record_bundle
    (match encode_record_bundle two 256 with Good b => b | Bad _ => [] end) 4 256 = Good two.
Proof.
  apply record_bundle_round_trips.
  - vm_compute. reflexivity.
  - repeat constructor; vm_compute; congruence.
  - vm_compute. congruence.
Defined.
End JournalExamples.
