(* ===== verification/JournalWriterSpec.v ===== *)
(** * The background journal: theorems

    The journal with its queue and its writer thread refines an append-only log:
    appends extend the log, compaction replaces it by its snapshot, and the file
    always holds a prefix of it, so that a crash at any point loses only a
    suffix. *)

From Stdlib Require Import ZArith Lia Bool List String Ascii.
From stdpp Require Import base decidable list strings.
From S2P Require Import Prelude OrdMap Core Hash Quality Config Codec Journal JournalSpec.

Open Scope Z_scope.

#[local] Arguments enum_val : simpl never.
#[local] Arguments le_bytes : simpl never.
#[local] Arguments crc32c : simpl never.
#[local] Arguments slice : simpl never.
#[local] Arguments encode_record_bytes : simpl never.
#[local] Arguments build_file_header : simpl never.

(** ** Operations and the abstract log *)

(** The atomic operations of the callers and of the writer thread. *)
Inductive JournalOp :=
  | OpAppendRecord (kind : JournalRecordKind.t) (ordinal : Z) (body : list Z)
  | OpWriterPop
  | OpWriterWrite (limit : option Z)
  | OpFlush (sync_ok : bool)
  | OpCompact (snapshot_ordinal : Z) (snapshot_body : list Z).

(** An operation on the journal beside its log: an accepted record extends the
    log, a completed compaction replaces it. *)
Definition journal_step (op : JournalOp) (s : BackgroundJournal.t * list JournalRecord)
  : BackgroundJournal.t * list JournalRecord :=
  let '(j, log) := s in
  match op with
  | OpAppendRecord kind ordinal body =>
      let '(status, j') := BackgroundJournal.append kind ordinal body j in
      (j', if ok status then log ++ [mkJournalRecord kind ordinal body] else log)
  | OpWriterPop => (match BackgroundJournal.writer_pop j with Some j' => j' | None => j end, log)
  | OpWriterWrite limit => (match BackgroundJournal.writer_write limit j with Some j' => j' | None => j end, log)
  | OpFlush sync_ok => (match BackgroundJournal.flush sync_ok j with Some (_, j') => j' | None => j end, log)
  | OpCompact ordinal body =>
      match BackgroundJournal.compact compact_ok ordinal body j with
      | Some (status, j') =>
          (j', if ok status then [mkJournalRecord JournalRecordKind.Snapshot ordinal body] else log)
      | None => (j, log)
      end
  end.

Definition journal_run (config : JournalConfig) (epoch wall : Z) (ops : list JournalOp)
  : BackgroundJournal.t * list JournalRecord :=
  fold_left (fun s op => journal_step op s) ops
    ((BackgroundJournal.open no_faults epoch wall (BackgroundJournal.create config (mkDisk None None))).2, []).

(** Ordinals leave room for a successor; bodies leave room for the prefix. *)
Definition op_fits (config : JournalConfig) (op : JournalOp) : Prop :=
  match op with
  | OpAppendRecord _ ordinal body | OpCompact ordinal body =>
      0 <= ordinal < u64_max /\ zlen body + kRecordPrefixBytes <= jc_max_record_bytes config
  | _ => True
  end.

(** A proper prefix of an encoded record that fits. *)
Definition torn (config : JournalConfig) (tail : list Z) : Prop :=
  exists r n, tail = take n (encode_record_bytes r) /\ (n < List.length (encode_record_bytes r))%nat /\
    record_fits config r.

Definition pending (j : BackgroundJournal.t) : list JournalRecord :=
  match BackgroundJournal.writing j with Some r => [r] | None => [] end ++ BackgroundJournal.queue j.

Definition file_bytes (j : BackgroundJournal.t) : list Z := BackgroundJournal.content_of (BackgroundJournal.disk j).

Record journal_inv (config : JournalConfig) (j : BackgroundJournal.t) (log : list JournalRecord) : Prop := {
  ji_config : BackgroundJournal.config j = config;
  ji_file : exists e w done tail, is_u64 e /\
    file_bytes j = build_file_header e w ++ encode_records done ++ tail /\ torn config tail /\
    (exists lost, log = done ++ lost) /\
    (BackgroundJournal.failed j = false -> tail = [] /\ log = done ++ pending j /\
       BackgroundJournal.file j = Some (zlen (file_bytes j)));
  ji_open : BackgroundJournal.is_open j = true;
  ji_failed : BackgroundJournal.failed j = true -> pending j = [] /\ BackgroundJournal.failure j <> StatusCode.Ok;
  ji_log : exists first, 0 <= first /\ numbered first log /\
    (log <> [] -> BackgroundJournal.has_enqueued_ordinal j = true /\
       BackgroundJournal.last_enqueued_ordinal j = first + zlen log - 1);
  ji_fits : Forall (fun r => record_fits config r /\ jrec_ordinal r < u64_max) log;
  ji_queue : zlen (BackgroundJournal.queue j) <= jc_max_queue_depth config;
}.

(** ** Lists of records *)

Lemma encode_records_app a b : encode_records (a ++ b) = encode_records a ++ encode_records b.
Proof. unfold encode_records. apply flat_map_app. Qed.

Lemma numbered_app a : forall n b, numbered n (a ++ b) <-> numbered n a /\ numbered (n + zlen a) b.
Proof.
  induction a as [|x a IH]; intros n b; simpl; [by rewrite Z.add_0_r; intuition|].
  rewrite IH, zlen_cons. replace (n + 1 + zlen a) with (n + (zlen a + 1)) by lia. intuition.
Qed.

Lemma numbered_last n l r : numbered n (l ++ [r]) -> jrec_ordinal r = n + zlen l.
Proof. rewrite numbered_app. by intros [_ [? _]]. Qed.

(** Ordinals below the maximum leave room for the numbering. *)
Lemma numbered_bounded first l : 0 <= first -> numbered first l -> Forall (fun r => jrec_ordinal r < u64_max) l ->
  exists f, 0 <= f /\ numbered f l /\ f + zlen l <= u64_max.
Proof.
  intros F0 F1 Hx. destruct l as [|a l]; [by exists 0|]. exists first. split; [done|]. split; [done|].
  destruct (exists_last (l := a :: l) ltac:(done)) as (l0 & x & E). rewrite E in *.
  apply Forall_app in Hx as [_ Hx]. apply Forall_cons in Hx as [Hx _].
  apply numbered_last in F1. rewrite zlen_app. unfold zlen at 2. simpl. lia.
Qed.

Lemma torn_nil config : 9 <= jc_max_record_bytes config <= u32_max -> torn config [].
Proof.
  intros Hm. exists (mkJournalRecord JournalRecordKind.Evidence 0 []), 0%nat. split; [done|]. split.
  - vm_compute. lia.
  - unfold record_fits, kRecordPrefixBytes. change (zlen (jrec_body _)) with 0. cbn [jrec_ordinal]. unfold_ints. lia.
Qed.

(** Wherever the bytes are cut, what is left is whole records and a torn one. *)
Lemma cut_records config tail : torn config tail -> 9 <= jc_max_record_bytes config <= u32_max ->
  forall done k, Forall (record_fits config) done ->
  exists kept lost tail', done = kept ++ lost /\ torn config tail' /\
    take k (encode_records done ++ tail) = encode_records kept ++ tail' /\
    ((zlen (encode_records done) <= Z.of_nat k) -> lost = []).
Proof.
  intros Ht Hm. induction done as [|r done IH]; intros k Hf.
  - exists [], [], (take k tail). split; [done|]. split; [|done].
    destruct Ht as (r & n & -> & Hn & Hr). exists r, (k `min` n)%nat. rewrite take_take. split; [done|]. split; [lia|done].
  - apply Forall_cons in Hf as [Hr Hf]. cbn [encode_records flat_map]. fold (encode_records done).
    destruct (le_lt_dec (List.length (encode_record_bytes r)) k) as [Hge|Hlt].
    + destruct (IH (k - List.length (encode_record_bytes r))%nat Hf) as (kept & lost & tail' & -> & H1 & H2 & H3).
      exists (r :: kept), lost, tail'. split; [done|]. split; [done|]. split.
      * rewrite <- app_assoc, take_app_ge by done. rewrite H2. cbn [encode_records flat_map].
        by rewrite <- app_assoc.
      * intros Hk. apply H3. rewrite zlen_app in Hk. unfold zlen in *. lia.
    + exists [], (r :: done), (take k (encode_record_bytes r)). split; [done|]. split.
      * exists r, k. done.
      * split; [rewrite <- app_assoc; by rewrite take_app_le by lia|].
        intros Hk. exfalso. rewrite zlen_app in Hk. pose proof (zlen_nonneg (encode_records done)).
        unfold zlen in *. lia.
Qed.

Lemma write_at_end data content : write_at (zlen content) data content = content ++ data.
Proof.
  unfold write_at, zlen. rewrite Nat2Z.id, take_ge by lia. rewrite drop_ge by lia. by rewrite app_nil_r.
Qed.

Lemma written_whole limit data : write_complete limit data = true -> written_of limit data = data.
Proof.
  unfold write_complete, written_of. destruct limit as [n|]; [|done]. intros H. breflect. apply take_ge. unfold zlen in H. lia.
Qed.

(** ** Preservation *)

Section Preservation.
Import BackgroundJournal.
Context (cfg : JournalConfig).
Context (enabled : jc_enabled cfg = true) (max_ok : 9 <= jc_max_record_bytes cfg <= u32_max)
  (depth_ok : 1 <= jc_max_queue_depth cfg).

Lemma inv_create e w : is_u64 e ->
  journal_inv cfg (open no_faults e w (create cfg (mkDisk None None))).2 [].
Proof using enabled max_ok depth_ok.
  intros He. unfold open, create. cbn [config]. rewrite enabled.
  cbn [negb is_open disk disk_temp disk_main fa_temp_seen fa_main_seen fa_open_ok fa_seek_ok fa_tell_ok no_faults
    file_exists opened_content andb fa_written written_of write_complete fa_sync_ok].
  change (zlen [] <=? 0) with true. cbn [snd].
  constructor; cbn [config is_open failed queue writing disk file has_enqueued_ordinal last_enqueued_ordinal];
    try done.
  - exists e, w, [], []. unfold file_bytes, content_of. cbn [disk disk_main encode_records flat_map].
    rewrite !app_nil_r. split_and!; try done; [by apply torn_nil|by exists []].
  - exists 0. split_and!; [lia|done|done].
  - unfold zlen. simpl. lia.
Qed.

Lemma inv_append kind ordinal body j log : journal_inv cfg j log ->
  op_fits cfg (OpAppendRecord kind ordinal body) ->
  let s := journal_step (OpAppendRecord kind ordinal body) (j, log) in journal_inv cfg s.1 s.2.
Proof using max_ok.
  intros Hi [Ho Hs]. unfold journal_step, append.
  destruct Hi as [Hc (e & w & done & tail & He & Hf & Ht & (lost & El) & Hnf) Hop Hfl (first & H0 & Hnum & Hlast) Hfit Hq].
  assert (journal_inv cfg j log) as Hsame by (constructor; eauto 12).
  rewrite Hc. destruct (negb (jc_enabled cfg)); [done|]. destruct (_ <? zlen body); [done|].
  destruct (negb (is_open j) || negb (accepting j)); [done|].
  destruct (failed j) eqn:Efl.
  { destruct (Hfl eq_refl) as [_ Hb]. apply ok_status_false in Hb. cbn [fst snd]. by rewrite Hb. }
  destruct (jc_max_queue_depth cfg <=? zlen (queue j)) eqn:Eq.
  { cbn [fst snd ok]. change (ok StatusCode.Busy) with false. cbv iota. destruct Hsame. by constructor. }
  destruct (has_enqueued_ordinal j && negb (ordinal =? wrap64 (last_enqueued_ordinal j + 1))) eqn:Eo; [done|].
  change (ok StatusCode.Ok) with true. cbv iota. cbn [fst snd]. breflect.
  destruct (Hnf eq_refl) as (-> & Elog & Efile).
  set (record := mkJournalRecord kind ordinal body).
  assert (exists f, 0 <= f /\ numbered f (log ++ [record]) /\ f + zlen log = ordinal) as (f & F0 & F1 & F2).
  { destruct log as [|a log'].
    - exists ordinal. unfold zlen. simpl. split_and!; try done; lia.
    - destruct (Hlast ltac:(done)) as [L1 L2]. rewrite L1 in Eo. cbn [andb] in Eo. breflect.
      assert (last_enqueued_ordinal j < u64_max) as Hlt.
      { rewrite L2. destruct (exists_last (l := a :: log') ltac:(done)) as (l0 & x & E). rewrite E in *.
        apply Forall_app in Hfit as [_ Hx]. apply Forall_cons in Hx as [[_ Hx] _].
        apply numbered_last in Hnum. rewrite zlen_app. unfold zlen at 2. simpl. lia. }
      assert (0 <= last_enqueued_ordinal j) by (rewrite L2, zlen_cons; pose proof (zlen_nonneg log'); lia).
      rewrite wrap64_id in Eo by (unfold_ints; lia).
      exists first. split; [done|]. split; [|lia]. apply numbered_app. split; [done|]. simpl. split; [lia|done]. }
  constructor; cbn [config is_open failed queue writing disk file has_enqueued_ordinal last_enqueued_ordinal].
  - done.
  - exists e, w, done, []. split_and!; try done.
    + exists (lost ++ [record]). by rewrite El, app_assoc.
    + intros _. split; [done|]. split; [|done]. unfold pending. cbn [writing queue].
      rewrite Elog. unfold pending. by rewrite <- !app_assoc.
  - done.
  - done.
  - exists f. split_and!; try done. intros _. split; [done|]. rewrite zlen_app. unfold zlen at 2. simpl. lia.
  - apply Forall_app. split; [done|]. constructor; [|done]. split; [|cbn; lia]. unfold record_fits, record.
    cbn [jrec_ordinal jrec_body]. unfold_ints. lia.
  - rewrite zlen_app. unfold zlen at 2. simpl. lia.
Qed.

Lemma inv_pop j log : journal_inv cfg j log ->
  let s := journal_step OpWriterPop (j, log) in journal_inv cfg s.1 s.2.
Proof.
  intros Hi. unfold journal_step, writer_pop. cbn [fst snd].
  destruct (writing j) eqn:Ew; [done|]. destruct (queue j) as [|r rest] eqn:Eq; [done|].
  destruct Hi as [Hc (e & w & done & tail & He & Hf & Ht & Hl & Hnf) Hop Hfl Hlog Hfit Hq].
  constructor; cbn [config is_open failed queue writing disk file has_enqueued_ordinal last_enqueued_ordinal]; try done.
  - exists e, w, done, tail. split_and!; try done. intros Hf'. destruct (Hnf Hf') as (-> & -> & Efile).
    split_and!; try done. unfold pending. cbn [writing queue]. by rewrite Ew, Eq.
  - intros Hfail. destruct (Hfl Hfail) as [Hp _]. unfold pending in Hp. rewrite Ew, Eq in Hp. done.
  - rewrite Eq, zlen_cons in Hq. lia.
Qed.

Lemma torn_cut r limit : record_fits cfg r -> write_complete limit (encode_record_bytes r) = false ->
  torn cfg (written_of limit (encode_record_bytes r)).
Proof.
  intros Hr. unfold write_complete, written_of. destruct limit as [n|]; [|done]. intros Hn. breflect.
  pose proof (zlen_record r) as Hz. rewrite zlen_payload in Hz. pose proof (zlen_nonneg (jrec_body r)).
  exists r, (Z.to_nat n). split_and!; [done| |done].
  unfold zlen, kRecordHeaderBytes, kRecordPrefixBytes in *. lia.
Qed.

Lemma inv_write limit j log : journal_inv cfg j log ->
  let s := journal_step (OpWriterWrite limit) (j, log) in journal_inv cfg s.1 s.2.
Proof using max_ok depth_ok.
  intros Hi. unfold journal_step, writer_write. cbn [fst snd].
  destruct (writing j) as [r|] eqn:Ew; [|done].
  destruct Hi as [Hc (e & w & done & tail & He & Hf & Ht & Hl & Hnf) Hop Hfl Hlog Hfit Hq].
  destruct (failed j) eqn:Efl.
  { destruct (Hfl eq_refl) as [Hp _]. unfold pending in Hp. by rewrite Ew in Hp. }
  destruct (Hnf eq_refl) as (-> & Elog & Efile). rewrite Efile.
  assert (record_fits cfg r) as Hr.
  { rewrite Elog in Hfit. unfold pending in Hfit. rewrite Ew in Hfit.
    apply Forall_app in Hfit as [_ Hfit]. by apply Forall_cons in Hfit as [[? _] _]. }
  unfold file_bytes. rewrite write_at_end. fold (file_bytes j). rewrite Hf, app_nil_r.
  assert (forall data, (build_file_header e w ++ encode_records done) ++ data
    = build_file_header e w ++ encode_records done ++ data) as Hassoc by (intros; by rewrite app_assoc).
  destruct (write_complete limit (encode_record_bytes r)) eqn:Ecomp.
  - rewrite written_whole by done.
    constructor; unfold written; cbn [config is_open failed queue writing disk file has_enqueued_ordinal last_enqueued_ordinal];
      try done; [|by rewrite Efl].
    exists e, w, (done ++ [r]), []. unfold file_bytes. cbn [disk content_of disk_main].
    rewrite encode_records_app. cbn [encode_records flat_map]. rewrite !app_nil_r.
    split_and!; try done.
    + exists (queue j). rewrite Elog. unfold pending. rewrite Ew. by rewrite <- app_assoc.
    + intros _. split; [done|]. split.
      * rewrite Elog. unfold pending. cbn [writing queue]. rewrite Ew. by rewrite <- app_assoc.
      * by rewrite <- zlen_app.
  - constructor; unfold write_failed; cbn [config is_open failed queue writing disk file has_enqueued_ordinal last_enqueued_ordinal failure];
      try done.
    + exists e, w, done, (written_of limit (encode_record_bytes r)). unfold file_bytes. cbn [disk content_of disk_main].
      split_and!; try done. by apply torn_cut.
    + unfold zlen. simpl. lia.
Qed.

Lemma inv_flush sync_ok j log : journal_inv cfg j log ->
  let s := journal_step (OpFlush sync_ok) (j, log) in journal_inv cfg s.1 s.2.
Proof.
  intros Hi. unfold journal_step, flush. pose proof (ji_config _ _ _ Hi) as Hc. rewrite Hc.
  destruct (negb (jc_enabled cfg)); [done|]. destruct (negb (idle j || failed j || negb (is_open j))) eqn:Ei; [done|].
  rewrite (ji_open _ _ _ Hi) in *. cbn [negb]. destruct (failed j) eqn:Efl; [done|].
  assert (idle j = true) as Hidle by (destruct (idle j); done).
  destruct Hi as [_ (e & w & done & tail & He & Hf & Ht & Hl & Hnf) Hop Hfl Hlog Hfit Hq].
  destruct (match file j with Some _ => negb sync_ok | None => false end).
  - constructor; cbn; try done.
    + exists e, w, done, tail. split_and!; try done.
    + intros _. split; [|done]. unfold idle in Hidle. unfold pending. cbn.
      by destruct (queue j), (writing j).
  - constructor; cbn; try done. exists e, w, done, tail. split_and!; try done.
Qed.

Lemma inv_compact ordinal body j log : journal_inv cfg j log -> op_fits cfg (OpCompact ordinal body) ->
  let s := journal_step (OpCompact ordinal body) (j, log) in journal_inv cfg s.1 s.2.
Proof using max_ok.
  intros Hi [Ho Hs]. unfold journal_step, compact. pose proof (ji_config _ _ _ Hi) as Hc. rewrite Hc.
  destruct (negb (jc_enabled cfg)); [done|]. destruct (_ <? zlen body); [done|].
  destruct (negb (idle j || failed j || negb (is_open j))) eqn:Ei; [done|].
  rewrite (ji_open _ _ _ Hi) in *. cbn [negb].
  destruct (failed j) eqn:Efl.
  { destruct (ji_failed _ _ _ Hi Efl) as [_ Hb]. apply ok_status_false in Hb. cbn [fst snd]. by rewrite Hb. }
  assert (idle j = true) as Hidle by (destruct (idle j); done).
  destruct (has_expected_ordinal j && _); [done|].
  set (snapshot := mkJournalRecord JournalRecordKind.Snapshot ordinal body).
  unfold replace, write_temporary. cbn [compact_ok cf_temp_open_ok cf_header_written cf_snapshot_written cf_sync_ok
    cf_rename_ok cf_reopen_ok negb written_of write_complete content_of disk_main].
  change (ok StatusCode.Ok) with true. cbv iota. cbn [fst snd].
  assert (queue j = [] /\ writing j = None) as [Eq Ew] by (unfold idle in Hidle; by destruct (queue j), (writing j)).
  constructor; cbn [config is_open failed queue writing disk file has_enqueued_ordinal last_enqueued_ordinal]; try done.
  - exists 0, 0, [snapshot], []. unfold file_bytes, pending. cbn [disk content_of disk_main encode_records flat_map writing queue file].
    rewrite Eq, Ew, !app_nil_r. split_and!; try done.
    + by apply torn_nil.
    + by exists [].
  - exists ordinal. split_and!; try done; [lia|]. intros _. split; [done|]. unfold zlen. simpl. lia.
  - constructor; [|done]. split; [|cbn; lia]. unfold record_fits, snapshot. cbn [jrec_ordinal jrec_body]. unfold_ints. lia.
  - rewrite Eq. unfold zlen. simpl. pose proof (ji_queue _ _ _ Hi) as Hq. rewrite Eq in Hq. exact Hq.
Qed.

Lemma inv_step op j log : journal_inv cfg j log -> op_fits cfg op ->
  journal_inv cfg (journal_step op (j, log)).1 (journal_step op (j, log)).2.
Proof using max_ok depth_ok.
  destruct op; intros Hi Hf; [by apply inv_append|by apply inv_pop|by apply inv_write|by apply inv_flush|by apply inv_compact].
Qed.

Lemma inv_run e w ops : is_u64 e -> Forall (op_fits cfg) ops ->
  journal_inv cfg (journal_run cfg e w ops).1 (journal_run cfg e w ops).2.
Proof using enabled max_ok depth_ok.
  intros He Hf. unfold journal_run. pose proof (inv_create e w He) as Hi. revert Hi.
  generalize (open no_faults e w (create cfg (mkDisk None None))).2 as j. generalize (@nil JournalRecord) as log.
  induction Hf as [|op ops Hop Hops IH]; intros log j Hi; [done|]. cbn [fold_left].
  pose proof (inv_step op j log Hi Hop) as Hi'. destruct (journal_step op (j, log)) as [j' log']. by apply IH.
Qed.
End Preservation.

(** ** Theorems *)

(** The background journal refines an append-only log.  After any
    interleaving of appends, writer steps (complete or cut short), flushes and
    compactions, the queue is bounded; the file is a header followed by whole
    records that are a prefix of the log and at most a torn record; while no
    write has failed nothing is torn and the rest of the log is exactly what is
    in flight and queued; and a flush that reports success leaves the whole log
    in the file. *)
Theorem journal_refines_log cfg epoch wall ops :
  let '(j, log) := journal_run cfg epoch wall ops in
  jc_enabled cfg = true -> 9 <= jc_max_record_bytes cfg <= u32_max -> 1 <= jc_max_queue_depth cfg ->
  is_u64 epoch -> Forall (op_fits cfg) ops ->
  zlen (BackgroundJournal.queue j) <= jc_max_queue_depth cfg /\
  exists e w done tail lost,
    file_bytes j = build_file_header e w ++ encode_records done ++ tail /\ torn cfg tail /\ log = done ++ lost /\
    (BackgroundJournal.failed j = false -> tail = [] /\ lost = pending j) /\
    (forall sync_ok j', BackgroundJournal.flush sync_ok j = Some (StatusCode.Ok, j') ->
       file_bytes j' = build_file_header e w ++ encode_records log).
Proof.
  destruct (journal_run cfg epoch wall ops) as [j log] eqn:Er. intros H1 H2 H3 H4 H5.
  pose proof (inv_run cfg H1 H2 H3 epoch wall ops H4 H5) as Hi. rewrite Er in Hi. cbn [fst snd] in Hi.
  split; [by apply (ji_queue _ _ _ Hi)|].
  destruct (ji_file _ _ _ Hi) as (e & w & done & tail & He & Hf & Ht & (lost & El) & Hnf).
  exists e, w, done, tail, lost. split_and!; try done.
  - intros Hfl. destruct (Hnf Hfl) as (Htl & El' & _). split; [done|]. rewrite El in El'. by apply app_inv_head in El'.
  - intros sync_ok j'. unfold BackgroundJournal.flush. rewrite (ji_config _ _ _ Hi), H1. cbn [negb].
    destruct (negb _) eqn:Ei; [done|]. rewrite (ji_open _ _ _ Hi) in *. cbn [negb].
    destruct (BackgroundJournal.failed j) eqn:Efl.
    { intros [= Hbad _]. by destruct (ji_failed _ _ _ Hi Efl). }
    destruct (match BackgroundJournal.file j with Some _ => _ | None => _ end); [done|]. intros [= <-].
    destruct (Hnf eq_refl) as (-> & El' & _).
    assert (pending j = []) as Hp.
    { unfold pending. unfold BackgroundJournal.idle in Ei.
      by destruct (BackgroundJournal.queue j), (BackgroundJournal.writing j). }
    rewrite Hp, app_nil_r in El'. change (file_bytes (BackgroundJournal.with_stats j _)) with (file_bytes j).
    by rewrite Hf, El', app_nil_r.
Qed.

(** C24: A crash loses only a suffix of the log.  After any sequence of appends, steps
    of the writer, flushes and compactions on a new journal, with writes cut short
    and synchronisations failing anywhere, compactions whose file operations
    succeed, ordinals below the last, bodies that leave room for the nine bytes of their prefix within the
    record limit, and a log within the limits of recovery: cut the file anywhere
    after its header, as a crash may, and recovery opens it, never calls it corrupt,
    and returns a prefix of the accepted records in order; and when no write has
    failed, nothing is queued and the whole file survived, it returns all of them.
    (After a failed compaction this does not hold: see
    [failed_compaction_destroys_journal].) *)
Theorem crash_loses_only_a_suffix cfg epoch wall ops cut :
  let run := journal_run cfg epoch wall ops in
  let survived := take (Z.to_nat cut) (file_bytes run.1) in
  let o := JournalReader.open no_faults cfg (mkDisk (Some survived) None) in
  let replay := JournalReader.read_all (S (List.length run.2)) o.1.2 in
  jc_enabled cfg = true -> 9 <= jc_max_record_bytes cfg <= u32_max -> 1 <= jc_max_queue_depth cfg ->
  is_u64 epoch -> Forall (op_fits cfg) ops -> kFileHeaderBytes <= cut ->
  zlen run.2 < jc_max_recovery_records cfg <= u64_max ->
  zlen (encode_records run.2) < jc_max_recovery_bytes cfg <= u64_max ->
  outcome_status o.1.1 = StatusCode.Ok /\
  rr_degraded (JournalReader.report replay.2) = false /\
  (exists lost, run.2 = replay.1 ++ lost) /\
  (BackgroundJournal.failed run.1 = false -> pending run.1 = [] -> zlen (file_bytes run.1) <= cut ->
     replay.1 = run.2).
Proof.
  intros run survived o replay H1 H2 H3 H4 H5 Hcut Hr Hb.
  pose proof (inv_run cfg H1 H2 H3 epoch wall ops H4 H5) as Hi. fold run in Hi.
  destruct (ji_file _ _ _ Hi) as (e & w & done & tail & He & Hf & Ht & (lost & El) & Hnf).
  destruct (ji_log _ _ _ Hi) as (first & F0 & F1 & _).
  assert (Forall (record_fits cfg) done) as Hfit.
  { pose proof (ji_fits _ _ _ Hi) as Hx. rewrite El in Hx. apply Forall_app in Hx as [Hx _].
    eapply Forall_impl; [exact Hx|]. by intros r [? _]. }
  destruct (cut_records cfg tail Ht H2 done (Z.to_nat cut - 40)%nat Hfit)
    as (kept & gone & tail' & Ed & (r & n & -> & Hn & Hrf) & Ecut & Hall).
  assert (survived = (build_file_header e w ++ encode_records kept) ++ take n (encode_record_bytes r)) as Es.
  { unfold survived. rewrite Hf. pose proof (zlen_file_header e w) as Hz. unfold zlen, kFileHeaderBytes in *.
    rewrite take_app_ge by lia. replace (List.length (build_file_header e w)) with 40%nat by lia.
    by rewrite Ecut, <- app_assoc. }
  rewrite Ed in Hfit. apply Forall_app in Hfit as [Hfk _].
  rewrite El, Ed, <- app_assoc in F1. apply numbered_app in F1 as [F1 _].
  assert (zlen run.2 = zlen kept + zlen (gone ++ lost) /\
    zlen (encode_records run.2) = zlen (encode_records kept) + zlen (encode_records (gone ++ lost))) as [Z1 Z2].
  { rewrite El, Ed, <- app_assoc, encode_records_app, !zlen_app. lia. }
  pose proof (zlen_nonneg (gone ++ lost)). pose proof (zlen_nonneg (encode_records (gone ++ lost))).
  destruct (numbered_bounded first kept F0 F1) as (f & G0 & G1 & G2).
  { pose proof (ji_fits _ _ _ Hi) as Hx. rewrite El, Ed, <- app_assoc in Hx. apply Forall_app in Hx as [Hx _].
    eapply Forall_impl; [exact Hx|]. by intros x [_ ?]. }
  unfold replay, o. rewrite Es, <- app_assoc. clear replay o survived Es.
  destruct (replay_prefix cfg e w f kept (take n (encode_record_bytes r)))
    as (Ho & _ & r1 & E1 & E2 & E3 & E4 & E5 & E6 & E7 & E8 & _); try assumption; [lia|lia|].
  set (o := JournalReader.open _ _ _) in *.
  pose proof (next_torn r1 _ r n E2 E3 ltac:(by rewrite E4) Hn) as Hnext.
  assert (JournalReader.read_all (S (List.length run.2)) o.1.2
    = (kept, if (n =? 0)%nat then JournalReader.stop_end r1 else JournalReader.stop_torn r1)) as Er.
  { replace (S (List.length run.2)) with (List.length kept + S (List.length run.2 - List.length kept))%nat
      by (unfold zlen in *; lia).
    rewrite E1. cbn [JournalReader.read_all]. rewrite Hnext. cbn [fst snd]. by rewrite app_nil_r. }
  rewrite Er. cbn [fst snd]. split; [done|]. split; [by destruct (n =? 0)%nat|].
  split; [exists (gone ++ lost); by rewrite El, Ed, <- app_assoc|].
  intros Hnofail Hp Hlen. destruct (Hnf Hnofail) as (-> & El' & _). rewrite Hp, app_nil_r in El'.
  rewrite El', Ed, Hall; [by rewrite app_nil_r|].
  rewrite Hf, !zlen_app, zlen_file_header in Hlen. unfold kFileHeaderBytes, zlen in *. simpl in Hlen. lia.
Qed.

(** C35: The journal accepts records its own recovery refuses.  A body within the
    record limit but less than the nine bytes of its prefix below it is accepted
    and written; on recovery its length is out of range, the record is taken for
    a torn tail, and the repair truncates it together with everything behind
    it. *)
Theorem oversized_record_is_truncated cfg j kind ordinal body epoch wall first records rest :
  let record := mkJournalRecord kind ordinal body in
  let good := build_file_header epoch wall ++ encode_records records in
  let o := JournalReader.open no_faults cfg
             (mkDisk (Some (good ++ encode_record_bytes record ++ rest)) None) in
  let repaired := JournalReader.repair_torn_tail true true
                    (JournalReader.read_all (S (List.length records)) o.1.2).2 in
  jc_max_record_bytes cfg - kRecordPrefixBytes < zlen body <= jc_max_record_bytes cfg ->
  jc_max_record_bytes cfg + kRecordPrefixBytes <= u32_max ->
  BackgroundJournal.config j = cfg -> BackgroundJournal.has_capacity j = true ->
  BackgroundJournal.has_enqueued_ordinal j = false \/
    ordinal = wrap64 (BackgroundJournal.last_enqueued_ordinal j + 1) ->
  is_u64 epoch -> numbered first records -> 0 <= first -> first + zlen records <= u64_max ->
  Forall (record_fits cfg) records -> zlen records < jc_max_recovery_records cfg <= u64_max ->
  zlen (encode_records records) < jc_max_recovery_bytes cfg <= u64_max ->
  (BackgroundJournal.append kind ordinal body j).1 = StatusCode.Ok /\
  repaired.1 = StatusCode.Ok /\ JournalReader.content repaired.2 = Some good.
Proof.
  intros record good o repaired Hbody Hmax Hcfg Hcap Hord He Hn H0 H1 Hf Hr Hb. split.
  - unfold BackgroundJournal.has_capacity in Hcap. breflect. unfold BackgroundJournal.append. rewrite Hcfg in *.
    repeat match goal with H : _ = true |- _ => rewrite H | H : _ = false |- _ => rewrite H end. cbn [negb orb].
    destruct (jc_max_record_bytes cfg <? zlen body) eqn:E; breflect; [lia|].
    destruct (jc_max_queue_depth cfg <=? zlen (BackgroundJournal.queue j)) eqn:E2; breflect; [lia|].
    destruct Hord as [-> | ->]; [done|]. rewrite Z.eqb_refl, andb_false_r. done.
  - apply (replay_bad_length cfg epoch wall first records (zlen (record_payload record))
      (le_bytes 4 (crc32c (record_payload record) 0) ++ record_payload record ++ rest)); try assumption.
    1-3: rewrite ?zlen_payload; cbn [record jrec_body]; pose proof (zlen_nonneg body).
    + unfold is_u32. unfold kRecordPrefixBytes in *. lia.
    + right. lia.
    + rewrite zlen_app, zlen_le_bytes. pose proof (zlen_nonneg (record_payload record ++ rest)). lia.
    + unfold good, encode_record_bytes. by rewrite <- !app_assoc.
Qed.

(** ** A failed compaction *)

(** A file that starts with a record instead of a header is refused. *)
Lemma record_is_no_header cfg record rest : zlen (jrec_body record) <= 67108864 ->
  (JournalReader.open no_faults cfg (mkDisk (Some (encode_record_bytes record ++ rest)) None)).1.1
  = Bad StatusCode.Corrupt.
Proof.
  intros Hb. unfold JournalReader.open. cbn [disk_temp disk_main andb fa_open_ok fa_main_seen fa_temp_seen fa_read no_faults negb file_exists opened_content written_of].
  set (c := encode_record_bytes record ++ rest).
  pose proof (zlen_record record) as Hz. rewrite zlen_payload in Hz. pose proof (zlen_nonneg (jrec_body record)).
  destruct (take 40 c) as [|b h] eqn:Et.
  { apply (f_equal zlen) in Et. rewrite zlen_take in Et. unfold c in Et. rewrite zlen_app, Hz in Et.
    unfold kRecordHeaderBytes, kRecordPrefixBytes in Et. pose proof (zlen_nonneg rest). change (zlen []) with 0 in Et. lia. }
  rewrite <- Et. destruct (zlen (take 40 c) <? kFileHeaderBytes) eqn:El; [done|].
  unfold validate_file_header. destruct (negb (zlen (take 40 c) =? kFileHeaderBytes)); [done|].
  unfold bytes_eqb. rewrite bool_decide_false; [done|]. intros Em.
  assert (le_value (take 4 (slice 0 8 (take 40 c))) = le_value (take 4 kMagic)) as Hv by by rewrite Em.
  assert (take 4 (slice 0 8 (take 40 c)) = le_bytes 4 (zlen (record_payload record))) as E4.
  { rewrite slice_eq, drop_0, !take_take. change (4 `min` (Z.to_nat 8 `min` 40))%nat with 4%nat.
    unfold c, encode_record_bytes. rewrite <- app_assoc. apply take_app_length'. by rewrite le_bytes_length. }
  rewrite E4, le_value_bytes, zlen_payload in Hv.
  - unfold kRecordPrefixBytes in Hv. vm_compute (le_value (take 4 kMagic)) in Hv. lia.
  - rewrite zlen_payload. unfold kRecordPrefixBytes. change (256 ^ Z.of_nat 4) with 4294967296. lia.
Qed.

(** C34: A failed compaction destroys the journal.  When compaction cannot
    replace the file, the journal is reopened with its position at the start;
    the next record accepted and written overwrites the file header, and from
    then on recovery refuses the whole journal as corrupt. *)
Theorem failed_compaction_destroys_journal faults snapshot_ordinal snapshot_body j j1 kind ordinal body j2 j3 j4 cfg :
  BackgroundJournal.failed j = false -> cf_retry_ok faults = true ->
  BackgroundJournal.compact faults snapshot_ordinal snapshot_body j = Some (StatusCode.Io, j1) ->
  BackgroundJournal.append kind ordinal body j1 = (StatusCode.Ok, j2) ->
  BackgroundJournal.writer_pop j2 = Some j3 -> BackgroundJournal.writer_write None j3 = Some j4 ->
  zlen body <= 67108864 ->
  (JournalReader.open no_faults cfg (mkDisk (Some (file_bytes j4)) None)).1.1 = Bad StatusCode.Corrupt.
Proof.
  intros Hfail Hretry Hc Ha Hp Hw Hbody.
  assert (BackgroundJournal.file j1 = Some 0 /\ BackgroundJournal.queue j1 = [] /\
    BackgroundJournal.writing j1 = None) as (F1 & F2 & F3).
  { revert Hc. unfold BackgroundJournal.compact.
    destruct (negb (jc_enabled _)); [done|]. destruct (_ <? zlen snapshot_body); [done|].
    rewrite Hfail, orb_false_r. destruct (negb (_ || _)) eqn:Ei; [done|].
    destruct (negb (BackgroundJournal.is_open j)) eqn:Eo; [done|]. rewrite orb_false_r in Ei.
    destruct (_ && _); [done|].
    assert (BackgroundJournal.queue j = [] /\ BackgroundJournal.writing j = None) as [Q1 Q2].
    { unfold BackgroundJournal.idle in Ei. by destruct (BackgroundJournal.queue j), (BackgroundJournal.writing j). }
    unfold BackgroundJournal.replace. rewrite Hretry.
    destruct (BackgroundJournal.write_temporary _ _) as [s temp].
    destruct s; try (intros [= <-]; done); try done.
    destruct (cf_rename_ok faults); [destruct (cf_reopen_ok faults)|]; try done; by intros [= <-]. }
  revert Ha. unfold BackgroundJournal.append.
  destruct (negb (jc_enabled _)); [done|]. destruct (_ <? zlen body); [done|]. destruct (_ || _); [done|].
  destruct (BackgroundJournal.failed j1) eqn:Ef; [intros [= E ->]|].
  { revert Hp. unfold BackgroundJournal.writer_pop. by rewrite F2, F3. }
  destruct (_ <=? _); [done|]. destruct (_ && _); [done|]. intros [= <-].
  revert Hp. unfold BackgroundJournal.writer_pop. cbn [BackgroundJournal.writing BackgroundJournal.queue].
  rewrite F2, F3. intros [= <-]. revert Hw. unfold BackgroundJournal.writer_write.
  cbn [BackgroundJournal.writing BackgroundJournal.file BackgroundJournal.disk written_of write_complete].
  rewrite F1. intros [= <-]. unfold file_bytes, BackgroundJournal.written, BackgroundJournal.content_of at 1.
  cbn [BackgroundJournal.disk disk_main]. unfold write_at at 1. rewrite take_0. by apply record_is_no_header.
Qed.

(** ** Witnesses *)

Module JournalWriterExamples.
Import JournalExamples.

Definition ops : list JournalOp :=
  [OpAppendRecord JournalRecordKind.Policy 0 [1]; OpWriterPop;
   OpAppendRecord JournalRecordKind.Evidence 1 [2; 2]; OpWriterWrite None; OpWriterPop; OpWriterWrite None;
   OpFlush true; OpCompact 1 [7; 7; 7]; OpAppendRecord JournalRecordKind.Evidence 2 [3];
   OpAppendRecord JournalRecordKind.Evidence 4 [4]; OpWriterPop; OpWriterWrite None].
Definition ran : BackgroundJournal.t * list JournalRecord := journal_run config 7 0 ops.
Definition torn_ops : list JournalOp := ops ++ [OpAppendRecord JournalRecordKind.Evidence 3 [5]; OpWriterPop;
  OpWriterWrite (Some 12)].

Lemma ops_fit : Forall (op_fits config) torn_ops.
Proof. repeat constructor; vm_compute; congruence. Qed.

Lemma journal_refines_log_witness :
  exists e w done tail lost, file_bytes (journal_run config 7 0 torn_ops).1
    = build_file_header e w ++ encode_records done ++ tail /\ torn config tail /\
    (journal_run config 7 0 torn_ops).2 = done ++ lost.
Proof.
  pose proof (journal_refines_log config 7 0 torn_ops) as H.
  destruct (journal_run config 7 0 torn_ops) as [j log].
  destruct H as [_ (e & w & done & tail & lost & H1 & H2 & H3 & _)].
  - small.
  - small.
  - small.
  - small.
  - exact ops_fit.
  - exists e, w, done, tail, lost. split_and!; assumption.
Defined.

Lemma crash_loses_only_a_suffix_witness :
  exists lost, (journal_run config 7 0 torn_ops).2
    = (JournalReader.read_all (S (List.length (journal_run config 7 0 torn_ops).2))
         (JournalReader.open no_faults config
            (mkDisk (Some (take (Z.to_nat 70) (file_bytes (journal_run config 7 0 torn_ops).1))) None)).1.2).1 ++ lost.
Proof.
  destruct (crash_loses_only_a_suffix config 7 0 torn_ops 70) as (_ & _ & H & _).
  - small.
  - small.
  - small.
  - small.
  - exact ops_fit.
  - small.
  - small.
  - small.
  - exact H.
Defined.

Definition ready : BackgroundJournal.t := (journal_run config 7 0 []).1.

Lemma oversized_record_is_truncated_witness :
  (BackgroundJournal.append JournalRecordKind.Evidence 0 (repeat 1 60) ready).1 = StatusCode.Ok.
Proof.
  destruct (oversized_record_is_truncated config ready JournalRecordKind.Evidence 0 (repeat 1 60) 7 0 0 [] [])
    as [H _].
  - small.
  - small.
  - reflexivity.
  - vm_compute. reflexivity.
  - left. reflexivity.
  - small.
  - small.
  - small.
  - small.
  - small.
  - small.
  - small.
  - exact H.
Defined.

Definition temp_fails : CompactFaults := mkCompactFaults false None None true true true true.
Definition stuck : BackgroundJournal.t :=
  match BackgroundJournal.compact temp_fails 2 [7] ran.1 with Some (_, j) => j | None => ran.1 end.
Definition appended : BackgroundJournal.t :=
  (BackgroundJournal.append JournalRecordKind.Evidence 3 [9] stuck).2.
Definition popped : BackgroundJournal.t :=
  match BackgroundJournal.writer_pop appended with Some j => j | None => appended end.
Definition overwritten : BackgroundJournal.t :=
  match BackgroundJournal.writer_write None popped with Some j => j | None => popped end.

Lemma failed_compaction_destroys_journal_witness :
  (JournalReader.open no_faults config (mkDisk (Some (file_bytes overwritten)) None)).1.1 = Bad StatusCode.Corrupt.
Proof.
  apply (failed_compaction_destroys_journal temp_fails 2 [7] ran.1 stuck JournalRecordKind.Evidence 3 [9]
    appended popped overwritten config).
  - vm_compute. reflexivity.
  - reflexivity.
  - vm_compute. reflexivity.
  - vm_compute. reflexivity.
  - vm_compute. reflexivity.
  - vm_compute. reflexivity.
  - vm_compute. discriminate.
Defined.
End JournalWriterExamples.
