(* ===== verification/JournalThreads.v ===== *)
(** * The threads of the background journal

    [persist/journal.cpp] as it runs: one writer thread and any number of client
    threads inside [append], [flush], [compact] and [stop].  A step of a thread is
    one critical section of [queue_mutex_], one acquisition of the compaction
    lock, one notification, or one of the actions taken outside the mutex: the
    write of a record, the stages of a compaction, the final synchronisation of
    the writer and the join.  A thread that waits on a condition variable runs
    again only when it is notified or wakes spuriously.

    The compaction lock is held by the threads whose place in the code holds it,
    so it is no field of its own; [queue_mutex_] is free between steps.  Memory is
    sequentially consistent: the assignments of [compact] outside the mutex take
    effect at once. *)

From Stdlib Require Import ZArith Lia Bool List String Ascii.
From stdpp Require Import base decidable list strings.
From S2P Require Import Prelude OrdMap Core Quality Config Journal.

Open Scope Z_scope.

Module JournalThreads.
Import BackgroundJournal.

(** ** The pieces of the operations that other threads may separate *)

(** The shared fields, written one at a time. *)
Definition with_depth (j : t) : t :=
  let s := stats j in
  with_stats j (mkJournalStats (js_open s) (js_records_written s) (js_records_dropped s) (js_bytes_written s)
    (js_flushes s) (js_compactions s) (zlen (queue j)) (js_queue_high_water s) (js_rejected_appends s)).

Definition with_failure (j : t) (code : Status) : t :=
  mk (config j) (disk j) (file j) (queue j) (writing j) (is_open j) (stopping j) (accepting j) true code
    (stats j) (last_ordinal_written j) (expected_ordinal j) (has_expected_ordinal j)
    (last_enqueued_ordinal j) (has_enqueued_ordinal j) (joinable j).

(** The writer outside the mutex: the write of the record it popped. *)
Definition writer_fwrite (limit : option Z) (j : t) : Status * t :=
  match writing j, file j with
  | None, _ => (StatusCode.Ok, j)
  | Some _, None => (StatusCode.Unavailable, j)
  | Some record, Some position =>
      let encoded := encode_record_bytes record in
      let data := written_of limit encoded in
      (if write_complete limit encoded then StatusCode.Ok else StatusCode.Io,
       with_file j (mkDisk (Some (write_at position data (content_of (disk j)))) (disk_temp (disk j)))
         (Some (position + zlen data)))
  end.

(** Its second critical section. *)
Definition writer_finish (status : Status) (j : t) : t :=
  match writing j with
  | None => j
  | Some record =>
      if ok status then written j record (disk j) (file j) else write_failed j status (disk j) (file j)
  end.

(** The last critical section, after the loop. *)
Definition writer_last (j : t) : t :=
  with_depth (mk (config j) (disk j) (file j) (queue j) None (is_open j) (stopping j) (accepting j) (failed j)
    (failure j) (stats j) (last_ordinal_written j) (expected_ordinal j) (has_expected_ordinal j)
    (last_enqueued_ordinal j) (has_enqueued_ordinal j) (joinable j)).

(** What the first critical section of [compact] returns early. *)
Definition compact_refused (snapshot_ordinal : Z) (j : t) : option Status :=
  if negb (is_open j) then Some StatusCode.Unavailable
  else if failed j then Some (failure j)
  else if has_expected_ordinal j && (wrap64 (snapshot_ordinal + 1) <? expected_ordinal j)
  then Some StatusCode.Internal
  else None.

(** The stages of a compaction outside the mutex. *)
Definition compact_close (j : t) : t := with_file j (disk j) None.

Definition compact_temporary (faults : CompactFaults) (snapshot_ordinal : Z) (snapshot_body : list Z) (j : t)
  : Status * t :=
  let '(status, temp) :=
    write_temporary faults (mkJournalRecord JournalRecordKind.Snapshot snapshot_ordinal snapshot_body) in
  (status,
   with_file j (mkDisk (disk_main (disk j)) (match temp with Some _ => temp | None => disk_temp (disk j) end))
     (file j)).

Definition compact_rename (faults : CompactFaults) (status : Status) (j : t) : Status * t :=
  if ok status then
    let '(renamed, d) := replace_file_atomically (cf_rename_ok faults) (disk j) in
    (renamed, with_file j d (file j))
  else (status, j).

(** The reopened journal after a replacement. *)
Definition compacted (snapshot_ordinal : Z) (j : t) : t :=
  let s := stats j in
  mk (config j) (disk j) (Some (zlen (content_of (disk j)))) (queue j) (writing j) (is_open j) (stopping j)
    (accepting j) (failed j) (failure j)
    (mkJournalStats (js_open s) (js_records_written s) (js_records_dropped s)
       (wrap64 (js_bytes_written s + (kFileHeaderBytes + kRecordHeaderBytes + kRecordPrefixBytes)))
       (js_flushes s) (incr64 (js_compactions s)) (js_queue_depth s) (js_queue_high_water s)
       (js_rejected_appends s))
    snapshot_ordinal (wrap64 (snapshot_ordinal + 1)) true snapshot_ordinal true (joinable j).

(** The second attempt to open the journal, and what is left when it fails. *)
Definition compact_retry (faults : CompactFaults) (status : Status) (j : t) : Status * t :=
  match file j with
  | Some _ => (status, j)
  | None =>
      if cf_retry_ok faults then (status, with_file j (disk j) (Some 0))
      else
        let s := stats j in
        (status,
         mk (config j) (disk j) None (queue j) (writing j) false (stopping j) false true status
           (mkJournalStats false (js_records_written s) (js_records_dropped s) (js_bytes_written s)
              (js_flushes s) (js_compactions s) (js_queue_depth s) (js_queue_high_water s)
              (js_rejected_appends s))
           (last_ordinal_written j) (expected_ordinal j) (has_expected_ordinal j)
           (last_enqueued_ordinal j) (has_enqueued_ordinal j) (joinable j))
  end.

Definition compact_reopen (faults : CompactFaults) (status : Status) (snapshot_ordinal : Z) (j : t) : Status * t :=
  if ok status then
    if cf_reopen_ok faults then (StatusCode.Ok, compacted snapshot_ordinal j)
    else compact_retry faults StatusCode.Io j
  else compact_retry faults status j.

(** The two critical sections of [stop], with the join between them. *)
Definition stop_begin (j : t) : t :=
  let stops := is_open j || joinable j in
  mk (config j) (disk j) (file j) (queue j) (writing j) (is_open j) (stopping j || stops)
    (accepting j && negb stops) (failed j) (failure j) (stats j) (last_ordinal_written j) (expected_ordinal j)
    (has_expected_ordinal j) (last_enqueued_ordinal j) (has_enqueued_ordinal j) (joinable j).

Definition join (j : t) : t :=
  mk (config j) (disk j) (file j) (queue j) (writing j) (is_open j) (stopping j) (accepting j) (failed j)
    (failure j) (stats j) (last_ordinal_written j) (expected_ordinal j) (has_expected_ordinal j)
    (last_enqueued_ordinal j) (has_enqueued_ordinal j) false.

Definition stop_end (sync_ok : bool) (j : t) : Status * t :=
  let result := if failed j then failure j else StatusCode.Ok in
  let s := stats j in
  (match file j with Some _ => if negb sync_ok && ok result then StatusCode.Io else result | None => result end,
   mk (config j) (disk j) None (queue j) (writing j) false (stopping j) false (failed j) (failure j)
     (mkJournalStats false (js_records_written s) (js_records_dropped s) (js_bytes_written s) (js_flushes s)
        (js_compactions s) (zlen (queue j)) (js_queue_high_water s) (js_rejected_appends s))
     (last_ordinal_written j) (expected_ordinal j) (has_expected_ordinal j)
     (last_enqueued_ordinal j) (has_enqueued_ordinal j) (joinable j)).

(** ** Places in the code *)

(** The writer thread. *)
Inductive WriterPc :=
  | WReady                                        (* at the loop head, or notified *)
  | WSleeping                                     (* waits on [queue_cv_] *)
  | WWriting                                      (* popped a record, outside the mutex *)
  | WWrote (limit : option Z) (status : Status)   (* the write returned *)
  | WLeaving                                      (* left the loop *)
  | WUnsynced                                     (* the final synchronisation failed *)
  | WLast                                         (* before the last critical section *)
  | WExited.

(** A call of a client. *)
Inductive Call :=
  | CallAppend (kind : JournalRecordKind.t) (ordinal : Z) (body : list Z)
  | CallFlush
  | CallCompact (faults : CompactFaults) (snapshot_ordinal : Z) (snapshot_body : list Z)
  | CallStop.

(** The stages of a compaction that runs with the writer paused. *)
Inductive Stage :=
  | Closing
  | WritingTemporary
  | Renaming (status : Status)
  | Reopening (status : Status)
  | Resuming (status : Status).

Inductive ClientPc :=
  | Resting (returned : option Status)
  | AppendEntry (kind : JournalRecordKind.t) (ordinal : Z) (body : list Z)
  | AppendLocked (kind : JournalRecordKind.t) (ordinal : Z) (body : list Z)
  | AppendNotify (status : Status)
  | FlushEntry
  | FlushReady
  | FlushSleeping                                 (* waits on [idle_cv_] *)
  | CompactEntry (faults : CompactFaults) (snapshot_ordinal : Z) (snapshot_body : list Z)
  | CompactReady (faults : CompactFaults) (snapshot_ordinal : Z) (snapshot_body : list Z)
  | CompactSleeping (faults : CompactFaults) (snapshot_ordinal : Z) (snapshot_body : list Z)
  | CompactWork (faults : CompactFaults) (snapshot_ordinal : Z) (snapshot_body : list Z) (stage : Stage)
  | CompactNotify (status : Status)
  | StopEntry
  | StopNotify (should_join : bool)
  | StopJoin
  | StopLast.

Record Machine := mkMachine {
  journal : t;
  writer_paused : bool;
  writer : WriterPc;
  clients : list ClientPc;
}.

(** Threads inside [append] and [flush] share the compaction lock, a thread
    inside [compact] holds it alone. *)
Definition holds_shared (pc : ClientPc) : bool :=
  match pc with AppendLocked _ _ _ | AppendNotify _ | FlushReady | FlushSleeping => true | _ => false end.

Definition holds_exclusive (pc : ClientPc) : bool :=
  match pc with
  | CompactReady _ _ _ | CompactSleeping _ _ _ | CompactWork _ _ _ _ | CompactNotify _ => true
  | _ => false
  end.

(** Whether [lock_shared] and [lock] return now. *)
Definition shared_free (cs : list ClientPc) : bool := negb (existsb holds_exclusive cs).
Definition exclusive_free (cs : list ClientPc) : bool :=
  negb (existsb (fun pc => holds_exclusive pc || holds_shared pc) cs).

(** The predicates of the two condition variables. *)
Definition writer_runs (m : Machine) : bool :=
  let j := journal m in
  (match queue j with [] => false | _ => negb (writer_paused m) end) || stopping j || failed j.

Definition settled (j : t) : bool := idle j || failed j || negb (is_open j).

(** [notify_all] on the two condition variables. *)
Definition notify_queue (w : WriterPc) : WriterPc := match w with WSleeping => WReady | _ => w end.

Definition wake (pc : ClientPc) : ClientPc :=
  match pc with
  | FlushSleeping => FlushReady
  | CompactSleeping faults ordinal body => CompactReady faults ordinal body
  | _ => pc
  end.
Definition notify_idle (cs : list ClientPc) : list ClientPc := map wake cs.

(** ** Steps *)

(** What a step does to the journal when the operations are taken to be atomic:
    the operation that takes effect, with the status it returns. *)
Inductive Event :=
  | EvAppend (kind : JournalRecordKind.t) (ordinal : Z) (body : list Z) (status : Status)
  | EvPop
  | EvWrite (limit : option Z)
  | EvFlush (sync_ok : bool) (status : Status)
  | EvCompact (faults : CompactFaults) (snapshot_ordinal : Z) (snapshot_body : list Z) (status : Status)
  | EvStopBegin
  | EvUnsynced
  | EvExit
  | EvJoin
  | EvStopEnd (sync_ok : bool) (status : Status).

Definition set_journal (m : Machine) (j : t) : Machine := mkMachine j (writer_paused m) (writer m) (clients m).
Definition set_writer (m : Machine) (w : WriterPc) : Machine :=
  mkMachine (journal m) (writer_paused m) w (clients m).
Definition set_client (m : Machine) (i : nat) (pc : ClientPc) : Machine :=
  mkMachine (journal m) (writer_paused m) (writer m) (<[i := pc]> (clients m)).

(** The writer's next step; [limit] and [sync_ok] are what [fwrite] and
    [sync_file] do.  While it is paused and has to run, it notifies [queue_cv_]
    and starts over. *)
Definition writer_step (limit : option Z) (sync_ok : bool) (m : Machine) : option (Machine * option Event) :=
  let j := journal m in
  match writer m with
  | WReady =>
      if negb (writer_runs m) then Some (set_writer m WSleeping, None)
      else if writer_paused m then Some (set_writer m (notify_queue WReady), None)
      else match writer_pop j with
           | None =>
               Some (set_writer m (if stopping j || failed j then WLeaving else WReady), None)
           | Some j' => Some (set_writer (set_journal m j') WWriting, Some EvPop)
           end
  | WSleeping | WExited => None
  | WWriting =>
      let '(status, j') := writer_fwrite limit j in
      Some (set_writer (set_journal m j') (WWrote limit status), None)
  | WWrote limit status =>
      Some (mkMachine (writer_finish status j) (writer_paused m) WReady (notify_idle (clients m)),
            Some (EvWrite limit))
  | WLeaving =>
      Some (set_writer m (match file j with Some _ => if sync_ok then WLast else WUnsynced | None => WLast end),
            None)
  | WUnsynced => Some (set_writer (set_journal m (with_failure j StatusCode.Io)) WLast, Some EvUnsynced)
  | WLast =>
      Some (mkMachine (writer_last j) (writer_paused m) WExited (notify_idle (clients m)), Some EvExit)
  end.

(** A thread returns from its call. *)
Definition return_from (m : Machine) (i : nat) (status : Status) : Machine :=
  set_client m i (Resting (Some status)).

(** The next stage of a compaction. *)
Definition stage_step (faults : CompactFaults) (ordinal : Z) (body : list Z) (stage : Stage) (m : Machine) (i : nat)
  : Machine * option Event :=
  let j := journal m in
  let continue j' stage' := (set_client (set_journal m j') i (CompactWork faults ordinal body stage'), None) in
  match stage with
  | Closing => continue (compact_close j) WritingTemporary
  | WritingTemporary => let '(status, j') := compact_temporary faults ordinal body j in continue j' (Renaming status)
  | Renaming status => let '(status', j') := compact_rename faults status j in continue j' (Reopening status')
  | Reopening status =>
      let '(status', j') := compact_reopen faults status ordinal j in continue j' (Resuming status')
  | Resuming status =>
      (mkMachine (with_depth j) false (writer m) (<[i := CompactNotify status]> (clients m)),
       Some (EvCompact faults ordinal body status))
  end.

(** The next step of client [i]; [sync_ok] is what [sync_file] answers. *)
Definition client_step (i : nat) (sync_ok : bool) (m : Machine) : option (Machine * option Event) :=
  let j := journal m in
  match clients m !! i with
  | Some (AppendEntry kind ordinal body) =>
      if negb (jc_enabled (config j)) then
        Some (return_from m i StatusCode.Refused, Some (EvAppend kind ordinal body StatusCode.Refused))
      else if jc_max_record_bytes (config j) <? zlen body then
        Some (return_from m i StatusCode.LimitExceeded, Some (EvAppend kind ordinal body StatusCode.LimitExceeded))
      else if shared_free (clients m) then Some (set_client m i (AppendLocked kind ordinal body), None)
      else None
  | Some (AppendLocked kind ordinal body) =>
      let '(status, j') := append kind ordinal body j in
      Some (set_client (set_journal m j') i (if ok status then AppendNotify status else Resting (Some status)),
            Some (EvAppend kind ordinal body status))
  | Some (AppendNotify status) =>
      Some (return_from (set_writer m (notify_queue (writer m))) i status, None)
  | Some FlushEntry =>
      if negb (jc_enabled (config j)) then
        Some (return_from m i StatusCode.Refused, Some (EvFlush sync_ok StatusCode.Refused))
      else if shared_free (clients m) then Some (set_client m i FlushReady, None)
      else None
  | Some FlushReady =>
      if negb (settled j) then Some (set_client m i FlushSleeping, None)
      else match flush sync_ok j with
           | None => None
           | Some (status, j') => Some (return_from (set_journal m j') i status, Some (EvFlush sync_ok status))
           end
  | Some (CompactEntry faults ordinal body) =>
      if negb (jc_enabled (config j)) then
        Some (return_from m i StatusCode.Refused, Some (EvCompact faults ordinal body StatusCode.Refused))
      else if jc_max_record_bytes (config j) <? zlen body then
        Some (return_from m i StatusCode.LimitExceeded,
              Some (EvCompact faults ordinal body StatusCode.LimitExceeded))
      else if exclusive_free (clients m) then Some (set_client m i (CompactReady faults ordinal body), None)
      else None
  | Some (CompactReady faults ordinal body) =>
      if negb (settled j) then Some (set_client m i (CompactSleeping faults ordinal body), None)
      else match compact_refused ordinal j with
           | Some status => Some (return_from m i status, Some (EvCompact faults ordinal body status))
           | None =>
               Some (mkMachine j true (writer m) (<[i := CompactWork faults ordinal body Closing]> (clients m)),
                     None)
           end
  | Some (CompactWork faults ordinal body stage) => Some (stage_step faults ordinal body stage m i)
  | Some (CompactNotify status) =>
      Some (return_from (set_writer m (notify_queue (writer m))) i status, None)
  | Some StopEntry =>
      Some (set_client (set_journal m (stop_begin j)) i (StopNotify (joinable j)), Some EvStopBegin)
  | Some (StopNotify should_join) =>
      Some (set_client (set_writer m (notify_queue (writer m))) i (if should_join then StopJoin else StopLast), None)
  | Some StopJoin =>
      match writer m with
      | WExited => Some (set_client (set_journal m (join j)) i StopLast, Some EvJoin)
      | _ => None
      end
  | Some StopLast =>
      let '(status, j') := stop_end sync_ok j in
      Some (return_from (set_journal m j') i status, Some (EvStopEnd sync_ok status))
  | Some (Resting _) | Some FlushSleeping | Some (CompactSleeping _ _ _) | None => None
  end.

Definition entry (call : Call) : ClientPc :=
  match call with
  | CallAppend kind ordinal body => AppendEntry kind ordinal body
  | CallFlush => FlushEntry
  | CallCompact faults ordinal body => CompactEntry faults ordinal body
  | CallStop => StopEntry
  end.

Definition in_compact (pc : ClientPc) : bool :=
  match pc with CompactEntry _ _ _ => true | _ => holds_exclusive pc end.
Definition in_stop (pc : ClientPc) : bool :=
  match pc with StopEntry | StopNotify _ | StopJoin | StopLast => true | _ => false end.

(** The rules callers keep.  One [stop] at a time: two would join the same
    thread.  The fabric also keeps [compact] and [stop] apart: it calls [compact]
    under its own lock, and [Fabric::close] takes the journal away under that
    lock before it stops it. *)
Definition one_stop_rule (m : Machine) (call : Call) : bool :=
  match call with CallStop => negb (existsb in_stop (clients m)) | _ => true end.
Definition fabric_rule (m : Machine) (call : Call) : bool :=
  match call with
  | CallStop => negb (existsb (fun pc => in_stop pc || in_compact pc) (clients m))
  | CallCompact _ _ _ => negb (existsb in_stop (clients m))
  | _ => true
  end.

Inductive Action :=
  | ActCall (i : nat) (call : Call)
  | ActClient (i : nat) (sync_ok : bool)
  | ActWriter (limit : option Z) (sync_ok : bool)
  | ActSpuriousWriter
  | ActSpuriousClient (i : nat).

Definition step (rule : Machine -> Call -> bool) (a : Action) (m : Machine) : option (Machine * option Event) :=
  match a with
  | ActCall i call =>
      match clients m !! i with
      | Some (Resting _) => if rule m call then Some (set_client m i (entry call), None) else None
      | _ => None
      end
  | ActClient i sync_ok => client_step i sync_ok m
  | ActWriter limit sync_ok => writer_step limit sync_ok m
  | ActSpuriousWriter => match writer m with WSleeping => Some (set_writer m WReady, None) | _ => None end
  | ActSpuriousClient i =>
      match clients m !! i with
      | Some FlushSleeping | Some (CompactSleeping _ _ _) =>
          Some (mkMachine (journal m) (writer_paused m) (writer m) (alter wake i (clients m)), None)
      | _ => None
      end
  end.

(** A schedule, and the operations that took effect under it in their order. *)
Fixpoint run (rule : Machine -> Call -> bool) (acts : list Action) (m : Machine) : option (Machine * list Event) :=
  match acts with
  | [] => Some (m, [])
  | a :: acts =>
      match step rule a m with
      | None => None
      | Some (m1, ev) =>
          match run rule acts m1 with
          | None => None
          | Some (m2, evs) => Some (m2, match ev with Some e => e :: evs | None => evs end)
          end
      end
  end.

(** [open] has started the writer; [n] threads have not called anything yet. *)
Definition started (j : t) (n : nat) : Machine := mkMachine j false WReady (repeat (Resting None) n).

(** ** Atomic operations *)

(** The effect of an event when its operation is atomic; [None] when the
    operation would wait or would return another status. *)
Definition returning (status : Status) (r : Status * t) : option t :=
  if bool_decide (r.1 = status) then Some r.2 else None.

Definition atomic (ev : Event) (j : t) : option t :=
  match ev with
  | EvAppend kind ordinal body status => returning status (append kind ordinal body j)
  | EvPop => writer_pop j
  | EvWrite limit => writer_write limit j
  | EvFlush sync_ok status => flush sync_ok j ≫= returning status
  | EvCompact faults ordinal body status => compact faults ordinal body j ≫= returning status
  | EvStopBegin => Some (stop_begin j)
  | EvUnsynced => Some (with_failure j StatusCode.Io)
  | EvExit => Some (writer_last j)
  | EvJoin => Some (join j)
  | EvStopEnd sync_ok status => returning status (stop_end sync_ok j)
  end.

Fixpoint atomic_run (evs : list Event) (j : t) : option t :=
  match evs with [] => Some j | ev :: evs => atomic ev j ≫= atomic_run evs end.
End JournalThreads.
