(* ===== verification/JournalThreadsSpec.v ===== *)
(** * The threads of the background journal: theorems *)

From Stdlib Require Import ZArith Lia Bool List String Ascii.
From stdpp Require Import base decidable relations list strings.
From S2P Require Import Prelude OrdMap Core Hash Quality Config Codec Journal JournalSpec JournalWriterSpec JournalThreads.

Open Scope Z_scope.

#[local] Arguments enum_val : simpl never.
#[local] Arguments encode_record_bytes : simpl never.
#[local] Arguments build_file_header : simpl never.
#[local] Arguments write_at : simpl never.

Import BackgroundJournal JournalThreads.

(** ** What the synchronisation looks at *)

Definition flags (j : t) :=
  (queue j, writing j, is_open j, stopping j, accepting j, failed j, joinable j).

(** A record was put behind the others. *)
Definition enqueued (j j' : t) : Prop :=
  is_open j = true /\ accepting j = true /\ failed j = false /\
  exists record, flags j' = (queue j ++ [record], writing j, is_open j, stopping j, accepting j, failed j, joinable j).

Lemma append_flags kind ordinal body j status j' : append kind ordinal body j = (status, j') ->
  flags j' = flags j \/ (status = StatusCode.Ok /\ enqueued j j').
Proof.
  unfold append. repeat case_match; intros [= <- <-]; try (by left). right. split; [done|].
  unfold enqueued, flags. breflect. split_and!; try done. eexists. cbn. by f_equal; f_equal.
Qed.

(** [flush] changes what the others look at only when the synchronisation fails. *)
Lemma flush_flags sync_ok j status j' : flush sync_ok j = Some (status, j') ->
  flags j' = flags j \/ (idle j = true /\ j' = with_failure j StatusCode.Io /\ failed j = false).
Proof.
  unfold flush. repeat case_match; intros [= <- <-]; try (by left). right.
  unfold with_failure. rewrite !orb_false_r in *. breflect. by split_and!; try congruence.
Qed.

Lemma fwrite_flags limit j : flags (writer_fwrite limit j).2 = flags j.
Proof. unfold writer_fwrite. by repeat case_match. Qed.

Lemma idle_spec j : idle j = true <-> queue j = [] /\ writing j = None.
Proof. unfold idle. destruct (queue j), (writing j); split; try done; by intros []. Qed.

Lemma settled_flags j j' : flags j' = flags j -> settled j' = settled j.
Proof. unfold flags, settled, idle. by intros [= -> -> -> _ _ -> _]. Qed.

(** The last stages either keep what the others look at or close the journal. *)
Definition closed_down (j j' : t) : Prop :=
  flags j' = (queue j, writing j, false, stopping j, false, true, joinable j).

Lemma retry_flags faults status j : flags (compact_retry faults status j).2 = flags j \/
  closed_down j (compact_retry faults status j).2.
Proof. unfold compact_retry. destruct (file j); [by left|]. destruct (cf_retry_ok faults); [by left|by right]. Qed.

Lemma reopen_flags faults status ordinal j : flags (compact_reopen faults status ordinal j).2 = flags j \/
  closed_down j (compact_reopen faults status ordinal j).2.
Proof.
  unfold compact_reopen. destruct (ok status); [destruct (cf_reopen_ok faults); [by left|]|]; apply retry_flags.
Qed.

Lemma temporary_flags faults ordinal body j : flags (compact_temporary faults ordinal body j).2 = flags j.
Proof. unfold compact_temporary. by destruct (write_temporary _ _). Qed.

Lemma rename_flags faults status j : flags (compact_rename faults status j).2 = flags j.
Proof. unfold compact_rename. by repeat case_match. Qed.

(** ** The control steps

    The steps as far as locks, condition variables and flags go. *)

Definition idle_sleeper (pc : ClientPc) : bool :=
  match pc with FlushSleeping | CompactSleeping _ _ _ => true | _ => false end.
Definition at_work (pc : ClientPc) : bool := match pc with CompactWork _ _ _ _ => true | _ => false end.

(** What a client does to its place in the code, with everything else as it was. *)
Inductive moves (m : Machine) : ClientPc -> ClientPc -> Prop :=
  | mv_append_return kind ordinal body status : moves m (AppendEntry kind ordinal body) (Resting status)
  | mv_append_lock kind ordinal body : shared_free (clients m) = true ->
      moves m (AppendEntry kind ordinal body) (AppendLocked kind ordinal body)
  | mv_append_refused kind ordinal body status : moves m (AppendLocked kind ordinal body) (Resting status)
  | mv_append_same kind ordinal body status : moves m (AppendLocked kind ordinal body) (AppendNotify status)
  | mv_flush_return status : moves m FlushEntry (Resting status)
  | mv_flush_lock : shared_free (clients m) = true -> moves m FlushEntry FlushReady
  | mv_flush_sleep : settled (journal m) = false -> moves m FlushReady FlushSleeping
  | mv_flush_done status : moves m FlushReady (Resting status)
  | mv_compact_return faults ordinal body status : moves m (CompactEntry faults ordinal body) (Resting status)
  | mv_compact_lock faults ordinal body : exclusive_free (clients m) = true ->
      moves m (CompactEntry faults ordinal body) (CompactReady faults ordinal body)
  | mv_compact_sleep faults ordinal body : settled (journal m) = false ->
      moves m (CompactReady faults ordinal body) (CompactSleeping faults ordinal body)
  | mv_compact_refused faults ordinal body status : moves m (CompactReady faults ordinal body) (Resting status)
  | mv_compact_work faults ordinal body s s' :
      moves m (CompactWork faults ordinal body s) (CompactWork faults ordinal body s')
  | mv_call status call : one_stop_rule m call = true -> moves m (Resting status) (entry call)
  | mv_spurious_flush : moves m FlushSleeping FlushReady
  | mv_spurious_compact faults ordinal body :
      moves m (CompactSleeping faults ordinal body) (CompactReady faults ordinal body).

(** What the writer does to its place, likewise. *)
Inductive writer_moves (m : Machine) : WriterPc -> WriterPc -> Prop :=
  | wm_sleep : writer_runs m = false -> writer_moves m WReady WSleeping
  | wm_leave : writer_paused m = false -> writer_pop (journal m) = None ->
      (stopping (journal m) || failed (journal m)) = true -> writer_moves m WReady WLeaving
  | wm_write limit status : writer_moves m WWriting (WWrote limit status)
  | wm_synced : writer_moves m WLeaving WLast
  | wm_unsynced : writer_moves m WLeaving WUnsynced
  | wm_spurious : writer_moves m WSleeping WReady.

Inductive control (m : Machine) : Machine -> Prop :=
  | ct_stutter : control m m
  | ct_client i pc pc' j' : clients m !! i = Some pc -> moves m pc pc' -> flags j' = flags (journal m) ->
      control m (mkMachine j' (writer_paused m) (writer m) (<[i := pc']> (clients m)))
  | ct_writer w' j' : writer_moves m (writer m) w' -> flags j' = flags (journal m) ->
      control m (mkMachine j' (writer_paused m) w' (clients m))
  | ct_enqueue i kind ordinal body status j' : clients m !! i = Some (AppendLocked kind ordinal body) ->
      enqueued (journal m) j' ->
      control m (mkMachine j' (writer_paused m) (writer m) (<[i := AppendNotify status]> (clients m)))
  | ct_notify i pc pc' : clients m !! i = Some pc ->
      match pc, pc' with
      | AppendNotify _, Resting _ | CompactNotify _, Resting _ | StopNotify true, StopJoin
      | StopNotify false, StopLast => True
      | _, _ => False
      end ->
      control m (mkMachine (journal m) (writer_paused m) (notify_queue (writer m)) (<[i := pc']> (clients m)))
  | ct_flush_failed i status : clients m !! i = Some FlushReady -> idle (journal m) = true ->
      control m (mkMachine (with_failure (journal m) StatusCode.Io) (writer_paused m) (writer m)
        (<[i := Resting status]> (clients m)))
  | ct_pause i faults ordinal body : clients m !! i = Some (CompactReady faults ordinal body) ->
      idle (journal m) = true ->
      control m (mkMachine (journal m) true (writer m) (<[i := CompactWork faults ordinal body Closing]> (clients m)))
  | ct_closed_down i faults ordinal body s s' j' : clients m !! i = Some (CompactWork faults ordinal body s) ->
      closed_down (journal m) j' ->
      control m (mkMachine j' (writer_paused m) (writer m) (<[i := CompactWork faults ordinal body s']> (clients m)))
  | ct_resume i faults ordinal body status : clients m !! i = Some (CompactWork faults ordinal body (Resuming status)) ->
      control m (mkMachine (with_depth (journal m)) false (writer m) (<[i := CompactNotify status]> (clients m)))
  | ct_stop_begin i : clients m !! i = Some StopEntry ->
      control m (mkMachine (stop_begin (journal m)) (writer_paused m) (writer m)
        (<[i := StopNotify (joinable (journal m))]> (clients m)))
  | ct_join i : clients m !! i = Some StopJoin -> writer m = WExited ->
      control m (mkMachine (join (journal m)) (writer_paused m) (writer m) (<[i := StopLast]> (clients m)))
  | ct_stop_end i sync_ok status : clients m !! i = Some StopLast ->
      control m (mkMachine (stop_end sync_ok (journal m)).2 (writer_paused m) (writer m)
        (<[i := Resting status]> (clients m)))
  | ct_pop j' : writer m = WReady -> writer_paused m = false -> writer_pop (journal m) = Some j' ->
      control m (mkMachine j' (writer_paused m) WWriting (clients m))
  | ct_finish limit status : writer m = WWrote limit status ->
      control m (mkMachine (writer_finish status (journal m)) (writer_paused m) WReady (notify_idle (clients m)))
  | ct_failed : writer m = WUnsynced ->
      control m (mkMachine (with_failure (journal m) StatusCode.Io) (writer_paused m) WLast (clients m))
  | ct_exit : writer m = WLast ->
      control m (mkMachine (writer_last (journal m)) (writer_paused m) WExited (notify_idle (clients m))).

(** A rule at least as strict as one [stop] at a time. *)
Class Rule (rule : Machine -> Call -> bool) : Prop :=
  rule_one_stop : forall m call, rule m call = true -> one_stop_rule m call = true.

#[global] Instance one_stop_is_rule : Rule one_stop_rule.
Proof. by intros m call. Qed.

#[global] Instance fabric_is_rule : Rule fabric_rule.
Proof.
  intros m [| | |]; simpl; try done. rewrite !negb_true_iff. intros H. apply not_true_is_false. intros E.
  apply not_true_iff_false in H. apply H. rewrite existsb_exists in *. destruct E as (pc & H1 & H2).
  exists pc. by rewrite H2.
Qed.

Lemma set_same m i pc : clients m !! i = Some pc ->
  mkMachine (journal m) (writer_paused m) (writer m) (<[i := pc]> (clients m)) = m.
Proof. intros H. rewrite list_insert_id by done. by destruct m. Qed.

Ltac expose_machine :=
  unfold return_from, set_client, set_journal, set_writer; cbn [journal writer_paused writer clients fst].

Lemma alter_is_insert {A} (f : A -> A) i (l : list A) x : l !! i = Some x -> alter f i l = <[i := f x]> l.
Proof. intros H. rewrite list_insert_alter. apply list_alter_ext; [|done]. intros y Hy. by simplify_eq. Qed.

Lemma stage_control faults ordinal body stage m i :
  clients m !! i = Some (CompactWork faults ordinal body stage) ->
  control m (stage_step faults ordinal body stage m i).1.
Proof.
  intros Hi. destruct stage; cbn [stage_step].
  - expose_machine. eapply ct_client; [exact Hi|constructor|done].
  - pose proof (temporary_flags faults ordinal body (journal m)) as Hf.
    destruct (compact_temporary _ _ _ _) as [st j']. expose_machine. eapply ct_client; [exact Hi|constructor|exact Hf].
  - pose proof (rename_flags faults status (journal m)) as Hf.
    destruct (compact_rename _ _ _) as [st j']. expose_machine. eapply ct_client; [exact Hi|constructor|exact Hf].
  - pose proof (reopen_flags faults status ordinal (journal m)) as Hf.
    destruct (compact_reopen _ _ _ _) as [st j']. expose_machine. destruct Hf as [Hf | Hf].
    + eapply ct_client; [exact Hi|constructor|exact Hf].
    + eapply ct_closed_down; [exact Hi|exact Hf].
  - expose_machine. eapply ct_resume. exact Hi.
Qed.

Lemma client_control i sync_ok m m' ev : client_step i sync_ok m = Some (m', ev) -> control m m'.
Proof.
  unfold client_step. destruct (clients m !! i) as [pc|] eqn:Hi; [|done].
  destruct pc; cbn [return_from]; try done.
  - repeat case_match; intros [= <- <-]; expose_machine; (eapply ct_client; [exact Hi| |done]); by constructor.
  - destruct (append _ _ _ _) as [st j'] eqn:Ea. intros [= <- <-]; expose_machine.
    destruct (append_flags _ _ _ _ _ _ Ea) as [Hf | [-> He]].
    + eapply ct_client; [exact Hi| |exact Hf]. destruct (ok st); constructor.
    + eapply ct_enqueue; [exact Hi|exact He].
  - intros [= <- <-]; expose_machine. by eapply ct_notify.
  - repeat case_match; intros [= <- <-]; expose_machine; (eapply ct_client; [exact Hi| |done]); by constructor.
  - destruct (settled (journal m)) eqn:Es; cbn [negb].
    + destruct (flush _ _) as [[st j']|] eqn:Ef; [|done]. intros [= <- <-]; expose_machine.
      destruct (flush_flags _ _ _ _ Ef) as [Hf | (H1 & -> & H2)].
      * eapply ct_client; [exact Hi|constructor|exact Hf].
      * by eapply ct_flush_failed.
    + intros [= <- <-]; expose_machine. eapply ct_client; [exact Hi| |done]. by constructor.
  - repeat case_match; intros [= <- <-]; expose_machine; (eapply ct_client; [exact Hi| |done]); by constructor.
  - destruct (settled (journal m)) eqn:Es; cbn [negb].
    + destruct (compact_refused _ _) eqn:Er; intros [= <- <-]; expose_machine.
      * eapply ct_client; [exact Hi|constructor|done].
      * eapply ct_pause; [exact Hi|]. revert Es Er. unfold settled, compact_refused.
        destruct (is_open (journal m)), (failed (journal m)); simpl; try done. by rewrite !orb_false_r.
    + intros [= <- <-]; expose_machine. eapply ct_client; [exact Hi| |done]. by constructor.
  - intros [= E]. pose proof (stage_control faults snapshot_ordinal snapshot_body stage m i Hi) as Hc. by rewrite E in Hc.
  - intros [= <- <-]; expose_machine. by eapply ct_notify.
  - intros [= <- <-]; expose_machine. by eapply ct_stop_begin.
  - intros [= <- <-]; expose_machine. destruct should_join; by eapply ct_notify.
  - destruct (writer m) eqn:Ew; try done. intros [= <- <-]; expose_machine. unfold set_client, set_journal. cbn. rewrite Ew.
    rewrite <- Ew at 1. by eapply ct_join.
  - intros [= <- <-]; expose_machine. by apply (ct_stop_end m i sync_ok).
Qed.

Lemma writer_control limit sync_ok m m' ev : writer_step limit sync_ok m = Some (m', ev) -> control m m'.
Proof.
  unfold writer_step. destruct (writer m) eqn:Ew; try done.
  - destruct (writer_runs m) eqn:Er; cbn [negb].
    + destruct (writer_paused m) eqn:Ep.
      { intros [= <- <-]; expose_machine. unfold set_writer. cbn [notify_queue]. rewrite <- Ew. destruct m. apply ct_stutter. }
      destruct (writer_pop (journal m)) as [j'|] eqn:Epop; intros [= <- <-]; expose_machine.
      * by eapply ct_pop.
      * destruct (stopping (journal m) || failed (journal m)) eqn:Es.
        -- apply ct_writer; [rewrite Ew; by constructor|done].
        -- unfold set_writer. rewrite <- Ew. destruct m. apply ct_stutter.
    + intros [= <- <-]; expose_machine. apply ct_writer; [rewrite Ew; by constructor|done].
  - pose proof (fwrite_flags limit (journal m)) as Hf. destruct (writer_fwrite _ _) as [st j']. intros [= <- <-]; expose_machine.
    apply ct_writer; [rewrite Ew; constructor|exact Hf].
  - intros [= <- <-]; expose_machine. by eapply ct_finish.
  - intros [= <- <-]; expose_machine. apply ct_writer; [rewrite Ew|done]. destruct (file _); [destruct sync_ok|]; constructor.
  - intros [= <- <-]; expose_machine. by eapply ct_failed.
  - intros [= <- <-]; expose_machine. by eapply ct_exit.
Qed.

Lemma step_control rule `{!Rule rule} a m m' ev : step rule a m = Some (m', ev) -> control m m'.
Proof.
  destruct a as [i call|i sync_ok|limit sync_ok| |i]; cbn [step].
  - destruct (clients m !! i) as [[]|] eqn:Hi; try done. destruct (rule m call) eqn:Er; [|done]. intros [= <- <-]; expose_machine.
    eapply ct_client; [exact Hi| |done]. constructor. by eapply rule_one_stop.
  - apply client_control.
  - apply writer_control.
  - destruct (writer m) eqn:Ew; try done. intros [= <- <-]; expose_machine. apply ct_writer; [rewrite Ew; constructor|done].
  - destruct (clients m !! i) as [[]|] eqn:Hi; try done; intros [= <- <-]; expose_machine;
      rewrite (alter_is_insert _ _ _ _ Hi); (eapply ct_client; [exact Hi|constructor|done]).
Qed.

(** ** The invariant of the synchronisation *)

Section Counting.
Context {A : Type}.
Implicit Types (P : A -> bool) (l : list A).

Fixpoint count P l : nat := match l with [] => 0 | x :: l => Nat.b2n (P x) + count P l end.

Lemma count_insert P l : forall i x y, l !! i = Some x ->
  (count P (<[i := y]> l) + Nat.b2n (P x) = count P l + Nat.b2n (P y))%nat.
Proof.
  induction l as [|z l IH]; intros [|i] x y; simpl; try done; [intros [= ->]; lia|].
  intros H. specialize (IH i x y H). lia.
Qed.

Lemma count_map P f l : count P (map f l) = count (fun x => P (f x)) l.
Proof. induction l; simpl; congruence. Qed.

Lemma count_ext P Q l : (forall x, P x = Q x) -> count P l = count Q l.
Proof. intros H. induction l; simpl; [done|]. by rewrite H, IHl. Qed.

Lemma count_false P l : (forall x, P x = false) -> count P l = 0%nat.
Proof. intros H. induction l; simpl; [done|]. by rewrite H. Qed.

Lemma count_le P Q l : (forall x, P x = true -> Q x = true) -> (count P l <= count Q l)%nat.
Proof. intros H. induction l as [|x l IH]; simpl; [done|]. specialize (H x). destruct (P x), (Q x); simpl; first [lia|by discriminate H]. Qed.

Lemma count_pos P l : (0 < count P l)%nat <-> exists i x, l !! i = Some x /\ P x = true.
Proof.
  induction l as [|y l IH]; simpl; [split; [lia|by intros (i & x & ? & _)]|].
  split.
  - destruct (P y) eqn:E; [by exists 0%nat, y|]. simpl. intros H.
    destruct IH as [IH _]. destruct (IH H) as (i & x & H1 & H2). by exists (S i), x.
  - intros ([|i] & x & H1 & H2); simpl in H1; [simplify_eq; rewrite H2; simpl; lia|].
    destruct IH as [_ IH]. specialize (IH (ex_intro _ i (ex_intro _ x (conj H1 H2)))). lia.
Qed.

Lemma count_existsb P l : existsb P l = false <-> count P l = 0%nat.
Proof. induction l as [|x l IH]; simpl; [done|]. rewrite orb_false_iff, IH. destruct (P x); simpl; intuition (try lia; done). Qed.

Lemma count_at P l i x : l !! i = Some x -> P x = true -> (0 < count P l)%nat.
Proof. intros H1 H2. apply count_pos. by exists i, x. Qed.
End Counting.

(** The places the invariant counts. *)
Definition append_notifies (pc : ClientPc) : bool := match pc with AppendNotify _ => true | _ => false end.
Definition stop_notifies (pc : ClientPc) : bool := match pc with StopNotify _ => true | _ => false end.
Definition will_join (pc : ClientPc) : bool := match pc with StopNotify true | StopJoin => true | _ => false end.
Definition no_join (pc : ClientPc) : bool := match pc with StopNotify false | StopLast => true | _ => false end.

Definition holds_record (w : WriterPc) : bool := match w with WWriting | WWrote _ _ => true | _ => false end.
Definition past_loop (w : WriterPc) : bool :=
  match w with WLeaving | WUnsynced | WLast | WExited => true | _ => false end.

Record wf (m : Machine) : Prop := {
  wf_exclusive : (count holds_exclusive (clients m) <= 1)%nat /\
    ((0 < count holds_exclusive (clients m))%nat -> count holds_shared (clients m) = 0%nat);
  wf_paused : count at_work (clients m) = Nat.b2n (writer_paused m);
  wf_quiet : writer_paused m = true -> queue (journal m) = [] /\ writing (journal m) = None;
  wf_writing : writing (journal m) = None <-> holds_record (writer m) = false;
  wf_failed : failed (journal m) = true -> queue (journal m) = [] /\ writing (journal m) = None;
  wf_left : past_loop (writer m) = true ->
    queue (journal m) = [] /\ (stopping (journal m) = true \/ failed (journal m) = true);
  wf_stopping : stopping (journal m) = true -> accepting (journal m) = false;
  wf_idle_sleepers : (0 < count idle_sleeper (clients m))%nat -> settled (journal m) = false;
  wf_asleep : writer m = WSleeping ->
    (queue (journal m) <> [] -> (0 < count append_notifies (clients m))%nat) /\
    (stopping (journal m) = true -> (0 < count stop_notifies (clients m))%nat);
  wf_one_stop : (count in_stop (clients m) <= 1)%nat;
  wf_will_join : (0 < count will_join (clients m))%nat ->
    joinable (journal m) = true /\ stopping (journal m) = true;
  wf_no_join : (0 < count no_join (clients m))%nat -> joinable (journal m) = false;
  wf_joined : joinable (journal m) = false -> writer m = WExited;
  wf_stop_open : stopping (journal m) = true -> is_open (journal m) = true ->
    (0 < count in_stop (clients m))%nat;
}.

#[local] Arguments settled : simpl never.

Ltac client_counts Hi pc' :=
  match type of Hi with
  | ?cs !! ?i = Some _ =>
      pose proof (count_insert holds_exclusive cs i _ pc' Hi);
      pose proof (count_insert holds_shared cs i _ pc' Hi);
      pose proof (count_insert at_work cs i _ pc' Hi);
      pose proof (count_insert idle_sleeper cs i _ pc' Hi);
      pose proof (count_insert append_notifies cs i _ pc' Hi);
      pose proof (count_insert stop_notifies cs i _ pc' Hi);
      pose proof (count_insert in_stop cs i _ pc' Hi);
      pose proof (count_insert will_join cs i _ pc' Hi);
      pose proof (count_insert no_join cs i _ pc' Hi)
  end;
  cbn [holds_exclusive holds_shared at_work idle_sleeper append_notifies stop_notifies in_stop will_join no_join
    Nat.b2n] in *.

(** The fields of the invariant, once the counts are at hand. *)
Ltac feed :=
  repeat match goal with
    | H : (0 < ?n)%nat -> _ |- _ => let K := fresh in assert (0 < n)%nat as K by lia; specialize (H K)
    end.
Ltac wf_field :=
  cbn [journal writer_paused writer clients];
  solve [assumption | lia | intros; feed; intuition (first [congruence | lia])].

Lemma free_shared cs : shared_free cs = true -> count holds_exclusive cs = 0%nat.
Proof. unfold shared_free. rewrite negb_true_iff. apply count_existsb. Qed.

Lemma free_exclusive cs : exclusive_free cs = true -> count holds_exclusive cs = 0%nat /\ count holds_shared cs = 0%nat.
Proof.
  unfold exclusive_free. rewrite negb_true_iff, count_existsb. intros H.
  pose proof (count_le holds_exclusive (fun pc => holds_exclusive pc || holds_shared pc) cs) as H1.
  pose proof (count_le holds_shared (fun pc => holds_exclusive pc || holds_shared pc) cs) as H2.
  split; [cut (count holds_exclusive cs <= 0)%nat; [lia|]|cut (count holds_shared cs <= 0)%nat; [lia|]];
    rewrite <- H; [apply H1|apply H2]; intros x ->; by rewrite ?orb_true_r.
Qed.

Lemma wf_flags j j' p w cs : flags j' = flags j -> wf (mkMachine j p w cs) -> wf (mkMachine j' p w cs).
Proof.
  intros Hf Hw. pose proof (settled_flags _ _ Hf) as Hs. injection Hf as F1 F2 F3 F4 F5 F6 F7.
  destruct Hw. constructor; cbn [journal writer_paused writer clients] in *; by rewrite ?Hs, ?F1, ?F2, ?F3, ?F4, ?F5, ?F6, ?F7.
Qed.

Lemma wf_moves m i pc pc' : wf m -> clients m !! i = Some pc -> moves m pc pc' ->
  wf (mkMachine (journal m) (writer_paused m) (writer m) (<[i := pc']> (clients m))).
Proof.
  intros [] Hi Hm.
  destruct Hm; [..|destruct call| |];
    try match goal with H : shared_free _ = true |- _ => apply free_shared in H end;
    try match goal with H : exclusive_free _ = true |- _ => apply free_exclusive in H as [? ?] end;
    try match goal with H : one_stop_rule _ CallStop = true |- _ =>
      cbn [one_stop_rule] in H; apply negb_true_iff, count_existsb in H end;
    cbn [entry];
    match goal with |- wf (mkMachine _ _ _ (<[_ := ?q]> _)) => client_counts Hi q end;
    constructor; wf_field.
Qed.

Lemma wake_counts cs : count idle_sleeper (notify_idle cs) = 0%nat /\
  count holds_exclusive (notify_idle cs) = count holds_exclusive cs /\
  count holds_shared (notify_idle cs) = count holds_shared cs /\
  count at_work (notify_idle cs) = count at_work cs /\
  count append_notifies (notify_idle cs) = count append_notifies cs /\
  count stop_notifies (notify_idle cs) = count stop_notifies cs /\
  count in_stop (notify_idle cs) = count in_stop cs /\
  count will_join (notify_idle cs) = count will_join cs /\
  count no_join (notify_idle cs) = count no_join cs.
Proof.
  unfold notify_idle. rewrite !count_map.
  split; [apply count_false; by intros []|]. repeat split; apply count_ext; by intros [].
Qed.

Lemma wf_writer_moves m w' : wf m -> writer_moves m (writer m) w' ->
  wf (mkMachine (journal m) (writer_paused m) w' (clients m)).
Proof.
  intros [] Hm. destruct m as [j p w cs]. cbn [journal writer_paused writer clients] in *.
  inversion Hm as [Hr|Hp Hpop Hs|limit status| | |]; subst; clear Hm; cbn [journal writer_paused] in *;
    try (constructor; cbn [holds_record past_loop] in *; wf_field).
  - unfold writer_runs in Hr. cbn [journal writer_paused] in Hr. apply orb_false_iff in Hr as [Hr Hf].
    apply orb_false_iff in Hr as [Hq Hs].
    assert (queue j = []) as Eq by (destruct (queue j), p; try done; by apply wf_quiet0).
    constructor; cbn [holds_record past_loop] in *; wf_field.
  - assert (queue j = []) as Eq.
    { unfold writer_pop in Hpop. cbn [holds_record] in *. destruct wf_writing0 as [_ W]. rewrite W in Hpop by done.
      by destruct (queue j). }
    apply orb_true_iff in Hs. constructor; cbn [holds_record past_loop] in *; wf_field.
Qed.

(** The steps that change a flag. *)
Lemma wf_enqueue m i kind ordinal body status j' : wf m -> clients m !! i = Some (AppendLocked kind ordinal body) ->
  enqueued (journal m) j' ->
  wf (mkMachine j' (writer_paused m) (writer m) (<[i := AppendNotify status]> (clients m))).
Proof.
  intros [] Hi (H1 & H2 & H3 & record & Hf). destruct m as [j p w cs]. cbn [journal writer_paused writer clients] in *.
  client_counts Hi (AppendNotify status).
  assert (p = false) as ->.
  { pose proof (count_at holds_shared cs i _ Hi eq_refl).
    pose proof (count_le at_work holds_exclusive cs ltac:(by intros [])). destruct p; [|done]. simpl in *. lia. }
  assert (stopping j = false) as Hs by (destruct (stopping j); [by rewrite wf_stopping0 in H2|done]).
  assert (past_loop w = false) as Hp.
  { destruct (past_loop w); [|done]. destruct (wf_left0 eq_refl) as [_ [?|?]]; congruence. }
  injection Hf as F1 F2 F3 F4 F5 F6 F7.
  constructor; cbn [journal writer_paused writer clients]; rewrite ?F1, ?F2, ?F3, ?F4, ?F5, ?F6, ?F7; try wf_field.
  intros Hz. unfold settled, idle. rewrite F1, F3, F6, H1, H3. by destruct (queue j).
Qed.

Lemma settled_failed j : failed j = true -> settled j = true.
Proof. unfold settled. intros ->. by rewrite orb_true_r. Qed.

Lemma settled_idle j : idle j = true -> settled j = true.
Proof. unfold settled. by intros ->. Qed.

(** Where the journal has settled nobody waits for it to settle. *)
Lemma no_sleepers m : wf m -> settled (journal m) = true -> count idle_sleeper (clients m) = 0%nat.
Proof. intros Hw Hs. destruct (count _ _) eqn:E; [done|]. rewrite (wf_idle_sleepers _ Hw) in Hs; [done|]. rewrite E. lia. Qed.

Lemma wf_notify m i pc pc' : wf m -> clients m !! i = Some pc ->
  match pc, pc' with
  | AppendNotify _, Resting _ | CompactNotify _, Resting _ | StopNotify true, StopJoin | StopNotify false, StopLast => True
  | _, _ => False
  end ->
  wf (mkMachine (journal m) (writer_paused m) (notify_queue (writer m)) (<[i := pc']> (clients m))).
Proof.
  intros [] Hi Hm. destruct m as [j p w cs]. cbn [journal writer_paused writer clients] in *.
  assert (holds_record (notify_queue w) = holds_record w /\ past_loop (notify_queue w) = past_loop w /\
    notify_queue w <> WSleeping /\ (w = WExited -> notify_queue w = WExited)) as (N1 & N2 & N3 & N4).
  { destruct w; by split_and!. }
  destruct pc as [| | | | | | | | | | | | |[]| |], pc'; try done;
    match goal with |- wf (mkMachine _ _ _ (<[_ := ?q]> _)) => client_counts Hi q end;
    constructor; cbn [journal writer_paused writer clients]; rewrite ?N1, ?N2; wf_field.
Qed.

Lemma wf_flush_failed m i status : wf m -> clients m !! i = Some FlushReady -> idle (journal m) = true ->
  wf (mkMachine (with_failure (journal m) StatusCode.Io) (writer_paused m) (writer m)
    (<[i := Resting status]> (clients m))).
Proof.
  intros Hw Hi Hd. pose proof (no_sleepers _ Hw (settled_idle _ Hd)) as Hz. apply idle_spec in Hd as [Hq Hr].
  destruct Hw. client_counts Hi (Resting status).
  constructor; unfold with_failure; cbn [journal writer_paused writer clients queue writing failed stopping accepting joinable];
    wf_field.
Qed.

Lemma wf_pause m i faults ordinal body : wf m -> clients m !! i = Some (CompactReady faults ordinal body) ->
  idle (journal m) = true ->
  wf (mkMachine (journal m) true (writer m) (<[i := CompactWork faults ordinal body Closing]> (clients m))).
Proof.
  intros Hw Hi Hd. apply idle_spec in Hd as [Hq Hr]. destruct Hw.
  pose proof (count_le at_work holds_exclusive (<[i := CompactWork faults ordinal body Closing]> (clients m))
    ltac:(by intros [])) as Hle.
  client_counts Hi (CompactWork faults ordinal body Closing).
  constructor; cbn [writer_paused Nat.b2n]; wf_field.
Qed.

Lemma wf_closed_down m i faults ordinal body s s' j' : wf m -> clients m !! i = Some (CompactWork faults ordinal body s) ->
  closed_down (journal m) j' ->
  wf (mkMachine j' (writer_paused m) (writer m) (<[i := CompactWork faults ordinal body s']> (clients m))).
Proof.
  intros Hw Hi Hd. pose proof (count_at at_work _ i _ Hi eq_refl) as Hp. rewrite (wf_paused _ Hw) in Hp.
  destruct (wf_quiet _ Hw) as [Hq Hr]; [by destruct (writer_paused m); simpl in Hp; [|lia]|].
  pose proof (count_le idle_sleeper (fun pc => holds_exclusive pc || holds_shared pc) (clients m) ltac:(by intros [])) as Hz.
  assert (settled (journal m) = true) as Hset by (apply settled_idle, idle_spec; done).
  pose proof (no_sleepers _ Hw Hset) as Hz0. destruct Hw.
  client_counts Hi (CompactWork faults ordinal body s'). injection Hd as F1 F2 F3 F4 F5 F6 F7.
  constructor; cbn [journal writer_paused writer clients]; rewrite ?F1, ?F2, ?F3, ?F4, ?F5, ?F6, ?F7; wf_field.
Qed.

Lemma wf_resume m i faults ordinal body status : wf m ->
  clients m !! i = Some (CompactWork faults ordinal body (Resuming status)) ->
  wf (mkMachine (journal m) false (writer m) (<[i := CompactNotify status]> (clients m))).
Proof.
  intros Hw Hi. pose proof (count_at at_work _ i _ Hi eq_refl) as Hp. rewrite (wf_paused _ Hw) in Hp.
  destruct (writer_paused m) eqn:Ep; simpl in Hp; [|lia]. destruct Hw. rewrite Ep in *.
  client_counts Hi (CompactNotify status). constructor; cbn [writer_paused Nat.b2n]; wf_field.
Qed.

(** Only one client is inside [stop]. *)
Lemma only_stop P cs i pc : cs !! i = Some pc -> in_stop pc = true -> (count in_stop cs <= 1)%nat ->
  (forall pc, P pc = true -> in_stop pc = true) -> count P cs = Nat.b2n (P pc).
Proof.
  intros Hi Hs Hle HP. pose proof (count_insert P cs i _ FlushEntry Hi) as Ha.
  pose proof (count_insert in_stop cs i _ FlushEntry Hi) as Hb. rewrite Hs in Hb. cbn [in_stop Nat.b2n] in Hb.
  assert (P FlushEntry = false) as Hff by (destruct (P FlushEntry) eqn:E; [by apply HP in E|done]). rewrite Hff in Ha.
  pose proof (count_le P in_stop (<[i := FlushEntry]> cs) HP). simpl in *. lia.
Qed.

Ltac stop_counts Hi :=
  match type of Hi with
  | ?cs !! ?i = Some ?pc =>
      pose proof (count_at in_stop cs i pc Hi eq_refl);
      pose proof (only_stop will_join cs i pc Hi eq_refl ltac:(assumption) ltac:(by intros []));
      pose proof (only_stop no_join cs i pc Hi eq_refl ltac:(assumption) ltac:(by intros []))
  end.

Lemma wf_stop_begin m i : wf m -> clients m !! i = Some StopEntry ->
  wf (mkMachine (stop_begin (journal m)) (writer_paused m) (writer m)
    (<[i := StopNotify (joinable (journal m))]> (clients m))).
Proof.
  intros [] Hi. destruct m as [j p w cs]. cbn [journal writer_paused writer clients] in *.
  stop_counts Hi. client_counts Hi (StopNotify (joinable j)).
  constructor; unfold stop_begin, settled, idle in *;
    cbn [journal writer_paused writer clients queue writing failed stopping accepting joinable is_open] in *; try wf_field;
    destruct (is_open j), (joinable j), (stopping j); cbn [orb negb andb Nat.b2n] in *; try rewrite ?andb_false_r, ?andb_true_r; wf_field.
Qed.

Lemma wf_join m i : wf m -> clients m !! i = Some StopJoin -> writer m = WExited ->
  wf (mkMachine (join (journal m)) (writer_paused m) (writer m) (<[i := StopLast]> (clients m))).
Proof.
  intros [] Hi Ew. stop_counts Hi. client_counts Hi StopLast.
  constructor; unfold join, settled, idle in *;
    cbn [journal writer_paused writer clients queue writing failed stopping accepting joinable is_open] in *; wf_field.
Qed.

Lemma exited_idle m : wf m -> past_loop (writer m) = true -> idle (journal m) = true.
Proof.
  intros Hw Hp. apply idle_spec. split; [by apply (wf_left _ Hw)|]. apply (wf_writing _ Hw). by destruct (writer m).
Qed.

Lemma last_exited m i : wf m -> clients m !! i = Some StopLast -> writer m = WExited.
Proof. intros Hw Hi. apply (wf_joined _ Hw), (wf_no_join _ Hw). by apply (count_at no_join _ i StopLast). Qed.

Lemma wf_stop_end m i sync_ok status : wf m -> clients m !! i = Some StopLast ->
  wf (mkMachine (stop_end sync_ok (journal m)).2 (writer_paused m) (writer m) (<[i := Resting status]> (clients m))).
Proof.
  intros Hw Hi. pose proof (last_exited _ _ Hw Hi) as Ew.
  pose proof (no_sleepers _ Hw (settled_idle _ (exited_idle _ Hw ltac:(by rewrite Ew)))) as Hz. destruct Hw.
  client_counts Hi (Resting status).
  constructor; unfold stop_end;
    cbn [snd journal writer_paused writer clients queue writing failed stopping accepting joinable is_open] in *; wf_field.
Qed.

Lemma wf_pop m j' : wf m -> writer m = WReady -> writer_paused m = false -> writer_pop (journal m) = Some j' ->
  wf (mkMachine j' (writer_paused m) WWriting (clients m)).
Proof.
  intros [] Ew Ep Hpop. destruct m as [j p w cs]. cbn [journal writer_paused writer clients] in *. subst.
  revert Hpop. unfold writer_pop. destruct (writing j) eqn:Er; [done|]. destruct (queue j) as [|r rest] eqn:Eq; [done|].
  intros [= <-].
  assert (failed j = false) as Hf by (destruct (failed j); [by destruct (wf_failed0 eq_refl)|done]).
  constructor; cbn [journal writer_paused writer clients queue writing failed stopping accepting joinable is_open
    holds_record past_loop] in *; try wf_field.
  intros Hz. specialize (wf_idle_sleepers0 Hz). revert wf_idle_sleepers0. unfold settled, idle. cbn.
  rewrite Eq, Hf. by destruct rest.
Qed.

Lemma wf_finish m limit status : wf m -> writer m = WWrote limit status ->
  wf (mkMachine (writer_finish status (journal m)) (writer_paused m) WReady (notify_idle (clients m))).
Proof.
  intros [] Ew. destruct m as [j p w cs]. cbn [journal writer_paused writer clients] in *. subst.
  destruct (wake_counts cs) as (C0 & C1 & C2 & C3 & C4 & C5 & C6 & C7 & C8).
  unfold writer_finish. destruct (writing j) as [r|] eqn:Er; [|by destruct wf_writing0 as [W _]; specialize (W eq_refl)].
  constructor; cbn [journal writer_paused writer clients]; rewrite ?C0, ?C1, ?C2, ?C3, ?C4, ?C5, ?C6, ?C7, ?C8;
    destruct (ok status);
    cbn [written write_failed queue writing failed stopping accepting joinable is_open holds_record past_loop] in *; wf_field.
Qed.

Lemma wf_failed_sync m : wf m -> writer m = WUnsynced ->
  wf (mkMachine (with_failure (journal m) StatusCode.Io) (writer_paused m) WLast (clients m)).
Proof.
  intros Hw Ew. pose proof (exited_idle _ Hw ltac:(by rewrite Ew)) as Hd.
  pose proof (no_sleepers _ Hw (settled_idle _ Hd)) as Hz. apply idle_spec in Hd as [Hq Hr]. destruct Hw. rewrite Ew in *.
  constructor; unfold with_failure;
    cbn [journal writer_paused writer clients queue writing failed stopping accepting joinable is_open holds_record past_loop] in *;
    wf_field.
Qed.

Lemma wf_exit m : wf m -> writer m = WLast ->
  wf (mkMachine (writer_last (journal m)) (writer_paused m) WExited (notify_idle (clients m))).
Proof.
  intros [] Ew. destruct m as [j p w cs]. cbn [journal writer_paused writer clients] in *. subst.
  destruct (wake_counts cs) as (C0 & C1 & C2 & C3 & C4 & C5 & C6 & C7 & C8).
  constructor; cbn [journal writer_paused writer clients]; rewrite ?C0, ?C1, ?C2, ?C3, ?C4, ?C5, ?C6, ?C7, ?C8;
    cbn [writer_last with_depth with_stats queue writing failed stopping accepting joinable is_open holds_record past_loop] in *;
    wf_field.
Qed.

Create HintDb wf.
#[local] Hint Resolve wf_enqueue wf_notify wf_flush_failed wf_pause wf_closed_down wf_stop_begin wf_join wf_stop_end wf_pop
  wf_finish wf_failed_sync wf_exit : wf.

Lemma wf_control m m' : wf m -> control m m' -> wf m'.
Proof.
  intros Hw []; eauto with wf.
  - eapply wf_flags; [eassumption|]. by eapply wf_moves.
  - eapply wf_flags; [eassumption|]. by apply wf_writer_moves.
  - eapply wf_flags; [|by eapply wf_resume]. done.
Qed.

Lemma wf_started j n : writing j = None -> stopping j = false -> failed j = false -> joinable j = true ->
  wf (started j n).
Proof.
  intros H1 H2 H3 H4. assert (forall P, P (Resting None) = false -> count P (repeat (Resting None) n) = 0%nat) as Hc.
  { intros P HP. induction n as [|n IH]; simpl; [done|]. by rewrite HP. }
  constructor; cbn [started journal writer_paused writer clients holds_record past_loop]; rewrite ?Hc by done; wf_field.
Qed.

Lemma wf_run rule `{!Rule rule} acts : forall m m' evs, wf m -> run rule acts m = Some (m', evs) -> wf m'.
Proof.
  induction acts as [|a acts IH]; intros m m' evs Hw; cbn [run]; [by intros [= <- <-]|].
  destruct (step rule a m) as [[m1 ev]|] eqn:Es; [|done]. destruct (run rule acts m1) as [[m2 evs']|] eqn:Er; [|done].
  intros [= <- <-]. eapply IH; [|exact Er]. eapply wf_control; [exact Hw|by eapply step_control].
Qed.

(** ** Progress *)

Section Totals.
Context {A : Type}.
Implicit Types (f : A -> nat) (l : list A).

Fixpoint total f l : nat := match l with [] => 0 | x :: l => f x + total f l end.

Lemma total_insert f l : forall i x y, l !! i = Some x -> (total f (<[i := y]> l) + f x = total f l + f y)%nat.
Proof.
  induction l as [|z l IH]; intros [|i] x y; simpl; try done; [intros [= ->]; lia|].
  intros H. specialize (IH i x y H). lia.
Qed.

Lemma total_map f g l : (forall x, f (g x) <= f x + 1)%nat -> (total f (map g l) <= total f l + length l)%nat.
Proof. intros H. induction l as [|x l IH]; simpl; [done|]. specialize (H x). lia. Qed.
End Totals.

(** The steps left in a call, in the writer and in a queued record, beside [n]
    clients: a notification of [idle_cv_] may wake them all. *)
Definition client_work (n : nat) (pc : ClientPc) : nat :=
  match pc with
  | Resting _ => 0
  | AppendEntry _ _ _ => n + 7 | AppendLocked _ _ _ => n + 6 | AppendNotify _ => 2
  | FlushEntry => 3 | FlushReady => 2 | FlushSleeping => 1
  | CompactEntry _ _ _ => 10 | CompactReady _ _ _ => 9 | CompactSleeping _ _ _ => 8
  | CompactWork _ _ _ Closing => 7 | CompactWork _ _ _ WritingTemporary => 6
  | CompactWork _ _ _ (Renaming _) => 5 | CompactWork _ _ _ (Reopening _) => 4
  | CompactWork _ _ _ (Resuming _) => 3 | CompactNotify _ => 2
  | StopEntry => 5 | StopNotify _ => 4 | StopJoin => 2 | StopLast => 1
  end.

Definition writer_work (n : nat) (w : WriterPc) : nat :=
  match w with
  | WReady => n + 5 | WSleeping => n + 4 | WWriting => n + n + 7 | WWrote _ _ => n + n + 6
  | WLeaving => n + 3 | WUnsynced => n + 2 | WLast => n + 1 | WExited => 0
  end.

Definition work (m : Machine) : nat :=
  let n := length (clients m) in
  (n + 3) * length (queue (journal m)) + writer_work n (writer m) + total (client_work n) (clients m).

Lemma flags_queue j j' : flags j' = flags j -> queue j' = queue j.
Proof. by intros [= -> _ _ _ _ _ _]. Qed.

Lemma stage_queue faults ordinal body stage m i :
  queue (journal (stage_step faults ordinal body stage m i).1) = queue (journal m).
Proof.
  destruct stage; cbn [stage_step]; try done.
  - pose proof (flags_queue _ _ (temporary_flags faults ordinal body (journal m))).
    by destruct (compact_temporary _ _ _ _).
  - pose proof (flags_queue _ _ (rename_flags faults status (journal m))). by destruct (compact_rename _ _ _).
  - pose proof (reopen_flags faults status ordinal (journal m)) as Hf. destruct (compact_reopen _ _ _ _).
    destruct Hf as [Hf | Hf]; [exact (flags_queue _ _ Hf)|]. injection Hf as Hq _ _ _ _ _ _. exact Hq.
Qed.

Lemma notify_work n w : (writer_work n (notify_queue w) <= writer_work n w + 1)%nat.
Proof. destruct w; simpl; lia. Qed.

Lemma wake_work n cs : (total (client_work n) (notify_idle cs) <= total (client_work n) cs + length cs)%nat.
Proof. apply total_map. intros []; simpl; lia. Qed.

Ltac client_less Hi :=
  expose_machine; unfold work; cbn [journal writer clients]; rewrite ?length_insert;
  match goal with |- context [total (client_work ?n) (<[?i := ?q]> ?cs)] =>
    pose proof (total_insert (client_work n) cs i _ q Hi) end;
  cbn [client_work] in *; try lia.

Lemma client_decreases i sync_ok m m' ev : client_step i sync_ok m = Some (m', ev) -> (work m' < work m)%nat.
Proof.
  unfold client_step. destruct (clients m !! i) as [pc|] eqn:Hi; [|done].
  destruct pc; try done.
  - repeat case_match; intros [= <- <-]; client_less Hi.
  - destruct (append _ _ _ _) as [st j'] eqn:Ea. intros [= <- <-].
    assert (length (queue j') <= length (queue (journal m)) + 1)%nat as Hq.
    { destruct (append_flags _ _ _ _ _ _ Ea) as [Hf | [_ (_ & _ & _ & r & Hf)]].
      - rewrite (flags_queue _ _ Hf). lia.
      - injection Hf as -> _ _ _ _ _ _. rewrite length_app. simpl. lia. }
    destruct (ok st); client_less Hi; nia.
  - intros [= <- <-]. pose proof (notify_work (length (clients m)) (writer m)). client_less Hi.
  - repeat case_match; intros [= <- <-]; client_less Hi.
  - destruct (negb _); [intros [= <- <-]; client_less Hi|].
    destruct (flush _ _) as [[st j']|] eqn:Ef; [|done]. intros [= <- <-].
    assert (queue j' = queue (journal m)) as Hq.
    { destruct (flush_flags _ _ _ _ Ef) as [Hf | (_ & -> & _)]; [by apply flags_queue|done]. }
    client_less Hi. rewrite Hq. lia.
  - repeat case_match; intros [= <- <-]; client_less Hi.
  - repeat case_match; intros [= <- <-]; client_less Hi.
  - intros [= E]. assert (queue (journal m') = queue (journal m)) as Hq.
    { rewrite <- (stage_queue faults snapshot_ordinal snapshot_body stage m i). by rewrite E. }
    destruct stage; cbn [stage_step] in E;
      repeat match type of E with (let '(_, _) := ?x in _) = _ => destruct x end; simplify_eq; revert Hq;
      expose_machine; unfold work; cbn [journal writer clients]; rewrite ?length_insert; intros ->; client_less Hi.
  - intros [= <- <-]. pose proof (notify_work (length (clients m)) (writer m)). client_less Hi.
  - intros [= <- <-]. client_less Hi. cbn [stop_begin queue]. lia.
  - intros [= <- <-]. pose proof (notify_work (length (clients m)) (writer m)). destruct should_join; client_less Hi.
  - destruct (writer m) eqn:Ew; try done. intros [= <- <-]. client_less Hi. cbn [join queue]. lia.
  - intros [= <- <-]. client_less Hi. cbn [queue]. lia.
Qed.

(** The writer only starts over while it is paused. *)
Lemma writer_decreases limit sync_ok m m' ev : wf m -> writer_step limit sync_ok m = Some (m', ev) ->
  (work m' < work m)%nat \/ (m' = m /\ writer m = WReady /\ writer_paused m = true).
Proof.
  intros Hw. unfold writer_step. destruct (writer m) eqn:Ew; try done.
  - destruct (writer_runs m) eqn:Er; cbn [negb].
    + destruct (writer_paused m) eqn:Ep.
      { intros [= <- <-]. right. split; [|done]. unfold set_writer. cbn [notify_queue]. rewrite <- Ew. by destruct m. }
      assert (writing (journal m) = None) as Hr by (apply (wf_writing _ Hw); by rewrite Ew).
      unfold writer_pop. rewrite Hr.
      destruct (queue (journal m)) as [|r rest] eqn:Eq; intros [= <- <-]; left; unfold work; expose_machine;
        rewrite Ew, ?Eq; cbn [queue length].
      * assert (stopping (journal m) || failed (journal m) = true) as ->.
        { revert Er. unfold writer_runs. by rewrite Eq. }
        simpl. lia.
      * simpl. lia.
    + intros [= <- <-]. left. unfold work. expose_machine. rewrite Ew. simpl. lia.
  - pose proof (flags_queue _ _ (fwrite_flags limit (journal m))) as Hq.
    destruct (writer_fwrite _ _) as [st j']. cbn [snd] in Hq. intros [= <- <-]. left. unfold work. expose_machine.
    rewrite Ew, Hq. simpl. lia.
  - intros [= <- <-]. left. unfold work. cbn [journal writer clients]. rewrite Ew.
    pose proof (wake_work (length (clients m)) (clients m)). unfold notify_idle in *. rewrite length_map.
    assert (length (queue (writer_finish status (journal m))) <= length (queue (journal m)))%nat as Hq.
    { unfold writer_finish. destruct (writing _); [|done]. destruct (ok status); simpl; lia. }
    simpl. nia.
  - intros [= <- <-]. left. unfold work. expose_machine. rewrite Ew.
    destruct (file _); [destruct sync_ok|]; simpl; lia.
  - intros [= <- <-]. left. unfold work. expose_machine. rewrite Ew. simpl. lia.
  - intros [= <- <-]. left. unfold work. cbn [journal writer clients]. rewrite Ew.
    pose proof (wake_work (length (clients m)) (clients m)). unfold notify_idle in *. rewrite length_map.
    simpl. lia.
Qed.

(** What keeps a thread from taking its next step. *)
Definition blocked (m : Machine) (pc : ClientPc) : bool :=
  match pc with
  | Resting _ | FlushSleeping | CompactSleeping _ _ _ => true
  | AppendEntry _ _ _ | FlushEntry => negb (shared_free (clients m))
  | CompactEntry _ _ _ => negb (exclusive_free (clients m))
  | StopJoin => match writer m with WExited => false | _ => true end
  | _ => false
  end.

Lemma unblocked_steps m i pc sync_ok : clients m !! i = Some pc -> blocked m pc = false ->
  exists m' ev, client_step i sync_ok m = Some (m', ev).
Proof.
  intros Hi. unfold client_step. rewrite Hi. destruct pc; cbn [blocked]; intros Hb; try done;
    rewrite ?negb_false_iff in Hb; rewrite ?Hb; repeat case_match; try done; eauto.
  - exfalso. match goal with H : flush _ _ = None |- _ => revert H end. unfold flush.
    unfold settled in *. repeat case_match; try done; congruence.
  - destruct (stage_step _ _ _ _ _ _). eauto.
Qed.

(** A step of a thread that is inside a call, or of the writer. *)
Definition thread_step (limit : option Z) (sync_ok : bool) (m m' : Machine) : Prop :=
  (exists i ev, client_step i sync_ok m = Some (m', ev)) \/ (exists ev, writer_step limit sync_ok m = Some (m', ev)).

Definition advances (limit : option Z) (sync_ok : bool) (m : Machine) : Prop :=
  exists m', thread_step limit sync_ok m m' /\ (work m' < work m)%nat.

Lemma asleep_or_not w : w = WSleeping \/ w <> WSleeping.
Proof. destruct w; (by left) || (by right). Qed.

Section Progress.
Context (limit : option Z) (sync_ok : bool) (m : Machine) (Hw : wf m).

Lemma client_advances i pc : clients m !! i = Some pc -> blocked m pc = false -> advances limit sync_ok m.
Proof using Type.
  intros Hi Hb. destruct (unblocked_steps m i pc sync_ok Hi Hb) as (m' & ev & E). exists m'. split; [left; eauto|].
  by eapply client_decreases.
Qed.

Lemma writer_advances : writer m <> WSleeping -> writer m <> WExited ->
  (writer m = WReady -> writer_paused m = false) -> advances limit sync_ok m.
Proof using Hw.
  intros H1 H2 H3. assert (exists m' ev, writer_step limit sync_ok m = Some (m', ev)) as (m' & ev & E).
  { unfold writer_step. destruct (writer m); try done; repeat case_match; eauto. }
  exists m'. split; [right; eauto|]. destruct (writer_decreases _ _ _ _ _ Hw E) as [? | (_ & E1 & E2)]; [done|].
  rewrite H3 in E2; done.
Qed.

Lemma counted_advances P : (0 < count P (clients m))%nat -> (forall pc, P pc = true -> blocked m pc = false) ->
  advances limit sync_ok m.
Proof using Type. intros Hc HP. apply count_pos in Hc as (i & pc & Hi & Hpc). apply (client_advances i pc Hi). by apply HP. Qed.

(** Work in the queue or in the hands of the writer gets on. *)
Lemma sleeper_advances i pc : clients m !! i = Some pc -> idle_sleeper pc = true -> advances limit sync_ok m.
Proof using Hw.
  intros Hi Hs. pose proof (wf_idle_sleepers _ Hw (count_at _ _ _ _ Hi Hs)) as Hu.
  assert (idle (journal m) = false) as Hd by (revert Hu; unfold settled; by destruct (idle _)).
  destruct (asleep_or_not (writer m)) as [Ew|Ew].
  { apply (counted_advances append_notifies); [|by intros []]. apply (wf_asleep _ Hw Ew). intros Eq.
    assert (writing (journal m) = None) as Er by (apply (wf_writing _ Hw); by rewrite Ew).
    assert (idle (journal m) = true) by by apply idle_spec. congruence. }
  assert (past_loop (writer m) = false) as Hp.
  { destruct (past_loop (writer m)) eqn:Ep; [|done]. rewrite (exited_idle _ Hw Ep) in Hd. done. }
  apply writer_advances; [done| |].
  - intros E. by rewrite E in Hp.
  - intros _. destruct (writer_paused m) eqn:Epa; [|done].
    assert (idle (journal m) = true) by by apply idle_spec, (wf_quiet _ Hw). congruence.
Qed.

Lemma lock_holder_advances i pc : clients m !! i = Some pc -> holds_exclusive pc || holds_shared pc = true ->
  advances limit sync_ok m.
Proof using Hw.
  intros Hi Hh. destruct (idle_sleeper pc) eqn:Es; [by eapply sleeper_advances|].
  apply (client_advances i pc Hi). by destruct pc.
Qed.

Lemma blocked_lock_advances P : existsb P (clients m) = true ->
  (forall pc, P pc = true -> holds_exclusive pc || holds_shared pc = true) -> advances limit sync_ok m.
Proof using Hw.
  intros He HP. destruct (count P (clients m)) eqn:Ec.
  - apply count_existsb in Ec. congruence.
  - assert (0 < count P (clients m))%nat as Hc by lia. apply count_pos in Hc as (i & pc & Hi & Hpc).
    by eapply lock_holder_advances; [|apply HP].
Qed.

Lemma joiner_advances i : clients m !! i = Some StopJoin -> writer m <> WExited -> advances limit sync_ok m.
Proof using Hw.
  intros Hi He. destruct (wf_will_join _ Hw (count_at will_join _ _ _ Hi eq_refl)) as [Hj Hs].
  destruct (asleep_or_not (writer m)) as [Ew|Ew].
  { apply (counted_advances stop_notifies); [by apply (wf_asleep _ Hw Ew)|by intros []]. }
  destruct (writer_paused m) eqn:Ep.
  - apply (counted_advances at_work); [|by intros []]. rewrite (wf_paused _ Hw), Ep. simpl. lia.
  - by apply writer_advances.
Qed.

(** Whatever a client inside a call waits for, some thread gets on with it. *)
Lemma busy_advances i pc : clients m !! i = Some pc -> (forall status, pc <> Resting status) ->
  advances limit sync_ok m.
Proof using Hw.
  intros Hi Hc. destruct (blocked m pc) eqn:Hb; [|by eapply client_advances].
  destruct pc; cbn [blocked] in Hb; try done.
  - by destruct (Hc returned).
  - apply negb_true_iff in Hb. unfold shared_free in Hb. apply negb_false_iff in Hb.
    apply (blocked_lock_advances _ Hb). by intros pc ->.
  - apply negb_true_iff in Hb. unfold shared_free in Hb. apply negb_false_iff in Hb.
    apply (blocked_lock_advances _ Hb). by intros pc ->.
  - by eapply sleeper_advances.
  - apply negb_true_iff in Hb. unfold exclusive_free in Hb. apply negb_false_iff in Hb.
    by apply (blocked_lock_advances _ Hb).
  - by eapply sleeper_advances.
  - apply (joiner_advances i Hi). intros E. by rewrite E in Hb.
Qed.
End Progress.

Lemma wf_thread_step limit sync_ok m m' : wf m -> thread_step limit sync_ok m m' -> wf m'.
Proof.
  intros Hw [(i & ev & E) | (ev & E)]; (eapply wf_control; [exact Hw|]); [by eapply client_control|by eapply writer_control].
Qed.

Definition at_rest (pc : ClientPc) : bool := match pc with Resting _ => true | _ => false end.

Lemma rest_or_busy cs : Forall (fun pc => at_rest pc = true) cs \/
  exists i pc, cs !! i = Some pc /\ forall status, pc <> Resting status.
Proof.
  induction cs as [|pc cs IH]; [by left|]. destruct (at_rest pc) eqn:E.
  - destruct IH as [IH | (i & q & H1 & H2)]; [left; by constructor|right; by exists (S i), q].
  - right. exists 0%nat, pc. split; [done|]. by intros status ->.
Qed.

Lemma calls_complete limit sync_ok w : forall m, wf m -> (work m <= w)%nat ->
  exists k m', (k <= work m)%nat /\ nsteps (thread_step limit sync_ok) k m m' /\ Forall (fun pc => at_rest pc = true) (clients m').
Proof.
  induction w as [|w IH]; intros m Hw Hle;
    (destruct (rest_or_busy (clients m)) as [Hr | (i & pc & Hi & Hpc)];
     [exists 0%nat, m; split_and!; [lia|constructor|done]|]);
    destruct (busy_advances limit sync_ok m Hw i pc Hi Hpc) as (m1 & Hs & Hlt); [lia|].
  destruct (IH m1) as (k & m' & Hk & Hn & Hr); [by eapply wf_thread_step|lia|].
  exists (S k), m'. split_and!; [lia|by eapply nsteps_l|done].
Qed.

Lemma open_starts faults epoch wall cfg disk j : open faults epoch wall (create cfg disk) = (StatusCode.Ok, j) ->
  forall n, wf (started j n).
Proof.
  intros Ho n. revert Ho. unfold open, create. repeat case_match; intros [= <-]; by apply wf_started.
Qed.

(** C7: No call waits forever.  After any schedule of the writer and any number of
    clients, spurious wakeups included, and whatever the file operations answer:
    every further step of a thread leaves less work, except the writer's turn
    round its loop while a compaction has it paused, which changes nothing; and
    without any new call or spurious wakeup at most [work m] steps bring every
    call to its end.  In particular no wakeup is lost, and [flush], [compact],
    [stop] and the writer never wait for each other in a circle. *)
Theorem no_call_waits_forever faults epoch wall cfg disk n j acts m evs :
  open faults epoch wall (create cfg disk) = (StatusCode.Ok, j) ->
  run one_stop_rule acts (started j n) = Some (m, evs) ->
  (forall limit sync_ok m', thread_step limit sync_ok m m' ->
     (work m' < work m)%nat \/ (m' = m /\ writer m = WReady /\ writer_paused m = true)) /\
  (forall limit sync_ok, exists k m', (k <= work m)%nat /\ nsteps (thread_step limit sync_ok) k m m' /\
     Forall (fun pc => at_rest pc = true) (clients m')).
Proof.
  intros Ho Hr. pose proof (wf_run one_stop_rule acts _ _ _ (open_starts _ _ _ _ _ _ Ho n) Hr) as Hw. split.
  - intros limit sync_ok m' [(i & ev & E) | (ev & E)]; [left; by eapply client_decreases|by eapply writer_decreases].
  - intros limit sync_ok. by eapply calls_complete.
Qed.
