(* ===== verification/JournalThreadsLog.v ===== *)
(** * The threads of the background journal refine its atomic operations

    Under the rule the fabric keeps, every schedule of the threads has the effect
    of a sequence of the atomic operations of [Journal], so that what holds of the
    journal as a log holds of the threads too. *)

From Stdlib Require Import ZArith Lia Bool List String Ascii.
From stdpp Require Import base decidable relations list strings.
From S2P Require Import Prelude OrdMap Core Hash Quality Config Codec Journal JournalSpec JournalWriterSpec JournalThreads JournalThreadsSpec.

Open Scope Z_scope.

#[local] Arguments enum_val : simpl never.
#[local] Arguments encode_record_bytes : simpl never.
#[local] Arguments build_file_header : simpl never.
#[local] Arguments write_at : simpl never.

Import BackgroundJournal JournalThreads.

(** ** The operations in pieces *)

Lemma write_in_pieces limit a record : writing a = Some record ->
  writer_write limit a = Some (writer_finish (writer_fwrite limit a).1 (writer_fwrite limit a).2).
Proof.
  intros Hr. unfold writer_write, writer_fwrite, writer_finish. rewrite Hr. destruct (file a) as [position|] eqn:Ef.
  - cbn [fst snd]. destruct (write_complete _ _); cbn; by rewrite Hr.
  - cbn [fst snd]. rewrite Hr. cbn. by rewrite Ef.
Qed.

Lemma append_config kind ordinal body a : config (append kind ordinal body a).2 = config a.
Proof. unfold append. by repeat case_match. Qed.

(** [append] and the first part of [stop] leave the file alone, so they may run
    while the writer writes. *)
(** [append] with another disk and another position of the stream. *)
Lemma append_with_file kind ordinal body a d f :
  append kind ordinal body (with_file a d f)
  = ((append kind ordinal body a).1, with_file (append kind ordinal body a).2 d f).
Proof.
  unfold append. cbn [with_file config queue is_open accepting failed failure stats has_enqueued_ordinal last_enqueued_ordinal].
  by repeat case_match.
Qed.

Lemma append_keeps kind ordinal body a :
  writing (append kind ordinal body a).2 = writing a /\ file (append kind ordinal body a).2 = file a /\
  disk (append kind ordinal body a).2 = disk a.
Proof. unfold append. by repeat case_match. Qed.

Lemma append_beside_fwrite limit kind ordinal body a record : writing a = Some record ->
  let r := append kind ordinal body (writer_fwrite limit a).2 in
  let r' := append kind ordinal body a in
  r.1 = r'.1 /\ writer_fwrite limit r'.2 = ((writer_fwrite limit a).1, r.2) /\ writing r'.2 = Some record.
Proof.
  intros Hr. cbv zeta. destruct (append_keeps kind ordinal body a) as (K1 & K2 & K3).
  unfold writer_fwrite. rewrite K1, K2, K3, Hr. destruct (file a) as [position|] eqn:Ef; cbn [fst snd].
  - by rewrite append_with_file.
  - done.
Qed.

Lemma stop_begin_beside_fwrite limit a record : writing a = Some record ->
  writer_fwrite limit (stop_begin a) = ((writer_fwrite limit a).1, stop_begin (writer_fwrite limit a).2).
Proof.
  intros Hr. unfold writer_fwrite. cbn [writing stop_begin file]. rewrite Hr. by destruct (file a).
Qed.

(** A compaction that its first critical section lets through. *)
Definition admitted (ordinal : Z) (body : list Z) (a : t) : Prop :=
  jc_enabled (config a) = true /\ zlen body <= jc_max_record_bytes (config a) /\
  settled a = true /\ compact_refused ordinal a = None.

Lemma compact_refusal faults ordinal body a status : jc_enabled (config a) = true ->
  zlen body <= jc_max_record_bytes (config a) -> settled a = true -> compact_refused ordinal a = Some status ->
  compact faults ordinal body a = Some (status, a).
Proof.
  intros H1 H2 H3. unfold compact, compact_refused. fold (settled a). rewrite H1, H3. cbn [negb].
  destruct (Z.ltb_spec (jc_max_record_bytes (config a)) (zlen body)); [lia|].
  repeat case_match; by intros [= <-].
Qed.

(** Where a compaction stands: its status so far and the journal. *)
Definition stages (faults : CompactFaults) (ordinal : Z) (body : list Z) (a : t) (stage : Stage) : Status * t :=
  let temporary := compact_temporary faults ordinal body (compact_close a) in
  let renamed := compact_rename faults temporary.1 temporary.2 in
  match stage with
  | Closing => (StatusCode.Ok, a)
  | WritingTemporary => (StatusCode.Ok, compact_close a)
  | Renaming _ => temporary
  | Reopening _ => renamed
  | Resuming _ => compact_reopen faults renamed.1 ordinal renamed.2
  end.

Definition stage_status (stage : Stage) : Status :=
  match stage with
  | Closing | WritingTemporary => StatusCode.Ok
  | Renaming status | Reopening status | Resuming status => status
  end.

Lemma temporary_status faults record : (exists c, write_temporary faults record = (StatusCode.Ok, Some c)) \/
  (exists temp, write_temporary faults record = (StatusCode.Io, temp)).
Proof. unfold write_temporary. repeat case_match; eauto. Qed.

Lemma compact_in_stages faults ordinal body a status : admitted ordinal body a ->
  compact faults ordinal body a
  = let r := stages faults ordinal body a (Resuming status) in Some (r.1, with_depth r.2).
Proof.
  intros (H1 & H2 & H3 & H4). unfold compact. fold (settled a). rewrite H1, H3. cbn [negb].
  destruct (Z.ltb_spec (jc_max_record_bytes (config a)) (zlen body)); [lia|].
  revert H4. unfold compact_refused. destruct (negb (is_open a)); [done|]. destruct (failed a) eqn:Ef; [done|].
  destruct (has_expected_ordinal a && _); [done|]. intros _.
  cbn [stages]. unfold compact_temporary, replace, compact_rename, compact_reopen, compact_retry.
  destruct a. cbn in Ef. subst.
  destruct (temporary_status faults (mkJournalRecord JournalRecordKind.Snapshot ordinal body)) as [[c ->]|[temp ->]].
  - by destruct (cf_rename_ok faults), (cf_reopen_ok faults), (cf_retry_ok faults).
  - by destruct (cf_retry_ok faults).
Qed.

(** [stop] of an idle journal is its two critical sections around the end of the
    writer and the join. *)
Lemma stop_in_pieces (writer_sync_ok stop_sync_ok : bool) a : idle a = true ->
  let j1 := stop_begin a in
  let j2 := if joinable a then
              writer_last (match file a with
                           | Some _ => if writer_sync_ok then j1 else with_failure j1 StatusCode.Io
                           | None => j1
                           end) else j1 in
  BackgroundJournal.stop writer_sync_ok stop_sync_ok a = Some (stop_end stop_sync_ok (join j2)).
Proof.
  intros Hi. unfold stop. rewrite Hi. apply idle_spec in Hi as [Hq Hr].
  destruct a as [c d f q w o st ac fl fr s l1 l2 l3 l4 l5 jn]. cbn in Hq, Hr. subst. cbn -[ok].
  destruct jn, f, fl, writer_sync_ok, stop_sync_ok, o, st; cbn -[ok]; repeat f_equal; destruct (ok fr); reflexivity.
Qed.

(** ** What the fabric's rule adds to the invariant *)

(** The checks a compaction passed before it took its lock. *)
Definition passed (c : JournalConfig) (pc : ClientPc) : Prop :=
  match pc with
  | CompactReady _ _ body | CompactSleeping _ _ body | CompactWork _ _ body _ =>
      jc_enabled c = true /\ zlen body <= jc_max_record_bytes c
  | _ => True
  end.

Record orderly (m : Machine) : Prop := {
  or_wf : wf m;
  or_apart : (0 < count in_stop (clients m))%nat -> count in_compact (clients m) = 0%nat;
  or_passed : Forall (passed (config (journal m))) (clients m);
}.

Lemma stage_config faults ordinal body stage m i :
  config (journal (stage_step faults ordinal body stage m i).1) = config (journal m).
Proof.
  destruct stage; cbn [stage_step]; try done.
  - unfold compact_temporary. by destruct (write_temporary _ _).
  - assert (config (compact_rename faults status (journal m)).2 = config (journal m)) as Hc
      by (unfold compact_rename; by repeat case_match).
    by destruct (compact_rename _ _ _).
  - assert (config (compact_reopen faults status ordinal (journal m)).2 = config (journal m)) as Hc
      by (unfold compact_reopen, compact_retry; by repeat case_match).
    by destruct (compact_reopen _ _ _ _).
Qed.

Lemma client_config i sync_ok m m' ev : client_step i sync_ok m = Some (m', ev) ->
  config (journal m') = config (journal m).
Proof.
  unfold client_step. destruct (clients m !! i) as [pc|]; [|done].
  destruct pc; try done; try (repeat case_match; by intros [= <- <-]).
  - pose proof (append_config kind ordinal body (journal m)). destruct (append _ _ _ _). by intros [= <- <-].
  - destruct (negb _); [by intros [= <- <-]|]. destruct (flush _ _) as [[st j']|] eqn:Ef; [|done].
    intros [= <- <-]. revert Ef. unfold flush. repeat case_match; by intros [= <- <-].
  - intros [= E]. pose proof (stage_config faults snapshot_ordinal snapshot_body stage m i) as Hc. by rewrite E in Hc.
  - by intros [= <- <-].
Qed.

Lemma writer_config limit sync_ok m m' ev : writer_step limit sync_ok m = Some (m', ev) ->
  config (journal m') = config (journal m).
Proof.
  unfold writer_step. destruct (writer m); try done; try (repeat case_match; by intros [= <- <-]).
  - unfold writer_pop. repeat case_match; intros [= <- <-]; by simplify_eq.
  - unfold writer_fwrite. repeat case_match; simplify_eq; by intros [= <- <-].
  - intros [= <- <-]. cbn [journal]. unfold writer_finish. by repeat case_match.
Qed.

(** A step of a client moves that client, within its call. *)
Lemma client_moves i sync_ok m m' ev : client_step i sync_ok m = Some (m', ev) ->
  exists pc pc', clients m !! i = Some pc /\ clients m' = <[i := pc']> (clients m) /\
    (in_stop pc' = true -> in_stop pc = true) /\ (in_compact pc' = true -> in_compact pc = true) /\
    (passed (config (journal m)) pc -> passed (config (journal m)) pc').
Proof.
  unfold client_step. destruct (clients m !! i) as [pc|] eqn:Hi; [|done].
  intros E. exists pc. revert E. destruct pc; try done.
  all: try (repeat case_match; intros [= <- <-]; eexists; (split; [done|]); (split; [reflexivity|]); (split; [done|]); (split; [done|]); cbn [passed]; by breflect).
  destruct stage; cbn [stage_step]; repeat case_match; intros [= <- <-]; eexists; split_and!; try done; reflexivity.
Qed.

Lemma writer_clients limit sync_ok m m' ev : writer_step limit sync_ok m = Some (m', ev) ->
  clients m' = clients m \/ clients m' = notify_idle (clients m).
Proof. unfold writer_step. repeat case_match; intros [= <- <-]; by (left; reflexivity) || (right; reflexivity). Qed.

Lemma apart_insert cs i pc pc' : cs !! i = Some pc -> (in_stop pc' = true -> in_stop pc = true) ->
  (in_compact pc' = true -> in_compact pc = true) ->
  ((0 < count in_stop cs)%nat -> count in_compact cs = 0%nat) ->
  (0 < count in_stop (<[i := pc']> cs))%nat -> count in_compact (<[i := pc']> cs) = 0%nat.
Proof.
  intros Hi H1 H2 Ha Hs. pose proof (count_insert in_stop cs i pc pc' Hi). pose proof (count_insert in_compact cs i pc pc' Hi).
  destruct (in_stop pc'), (in_stop pc), (in_compact pc'), (in_compact pc); try (by discriminate H1); try (by discriminate H2);
    simpl in *; lia.
Qed.

Lemma passed_wake c pc : passed c pc -> passed c (wake pc).
Proof. by destruct pc. Qed.

Lemma fabric_call_apart m i status call : clients m !! i = Some (Resting status) -> fabric_rule m call = true ->
  ((0 < count in_stop (clients m))%nat -> count in_compact (clients m) = 0%nat) ->
  (0 < count in_stop (<[i := entry call]> (clients m)))%nat -> count in_compact (<[i := entry call]> (clients m)) = 0%nat.
Proof.
  intros Hi Hr Ha Hs. pose proof (count_insert in_stop (clients m) i _ (entry call) Hi) as H1.
  pose proof (count_insert in_compact (clients m) i _ (entry call) Hi) as H2.
  destruct call; cbn [entry in_stop in_compact holds_exclusive Nat.b2n fabric_rule] in *; try (rewrite Ha in H2; lia).
  - apply negb_true_iff, count_existsb in Hr. lia.
  - apply negb_true_iff, count_existsb in Hr.
    pose proof (count_le in_compact (fun pc => in_stop pc || in_compact pc) (clients m)) as Hle.
    assert (count in_compact (clients m) <= 0)%nat; [|lia]. rewrite <- Hr. apply Hle. intros pc ->. by rewrite orb_true_r.
Qed.

Lemma orderly_step a m m' ev : orderly m -> step fabric_rule a m = Some (m', ev) -> orderly m'.
Proof.
  intros [Hw Ha Hp] Hs. assert (wf m') as Hw' by (eapply wf_control; [exact Hw|exact (step_control fabric_rule _ _ _ _ Hs)]).
  constructor; [exact Hw'| |]; clear Hw'.
  - destruct a as [i call|i sync_ok|limit sync_ok| |i]; cbn [step] in Hs.
    + destruct (clients m !! i) as [[status| | | | | | | | | | | | | | |]|] eqn:Hi; try done.
      destruct (fabric_rule m call) eqn:Er; [|done]. injection Hs as <- <-. by eapply fabric_call_apart.
    + destruct (client_moves _ _ _ _ _ Hs) as (pc & pc' & Hi & -> & H1 & H2 & _). by eapply apart_insert.
    + destruct (writer_clients _ _ _ _ _ Hs) as [-> | ->]; [done|]. unfold notify_idle. rewrite !count_map.
      rewrite (count_ext (fun pc => in_stop (wake pc)) in_stop) by (by intros []).
      by rewrite (count_ext (fun pc => in_compact (wake pc)) in_compact) by (by intros []).
    + destruct (writer m); try done. by injection Hs as <- <-.
    + destruct (clients m !! i) as [pc|] eqn:Hi; [|done].
      destruct pc; try done; injection Hs as <- <-; cbn [clients]; rewrite (alter_is_insert _ _ _ _ Hi); by eapply apart_insert.
  - destruct a as [i call|i sync_ok|limit sync_ok| |i]; cbn [step] in Hs.
    + destruct (clients m !! i) as [[status| | | | | | | | | | | | | | |]|] eqn:Hi; try done.
      destruct (fabric_rule m call) eqn:Er; [|done]. injection Hs as <- <-. expose_machine.
      apply Forall_insert; [done|]. by destruct call.
    + rewrite (client_config _ _ _ _ _ Hs).
      destruct (client_moves _ _ _ _ _ Hs) as (pc & pc' & Hi & -> & _ & _ & H3). apply Forall_insert; [done|].
      apply H3. by eapply Forall_lookup_1.
    + rewrite (writer_config _ _ _ _ _ Hs). destruct (writer_clients _ _ _ _ _ Hs) as [-> | ->]; [done|].
      apply Forall_map. eapply Forall_impl; [exact Hp|]. intros pc. apply passed_wake.
    + destruct (writer m); try done. by injection Hs as <- <-.
    + destruct (clients m !! i) as [pc|] eqn:Hi; [|done].
      destruct pc; try done; injection Hs as <- <-; cbn [clients journal]; rewrite (alter_is_insert _ _ _ _ Hi);
        (apply Forall_insert; [done|]); apply passed_wake; by apply (Forall_lookup_1 _ _ _ _ Hp Hi).
Qed.

(** ** The simulation *)

(** [a] is the journal in which only whole operations have happened.  The
    threads' journal differs from it while the writer has written a record that
    it has not reported, and while a compaction runs. *)
Inductive sim (m : Machine) (a : t) : Prop :=
  | sim_quiet : journal m = a -> writer_paused m = false ->
      (forall limit status, writer m <> WWrote limit status) -> sim m a
  | sim_wrote limit status record : writer m = WWrote limit status -> writing a = Some record ->
      writer_fwrite limit a = (status, journal m) -> sim m a
  | sim_working i faults ordinal body stage : clients m !! i = Some (CompactWork faults ordinal body stage) ->
      admitted ordinal body a -> past_loop (writer m) = false ->
      stages faults ordinal body a stage = (stage_status stage, journal m) -> sim m a.

Definition simulates (m' : Machine) (a : t) (ev : option Event) : Prop :=
  match ev with
  | None => sim m' a
  | Some e => exists a', atomic e a = Some a' /\ sim m' a'
  end.

Lemma returning_same r : returning r.1 r = Some r.2.
Proof. unfold returning. by rewrite bool_decide_eq_true_2. Qed.

Lemma returning_pair status a : returning status (status, a) = Some a.
Proof. exact (returning_same (status, a)). Qed.

Lemma no_work m i faults ordinal body stage : wf m -> writer_paused m = false ->
  clients m !! i = Some (CompactWork faults ordinal body stage) -> False.
Proof.
  intros Hw Hp Hi. pose proof (count_at at_work _ _ _ Hi eq_refl) as Hc. rewrite (wf_paused _ Hw), Hp in Hc. simpl in Hc. lia.
Qed.

Lemma notify_not_wrote w : (forall limit status, w <> WWrote limit status) ->
  forall limit status, notify_queue w <> WWrote limit status.
Proof. intros H. by destruct w. Qed.

(** Calls that return before they take a lock. *)
Lemma append_refused kind ordinal body a : jc_enabled (config a) = false ->
  append kind ordinal body a = (StatusCode.Refused, a).
Proof. intros H. unfold append. by rewrite H. Qed.

Lemma append_oversized kind ordinal body a : jc_enabled (config a) = true ->
  jc_max_record_bytes (config a) < zlen body -> append kind ordinal body a = (StatusCode.LimitExceeded, a).
Proof. intros H1 H2. unfold append. rewrite H1. apply Z.ltb_lt in H2. by rewrite H2. Qed.

Lemma compact_disabled faults ordinal body a : jc_enabled (config a) = false ->
  compact faults ordinal body a = Some (StatusCode.Refused, a).
Proof. intros H. unfold compact. by rewrite H. Qed.

Lemma compact_oversized faults ordinal body a : jc_enabled (config a) = true ->
  jc_max_record_bytes (config a) < zlen body -> compact faults ordinal body a = Some (StatusCode.LimitExceeded, a).
Proof. intros H1 H2. unfold compact. rewrite H1. apply Z.ltb_lt in H2. by rewrite H2. Qed.

Definition without_effect (ev : option Event) (a : t) : Prop :=
  match ev with None => True | Some e => atomic e a = Some a end.

(** What a client does before it holds a lock, whatever the others do. *)
Lemma entry_simulated i sync_ok m m' ev pc a : clients m !! i = Some pc ->
  match pc with AppendEntry _ _ _ | FlushEntry | CompactEntry _ _ _ => True | _ => False end ->
  config a = config (journal m) -> client_step i sync_ok m = Some (m', ev) ->
  journal m' = journal m /\ writer_paused m' = writer_paused m /\ writer m' = writer m /\
  (exists pc', clients m' = <[i := pc']> (clients m)) /\
  without_effect ev a.
Proof.
  intros Hi Hpc Hc. unfold client_step. rewrite Hi. rewrite <- Hc. destruct pc; try done.
  - repeat case_match; intros [= <- <-]; do 3 (split; [done|]); (split; [by eexists|]); cbn [without_effect atomic]; try done; breflect.
    + by rewrite append_refused, returning_pair.
    + by rewrite append_oversized, returning_pair.
  - repeat case_match; intros [= <- <-]; do 3 (split; [done|]); (split; [by eexists|]); cbn [without_effect atomic]; try done; breflect.
    unfold flush. match goal with H : _ = false |- _ => rewrite H end. cbn. by rewrite returning_pair.
  - repeat case_match; intros [= <- <-]; do 3 (split; [done|]); (split; [by eexists|]); cbn [without_effect atomic]; try done; breflect.
    + rewrite compact_disabled by done. cbn. by rewrite returning_pair.
    + rewrite compact_oversized by done. cbn. by rewrite returning_pair.
Qed.

Ltac quiet := expose_machine; apply sim_quiet; cbn [journal writer_paused writer]; try done.

(** A client's step while only whole operations have happened. *)
Lemma quiet_client i sync_ok m m' ev : orderly m -> writer_paused m = false ->
  (forall limit status, writer m <> WWrote limit status) ->
  client_step i sync_ok m = Some (m', ev) -> simulates m' (journal m) ev.
Proof.
  intros [Hw Ha Hpass] Hp Hn. unfold client_step. destruct (clients m !! i) as [pc|] eqn:Hi; [|done].
  pose proof (Forall_lookup_1 _ _ _ _ Hpass Hi) as Hpc. destruct pc; try done.
  1, 4, 6: intros Hs; assert (client_step i sync_ok m = Some (m', ev)) as Hs' by (unfold client_step; by rewrite Hi);
    destruct (entry_simulated i sync_ok m m' ev _ (journal m) Hi I eq_refl Hs') as (E1 & E2 & E3 & _ & E4);
    assert (sim m' (journal m)) as Hsim by (apply sim_quiet; congruence || (rewrite E3; exact Hn));
    destruct ev; [by eexists|exact Hsim].
  - destruct (append _ _ _ _) as [st j'] eqn:Ea. intros [= <- <-]. exists j'. split; [|quiet].
    cbn [atomic]. rewrite Ea. apply returning_pair.
  - intros [= <- <-]. cbn [simulates]. quiet. by apply notify_not_wrote.
  - destruct (negb _); [intros [= <- <-]; cbn [simulates]; quiet|].
    destruct (flush _ _) as [[st j']|] eqn:Ef; [|done]. intros [= <- <-]. exists j'. split; [|quiet].
    cbn [atomic]. rewrite Ef. apply returning_pair.
  - destruct (negb (settled _)) eqn:Es; [intros [= <- <-]; cbn [simulates]; quiet|]. apply negb_false_iff in Es.
    destruct Hpc as [P1 P2]. destruct (compact_refused _ _) as [st|] eqn:Er; intros [= <- <-].
    + exists (journal m). split; [|quiet]. cbn [atomic]. rewrite (compact_refusal _ _ _ _ st) by done. apply returning_pair.
    + apply (sim_working _ _ i faults snapshot_ordinal snapshot_body Closing); cbn [clients writer journal].
      * rewrite list_lookup_insert_eq; [done|]. by eapply lookup_lt_Some.
      * done.
      * destruct (past_loop (writer m)) eqn:El; [|done]. exfalso. revert Er. unfold compact_refused.
        destruct (wf_left _ Hw El) as [_ [Hst | Hf]].
        -- destruct (is_open (journal m)) eqn:Eo; [|done].
           pose proof (Ha (wf_stop_open _ Hw Hst Eo)) as Hz. pose proof (count_at in_compact _ _ _ Hi eq_refl). lia.
        -- rewrite Hf. by destruct (negb _).
      * done.
  - by destruct (no_work m i faults snapshot_ordinal snapshot_body stage Hw Hp Hi).
  - intros [= <- <-]. cbn [simulates]. quiet. by apply notify_not_wrote.
  - intros [= <- <-]. eexists. split; [done|quiet].
  - intros [= <- <-]. cbn [simulates]. quiet. by apply notify_not_wrote.
  - destruct (writer m) eqn:Ew; try done. intros [= <- <-]. eexists. split; [done|quiet]. by rewrite Ew.
  - destruct (stop_end _ _) as [st j'] eqn:Ee. intros [= <- <-]. exists j'. split; [|quiet].
    cbn [atomic]. rewrite Ee. apply returning_pair.
Qed.

Lemma quiet_writer limit sync_ok m m' ev : wf m -> writer_paused m = false ->
  (forall limit status, writer m <> WWrote limit status) ->
  writer_step limit sync_ok m = Some (m', ev) -> simulates m' (journal m) ev.
Proof.
  intros Hw Hp Hn. unfold writer_step. destruct (writer m) eqn:Ew; try done.
  - destruct (negb _); [intros [= <- <-]; cbn [simulates]; quiet|]. rewrite Hp.
    destruct (writer_pop _) as [j'|] eqn:Epop; intros [= <- <-].
    + exists j'. split; [done|quiet].
    + cbn [simulates]. quiet. by destruct (_ || _).
  - destruct (writing (journal m)) as [record|] eqn:Er; [|by apply (wf_writing _ Hw) in Er; rewrite Ew in Er].
    destruct (writer_fwrite _ _) as [st j'] eqn:Ef. intros [= <- <-]. cbn [simulates]. by eapply sim_wrote.
  - by destruct (Hn limit0 status).
  - intros [= <- <-]. cbn [simulates]. quiet. destruct (file _); [destruct sync_ok|]; done.
  - intros [= <- <-]. eexists. split; [done|quiet].
  - intros [= <- <-]. eexists. split; [done|quiet].
Qed.

(** On a journal that is closed or has failed [flush] only reports so. *)
Lemma flush_down sync_ok j : is_open j = false \/ failed j = true ->
  flush sync_ok j = Some (if negb (jc_enabled (config j)) then StatusCode.Refused
                          else if is_open j then failure j else StatusCode.Unavailable, j).
Proof.
  unfold flush. intros H. destruct (negb (jc_enabled _)); [done|].
  destruct H as [-> | Hf]; [by rewrite orb_true_r|]. rewrite Hf, orb_true_r. by destruct (is_open j).
Qed.

(** While the writer has written a record and has not reported it. *)
Section Wrote.
Context (m : Machine) (a : t) (limit : option Z) (status : Status) (record : JournalRecord).
Context (Ho : orderly m) (Ew : writer m = WWrote limit status) (Er : writing a = Some record)
  (Ef : writer_fwrite limit a = (status, journal m)).

Lemma wrote_flags : flags (journal m) = flags a.
Proof using Ef. pose proof (fwrite_flags limit a) as H. by rewrite Ef in H. Qed.

Lemma wrote_same : config (journal m) = config a /\ failure (journal m) = failure a /\
  has_expected_ordinal (journal m) = has_expected_ordinal a /\ expected_ordinal (journal m) = expected_ordinal a.
Proof using Ef Er. revert Ef. unfold writer_fwrite. repeat case_match; by intros [= _ <-]. Qed.

Lemma wrote_running : writer_paused m = false.
Proof using Ho Ef Er.
  destruct (writer_paused m) eqn:Ep; [|done]. destruct (wf_quiet _ (or_wf _ Ho) Ep) as [_ Hr].
  pose proof wrote_flags as Hf. injection Hf as _ F2 _ _ _ _ _. congruence.
Qed.

(** A settled journal is closed or failed: no caller changes it. *)
Lemma wrote_settled : settled (journal m) = true ->
  settled a = true /\ is_open a = is_open (journal m) /\ failed a = failed (journal m) /\
  (is_open a = false \/ failed a = true).
Proof using Ef Er.
  intros Hs. pose proof wrote_flags as Hf. rewrite (settled_flags _ _ Hf) in Hs. injection Hf as _ _ F3 _ _ F6 _.
  split_and!; try done. revert Hs. unfold settled, idle. rewrite Er. destruct (queue a), (failed a), (is_open a); auto.
Qed.

Lemma wrote_client i sync_ok m' ev : client_step i sync_ok m = Some (m', ev) -> simulates m' a ev.
Proof using Ho Ew Er Ef.
  pose proof wrote_running as Hrun. destruct wrote_same as (S1 & S2 & S3 & S4).
  intros Hs. pose proof Hs as Hs0. revert Hs. unfold client_step. destruct (clients m !! i) as [pc|] eqn:Hi; [|done].
  pose proof (Forall_lookup_1 _ _ _ _ (or_passed _ Ho) Hi) as Hpc. destruct pc; try done.
  1, 4, 6: intros _; destruct (entry_simulated i sync_ok m m' ev _ a Hi I (eq_sym S1) Hs0) as (E1 & E2 & E3 & _ & E4);
    assert (sim m' a) as Hsim by (apply (sim_wrote _ _ limit status record); congruence);
    destruct ev; [by eexists|exact Hsim].
  - destruct (append_beside_fwrite limit kind ordinal body a record Er) as (A1 & A2 & A3).
    rewrite Ef in A1, A2. cbn [fst snd] in A1, A2. destruct (append kind ordinal body (journal m)) as [st j'].
    cbn [fst snd] in A1, A2. intros [= <- <-]. eexists. split; [cbn [atomic]; rewrite A1; apply returning_same|].
    by apply (sim_wrote _ _ limit status record).
  - intros [= <- <-]. cbn [simulates]. apply (sim_wrote _ _ limit status record); try done. expose_machine. by rewrite Ew.
  - destruct (negb (settled _)) eqn:Es; [intros [= <- <-]; by apply (sim_wrote _ _ limit status record)|].
    apply negb_false_iff in Es. destruct (wrote_settled Es) as (W1 & W2 & W3 & W4).
    rewrite flush_down by by rewrite <- W2, <- W3. intros [= <- <-]. exists a. split; [|by apply (sim_wrote _ _ limit status record)].
    cbn [atomic]. rewrite flush_down, S1, S2, <- W2 by done. apply returning_pair.
  - destruct (negb (settled _)) eqn:Es; [intros [= <- <-]; by apply (sim_wrote _ _ limit status record)|].
    apply negb_false_iff in Es. destruct (wrote_settled Es) as (W1 & W2 & W3 & W4).
    assert (compact_refused snapshot_ordinal (journal m) = compact_refused snapshot_ordinal a) as Hcr.
    { unfold compact_refused. by rewrite <- W2, <- W3, S2, S3, S4. }
    rewrite Hcr. destruct (compact_refused snapshot_ordinal a) as [st|] eqn:Er'.
    + intros [= <- <-]. exists a. split; [|by apply (sim_wrote _ _ limit status record)].
      destruct Hpc as [P1 P2]. rewrite S1 in P1, P2. cbn [atomic]. rewrite (compact_refusal _ _ _ _ st) by done.
      apply returning_pair.
    + exfalso. revert Er'. unfold compact_refused. destruct W4 as [-> | ->]; [done|]. by destruct (negb _).
  - by destruct (no_work m i faults snapshot_ordinal snapshot_body stage (or_wf _ Ho) Hrun Hi).
  - intros [= <- <-]. cbn [simulates]. apply (sim_wrote _ _ limit status record); try done. expose_machine. by rewrite Ew.
  - intros [= <- <-]. eexists. split; [done|]. apply (sim_wrote _ _ limit status record); try done.
    expose_machine. rewrite (stop_begin_beside_fwrite _ _ record) by done. by rewrite Ef.
  - intros [= <- <-]. cbn [simulates]. apply (sim_wrote _ _ limit status record); try done. expose_machine. by rewrite Ew.
  - by rewrite Ew.
  - pose proof (last_exited _ _ (or_wf _ Ho) Hi). congruence.
Qed.

Lemma wrote_writer limit' sync_ok m' ev : writer_step limit' sync_ok m = Some (m', ev) -> simulates m' a ev.
Proof using Ho Ew Er Ef.
  unfold writer_step. rewrite Ew. intros [= <- <-]. exists (writer_finish status (journal m)). split.
  - cbn [atomic]. rewrite (write_in_pieces limit a record Er). by rewrite Ef.
  - quiet. apply wrote_running.
Qed.
End Wrote.

(** While a compaction runs. *)
Section Working.
Context (m : Machine) (a : t) (i : nat) (faults : CompactFaults) (ordinal : Z) (body : list Z) (stage : Stage).
Context (Ho : orderly m) (Hi : clients m !! i = Some (CompactWork faults ordinal body stage))
  (Had : admitted ordinal body a) (Hloop : past_loop (writer m) = false)
  (Hst : stages faults ordinal body a stage = (stage_status stage, journal m)).

Lemma working_paused : writer_paused m = true.
Proof using Ho Hi.
  pose proof (count_at at_work _ _ _ Hi eq_refl) as Hc. rewrite (wf_paused _ (or_wf _ Ho)) in Hc.
  destruct (writer_paused m); [done|simpl in Hc; lia].
Qed.

Lemma working_config : config a = config (journal m).
Proof using Hi Hst.
  pose proof (f_equal snd Hst) as E. cbn [snd] in E. rewrite <- E.
  destruct stage; cbn [stages snd]; unfold compact_reopen, compact_retry, compact_rename, compact_temporary, compact_close;
    try destruct (write_temporary _ _); by repeat case_match.
Qed.

(** Nobody else holds the compaction lock or stops the journal. *)
Lemma working_others k pc : clients m !! k = Some pc -> k <> i ->
  holds_exclusive pc = false /\ holds_shared pc = false /\ in_stop pc = false.
Proof using Ho Hi.
  intros Hk Hne. destruct (wf_exclusive _ (or_wf _ Ho)) as [X1 X2].
  pose proof (count_at holds_exclusive _ _ _ Hi eq_refl) as Hx. split_and!.
  - destruct (holds_exclusive pc) eqn:E; [|done]. exfalso.
    pose proof (count_insert holds_exclusive (clients m) i _ FlushEntry Hi) as Hc. cbn [holds_exclusive Nat.b2n] in Hc.
    assert (<[i := FlushEntry]> (clients m) !! k = Some pc) as Hk' by (by rewrite list_lookup_insert_ne).
    pose proof (count_at holds_exclusive _ _ _ Hk' E). lia.
  - destruct (holds_shared pc) eqn:E; [|done]. pose proof (count_at holds_shared _ _ _ Hk E). lia.
  - destruct (in_stop pc) eqn:E; [|done]. pose proof (or_apart _ Ho (count_at in_stop _ _ _ Hk E)) as Hz.
    pose proof (count_at in_compact _ _ _ Hi eq_refl). lia.
Qed.

Lemma still_working m' : clients m' !! i = Some (CompactWork faults ordinal body stage) ->
  past_loop (writer m') = false -> journal m' = journal m -> sim m' a.
Proof using Had Hst. intros H1 H2 H3. apply (sim_working _ _ i faults ordinal body stage); try done. by rewrite H3. Qed.

Lemma working_stage m' ev : Some (stage_step faults ordinal body stage m i) = Some (m', ev) -> simulates m' a ev.
Proof using Ho Hi Had Hloop Hst.
  assert (i < length (clients m))%nat as Hlt by by eapply lookup_lt_Some.
  destruct (wf_quiet _ (or_wf _ Ho) working_paused) as [_ Hr]. apply (wf_writing _ (or_wf _ Ho)) in Hr.
  assert (forall j' stage', stages faults ordinal body a stage' = (stage_status stage', j') ->
    sim (set_client (set_journal m j') i (CompactWork faults ordinal body stage')) a) as Hnext.
  { intros j' stage' E. apply (sim_working _ _ i faults ordinal body stage'); try done.
    expose_machine. by rewrite list_lookup_insert_eq. }
  destruct stage; cbn [stage_step stages stage_status] in *.
  - injection Hst as ->. intros [= <- <-]. by apply Hnext.
  - injection Hst as Hj. rewrite <- Hj. destruct (compact_temporary _ _ _ _) as [s1 j1] eqn:E1. intros [= <- <-].
    apply Hnext. cbn [stages stage_status]. by rewrite E1.
  - destruct (compact_rename faults status (journal m)) as [s1 j1] eqn:E1. intros [= <- <-]. apply Hnext.
    cbn [stages stage_status]. rewrite Hst. cbn [fst snd]. by rewrite E1.
  - destruct (compact_reopen faults status ordinal (journal m)) as [s1 j1] eqn:E1. intros [= <- <-]. apply Hnext.
    cbn [stages stage_status]. rewrite Hst. cbn [fst snd]. by rewrite E1.
  - intros [= <- <-]. exists (with_depth (journal m)). split.
    + cbn [atomic]. rewrite (compact_in_stages _ _ _ _ status Had). cbn [stages]. rewrite Hst. cbn [fst snd mbind option_bind].
      apply returning_pair.
    + quiet. intros l s E. by rewrite E in Hr.
Qed.

Lemma working_client k sync_ok m' ev : client_step k sync_ok m = Some (m', ev) -> simulates m' a ev.
Proof using Ho Hi Had Hloop Hst.
  intros Hs. destruct (decide (k = i)) as [->|Hne].
  { unfold client_step in Hs. rewrite Hi in Hs. by apply working_stage. }
  destruct (clients m !! k) as [pc|] eqn:Hk; [|unfold client_step in Hs; by rewrite Hk in Hs].
  destruct (working_others k pc Hk Hne) as (N1 & N2 & N3).
  destruct pc; try done; try (unfold client_step in Hs; by rewrite Hk in Hs);
    destruct (entry_simulated k sync_ok m m' ev _ a Hk I working_config Hs) as (E1 & E2 & E3 & (pc' & E4) & E5);
    (assert (sim m' a) as Hsim;
     [apply still_working; [rewrite E4; by rewrite list_lookup_insert_ne|by rewrite E3|done]|]);
    destruct ev; try exact Hsim; by eexists.
Qed.

Lemma working_writer limit sync_ok m' ev : writer_step limit sync_ok m = Some (m', ev) -> simulates m' a ev.
Proof using Ho Hi Had Hloop Hst.
  pose proof working_paused as Hp. destruct (wf_quiet _ (or_wf _ Ho) Hp) as [_ Hr].
  apply (wf_writing _ (or_wf _ Ho)) in Hr. unfold writer_step. rewrite Hp. destruct (writer m) eqn:Ew; try done.
  destruct (negb _); intros [= <- <-]; cbn [simulates]; by apply still_working.
Qed.
End Working.

(** One step of a thread is one operation or none. *)
Lemma step_simulated act m m' ev a : orderly m -> sim m a -> step fabric_rule act m = Some (m', ev) -> simulates m' a ev.
Proof.
  intros Ho Hs. destruct act as [i call|i sync_ok|limit sync_ok| |i]; cbn [step].
  - destruct (clients m !! i) as [[status| | | | | | | | | | | | | | |]|] eqn:Hi; try done.
    destruct (fabric_rule m call); [|done]. intros [= <- <-]. cbn [simulates].
    destruct Hs as [E1 E2 E3|limit st r E1 E2 E3|k f o b st E1 E2 E3 E4].
    + by apply sim_quiet.
    + by eapply sim_wrote.
    + apply (sim_working _ _ k f o b st); try done. expose_machine. rewrite list_lookup_insert_ne; [done|].
      intros ->. congruence.
  - destruct Hs as [<- E2 E3|limit st r E1 E2 E3|k f o b st E1 E2 E3 E4].
    + by apply quiet_client.
    + by eapply wrote_client.
    + by eapply working_client.
  - destruct Hs as [<- E2 E3|limit' st r E1 E2 E3|k f o b st E1 E2 E3 E4].
    + by apply quiet_writer; [apply or_wf| |].
    + by eapply wrote_writer.
    + by eapply working_writer.
  - destruct (writer m) eqn:Ew; try done. intros [= <- <-]. cbn [simulates].
    destruct Hs as [E1 E2 E3|limit st r E1 E2 E3|k f o b st E1 E2 E3 E4]; [by apply sim_quiet|congruence|].
    by apply (sim_working _ _ k f o b st).
  - destruct (clients m !! i) as [pc|] eqn:Hi; [|done].
    assert (forall pc', at_work pc = false ->
      sim (mkMachine (journal m) (writer_paused m) (writer m) (<[i := pc']> (clients m))) a) as Hsame.
    { intros pc' Hw. destruct Hs as [E1 E2 E3|limit st r E1 E2 E3|k f o b st E1 E2 E3 E4].
      - by apply sim_quiet.
      - by eapply sim_wrote.
      - apply (sim_working _ _ k f o b st); try done. cbn [clients]. rewrite list_lookup_insert_ne; [done|].
        intros ->. rewrite E1 in Hi. by simplify_eq. }
    destruct pc; try done; intros [= <- <-]; cbn [simulates]; rewrite (alter_is_insert _ _ _ _ Hi); by apply Hsame.
Qed.

Lemma run_simulated acts : forall m m' evs a, orderly m -> sim m a -> run fabric_rule acts m = Some (m', evs) ->
  orderly m' /\ exists a', atomic_run evs a = Some a' /\ sim m' a'.
Proof.
  induction acts as [|act acts IH]; intros m m' evs a Ho Hs; cbn [run]; [intros [= <- <-]; eauto|].
  destruct (step fabric_rule act m) as [[m1 ev]|] eqn:Es; [|done].
  destruct (run fabric_rule acts m1) as [[m2 evs']|] eqn:Er; [|done]. intros [= <- <-].
  pose proof (orderly_step _ _ _ _ Ho Es) as Ho1. pose proof (step_simulated _ _ _ _ _ Ho Hs Es) as Hsim.
  destruct ev as [e|]; cbn [simulates] in Hsim.
  - destruct Hsim as (a1 & E1 & E2). destruct (IH _ _ _ _ Ho1 E2 Er) as (Ho2 & a2 & E3 & E4). split; [done|].
    exists a2. cbn [atomic_run]. rewrite E1. by split.
  - by apply (IH _ _ _ _ Ho1 Hsim Er).
Qed.

Lemma orderly_started faults epoch wall cfg disk j n : open faults epoch wall (create cfg disk) = (StatusCode.Ok, j) ->
  orderly (started j n) /\ sim (started j n) j.
Proof.
  intros Ho. split; [|by apply sim_quiet]. constructor; [by eapply open_starts| |].
  - cbn [started clients]. intros _. induction n; simpl; auto.
  - cbn [started clients]. apply Forall_forall. intros pc Hin. apply list_elem_of_In, repeat_spec in Hin. by subst.
Qed.

(** C6: The threads refine the atomic operations.  Whatever the schedule, and
    whatever the file operations answer, the operations that took effect, taken
    one after the other in that order and returning the statuses they returned,
    lead from the opened journal to a journal [a] that is the threads' journal
    but for a record the writer has written and not yet reported, or for a
    compaction that has not resumed the writer; and when every client has
    returned and the writer holds no record it is the threads' journal. *)
Theorem threads_refine_operations faults epoch wall cfg disk n j acts m evs :
  open faults epoch wall (create cfg disk) = (StatusCode.Ok, j) ->
  run fabric_rule acts (started j n) = Some (m, evs) ->
  exists a, atomic_run evs j = Some a /\ sim m a /\
    (Forall (fun pc => at_rest pc = true) (clients m) -> holds_record (writer m) = false -> journal m = a).
Proof.
  intros Ho Hr. destruct (orderly_started _ _ _ _ _ _ n Ho) as [Hord Hs].
  destruct (run_simulated acts _ _ _ _ Hord Hs Hr) as (_ & a & E & Hsim). exists a. split_and!; try done.
  intros Hrest Hw. destruct Hsim as [E1 _ _|limit st r E1 _ _|i f o b st E1 _ _ _]; [done| |].
  - by rewrite E1 in Hw.
  - by pose proof (Forall_lookup_1 _ _ _ _ Hrest E1).
Qed.

(** ** The log of the threads *)

(** What an operation that took effect does to the log. *)
Definition log_step (log : list JournalRecord) (ev : Event) : list JournalRecord :=
  match ev with
  | EvAppend kind ordinal body status => if ok status then log ++ [mkJournalRecord kind ordinal body] else log
  | EvCompact _ ordinal body status =>
      if ok status then [mkJournalRecord JournalRecordKind.Snapshot ordinal body] else log
  | _ => log
  end.
Definition log_of (evs : list Event) : list JournalRecord := fold_left log_step evs [].

(** Records that fit, and compactions whose file operations succeed. *)
Definition event_fits (cfg : JournalConfig) (ev : Event) : Prop :=
  match ev with
  | EvAppend kind ordinal body _ => op_fits cfg (OpAppendRecord kind ordinal body)
  | EvCompact faults ordinal body _ => faults = compact_ok /\ op_fits cfg (OpCompact ordinal body)
  | _ => True
  end.

(** The journal after [stop]. *)
Record closed_inv (cfg : JournalConfig) (a : t) (log : list JournalRecord) : Prop := {
  ci_config : config a = cfg;
  ci_closed : is_open a = false;
  ci_idle : idle a = true;
  ci_failed : failed a = true -> failure a <> StatusCode.Ok;
  ci_file : exists e w done tail, is_u64 e /\ file_bytes a = build_file_header e w ++ encode_records done ++ tail /\
    torn cfg tail /\ (exists lost, log = done ++ lost) /\ (failed a = false -> tail = [] /\ log = done);
  ci_log : exists first, 0 <= first /\ numbered first log;
  ci_fits : Forall (fun r => record_fits cfg r /\ jrec_ordinal r < u64_max) log;
}.

Definition log_inv cfg a log : Prop := journal_inv cfg a log \/ closed_inv cfg a log.

Section LogInv.
Context (cfg : JournalConfig) (max_ok : 9 <= jc_max_record_bytes cfg <= u32_max) (depth_ok : 1 <= jc_max_queue_depth cfg).

Lemma closed_atomic ev a a' log : closed_inv cfg a log -> atomic ev a = Some a' -> closed_inv cfg a' (log_step log ev).
Proof using max_ok depth_ok.
  intros Hc Ha. pose proof Hc as [H1 H2 H3 H5 H4 H6 H7]. pose proof H3 as Hid. apply idle_spec in Hid as [Q1 Q2].
  assert (forall r : Status * t, r.2 = a -> forall st, returning st r = Some a' -> a' = a /\ st = r.1) as Hret.
  { intros r E st. unfold returning. case_bool_decide; [|done]. intros [= <-]. by subst. }
  destruct ev as [kind ordinal body st| |limit|sync st|f ordinal body st| | | | |sync st]; cbn [atomic log_step] in *.
  - assert ((append kind ordinal body a).2 = a /\ ok (append kind ordinal body a).1 = false) as [E1 E2].
    { unfold append. rewrite H2. by repeat case_match. }
    destruct (Hret _ E1 _ Ha) as [-> ->]. by rewrite E2.
  - revert Ha. unfold writer_pop. by rewrite Q1, Q2.
  - revert Ha. unfold writer_write. by rewrite Q2.
  - revert Ha. rewrite flush_down by (by left). cbn [mbind option_bind]. intros Ha. apply Hret in Ha as [-> _]; done.
  - assert (exists s, compact f ordinal body a = Some (s, a) /\ ok s = false) as (s & E1 & E2).
    { unfold compact. rewrite H2, H3. cbn [orb negb]. repeat case_match; eauto. }
    rewrite E1 in Ha. cbn [mbind option_bind] in Ha. destruct (Hret (s, a) eq_refl _ Ha) as [-> ->]. cbn [fst]. by rewrite E2.
  - injection Ha as <-. by constructor.
  - injection Ha as <-. constructor; try done. destruct H4 as (e & w & done & tail & F0 & F1 & F2 & F3 & _).
    exists e, w, done, tail. by split_and!.
  - injection Ha as <-. constructor; try done. apply idle_spec. by split.
  - injection Ha as <-. by constructor.
  - revert Ha. unfold returning, stop_end. case_bool_decide; [|done]. intros [= <-]. by constructor.
Qed.

(** An operation of an open journal; the three that end the writer come when
    nothing is in flight. *)
Lemma open_atomic ev a a' log : journal_inv cfg a log -> event_fits cfg ev -> atomic ev a = Some a' ->
  (match ev with EvUnsynced | EvExit | EvStopEnd _ _ => idle a = true | _ => True end) ->
  log_inv cfg a' (log_step log ev).
Proof using max_ok depth_ok.
  intros Hi Hf Ha Hid.
  destruct ev as [kind ordinal body st| |limit|sync st|f ordinal body st| | | | |sync st]; cbn [atomic log_step event_fits] in *.
  - left. pose proof (inv_append cfg max_ok kind ordinal body a log Hi Hf) as Hi'. revert Hi' Ha. unfold journal_step, returning.
    destruct (append kind ordinal body a) as [s j']. cbn [fst snd]. case_bool_decide; [|done]. subst. by intros Hi' [= <-].
  - left. pose proof (inv_pop cfg a log Hi) as Hi'. revert Hi'. unfold journal_step. by rewrite Ha.
  - left. pose proof (inv_write cfg max_ok depth_ok limit a log Hi) as Hi'. revert Hi'. unfold journal_step. by rewrite Ha.
  - left. pose proof (inv_flush cfg sync a log Hi) as Hi'. revert Hi' Ha. unfold journal_step, returning.
    destruct (flush sync a) as [[s j']|]; [|done]. cbn [mbind option_bind fst snd]. case_bool_decide; [|done]. by intros Hi' [= <-].
  - left. destruct Hf as [-> Hf]. pose proof (inv_compact cfg max_ok ordinal body a log Hi Hf) as Hi'. revert Hi' Ha.
    unfold journal_step, returning. destruct (compact compact_ok ordinal body a) as [[s j']|]; [|done].
    cbn [mbind option_bind fst snd]. case_bool_decide; [|done]. subst. by intros Hi' [= <-].
  - left. injection Ha as <-. destruct Hi. by constructor.
  - left. injection Ha as <-. apply idle_spec in Hid as [Q1 Q2].
    destruct Hi as [H1 (e & w & done & tail & He & F1 & F2 & F3 & _) H3 _ H5 H6 H7]. constructor; try done.
    + exists e, w, done, tail. by split_and!.
    + intros _. unfold pending. cbn. by rewrite Q1, Q2.
  - left. injection Ha as <-. apply idle_spec in Hid as [Q1 Q2].
    destruct Hi as [H1 (e & w & done & tail & He & F1 & F2 & F3 & F4) H3 H4 H5 H6 H7]. constructor; try done.
    + exists e, w, done, tail. split_and!; try done. intros Hfl. destruct (F4 Hfl) as (E1 & E2 & E3). split_and!; try done.
      rewrite E2. f_equal. unfold pending. cbn. by rewrite Q2.
    + intros Hfl. destruct (H4 Hfl) as [E1 E2]. split; [|done]. unfold pending. cbn. by rewrite Q1.
  - left. injection Ha as <-. destruct Hi. by constructor.
  - right. revert Ha. unfold returning, stop_end. case_bool_decide; [|done]. intros [= <-].
    destruct Hi as [H1 (e & w & done & tail & He & F1 & F2 & F3 & F4) H3 H4 H5 H6 H7]. apply idle_spec in Hid as [Q1 Q2].
    constructor; try done.
    + apply idle_spec. by split.
    + intros Hfl. by apply H4.
    + exists e, w, done, tail. split_and!; try done. cbn. intros Hfl. destruct (F4 Hfl) as (E1 & E2 & _). split; [done|].
      rewrite E2. unfold pending. by rewrite Q1, Q2, app_nil_r.
    + destruct H5 as (first & N1 & N2 & _). by exists first.
Qed.
End LogInv.

(** Behind the writer's loop only whole operations have happened. *)
Lemma sim_past_loop m a : sim m a -> past_loop (writer m) = true -> journal m = a.
Proof. intros [E1 _ _|limit st r E1 _ _|i f o b st _ _ E1 _] Hp; [done| |congruence]. by rewrite E1 in Hp. Qed.

Lemma ending_idle act m m' ev a : orderly m -> sim m a -> step fabric_rule act m = Some (m', Some ev) ->
  match ev with EvUnsynced | EvExit | EvStopEnd _ _ => idle a = true | _ => True end.
Proof.
  intros Ho Hs Hst.
  assert (match ev with EvUnsynced | EvExit | EvStopEnd _ _ => past_loop (writer m) = true | _ => True end) as Hp.
  { destruct act as [i call|i sync_ok|limit sync_ok| |i]; cbn [step] in Hst.
    - repeat case_match; done.
    - revert Hst. unfold client_step. destruct (clients m !! i) as [pc|] eqn:Hi; [|done].
      destruct pc; try done; try (intros E; repeat case_match; by simplify_eq).
      + intros E. destruct stage; cbn [stage_step] in E; repeat case_match; by simplify_eq.
      + destruct (stop_end _ _). intros [= <- <-]. by rewrite (last_exited _ _ (or_wf _ Ho) Hi).
    - revert Hst. unfold writer_step. destruct (writer m); try done; intros E; repeat case_match; by simplify_eq.
    - by destruct (writer m).
    - repeat case_match; done. }
  destruct ev; try done; rewrite <- (sim_past_loop _ _ Hs Hp); by apply exited_idle; [apply or_wf|].
Qed.

Section Log.
Context (cfg : JournalConfig) (max_ok : 9 <= jc_max_record_bytes cfg <= u32_max) (depth_ok : 1 <= jc_max_queue_depth cfg).

Lemma run_log acts : forall m m' evs a log, orderly m -> sim m a -> log_inv cfg a log ->
  run fabric_rule acts m = Some (m', evs) -> Forall (event_fits cfg) evs ->
  orderly m' /\ exists a', sim m' a' /\ log_inv cfg a' (fold_left log_step evs log).
Proof using max_ok depth_ok.
  induction acts as [|act acts IH]; intros m m' evs a log Ho Hs Hl; cbn [run]; [intros [= <- <-]; eauto|].
  destruct (step fabric_rule act m) as [[m1 ev]|] eqn:Es; [|done].
  destruct (run fabric_rule acts m1) as [[m2 evs']|] eqn:Er; [|done]. intros [= <- <-] Hf.
  pose proof (orderly_step _ _ _ _ Ho Es) as Ho1. pose proof (step_simulated _ _ _ _ _ Ho Hs Es) as Hsim.
  destruct ev as [e|]; cbn [simulates] in Hsim; [|by apply (IH _ _ _ _ _ Ho1 Hsim Hl Er)].
  destruct Hsim as (a1 & E1 & E2). apply Forall_cons in Hf as [Hf1 Hf2]. cbn [fold_left].
  apply (IH _ _ _ a1 _ Ho1 E2); [|done|done].
  destruct Hl as [Hl | Hl]; [|right; by eapply closed_atomic]. eapply open_atomic; try done. exact (ending_idle _ _ _ _ _ Ho Hs Es).
Qed.

(** What the file holds when only whole operations have happened. *)
Definition holds_log (bytes : list Z) (log : list JournalRecord) : Prop :=
  exists e w done tail lost, bytes = build_file_header e w ++ encode_records done ++ tail /\ torn cfg tail /\
    log = done ++ lost.

Lemma inv_holds_log a log : log_inv cfg a log -> holds_log (file_bytes a) log.
Proof using Type.
  intros [Hi | Hi].
  - destruct (ji_file _ _ _ Hi) as (e & w & done & tail & _ & F1 & F2 & (lost & F3) & _). by exists e, w, done, tail, lost.
  - destruct (ci_file _ _ _ Hi) as (e & w & done & tail & _ & F1 & F2 & (lost & F3) & _). by exists e, w, done, tail, lost.
Qed.

Lemma stage_bytes faults ordinal body a stage :
  file_bytes (stages faults ordinal body a stage).2 = file_bytes a \/
  file_bytes (stages faults ordinal body a stage).2
    = build_file_header 0 0 ++ encode_records [mkJournalRecord JournalRecordKind.Snapshot ordinal body].
Proof using Type.
  set (snapshot := mkJournalRecord _ _ _).
  assert (forall j, file_bytes (compact_retry faults StatusCode.Io j).2 = file_bytes j) as Hretry
    by (intros j; unfold compact_retry; by repeat case_match).
  assert (write_temporary faults snapshot = (StatusCode.Ok, Some (build_file_header 0 0 ++ encode_records [snapshot])) \/
    exists temp, write_temporary faults snapshot = (StatusCode.Io, temp)) as Ht.
  { unfold write_temporary. destruct (negb (cf_temp_open_ok _)); [eauto|].
    destruct (write_complete (cf_header_written _) _) eqn:E1; cbn [negb]; [|eauto].
    destruct (write_complete (cf_snapshot_written _) _) eqn:E2; cbn [negb]; [|eauto].
    destruct (negb (cf_sync_ok _)); [eauto|]. left. cbn [encode_records flat_map]. rewrite app_nil_r.
    f_equal. f_equal. f_equal; by apply written_whole. }
  destruct stage; cbn [stages]; try (by left); unfold compact_temporary; fold snapshot;
    destruct Ht as [-> | [temp ->]]; cbn [fst snd]; try (by left); unfold compact_rename, compact_reopen, replace_file_atomically;
    change (ok StatusCode.Ok) with true; change (ok StatusCode.Io) with false; cbv iota;
    destruct (cf_rename_ok faults); cbn [negb fst snd]; change (ok StatusCode.Ok) with true; change (ok StatusCode.Io) with false;
    cbv iota; try (destruct (cf_reopen_ok faults)); rewrite ?Hretry; (by left) || (by right).
Qed.

(** What a crash finds on the disk: the log up to some point, or the snapshot
    that a compaction has just put in its place. *)
Lemma sim_bytes m a log : sim m a -> log_inv cfg a log ->
  holds_log (file_bytes (journal m)) log \/
  exists i faults ordinal body stage, clients m !! i = Some (CompactWork faults ordinal body stage) /\
    file_bytes (journal m)
    = build_file_header 0 0 ++ encode_records [mkJournalRecord JournalRecordKind.Snapshot ordinal body].
Proof using max_ok depth_ok.
  intros Hs Hl. destruct Hs as [-> _ _|limit st r E1 E2 E3|i f o b st E1 _ _ E2].
  - left. by apply inv_holds_log.
  - left. destruct Hl as [Hl | Hl]; [|by apply ci_idle, idle_spec in Hl as [_ ?]; congruence].
    pose proof (inv_write cfg max_ok depth_ok limit a log Hl) as Hi. cbn [journal_step fst snd] in Hi.
    rewrite (write_in_pieces limit a r E2), E3 in Hi. cbn [fst snd] in Hi.
    assert (file_bytes (writer_finish st (journal m)) = file_bytes (journal m)) as <-.
    { unfold writer_finish, file_bytes. destruct (writing (journal m)); [|done]. by destruct (ok st). }
    apply inv_holds_log. by left.
  - destruct (stage_bytes f o b a st) as [H | H]; rewrite E2 in H; cbn [snd] in H.
    + left. rewrite H. by apply inv_holds_log.
    + right. by exists i, f, o, b, st.
Qed.

Lemma inv_queue m a log : sim m a -> log_inv cfg a log -> wf m -> zlen (queue (journal m)) <= jc_max_queue_depth cfg.
Proof using depth_ok max_ok.
  intros Hs Hl Hw. assert (writer_paused m = true -> zlen (queue (journal m)) <= jc_max_queue_depth cfg) as Hp.
  { intros Hp. destruct (wf_quiet _ Hw Hp) as [-> _]. unfold zlen. simpl. lia. }
  assert (zlen (queue a) <= jc_max_queue_depth cfg) as Ha.
  { destruct Hl as [Hl | Hl]; [by apply ji_queue in Hl|]. apply ci_idle, idle_spec in Hl as [-> _]. unfold zlen. simpl. lia. }
  destruct Hs as [-> _ _|limit st r E1 E2 E3|i f o b st E1 _ _ _]; [done| |].
  - pose proof (fwrite_flags limit a) as Hf. rewrite E3 in Hf. cbn [snd] in Hf. by rewrite (flags_queue _ _ Hf).
  - apply Hp. pose proof (count_at at_work _ _ _ E1 eq_refl) as Hc. rewrite (wf_paused _ Hw) in Hc.
    destruct (writer_paused m); [done|simpl in Hc; lia].
Qed.

(** A log of which nothing is in flight is in the file whole. *)
Lemma inv_whole a log : log_inv cfg a log -> failed a = false -> idle a = true ->
  exists e w, is_u64 e /\ file_bytes a = build_file_header e w ++ encode_records log.
Proof using Type.
  intros [Hi | Hi] Hf Hid.
  - destruct (ji_file _ _ _ Hi) as (e & w & done & tail & F0 & F1 & _ & _ & F2).
    destruct (F2 Hf) as (-> & E & _). exists e, w. split; [done|]. apply idle_spec in Hid as [Q1 Q2].
    rewrite F1, E. unfold pending. by rewrite Q1, Q2, !app_nil_r.
  - destruct (ci_file _ _ _ Hi) as (e & w & done & tail & F0 & F1 & _ & _ & F2).
    destruct (F2 Hf) as [-> E]. exists e, w. split; [done|]. by rewrite F1, E, app_nil_r.
Qed.

Lemma inv_failure a log : log_inv cfg a log -> failed a = true -> failure a <> StatusCode.Ok.
Proof using Type. intros [Hi | Hi] Hf; [by apply (ji_failed _ _ _ Hi)|by apply (ci_failed _ _ _ Hi)]. Qed.

(** A call that reports success: nothing had failed and nothing was in flight. *)
Lemma success_whole m a log i sync_ok m' ev : orderly m -> sim m a -> log_inv cfg a log ->
  client_step i sync_ok m = Some (m', Some ev) ->
  ev = EvFlush sync_ok StatusCode.Ok \/ ev = EvStopEnd sync_ok StatusCode.Ok ->
  file_bytes (journal m') = file_bytes a /\ failed a = false /\ idle a = true.
Proof using Type.
  intros Ho Hs Hl. unfold client_step. destruct (clients m !! i) as [pc|] eqn:Hi; [|done].
  destruct pc; try done; try (intros E [-> | ->]; repeat case_match; by simplify_eq).
  - destruct (negb (settled _)) eqn:Es; [done|]. apply negb_false_iff in Es.
    destruct (flush sync_ok (journal m)) as [[st j']|] eqn:Ef; [|done]. intros [= <- <-] [[= ->] | [=]].
    assert (journal m = a) as Ha.
    { destruct Hs as [E _ _|limit st r E1 E2 E3|k f o b st E1 E2 E3 E4]; [done| |].
      - exfalso. destruct (wrote_settled m a limit st r E2 E3 Es) as (W1 & W2 & W3 & W4).
        destruct (wrote_same m a limit st r E2 E3) as (_ & S2 & _). revert Ef. rewrite flush_down by by rewrite <- W2, <- W3.
        repeat case_match; try done. intros [= E _]. destruct W4 as [W4|W4]; [congruence|].
        apply (inv_failure a log Hl W4). congruence.
      - assert (i <> k) as Hne by (intros ->; congruence).
        by destruct (working_others m k f o b st Ho E1 i _ Hi Hne) as (_ & ? & _). }
    subst. expose_machine. revert Ef. unfold flush. fold (settled (journal m)). rewrite Es.
    destruct (negb (jc_enabled _)); [done|]. destruct (negb (is_open _)) eqn:Eo; [done|]. cbn [negb].
    destruct (failed (journal m)) eqn:Efl; [intros [= E _]; by destruct (inv_failure _ _ Hl Efl)|].
    destruct (match file _ with Some _ => _ | None => _ end); [done|]. intros [= <-]. split_and!; try done.
    revert Es. unfold settled. rewrite Efl, Eo. by rewrite !orb_false_r.
  - intros E Hev. destruct stage; cbn [stage_step] in E; repeat case_match; destruct Hev; by simplify_eq.
  - pose proof (last_exited _ _ (or_wf _ Ho) Hi) as Ew.
    pose proof (sim_past_loop _ _ Hs ltac:(by rewrite Ew)) as Ha. subst.
    destruct (stop_end sync_ok (journal m)) as [st j'] eqn:Ee. intros [= <- <-] [[=] | [= ->]]. expose_machine.
    injection Ee as E1 <-. split_and!; [done| |apply exited_idle; [by apply or_wf|by rewrite Ew]].
    destruct (failed (journal m)) eqn:Efl; [|done]. exfalso. apply (inv_failure _ _ Hl Efl). revert E1.
    pose proof (inv_failure _ _ Hl Efl) as Hb. apply ok_status_false in Hb. rewrite Hb, andb_false_r. by destruct (file _).
Qed.
End Log.

(** Every schedule from a new journal keeps the invariant of the log. *)
Lemma new_journal_log cfg epoch wall n acts m evs :
  jc_enabled cfg = true -> 9 <= jc_max_record_bytes cfg <= u32_max -> 1 <= jc_max_queue_depth cfg ->
  is_u64 epoch ->
  run fabric_rule acts (started (open no_faults epoch wall (create cfg (mkDisk None None))).2 n) = Some (m, evs) ->
  Forall (event_fits cfg) evs -> orderly m /\ exists a, sim m a /\ log_inv cfg a (log_of evs).
Proof.
  intros H1 H2 H3 H4 Hr Hf. pose proof (inv_create cfg H1 H2 H3 epoch wall H4) as Hi.
  destruct (open no_faults epoch wall (create cfg (mkDisk None None))) as [st j] eqn:Eo. cbn [snd] in *.
  assert (st = StatusCode.Ok) as ->.
  { revert Eo. unfold open, create. cbn [config]. rewrite H1. cbn. by intros [= <- _]. }
  destruct (orderly_started _ _ _ _ _ _ n Eo) as [Hord Hs].
  exact (run_log cfg H2 H3 acts _ _ _ _ [] Hord Hs (or_introl Hi) Hr Hf).
Qed.

(** A whole log replays as it was written. *)
Lemma whole_replays cfg e w a log : log_inv cfg a log -> is_u64 e ->
  zlen log < jc_max_recovery_records cfg <= u64_max -> zlen (encode_records log) < jc_max_recovery_bytes cfg <= u64_max ->
  9 <= jc_max_record_bytes cfg <= u32_max ->
  let o := JournalReader.open no_faults cfg (mkDisk (Some (build_file_header e w ++ encode_records log)) None) in
  let replay := JournalReader.read_all (S (List.length log)) o.1.2 in
  outcome_status o.1.1 = StatusCode.Ok /\ replay.1 = log /\
  rr_torn_tail (JournalReader.report replay.2) = false /\ rr_degraded (JournalReader.report replay.2) = false.
Proof.
  intros Hl He Hr Hb Hm.
  assert (exists first, 0 <= first /\ numbered first log) as (first & F0 & F1).
  { destruct Hl as [Hl | Hl]; [|by apply (ci_log _ _ _ Hl)]. destruct (ji_log _ _ _ Hl) as (f & N1 & N2 & _). by exists f. }
  assert (Forall (fun r => record_fits cfg r /\ jrec_ordinal r < u64_max) log) as Hfit.
  { destruct Hl as [Hl | Hl]; [by apply (ji_fits _ _ _ Hl)|by apply (ci_fits _ _ _ Hl)]. }
  apply Forall_and in Hfit as [Hf1 Hf2].
  destruct (numbered_bounded first log F0 F1 Hf2) as (f & G0 & G1 & G2).
  destruct (torn_nil cfg Hm) as (r & k & Et & Hk & Hrf).
  assert (k = 0%nat) as -> by (destruct k; [done|]; destruct (encode_record_bytes r); simpl in *; [lia|done]).
  destruct (replay_prefix cfg e w f log []) as (Ho & _ & r1 & E1 & E2 & E3 & E4 & E5 & E6 & _); try assumption.
  rewrite app_nil_r in *. cbv zeta. split; [exact Ho|].
  pose proof (next_torn r1 _ r 0 E2 E3 ltac:(by rewrite E4) Hk) as Hnext.
  replace (S (List.length log)) with (List.length log + 1)%nat by lia. rewrite E1. cbn [JournalReader.read_all].
  rewrite Hnext. cbn [fst snd]. rewrite app_nil_r. split_and!; [done|exact E5|exact E6].
Qed.

(** C5: Appends from any number of threads reach the file in order.  Start from a new
    journal and let the clients and the writer run in any order, with writes cut
    short and synchronisations failing anywhere and compactions whose file
    operations succeed: the queue stays bounded; at every moment, so after a
    crash at any moment, the file is a header, a prefix of the accepted records
    and at most one torn record, or the snapshot of the compaction that has just
    replaced it; and when [flush] or [stop] returns success the file holds every
    record accepted before it. *)
Theorem threads_keep_the_log cfg epoch wall n acts m evs :
  jc_enabled cfg = true -> 9 <= jc_max_record_bytes cfg <= u32_max -> 1 <= jc_max_queue_depth cfg ->
  is_u64 epoch ->
  run fabric_rule acts (started (open no_faults epoch wall (create cfg (mkDisk None None))).2 n) = Some (m, evs) ->
  Forall (event_fits cfg) evs ->
  zlen (queue (journal m)) <= jc_max_queue_depth cfg /\
  (holds_log cfg (file_bytes (journal m)) (log_of evs) \/
   exists i faults ordinal body stage, clients m !! i = Some (CompactWork faults ordinal body stage) /\
     file_bytes (journal m)
     = build_file_header 0 0 ++ encode_records [mkJournalRecord JournalRecordKind.Snapshot ordinal body]) /\
  (forall i sync_ok m' ev, client_step i sync_ok m = Some (m', Some ev) ->
     ev = EvFlush sync_ok StatusCode.Ok \/ ev = EvStopEnd sync_ok StatusCode.Ok ->
     exists e w, file_bytes (journal m') = build_file_header e w ++ encode_records (log_of evs)).
Proof.
  intros H1 H2 H3 H4 Hr Hf. destruct (new_journal_log cfg epoch wall n acts m evs H1 H2 H3 H4 Hr Hf) as (Hord' & a & Hsim & Hl).
  split_and!.
  - by eapply inv_queue; [| |exact Hsim|exact Hl|apply or_wf].
  - by eapply sim_bytes.
  - intros i sync_ok m' ev Hstep Hev.
    destruct (success_whole cfg m a _ i sync_ok m' ev Hord' Hsim Hl Hstep Hev) as (-> & E1 & E2).
    destruct (inv_whole cfg a _ Hl E1 E2) as (e & w & _ & E). by exists e, w.
Qed.

(** C8: What [flush] and [stop] report survives a restart.  Start from a new journal.
    After any schedule in which the file operations of the compactions succeed and
    every body accepted leaves room for the nine bytes of its prefix within the
    record limit, and whatever writes and synchronisations fail: when [flush] or
    [stop] returns success, and the records accepted so far are within the limits of
    recovery, recovery of the file it leaves opens it, reports neither a torn tail
    nor corruption, and replays exactly those records, in order (from the last
    snapshot on).  (The provisos are needed: see [failed_compaction_destroys_journal]
    and [oversized_record_is_truncated].) *)
Theorem reported_success_survives_restart cfg epoch wall n acts m evs i sync_ok m' ev :
  let o := JournalReader.open no_faults cfg (mkDisk (Some (file_bytes (journal m'))) None) in
  let replay := JournalReader.read_all (S (List.length (log_of evs))) o.1.2 in
  jc_enabled cfg = true -> 9 <= jc_max_record_bytes cfg <= u32_max -> 1 <= jc_max_queue_depth cfg ->
  is_u64 epoch ->
  run fabric_rule acts (started (open no_faults epoch wall (create cfg (mkDisk None None))).2 n) = Some (m, evs) ->
  Forall (event_fits cfg) evs ->
  client_step i sync_ok m = Some (m', Some ev) ->
  ev = EvFlush sync_ok StatusCode.Ok \/ ev = EvStopEnd sync_ok StatusCode.Ok ->
  zlen (log_of evs) < jc_max_recovery_records cfg <= u64_max ->
  zlen (encode_records (log_of evs)) < jc_max_recovery_bytes cfg <= u64_max ->
  outcome_status o.1.1 = StatusCode.Ok /\ replay.1 = log_of evs /\
  rr_torn_tail (JournalReader.report replay.2) = false /\ rr_degraded (JournalReader.report replay.2) = false.
Proof.
  intros o replay H1 H2 H3 H4 Hr Hf Hstep Hev Hl1 Hl2.
  destruct (new_journal_log cfg epoch wall n acts m evs H1 H2 H3 H4 Hr Hf) as (Hord & a & Hsim & Hl).
  destruct (success_whole cfg m a _ i sync_ok m' ev Hord Hsim Hl Hstep Hev) as (E & E1 & E2).
  destruct (inv_whole cfg a _ Hl E1 E2) as (e & w & He & Ea). unfold replay, o. rewrite E, Ea.
  exact (whole_replays cfg e w a _ Hl He Hl1 Hl2 H2).
Qed.

(** ** Witnesses *)

Module JournalThreadsExamples.
Import JournalExamples.

Definition opened : t := (open no_faults 7 0 (create JournalExamples.config (mkDisk None None))).2.
Definition W : Action := ActWriter None true.
Definition C (i : nat) : Action := ActClient i true.

(** Two records from one thread while a second one flushes and a third one waits
    to compact; the schedule ends with the compaction about to resume the writer. *)
Definition schedule : list Action :=
  [ActCall 0 (CallAppend JournalRecordKind.Policy 0 [1]); W; C 0; C 0; ActCall 1 CallFlush; C 1; C 1;
   ActCall 2 (CallCompact compact_ok 1 [7; 7; 7]); C 0; W; W;
   ActCall 0 (CallAppend JournalRecordKind.Evidence 1 [2; 2]); C 0; C 0; W; C 0;
   C 1; W; W; W; C 1; C 2; C 2; W; C 2; C 2; C 2; C 2].

Definition reached : Machine :=
  match run fabric_rule schedule (started opened 3) with Some (m, _) => m | None => started opened 3 end.
Definition happened : list Event :=
  match run fabric_rule schedule (started opened 3) with Some (_, evs) => evs | None => [] end.

Lemma threads_refine_operations_witness : exists a, atomic_run happened opened = Some a /\ sim reached a.
Proof.
  destruct (threads_refine_operations no_faults 7 0 JournalExamples.config (mkDisk None None) 3 opened schedule
    reached happened) as (a & H1 & H2 & _).
  - vm_compute. reflexivity.
  - vm_compute. reflexivity.
  - exists a. split; assumption.
Defined.

(** The first record is written and the second one cut short. *)
Definition cut_short : list Action :=
  [ActCall 0 (CallAppend JournalRecordKind.Policy 0 [1]); C 0; C 0; C 0; W; W;
   ActCall 1 (CallAppend JournalRecordKind.Evidence 1 [2; 2]); C 1; C 1; W; C 1; W; ActWriter (Some 5) true;
   ActCall 2 CallFlush; C 2; C 2; W].
Definition torn_machine : Machine :=
  match run fabric_rule cut_short (started opened 3) with Some (m, _) => m | None => started opened 3 end.
Definition torn_events : list Event :=
  match run fabric_rule cut_short (started opened 3) with Some (_, evs) => evs | None => [] end.

Lemma threads_keep_the_log_witness :
  holds_log JournalExamples.config (file_bytes (journal torn_machine)) (log_of torn_events) \/
  exists i faults ordinal body stage, clients torn_machine !! i = Some (CompactWork faults ordinal body stage) /\
    file_bytes (journal torn_machine)
    = build_file_header 0 0 ++ encode_records [mkJournalRecord JournalRecordKind.Snapshot ordinal body].
Proof.
  destruct (threads_keep_the_log JournalExamples.config 7 0 3 cut_short torn_machine torn_events) as (_ & H & _).
  - reflexivity.
  - small.
  - small.
  - small.
  - vm_compute. reflexivity.
  - let e := eval vm_compute in torn_events in change torn_events with e.
    repeat constructor; vm_compute; congruence.
  - exact H.
Defined.

Lemma no_call_waits_forever_witness : exists k m', (k <= work reached)%nat /\
  nsteps (thread_step None true) k reached m' /\ Forall (fun pc => at_rest pc = true) (clients m').
Proof.
  destruct (no_call_waits_forever no_faults 7 0 JournalExamples.config (mkDisk None None) 3 opened schedule
    reached happened) as [_ H].
  - vm_compute. reflexivity.
  - vm_compute. reflexivity.
  - exact (H None true).
Defined.

(** The threads stop: the record is written, the writer drains and ends, and
    [stop] is about to close the journal. *)
Definition stopping_schedule : list Action :=
  [ActCall 0 (CallAppend JournalRecordKind.Policy 0 [1]); C 0; C 0; C 0; ActCall 1 CallStop; C 1; W; W; W; W; W; W;
   C 1; C 1].
Definition stopping_machine : Machine :=
  match run fabric_rule stopping_schedule (started opened 2) with Some (m, _) => m | None => started opened 2 end.
Definition stopping_events : list Event :=
  match run fabric_rule stopping_schedule (started opened 2) with Some (_, evs) => evs | None => [] end.
Definition stopped_machine : Machine :=
  match client_step 1 true stopping_machine with Some (m, _) => m | None => stopping_machine end.

Lemma reported_success_survives_restart_witness :
  (JournalReader.read_all (S (List.length (log_of stopping_events)))
     (JournalReader.open no_faults JournalExamples.config
        (mkDisk (Some (file_bytes (journal stopped_machine))) None)).1.2).1 = log_of stopping_events.
Proof.
  destruct (reported_success_survives_restart JournalExamples.config 7 0 2 stopping_schedule stopping_machine
    stopping_events 1 true stopped_machine (EvStopEnd true StatusCode.Ok)) as (_ & H & _).
  - reflexivity.
  - small.
  - small.
  - small.
  - vm_compute. reflexivity.
  - let e := eval vm_compute in stopping_events in change stopping_events with e.
    repeat constructor; vm_compute; congruence.
  - vm_compute. reflexivity.
  - right. reflexivity.
  - small.
  - small.
  - exact H.
Defined.

(** The rule is needed.  A compaction that enters after [stop] has ended the
    writer, and before [stop] closes the journal, is let in: [stop] and then the
    compaction report success, and the closed journal is left with an open
    stream. *)
Definition overlap : list Action :=
  [ActCall 0 CallStop; C 0; W; W; W; ActCall 1 (CallCompact compact_ok 0 [7]); C 1; C 1; C 0; C 0; C 0;
   C 1; C 1; C 1; C 1; C 1; C 1].

Lemma compaction_beside_stop_reopens : exists m evs,
  run one_stop_rule overlap (started opened 2) = Some (m, evs) /\
  clients m = [Resting (Some StatusCode.Ok); Resting (Some StatusCode.Ok)] /\
  is_open (journal m) = false /\ file (journal m) <> None.
Proof. eexists _, _. split; [vm_compute; reflexivity|]. split_and!; vm_compute; congruence. Qed.

(** After a compaction whose two attempts to reopen the journal failed, [open]
    passes its check although the writer thread has not been joined. *)
Definition lost_stream : CompactFaults := mkCompactFaults true None None true true false false.

Lemma reopening_finds_a_joinable_writer : exists j,
  compact lost_stream 0 [7] opened = Some (StatusCode.Io, j) /\ joinable j = true /\ is_open j = false /\
  (open no_faults 7 0 j).1 = StatusCode.Ok.
Proof. eexists. split; [vm_compute; reflexivity|]. split_and!; vm_compute; reflexivity. Qed.
End JournalThreadsExamples.
