(* ===== verification/FabricThreads.v ===== *)
(** * Threads and the lifetime of the fabric's journal

    [runtime/fabric.*] says that every public entry point is thread safe.  This
    file looks at the pointer [journal_] that the entry points share with
    [Fabric::close]: [close] takes it away under [mutex_], stops the journal and
    destroys it, while updates ([register_link], [ingest] and the others that end
    in [journal_append]), [compact] and [flush] test it and call through it.  The
    journal itself is the one of [JournalThreads]; here it only answers.  A step
    is an access outside the lock, an acquisition, or a whole critical section. *)

From Stdlib Require Import ZArith Lia Bool List String Ascii.
From stdpp Require Import base decidable relations list strings.
From S2P Require Import Prelude Core.

Module FabricThreads.

Inductive FabricCall := Update | Compact | Flush | Close.

(** What a call through [journal_] can run into. *)
Inductive Fault := NullDereference | UseAfterFree.

Inductive Result :=
  | Returned (call : FabricCall) (status : Status) (journaled : bool)
  | Faulted (call : FabricCall) (fault : Fault).

Inductive Pc :=
  | Rest (last : option Result)
  | UpdateEntry | UpdateLock | UpdateBody
  | CompactEntry | CompactLock | CompactBody
  | FlushEntry | FlushCall | FlushInside
  | CloseLock | CloseBody | CloseStop (took : bool) | CloseDestroy (status : Status).

Record Fabric := mkFabric {
  open_ : bool;
  journal_ : bool;            (* not null *)
  alive : bool;               (* the journal has not been destroyed *)
  owner : option nat;         (* the thread that holds [mutex_] *)
  threads : list Pc;
}.

Definition at_pc (f : Fabric) (i : nat) (pc : Pc) : Fabric :=
  mkFabric (open_ f) (journal_ f) (alive f) (owner f) (<[i := pc]> (threads f)).
Definition finish (f : Fabric) (i : nat) (r : Result) : Fabric := at_pc f i (Rest (Some r)).
Definition owned (f : Fabric) (o : option nat) : Fabric :=
  mkFabric (open_ f) (journal_ f) (alive f) o (threads f).

(** [lock] returns when nobody holds the mutex. *)
Definition acquire (f : Fabric) (i : nat) (pc : Pc) : option Fabric :=
  match owner f with None => Some (at_pc (owned f (Some i)) i pc) | Some _ => None end.

(** A call through the pointer: null, or an object that is gone, or the answer. *)
Definition through (call : FabricCall) (f : Fabric) (answer : Result) : Result :=
  if negb (journal_ f) then Faulted call NullDereference
  else if negb (alive f) then Faulted call UseAfterFree else answer.

(** The steps of each call for thread [i]; [answer] is what the journal answers. *)

(** [register_link] and the other updates, which end in [journal_append]: without
    a journal there is nothing to append to. *)
Definition update_step (i : nat) (answer : Status) (f : Fabric) (pc : Pc) : option Fabric :=
  match pc with
  | UpdateEntry =>
      Some (if open_ f then at_pc f i UpdateLock else finish f i (Returned Update StatusCode.Unavailable false))
  | UpdateLock => acquire f i UpdateBody
  | UpdateBody =>
      Some (owned (finish f i (if negb (journal_ f) then Returned Update StatusCode.Ok false
                               else through Update f (Returned Update answer (ok answer)))) None)
  | _ => None
  end.

Definition compact_step (i : nat) (answer : Status) (f : Fabric) (pc : Pc) : option Fabric :=
  match pc with
  | CompactEntry =>
      Some (if journal_ f then at_pc f i CompactLock else finish f i (Returned Compact StatusCode.Refused false))
  | CompactLock => acquire f i CompactBody
  | CompactBody => Some (owned (finish f i (through Compact f (Returned Compact answer true))) None)
  | _ => None
  end.

(** [flush] takes no lock: the pointer is read twice, and the journal may be
    destroyed while the call is inside it. *)
Definition flush_step (i : nat) (answer : Status) (f : Fabric) (pc : Pc) : option Fabric :=
  match pc with
  | FlushEntry =>
      Some (if journal_ f then at_pc f i FlushCall else finish f i (Returned Flush StatusCode.Refused false))
  | FlushCall =>
      Some (if journal_ f && alive f then at_pc f i FlushInside
            else finish f i (through Flush f (Returned Flush answer true)))
  | FlushInside =>
      Some (finish f i (if alive f then Returned Flush answer true else Faulted Flush UseAfterFree))
  | _ => None
  end.

(** A call through the local pointer of [close], which is not null. *)
Definition through_local (f : Fabric) (i : nat) (next : Fabric) : Fabric :=
  if alive f then next else finish f i (Faulted Close UseAfterFree).

(** The journal is gone and [close] has returned. *)
Definition destroyed (f : Fabric) (i : nat) (status : Status) : Fabric :=
  mkFabric (open_ f) (journal_ f) false (owner f) (<[i := Rest (Some (Returned Close status true))]> (threads f)).

(** [close] moves the pointer into a local, stops the journal through it, and
    destroys it when the local goes out of scope. *)
Definition close_step (i : nat) (answer : Status) (f : Fabric) (pc : Pc) : option Fabric :=
  match pc with
  | CloseLock => acquire f i CloseBody
  | CloseBody =>
      Some (if negb (open_ f) && negb (journal_ f)
            then owned (finish f i (Returned Close StatusCode.Ok false)) None
            else mkFabric false false (alive f) None (<[i := CloseStop (journal_ f)]> (threads f)))
  | CloseStop took =>
      Some (if took then through_local f i (at_pc f i (CloseDestroy answer)) else finish f i (Returned Close StatusCode.Ok false))
  | CloseDestroy status =>
      Some (through_local f i (destroyed f i status))
  | _ => None
  end.

Definition pointer_step (i : nat) (answer : Status) (f : Fabric) : option Fabric :=
  match threads f !! i with
  | Some (UpdateEntry | UpdateLock | UpdateBody) as pc => pc ≫= update_step i answer f
  | Some (CompactEntry | CompactLock | CompactBody) as pc => pc ≫= compact_step i answer f
  | Some (FlushEntry | FlushCall | FlushInside) as pc => pc ≫= flush_step i answer f
  | Some (CloseLock | CloseBody | CloseStop _ | CloseDestroy _) as pc => pc ≫= close_step i answer f
  | Some (Rest _) | None => None
  end.

Definition enter (call : FabricCall) : Pc :=
  match call with Update => UpdateEntry | Compact => CompactEntry | Flush => FlushEntry | Close => CloseLock end.

Inductive Act := Enter (i : nat) (call : FabricCall) | Step (i : nat) (answer : Status).

Definition act (a : Act) (f : Fabric) : option Fabric :=
  match a with
  | Enter i call => match threads f !! i with Some (Rest _) => Some (at_pc f i (enter call)) | _ => None end
  | Step i answer => pointer_step i answer f
  end.

Fixpoint run (acts : list Act) (f : Fabric) : option Fabric :=
  match acts with [] => Some f | a :: acts => act a f ≫= run acts end.

(** An open fabric with a journal and [n] threads. *)
Definition opened (n : nat) : Fabric := mkFabric true true true None (repeat (Rest None) n).

(** ** The invariant *)

(** The threads that hold the journal in their local pointer. *)
Definition takes (pc : Pc) : bool := match pc with CloseStop true | CloseDestroy _ => true | _ => false end.

(** What no thread may have run into. *)
Definition safe_result (f : Fabric) (pc : Pc) : Prop :=
  match pc with
  | Rest (Some (Faulted Update _)) | Rest (Some (Faulted Close _)) | Rest (Some (Faulted Compact UseAfterFree)) => False
  | Rest (Some (Returned Update StatusCode.Ok false)) => open_ f = false
  | _ => True
  end.

(** The journal has one holder: the fabric, or one closing thread.  It is alive as
    long as it has a holder. *)
Record sound (f : Fabric) : Prop := {
  so_alive : journal_ f = true -> alive f = true;
  so_open : journal_ f = false -> open_ f = false;
  so_results : Forall (safe_result f) (threads f);
  so_taker : forall i pc, threads f !! i = Some pc -> takes pc = true -> journal_ f = false /\ alive f = true;
  so_one : forall i j p q, threads f !! i = Some p -> threads f !! j = Some q ->
    takes p = true -> takes q = true -> i = j;
}.

Lemma safe_closed f f' pc : (open_ f = false -> open_ f' = false) -> safe_result f pc -> safe_result f' pc.
Proof. intros H1. destruct pc as [[[[] [] []|[] []]|]| | | | | | | | | | | |[]|]; cbn; auto. Qed.

Lemma insert_results f f' i pc : threads f' = <[i := pc]> (threads f) ->
  Forall (safe_result f) (threads f) -> (open_ f = false -> open_ f' = false) -> safe_result f' pc ->
  Forall (safe_result f') (threads f').
Proof.
  intros Ht S3 H1 H2. rewrite Ht. apply Forall_insert; [|done].
  eapply Forall_impl; [exact S3|]. intros q. by apply safe_closed.
Qed.

(** What a thread is after a step of thread [i]. *)
Lemma insert_elsewhere f f' i pc j q : threads f' = <[i := pc]> (threads f) -> threads f' !! j = Some q ->
  (j = i /\ q = pc) \/ (j <> i /\ threads f !! j = Some q).
Proof. intros -> Hj. apply list_lookup_insert_Some in Hj as [(<- & -> & _)|[? ?]]; [by left|right; split; congruence]. Qed.

(** A step that moves one thread and keeps hold of nothing. *)
Lemma sound_move f f' i pc : sound f -> threads f' = <[i := pc]> (threads f) ->
  open_ f' = open_ f -> journal_ f' = journal_ f -> alive f' = alive f -> takes pc = false ->
  safe_result f' pc -> sound f'.
Proof.
  intros [S1 S2 S3 S4 S5] Ht H1 H2 H3 Hk H5. constructor.
  - by rewrite H2, H3.
  - by rewrite H1, H2.
  - eapply (insert_results f); eauto; by rewrite H1.
  - intros j q Hj Hq. rewrite H2, H3.
    destruct (insert_elsewhere _ _ _ _ _ _ Ht Hj) as [[-> ->]|[? Hj']]; [congruence|eauto].
  - intros j k p q Hj Hl Hp Hq.
    destruct (insert_elsewhere _ _ _ _ _ _ Ht Hj) as [[-> ->]|[? Hj']]; [congruence|].
    destruct (insert_elsewhere _ _ _ _ _ _ Ht Hl) as [[-> ->]|[? Hl']]; [congruence|eauto].
Qed.

(** [close] takes the pointer: the thread becomes the holder. *)
Lemma sound_take f i : sound f ->
  sound (mkFabric false false (alive f) None (<[i := CloseStop (journal_ f)]> (threads f))).
Proof.
  intros [S1 S2 S3 S4 S5].
  set (f' := mkFabric _ _ _ _ _). assert (threads f' = <[i := CloseStop (journal_ f)]> (threads f)) as Ht by done.
  assert (forall j q, threads f' !! j = Some q -> takes q = true ->
    (j = i /\ journal_ f = true) \/ (threads f !! j = Some q /\ journal_ f = false)) as Hcase.
  { intros j q Hj Hq. destruct (insert_elsewhere _ _ _ _ _ _ Ht Hj) as [[-> ->]|[? Hj']].
    - left. split; [done|]. by destruct (journal_ f).
    - right. split; [done|]. by destruct (S4 _ _ Hj' Hq). }
  constructor; try done.
  - eapply insert_results; eauto. by destruct (journal_ f).
  - intros j q Hj Hq. split; [done|]. destruct (Hcase _ _ Hj Hq) as [[-> ?]|[? ?]]; [by apply S1|].
    by destruct (S4 _ _ H Hq).
  - intros j k p q Hj Hl Hp Hq.
    destruct (Hcase _ _ Hj Hp) as [[-> ?]|[? ?]], (Hcase _ _ Hl Hq) as [[-> ?]|[? ?]]; try congruence. eauto.
Qed.

(** The holder stays the holder, or destroys the journal and holds it no more. *)
Lemma sound_holder f i pc status : sound f -> threads f !! i = Some pc -> takes pc = true ->
  sound (at_pc f i (CloseDestroy status)) /\ sound (destroyed f i status).
Proof.
  intros [S1 S2 S3 S4 S5] Hi Hpc. destruct (S4 _ _ Hi Hpc) as [Hj Ha].
  set (f1 := at_pc f i (CloseDestroy status)). set (f2 := destroyed f i status).
  assert (forall j q, threads f1 !! j = Some q -> takes q = true -> j = i) as Hone.
  { intros j q Hq Tq. destruct (insert_elsewhere f f1 i _ j q eq_refl Hq) as [[-> _]|[_ ?]]; [done|eauto]. }
  assert (forall j q, threads f2 !! j = Some q -> takes q = true -> False) as Hnone.
  { intros j q Hq Tq. destruct (insert_elsewhere f f2 i _ j q eq_refl Hq) as [[_ ->]|[Hne ?]]; [done|].
    apply Hne. eauto. }
  split; constructor; try done.
  - by eapply (insert_results f f1).
  - intros j k p q Hp Hq Tp Tq. by rewrite (Hone j p Hp Tp), (Hone k q Hq Tq).
  - cbn. congruence.
  - by eapply (insert_results f f2).
  - intros j q Hq Tq. by destruct (Hnone j q Hq Tq).
  - intros j k p q Hp _ Tp. by destruct (Hnone j p Hp Tp).
Qed.

Lemma sound_pointer_step i answer f f' : sound f -> pointer_step i answer f = Some f' -> sound f'.
Proof.
  intros Hs. pose proof Hs as [S1 S2 S3 S4 S5]. unfold pointer_step.
  destruct (threads f !! i) as [pc|] eqn:Hi; [|done].
  assert (forall pc' o, takes pc' = false -> safe_result f pc' -> sound (owned (at_pc f i pc') o)) as Hmove.
  { intros pc' o Hk H. by eapply sound_move. }
  assert (forall pc', takes pc' = false -> safe_result f pc' -> sound (at_pc f i pc')) as Hat.
  { intros pc' Hk H. by eapply sound_move. }
  destruct pc as [| | | | | | | | | | | |took|status]; try done;
    cbn [mbind option_bind update_step compact_step flush_step close_step]; unfold acquire, through, through_local.
  - intros [= <-]. by destruct (open_ f); apply Hat.
  - destruct (owner f); [done|]. intros [= <-]. by apply (Hmove _ (Some i)).
  - intros [= <-]. destruct (journal_ f) eqn:Ej; cbn [negb].
    + rewrite (S1 eq_refl). apply Hmove; [done|]. by destruct answer.
    + apply Hmove; [done|]. by apply S2.
  - intros [= <-]. by destruct (journal_ f); apply Hat.
  - destruct (owner f); [done|]. intros [= <-]. by apply (Hmove _ (Some i)).
  - intros [= <-]. destruct (journal_ f) eqn:Ej; cbn [negb]; [rewrite (S1 eq_refl)|]; by apply Hmove.
  - intros [= <-]. by destruct (journal_ f); apply Hat.
  - intros [= <-]. destruct (journal_ f), (alive f); by apply Hat.
  - intros [= <-]. destruct (alive f); by apply Hat.
  - destruct (owner f); [done|]. intros [= <-]. by apply (Hmove _ (Some i)).
  - intros [= <-]. destruct (negb (open_ f) && negb (journal_ f)); [by apply Hmove|by apply sound_take].
  - intros [= <-]. destruct took; [|by apply Hat]. destruct (S4 _ _ Hi eq_refl) as [_ ->].
    by eapply sound_holder.
  - intros [= <-]. destruct (S4 _ _ Hi eq_refl) as [_ ->]. by eapply sound_holder.
Qed.

Lemma sound_act a f f' : sound f -> act a f = Some f' -> sound f'.
Proof.
  intros Hs. destruct a as [i call|i answer]; cbn [act]; [|by apply sound_pointer_step].
  destruct (threads f !! i) as [[]|] eqn:Hi; try done. intros [= <-].
  eapply sound_move; try done; by destruct call.
Qed.

Lemma sound_run acts : forall f f', sound f -> run acts f = Some f' -> sound f'.
Proof.
  induction acts as [|a acts IH]; intros f f' Hs; cbn [run]; [by intros [= <-]|].
  destruct (act a f) as [f1|] eqn:Ea; [|done]. cbn [mbind option_bind]. apply IH. by eapply sound_act.
Qed.

Lemma sound_opened n : sound (opened n).
Proof.
  assert (forall i pc, repeat (Rest None) n !! i = Some pc -> pc = Rest None) as Hrest.
  { intros i pc H. apply list_elem_of_lookup_2, list_elem_of_In, repeat_spec in H. done. }
  constructor; try done.
  - apply Forall_forall. intros pc H. apply list_elem_of_In, repeat_spec in H. by subst.
  - intros i pc H. by apply Hrest in H as ->.
  - intros i j p q H _ Hp. by apply Hrest in H as ->.
Qed.

(** ** Calls caught by a close *)

(** A call that has passed its entry check, and what it comes to once a [close]
    has taken the journal away ([FlushInside]: once the journal is destroyed). *)
Inductive caught : Pc -> bool -> Result -> Prop :=
  | caught_compact_lock dead : caught CompactLock dead (Faulted Compact NullDereference)
  | caught_compact_body dead : caught CompactBody dead (Faulted Compact NullDereference)
  | caught_flush_call dead : caught FlushCall dead (Faulted Flush NullDereference)
  | caught_flush_inside : caught FlushInside true (Faulted Flush UseAfterFree)
  | caught_update_lock dead : caught UpdateLock dead (Returned Update StatusCode.Ok false)
  | caught_update_body dead : caught UpdateBody dead (Returned Update StatusCode.Ok false).

(** Thread [i] is caught, or has come to its result. *)
Definition bound_for (i : nat) (r : Result) (f : Fabric) : Prop :=
  journal_ f = false /\ exists pc, threads f !! i = Some pc /\ (caught pc (negb (alive f)) r \/ pc = Rest (Some r)).

Lemma caught_dead pc dead r : caught pc dead r -> caught pc true r.
Proof. intros []; constructor. Qed.

Definition enters (i : nat) (a : Act) : bool := match a with Enter j _ => Nat.eqb i j | Step _ _ => false end.

(** A step leaves the other threads where they are, and the pointer null. *)
Lemma step_frame j answer f f' : pointer_step j answer f = Some f' -> journal_ f = false ->
  journal_ f' = false /\ (alive f = false -> alive f' = false) /\
  exists pc, threads f' = <[j := pc]> (threads f).
Proof.
  intros Hst Hj. unfold pointer_step in Hst. destruct (threads f !! j) as [pc|]; [|done].
  destruct pc as [| | | | | | | | | | | |took|status]; try done;
    cbn [mbind option_bind update_step compact_step flush_step close_step] in Hst;
    unfold acquire, through_local in Hst; repeat case_match; simplify_eq; cbn; eauto.
Qed.

Lemma act_frame a f f' i : act a f = Some f' -> journal_ f = false -> (forall ans, a <> Step i ans) -> enters i a = false ->
  journal_ f' = false /\ (alive f = false -> alive f' = false) /\ threads f' !! i = threads f !! i.
Proof.
  intros Ha Hj Hs He. destruct a as [j call|j answer]; cbn [act enters] in *.
  - apply Nat.eqb_neq in He. destruct (threads f !! j) as [[]|]; try done. injection Ha as <-. cbn.
    by rewrite list_lookup_insert_ne.
  - destruct (step_frame _ _ _ _ Ha Hj) as (? & ? & pc & ->). split_and!; auto.
    destruct (decide (i = j)) as [->|]; [by destruct (Hs answer)|]. by rewrite list_lookup_insert_ne.
Qed.

Lemma bound_act a i r f f' : enters i a = false -> bound_for i r f -> act a f = Some f' -> bound_for i r f'.
Proof.
  intros He (Hj & pc & Hi & Hpc) Ha.
  assert (Hlt : (i < List.length (threads f))%nat) by (by eapply lookup_lt_Some).
  assert ((exists ans, a = Step i ans) \/ forall ans, a <> Step i ans) as [[ans ->]|Hne].
  { destruct a as [|j ans]; [by right|]. destruct (decide (j = i)) as [->|]; [left; eauto|right; congruence]. }
  - cbn [act] in Ha. unfold pointer_step in Ha. rewrite Hi in Ha. unfold bound_for.
    destruct Hpc as [Hc| ->]; [|done].
    destruct (alive f) eqn:El; cbn [negb] in *; inversion Hc; subst;
      cbn [mbind option_bind update_step compact_step flush_step] in Ha;
      unfold acquire, through in Ha; rewrite ?Hj, ?El in Ha; repeat case_match; simplify_eq; cbn;
      (split; [done|]; eexists; split; [by apply list_lookup_insert_eq|]);
      rewrite ?El; first [by right | left; constructor].
  - destruct (act_frame a f f' i Ha Hj Hne He) as (Hj' & Hal & Ht).
    split; [done|]. exists pc. rewrite Ht. split; [done|]. destruct Hpc as [Hc|]; [left|by right].
    destruct (alive f') eqn:E; [|by apply (caught_dead _ _ _ Hc)].
    destruct (alive f); [done|]. by specialize (Hal eq_refl).
Qed.

Lemma bound_run acts : forall f f' i r, forallb (fun a => negb (enters i a)) acts = true ->
  bound_for i r f -> run acts f = Some f' -> bound_for i r f'.
Proof.
  induction acts as [|a acts IH]; intros f f' i r He Hb; cbn [run]; [by intros [= <-]|].
  cbn [forallb] in He. apply andb_true_iff in He as [He1 He2]. apply negb_true_iff in He1.
  destruct (act a f) as [f1|] eqn:Ea; [|done]. cbn [mbind option_bind]. eapply IH; [done|]. by eapply bound_act.
Qed.

(** A whole [close] by an idle thread [j], the mutex being free. *)
Definition closes (j : nat) (answer : Status) : list Act :=
  [Enter j Close; Step j answer; Step j answer; Step j answer; Step j answer].

Lemma close_runs f i j last pc answer : i <> j -> threads f !! i = Some pc -> threads f !! j = Some (Rest last) ->
  owner f = None -> journal_ f = true -> alive f = true ->
  exists f', run (closes j answer) f = Some f' /\ journal_ f' = false /\ alive f' = false /\ threads f' !! i = Some pc.
Proof.
  intros Hij Hi Hj Ho Hp Ha. assert (j < List.length (threads f))%nat as Hlt by (by eapply lookup_lt_Some).
  set (f0 := at_pc f j CloseLock). set (f1 := at_pc (owned f0 (Some j)) j CloseBody).
  set (f2 := mkFabric false false (alive f1) None (<[j := CloseStop true]> (threads f1))).
  set (f3 := at_pc f2 j (CloseDestroy answer)).
  assert (forall (l : list Pc) c, (j < List.length l)%nat -> <[j := c]> l !! j = Some c) as Hin
    by (intros; by apply list_lookup_insert_eq).
  assert (act (Enter j Close) f = Some f0) as E0 by (cbn; by rewrite Hj).
  assert (act (Step j answer) f0 = Some f1) as E1.
  { cbn. unfold pointer_step. cbn. rewrite Hin by done. cbn. unfold acquire. cbn. by rewrite Ho. }
  assert (act (Step j answer) f1 = Some f2) as E2.
  { cbn. unfold pointer_step. cbn. rewrite Hin by (by rewrite length_insert). cbn. by rewrite Hp, andb_false_r. }
  assert (act (Step j answer) f2 = Some f3) as E3.
  { cbn. unfold pointer_step. cbn. rewrite Hin by (by rewrite !length_insert). cbn.
    unfold through_local. cbn. by rewrite Ha. }
  assert (act (Step j answer) f3 = Some (destroyed f3 j answer)) as E4.
  { cbn. unfold pointer_step. cbn. rewrite Hin by (by rewrite !length_insert). cbn.
    unfold through_local. cbn. by rewrite Ha. }
  exists (destroyed f3 j answer). split.
  - unfold closes. cbn [run]. rewrite E0. cbn [mbind option_bind]. rewrite E1. cbn [mbind option_bind].
    rewrite E2. cbn [mbind option_bind]. rewrite E3. cbn [mbind option_bind]. by rewrite E4.
  - split; [done|]. split; [done|]. cbn. by rewrite !list_lookup_insert_ne.
Qed.

(** ** Theorems *)

(** C15: Calls that test the journal under the fabric's lock are safe beside [close].
    Whatever the schedule of updates, compactions, flushes and closes, by any
    number of threads: no update calls through a null or a destroyed journal, no
    [close] stops or destroys a journal that another one has destroyed, no
    compaction calls a destroyed journal, and an update succeeds without being
    journaled only after the fabric has been closed. *)
Theorem locked_calls_are_safe n acts f i result :
  run acts (opened n) = Some f -> threads f !! i = Some (Rest (Some result)) ->
  (forall fault, result <> Faulted Update fault /\ result <> Faulted Close fault) /\
  result <> Faulted Compact UseAfterFree /\
  (result = Returned Update StatusCode.Ok false -> open_ f = false).
Proof.
  intros Hr Hi. pose proof (sound_run acts _ _ (sound_opened n) Hr) as [_ _ S3 _ _].
  pose proof (Forall_lookup_1 _ _ _ _ S3 Hi) as Hp. cbn in Hp. split_and!.
  - intros fault. by destruct result as [|[] []].
  - by destruct result as [|[] []].
  - by intros ->.
Qed.

(** C40: A call past its entry check is at the mercy of [close].  [compact] tests
    the journal before it locks, [flush] without locking, and updates test [open_]
    before they lock.  Take any moment at which such a call of one thread has
    passed its test ([caught]), another thread is idle and the mutex is free: that
    thread can run a whole [close], and after it, whatever the schedule, the call
    never returns as it should.  A compaction calls through the null pointer, a
    flush calls through the null pointer or into the destroyed journal, and an
    update reports success for a change that no journal holds. *)
Theorem close_races_with_entry_checks n acts f i j pc last r :
  run acts (opened n) = Some f -> threads f !! i = Some pc -> caught pc true r ->
  threads f !! j = Some (Rest last) -> owner f = None -> journal_ f = true ->
  forall answer, exists f', run (closes j answer) f = Some f' /\
    forall later f2 result, forallb (fun a => negb (enters i a)) later = true ->
      run later f' = Some f2 -> threads f2 !! i = Some (Rest (Some result)) -> result = r.
Proof.
  intros Hrun Hi Hc Hj Ho Hp answer.
  pose proof (so_alive _ (sound_run acts _ _ (sound_opened n) Hrun) Hp) as Ha.
  assert (i <> j) as Hij by (intros ->; rewrite Hi in Hj; simplify_eq; by inversion Hc).
  destruct (close_runs f i j last pc answer Hij Hi Hj Ho Hp Ha) as (f' & Hf' & Hj' & Ha' & Hi').
  exists f'. split; [done|]. intros later f2 result He Hl H2.
  assert (bound_for i r f') as Hb.
  { split; [done|]. exists pc. split; [done|left]. by rewrite Ha'. }
  destruct (bound_run later f' f2 i r He Hb Hl) as (_ & pc2 & Hi2 & Hr2). rewrite H2 in Hi2. simplify_eq.
  destruct Hr2 as [Hr2|[= ->]]; [by inversion Hr2|done].
Qed.

(** ** Witnesses *)

(** Thread 0 is past an entry check; thread 1 closes; thread 0 goes on. *)
Definition entered (call : FabricCall) : list Act := [Enter 0 call; Step 0 StatusCode.Ok].
Definition state_after (acts : list Act) : Fabric :=
  match run acts (opened 2) with Some f => f | None => opened 2 end.
Definition raced : Fabric :=
  state_after (entered Update ++ closes 1 StatusCode.Ok ++ [Step 0 StatusCode.Ok; Step 0 StatusCode.Ok]).

Lemma locked_calls_are_safe_witness : open_ raced = false.
Proof.
  apply (locked_calls_are_safe 2
    (entered Update ++ closes 1 StatusCode.Ok ++ [Step 0 StatusCode.Ok; Step 0 StatusCode.Ok])
    raced 0 (Returned Update StatusCode.Ok false)).
  - vm_compute. reflexivity.
  - vm_compute. reflexivity.
  - reflexivity.
Defined.

(** The three races happen. *)
Lemma close_races_with_entry_checks_witness :
  exists f', run (closes 1 StatusCode.Ok) (state_after (entered Compact)) = Some f' /\
    (threads <$> run [Step 0 StatusCode.Ok; Step 0 StatusCode.Ok] f')
      = Some [Rest (Some (Faulted Compact NullDereference)); Rest (Some (Returned Close StatusCode.Ok true))].
Proof.
  destruct (close_races_with_entry_checks 2 (entered Compact) (state_after (entered Compact)) 0 1 CompactLock None
    (Faulted Compact NullDereference) eq_refl eq_refl (caught_compact_lock true) eq_refl eq_refl eq_refl
    StatusCode.Ok) as (f' & Hf' & Hr).
  exists f'. split; [exact Hf'|]. vm_compute in Hf'. injection Hf' as <-. vm_compute. reflexivity.
Defined.
End FabricThreads.
