(* ===== verification/Fabric.v ===== *)
(** * The fabric runtime

    [runtime/fabric.*]: the state behind the one lock, and every entry point as a
    function of that state and of the clock reading it takes.  A [UniqueLock] or
    [SharedLock] is held for the whole of each entry point (a batch takes it once
    per observation), so an entry point is one step.  The counters of [FabricStats] are a finite map from the field to
    its value.  The writer thread runs while an entry point waits for the journal
    to be idle ([drain]). *)

From Stdlib Require Import ZArith Lia Bool List String Ascii.
From stdpp Require Import base decidable list strings.
From S2P Require Import Prelude OrdMap Float Core Hash Quality Metric Identity Counter.
From S2P Require Import Capability Config Policy Classification LinkRegistry EvidenceStore.
From S2P Require Import Codec FieldCodecs CapabilityRegistry Classifier Journal.

Open Scope Z_scope.

(** ** Record bodies of the runtime *)

Record LinkObservedBody := mkLinkObservedBody {
  lob_link : LinkIdentity; lob_observed_at : Timestamp; lob_received : ReceiveStamp }.
Record GenerationBody := mkGenerationBody {
  gb_link : string; gb_generation : Z; gb_at : Timestamp; gb_received : ReceiveStamp; gb_reason : ReasonCode.t }.
Record DedupBody := mkDedupBody { db_key : StreamKey; db_entries : list (Z * Z) }.

Definition c_link_observed : codec LinkObservedBody :=
  c_iso (fun v => (lob_link v, (lob_observed_at v, lob_received v)))
    (fun '(x0, (x1, x2)) => mkLinkObservedBody x0 x1 x2)
    (c_pair c_link_identity (c_pair c_timestamp c_receive_stamp)).
#[export] Instance c_link_observed_laws : CodecLaws c_link_observed. Proof. record_codec. Qed.

Definition c_generation_body : codec GenerationBody :=
  c_iso (fun v => (gb_link v, (gb_generation v, (gb_at v, (gb_received v, gb_reason v)))))
    (fun '(x0, (x1, (x2, (x3, x4)))) => mkGenerationBody x0 x1 x2 x3 x4)
    (c_pair c_string (c_pair c_u64 (c_pair c_timestamp (c_pair c_receive_stamp c_reason)))).
#[export] Instance c_generation_body_laws : CodecLaws c_generation_body. Proof. record_codec. Qed.

Definition c_dedup_body : codec DedupBody :=
  c_iso (fun v => (db_key v, db_entries v)) (fun '(x0, x1) => mkDedupBody x0 x1)
    (c_pair c_stream_key (c_vector (c_pair c_u64 c_u64))).
#[export] Instance c_dedup_body_laws : CodecLaws c_dedup_body. Proof. record_codec. Qed.

(** [decode_body]: the value, provided nothing follows it. *)
Definition decode_body {A} (c : codec A) (L : CodecLimits) (body : list Z) : Outcome A :=
  let '(v, r) := dec c L (reader_of body) in
  if negb (ok (r_status r)) then Bad (r_status r)
  else match r_rest r, v with
       | [], Some a => Good a
       | [], None => Bad StatusCode.Internal  (* a codec that succeeds has a value *)
       | _ :: _, _ => Bad StatusCode.Protocol
       end.

(** ** State *)

Record FabricConfig := mkFabricConfig {
  fc_limits : FabricLimits;
  fc_journal : JournalConfig;
  fc_initial_policy : PolicyDocument;
  fc_max_policy_generations : Z;
}.

(** The counters of [FabricStats] the runtime changes. *)
Module Stat.
Inductive t :=
  | observations_accepted | observations_duplicate | observations_reordered | observations_rejected
  | observations_recovered | ingest_batches | capability_declarations | capability_rejections
  | policy_publications | policy_rejections | links_observed | links_registered | generations_advanced
  | queries_served | window_queries | explanations | inspections | stream_evictions | history_evictions
  | continuity_breaks | wraps_inferred | resets_observed | unproven_decreases | journal_records
  | journal_rejections | compactions | recovered_records | recoveries.
End Stat.

#[export] Instance Stat_eq_dec : EqDecision Stat.t.
Proof. solve_decision. Defined.

Definition FabricStats := list (Stat.t * Z).
Fixpoint stat (field : Stat.t) (s : FabricStats) : Z :=
  match s with
  | [] => 0
  | (f, v) :: rest => if bool_decide (f = field) then v else stat field rest
  end.
Fixpoint stat_add (field : Stat.t) (by_ : Z) (s : FabricStats) : FabricStats :=
  match s with
  | [] => [(field, wrap64 by_)]
  | (f, v) :: rest => if bool_decide (f = field) then (f, wrap64 (v + by_)) :: rest
                      else (f, v) :: stat_add field by_ rest
  end.

Record Fabric := mkFabric {
  fb_config : FabricConfig;
  fb_epoch : Z;
  fb_catalog : MetricCatalog;
  fb_policies : PolicyRegistry.t;
  fb_capabilities : CapabilityRegistry.t;
  fb_links : LinkRegistry.t;
  fb_evidence : EvidenceStore.t;
  fb_journal : option BackgroundJournal.t;
  fb_next_ordinal : Z;
  fb_records_since_compaction : Z;
  fb_persistence_degraded : bool;
  fb_stats : FabricStats;
  fb_recovery : RecoveryReport;
  fb_open : bool;
}.

Definition set_policies (f : Fabric) (v : PolicyRegistry.t) : Fabric :=
  mkFabric (fb_config f) (fb_epoch f) (fb_catalog f) v (fb_capabilities f) (fb_links f) (fb_evidence f)
    (fb_journal f) (fb_next_ordinal f) (fb_records_since_compaction f) (fb_persistence_degraded f)
    (fb_stats f) (fb_recovery f) (fb_open f).
Definition set_capabilities (f : Fabric) (v : CapabilityRegistry.t) : Fabric :=
  mkFabric (fb_config f) (fb_epoch f) (fb_catalog f) (fb_policies f) v (fb_links f) (fb_evidence f)
    (fb_journal f) (fb_next_ordinal f) (fb_records_since_compaction f) (fb_persistence_degraded f)
    (fb_stats f) (fb_recovery f) (fb_open f).
Definition set_links (f : Fabric) (v : LinkRegistry.t) : Fabric :=
  mkFabric (fb_config f) (fb_epoch f) (fb_catalog f) (fb_policies f) (fb_capabilities f) v (fb_evidence f)
    (fb_journal f) (fb_next_ordinal f) (fb_records_since_compaction f) (fb_persistence_degraded f)
    (fb_stats f) (fb_recovery f) (fb_open f).
Definition set_evidence (f : Fabric) (v : EvidenceStore.t) : Fabric :=
  mkFabric (fb_config f) (fb_epoch f) (fb_catalog f) (fb_policies f) (fb_capabilities f) (fb_links f) v
    (fb_journal f) (fb_next_ordinal f) (fb_records_since_compaction f) (fb_persistence_degraded f)
    (fb_stats f) (fb_recovery f) (fb_open f).
Definition set_journal (f : Fabric) (v : option BackgroundJournal.t) : Fabric :=
  mkFabric (fb_config f) (fb_epoch f) (fb_catalog f) (fb_policies f) (fb_capabilities f) (fb_links f)
    (fb_evidence f) v (fb_next_ordinal f) (fb_records_since_compaction f) (fb_persistence_degraded f)
    (fb_stats f) (fb_recovery f) (fb_open f).
Definition set_ordinal (f : Fabric) (v : Z) : Fabric :=
  mkFabric (fb_config f) (fb_epoch f) (fb_catalog f) (fb_policies f) (fb_capabilities f) (fb_links f)
    (fb_evidence f) (fb_journal f) v (fb_records_since_compaction f) (fb_persistence_degraded f)
    (fb_stats f) (fb_recovery f) (fb_open f).
Definition set_since_compaction (f : Fabric) (v : Z) : Fabric :=
  mkFabric (fb_config f) (fb_epoch f) (fb_catalog f) (fb_policies f) (fb_capabilities f) (fb_links f)
    (fb_evidence f) (fb_journal f) (fb_next_ordinal f) v (fb_persistence_degraded f)
    (fb_stats f) (fb_recovery f) (fb_open f).
Definition set_degraded (f : Fabric) : Fabric :=
  mkFabric (fb_config f) (fb_epoch f) (fb_catalog f) (fb_policies f) (fb_capabilities f) (fb_links f)
    (fb_evidence f) (fb_journal f) (fb_next_ordinal f) (fb_records_since_compaction f) true
    (fb_stats f) (fb_recovery f) (fb_open f).
Definition set_recovery (f : Fabric) (v : RecoveryReport) : Fabric :=
  mkFabric (fb_config f) (fb_epoch f) (fb_catalog f) (fb_policies f) (fb_capabilities f) (fb_links f)
    (fb_evidence f) (fb_journal f) (fb_next_ordinal f) (fb_records_since_compaction f)
    (fb_persistence_degraded f) (fb_stats f) v (fb_open f).
Definition set_open (f : Fabric) (v : bool) : Fabric :=
  mkFabric (fb_config f) (fb_epoch f) (fb_catalog f) (fb_policies f) (fb_capabilities f) (fb_links f)
    (fb_evidence f) (fb_journal f) (fb_next_ordinal f) (fb_records_since_compaction f)
    (fb_persistence_degraded f) (fb_stats f) (fb_recovery f) v.
(** [stats_.field += by]. *)
Definition count (field : Stat.t) (by_ : Z) (f : Fabric) : Fabric :=
  mkFabric (fb_config f) (fb_epoch f) (fb_catalog f) (fb_policies f) (fb_capabilities f) (fb_links f)
    (fb_evidence f) (fb_journal f) (fb_next_ordinal f) (fb_records_since_compaction f)
    (fb_persistence_degraded f) (stat_add field by_ (fb_stats f)) (fb_recovery f) (fb_open f).

Definition limits_of (f : Fabric) : FabricLimits := fc_limits (fb_config f).
Definition codec_limits_of (f : Fabric) : CodecLimits := codec_limits_for (limits_of f).
Definition observation_limits_of (f : Fabric) : ObservationLimits :=
  mkObservationLimits (max_string_bytes (limits_of f)) (max_string_bytes (limits_of f)) 4096.

(** [policies_.current()]; the registry is never empty. *)
Definition current_policy (f : Fabric) : PolicyGenerationRecord :=
  match PolicyRegistry.current (fb_policies f) with
  | Some r => r
  | None => mkPolicyGenerationRecord (mkPolicyStamp "" 0 "") (mkTimestamp 0 false) (fc_initial_policy (fb_config f))
  end.

(** [journal_ != nullptr && journal_->enabled()]. *)
Definition journal_active (f : Fabric) : bool :=
  match fb_journal f with
  | Some j => jc_enabled (BackgroundJournal.config j)
  | None => false
  end.
Definition journal_full (f : Fabric) : bool :=
  match fb_journal f with
  | Some j => jc_enabled (BackgroundJournal.config j) && negb (BackgroundJournal.has_capacity j)
  | None => false
  end.

Definition stamp_at (f : Fabric) (now : ClockReading) : ReceiveStamp :=
  mkReceiveStamp (cr_wall_nanos now) (cr_steady_nanos now) (fb_epoch f).

(** The refusal every mutating entry point starts with when the queue is full. *)
Definition refuse_full (f : Fabric) : Fabric := set_degraded (count Stat.journal_rejections 1 f).

Definition journal_append (kind : JournalRecordKind.t) (body : list Z) (f : Fabric) : Status * Fabric :=
  match fb_journal f with
  | None => (StatusCode.Ok, f)
  | Some j =>
      if negb (jc_enabled (BackgroundJournal.config j)) then (StatusCode.Ok, f)
      else if negb (BackgroundJournal.has_capacity j) then (StatusCode.Busy, refuse_full f)
      else match BackgroundJournal.append kind (fb_next_ordinal f) body j with
           | (StatusCode.Ok, j') =>
               let f := set_ordinal (set_journal f (Some j')) (counter_next (fb_next_ordinal f)) in
               let f := count Stat.journal_records 1 f in
               (StatusCode.Ok, set_since_compaction f (incr64 (fb_records_since_compaction f)))
           | (e, j') => (e, refuse_full (set_journal f (Some j')))
           end
  end.

(** [for (evicted : links_.take_evicted()) evidence_.drop_link(evicted)]. *)
Definition drop_evicted (f : Fabric) : Fabric :=
  let '(gone, links) := LinkRegistry.take_evicted (fb_links f) in
  set_evidence (set_links f links)
    (fold_left (fun e link => (EvidenceStore.drop_link e link).2) gone (fb_evidence f)).

Definition evicted_count (f : Fabric) : Z := zlen (LinkRegistry.take_evicted (fb_links f)).1.

(** ** Ingestion *)

Definition is_refused (s : Status) : bool := bool_decide (s = StatusCode.Refused).

(** The capability guard of [ingest]. *)
Definition check_capability (f : Fabric) (o : Observation) : Status :=
  match CapabilityRegistry.capability_of (fb_capabilities f) (ob_link o) (ob_metric o) (ob_source o) with
  | None => StatusCode.Rejected
  | Some capability =>
      refuse StatusCode.Invalid when negb (eqb (mcap_unit capability) (ob_unit o)) ;;
      refuse StatusCode.Invalid when negb (eqb (mcap_semantics capability) (ob_semantics o)) ;;
      refuse StatusCode.Rejected
        when negb (ld_aggregate (ob_lane o)) && negb (mcap_lanes_declared capability) ;;
      refuse StatusCode.Invalid
        when negb (ld_aggregate (ob_lane o)) && (mcap_lane_count capability <=? ld_lane (ob_lane o)) ;;
      match ob_reading o with
      | ReadGauge _ => StatusCode.Ok
      | ReadCounter counter =>
          refuse StatusCode.Invalid
            when eqb (ctr_width counter) CounterWidth.Unspecified
                 && eqb (mcap_counter_width capability) CounterWidth.Unspecified ;;
          refuse StatusCode.Invalid
            when negb (eqb (ctr_width counter) CounterWidth.Unspecified)
                 && negb (eqb (mcap_counter_width capability) CounterWidth.Unspecified)
                 && negb (eqb (ctr_width counter) (mcap_counter_width capability)) ;;
          StatusCode.Ok
      end
  end.

(** Everything [ingest] checks before it touches the state, in its order. *)
Definition ingest_guard (f : Fabric) (now : ClockReading) (o : Observation) : Status :=
  match catalog_find (fb_catalog f) (ob_metric o) with
  | None => StatusCode.Unsupported
  | Some d =>
      validate_observation o (Some d) (observation_limits_of f) ;;?
      (if pd_require_capability (pgr_document (current_policy f)) then check_capability f o else StatusCode.Ok) ;;?
      (refuse StatusCode.Stale
         when ts_synchronized (ob_observed_at o) && (0 <? max_observation_age_nanos (limits_of f))
              && (max_observation_age_nanos (limits_of f)
                  <? to_i64 (cr_wall_nanos now - ts_unix_nanos (ob_observed_at o))) ;;
       StatusCode.Ok)
  end.

Definition reject (status : Status) (f : Fabric) : Outcome IngestOutcome * Fabric :=
  (Bad status, count Stat.observations_rejected 1 f).

(** The counters of an accepted or duplicate record. *)
Definition count_outcome (outcome : IngestOutcome) (f : Fabric) : Fabric :=
  if io_duplicate outcome then count Stat.observations_duplicate 1 f
  else if io_accepted outcome then
    let f := count Stat.observations_accepted 1 f in
    let f := if io_reordered outcome then count Stat.observations_reordered 1 f else f in
    let f := if io_continuity_broken outcome then count Stat.continuity_breaks 1 f else f in
    let f := match io_counter_event outcome with
             | CounterEvent.Wrap => count Stat.wraps_inferred 1 f
             | CounterEvent.Reset => count Stat.resets_observed 1 f
             | CounterEvent.DecreaseUnproven => count Stat.unproven_decreases 1 f
             | _ => f
             end in
    count Stat.stream_evictions (io_evicted outcome) f
  else f.

Definition with_reason (outcome : IngestOutcome) (reason : ReasonCode.t) : IngestOutcome :=
  mkIngestOutcome (io_accepted outcome) (io_duplicate outcome) (io_reordered outcome) reason
    (io_counter_event outcome) (io_continuity_broken outcome) (io_rate_admissible outcome)
    (io_stream_depth outcome) (io_evicted outcome).

(** ** Snapshots and compaction *)

Section Snapshot.
Context `{Charconv}.

(** Encode each item of a loop, stopping at the first refusal. *)
Fixpoint encode_all {A} (c : codec A) (L : CodecLimits) (kind : JournalRecordKind.t) (l : list A)
  : Outcome (list (JournalRecordKind.t * list Z)) :=
  match l with
  | [] => Good []
  | a :: rest =>
      match encode c L a with
      | Bad s => Bad s
      | Good body =>
          match encode_all c L kind rest with
          | Bad s => Bad s
          | Good bodies => Good ((kind, body) :: bodies)
          end
      end
  end.

Definition outcome_app {A} (x y : Outcome (list A)) : Outcome (list A) :=
  match x with
  | Bad s => Bad s
  | Good l => match y with Bad s => Bad s | Good m => Good (l ++ m) end
  end.

(** The records [push]ed, numbered from 1. *)
Fixpoint number_records (sequence : Z) (l : list (JournalRecordKind.t * list Z)) : list JournalRecord :=
  match l with
  | [] => []
  | (kind, body) :: rest => mkJournalRecord kind sequence body :: number_records (incr64 sequence) rest
  end.

Definition retained_policies (p : PolicyRegistry.t) : list PolicyGenerationRecord :=
  flat_map (fun stamp => match PolicyRegistry.get p (ps_generation stamp) with Some r => [r] | None => [] end)
    (PolicyRegistry.history p).

Definition snapshot_bodies (f : Fabric) : Outcome (list (JournalRecordKind.t * list Z)) :=
  let L := codec_limits_of f in
  outcome_app (encode_all c_policy_generation L JournalRecordKind.Policy (retained_policies (fb_policies f)))
  (outcome_app (encode_all c_capability_declaration L JournalRecordKind.Capability
     (om_values (CapabilityRegistry.declarations (fb_capabilities f))))
  (outcome_app (encode_all c_link_observed L JournalRecordKind.LinkObserved
     (map (fun s => mkLinkObservedBody (ls_identity s) (ls_first_seen s) (ls_first_received s))
        (LinkRegistry.snapshot (fb_links f))))
  (outcome_app (encode_all c_evidence_record L JournalRecordKind.Evidence
     (EvidenceStore.retained_records (fb_evidence f)))
  (encode_all c_dedup_body L JournalRecordKind.DedupWindow
     (map (fun k => mkDedupBody k (EvidenceStore.dedup_window (fb_evidence f) k))
        (EvidenceStore.stream_keys (fb_evidence f))))))).

(** [build_snapshot]: the bundle and the ordinal it stands for. *)
Definition build_snapshot (f : Fabric) : Outcome (list Z * Z) :=
  match snapshot_bodies f with
  | Bad s => Bad s
  | Good bodies =>
      match encode_record_bundle (number_records 1 bodies) (jc_max_record_bytes (fc_journal (fb_config f))) with
      | Bad s => Bad s
      | Good body =>
          Good (body, if counter_is_zero (fb_next_ordinal f) then 0 else counter_prev (fb_next_ordinal f))
      end
  end.
End Snapshot.

(** The writer thread while somebody waits for it: it writes the record in
    flight and the whole queue. *)
Fixpoint drain_queue (n : nat) (j : BackgroundJournal.t) : BackgroundJournal.t :=
  match n with
  | O => j
  | S n' =>
      match BackgroundJournal.writer_pop j with
      | None => j
      | Some j1 =>
          match BackgroundJournal.writer_write None j1 with
          | None => j1
          | Some j2 => drain_queue n' j2
          end
      end
  end.

Definition drain (j : BackgroundJournal.t) : BackgroundJournal.t :=
  let j1 := match BackgroundJournal.writer_write None j with Some j1 => j1 | None => j end in
  drain_queue (List.length (BackgroundJournal.queue j1)) j1.

Section Runtime.
Context `{Charconv} `{LongDouble}.
(** What the file system does to the compactions this entry point starts. *)
Context (faults : CompactFaults).

Definition compact_with (f : Fabric) : Status * Fabric :=
  match fb_journal f with
  | None => (StatusCode.Refused, f)
  | Some j =>
      if negb (jc_enabled (BackgroundJournal.config j)) then (StatusCode.Refused, f)
      else match build_snapshot f with
           | Bad s => (s, f)
           | Good (body, ordinal) =>
               match BackgroundJournal.compact faults ordinal body (drain j) with
               | Some (StatusCode.Ok, j') =>
                   (StatusCode.Ok,
                    set_since_compaction (count Stat.compactions 1 (set_journal f (Some j'))) 0)
               | Some (e, j') => (e, set_journal f (Some j'))
               | None => (StatusCode.Internal, f)  (* a drained journal is idle *)
               end
           end
  end.

Definition compact (f : Fabric) : Status * Fabric := compact_with f.

Definition maybe_compact (f : Fabric) : Fabric :=
  if negb (journal_active f) then f
  else
    let after := jc_compact_after_records (fc_journal (fb_config f)) in
    if (after =? 0) || (fb_records_since_compaction f <? after) then f
    else (compact_with f).2.

(** The part of [ingest] that registers the link and journals a new one. *)
Definition ingest_link (f : Fabric) (received : ReceiveStamp) (o : Observation) : Status * Fabric :=
  let new_link := negb (LinkRegistry.contains (fb_links f) (ob_link o)) in
  match LinkRegistry.observe (fb_links f) (ob_link o) (ob_observed_at o) received with
  | (StatusCode.Ok, links) =>
      let f := set_links f links in
      let f := count Stat.history_evictions (evicted_count f) f in
      let f := count Stat.links_observed 1 (drop_evicted f) in
      if new_link then
        match encode c_link_observed (codec_limits_of f) (mkLinkObservedBody (ob_link o) (ob_observed_at o) received) with
        | Bad s => (s, f)
        | Good body =>
            let '(s, f) := journal_append JournalRecordKind.LinkObserved body f in
            (if is_refused s then StatusCode.Ok else s, f)
        end
      else (StatusCode.Ok, f)
  | (e, links) => (e, set_links f links)
  end.

(** The evidence record: stored, then journaled. *)
Definition ingest_evidence (f : Fabric) (received : ReceiveStamp) (o : Observation) (fenced : bool)
    (config : CounterContinuityConfig) : Outcome IngestOutcome * Fabric :=
  let ordinal := fb_next_ordinal f in
  match EvidenceStore.append (fb_evidence f) o received ordinal EvidenceOrigin.Live config with
  | (Bad s, evidence) => reject s (set_evidence f evidence)
  | (Good outcome, evidence) =>
      let f := set_evidence f evidence in
      match encode c_evidence_record (codec_limits_of f)
              (mkEvidenceRecord o received ordinal EvidenceOrigin.Live) with
      | Bad s => reject s f
      | Good body =>
          let '(journaled, f) := journal_append JournalRecordKind.Evidence body f in
          let f := if journal_active f then f else set_ordinal f (counter_next (fb_next_ordinal f)) in
          if negb (ok journaled) && negb (is_refused journaled) then
            (Good (with_reason outcome ReasonCode.PersistenceDegraded),
             count Stat.observations_accepted 1 f)
          else
            let f := count_outcome outcome f in
            let outcome := if fenced then with_reason outcome ReasonCode.FencedGeneration else outcome in
            (Good outcome, maybe_compact f)
      end
  end.

Definition ingest (now : ClockReading) (o : Observation) (f : Fabric) : Outcome IngestOutcome * Fabric :=
  if negb (fb_open f) then (Bad StatusCode.Unavailable, f)
  else match ingest_guard f now o with
       | StatusCode.Ok =>
           let fenced :=
             match LinkRegistry.current_generation (fb_links f) (li_id (ob_link o)) with
             | Some current => li_generation (ob_link o) <? current
             | None => false
             end in
           let config := counter_config_for (pgr_document (current_policy f)) (ob_metric o) in
           if journal_full f then
             (Bad StatusCode.Busy, count Stat.journal_rejections 1 (count Stat.observations_rejected 1 f))
           else match ingest_link f (stamp_at f now) o with
                | (StatusCode.Ok, f1) => ingest_evidence f1 (stamp_at f now) o fenced config
                | (e, f1) => reject e f1
                end
       | e => reject e f
       end.

Record BatchOutcome := mkBatchOutcome {
  bo_accepted : Z; bo_duplicates : Z; bo_reordered : Z; bo_rejected : Z; bo_first_code : Status }.

Definition tally (b : BatchOutcome) (outcome : Outcome IngestOutcome) : BatchOutcome :=
  match outcome with
  | Bad s =>
      mkBatchOutcome (bo_accepted b) (bo_duplicates b) (bo_reordered b) (incr64 (bo_rejected b))
        (if ok (bo_first_code b) then s else bo_first_code b)
  | Good o =>
      if io_duplicate o then
        mkBatchOutcome (bo_accepted b) (incr64 (bo_duplicates b)) (bo_reordered b) (bo_rejected b) (bo_first_code b)
      else if io_reordered o then
        mkBatchOutcome (incr64 (bo_accepted b)) (bo_duplicates b) (incr64 (bo_reordered b)) (bo_rejected b)
          (bo_first_code b)
      else
        mkBatchOutcome (incr64 (bo_accepted b)) (bo_duplicates b) (bo_reordered b) (bo_rejected b) (bo_first_code b)
  end.

(** Each observation takes its own clock reading. *)
Definition ingest_batch (observations : list (ClockReading * Observation)) (f : Fabric)
  : Outcome BatchOutcome * Fabric :=
  if max_evidence_batch (limits_of f) <? zlen observations then (Bad StatusCode.LimitExceeded, f)
  else
    let '(b, f) := fold_left (fun (acc : BatchOutcome * Fabric) p =>
        let '(outcome, f') := ingest p.1 p.2 acc.2 in (tally acc.1 outcome, f'))
      observations (mkBatchOutcome 0 0 0 0 StatusCode.Ok, f) in
    (Good b, count Stat.ingest_batches 1 f).

(** ** The other entry points that change the state *)

(** [Good duplicate]: the acknowledgement, with its duplicate flag. *)
Definition declare_capability (declaration : CapabilityDeclaration) (f : Fabric) : Outcome bool * Fabric :=
  if negb (fb_open f) then (Bad StatusCode.Unavailable, f)
  else match validate_capability declaration (fb_catalog f) (observation_limits_of f)
               (max_metrics_per_capability (limits_of f)) with
       | StatusCode.Ok =>
           if journal_full f then (Bad StatusCode.Busy, refuse_full f)
           else match CapabilityRegistry.declare (fb_capabilities f) declaration (fb_catalog f) with
                | (StatusCode.Duplicate, _) => (Good true, count Stat.capability_declarations 1 f)
                | (StatusCode.Ok, capabilities) =>
                    let f := set_capabilities f capabilities in
                    match encode c_capability_declaration (codec_limits_of f) declaration with
                    | Bad s => (Bad s, f)
                    | Good body =>
                        let '(_, f) := journal_append JournalRecordKind.Capability body f in
                        (Good false, count Stat.capability_declarations 1 f)
                    end
                | (e, _) => (Bad e, count Stat.capability_rejections 1 f)
                end
       | e => (Bad e, f)
       end.

Definition register_link (now : ClockReading) (link : LinkIdentity) (observed_at : Timestamp) (f : Fabric)
  : Status * Fabric :=
  if negb (fb_open f) then (StatusCode.Unavailable, f)
  else match validate_link_identity link with
       | StatusCode.Ok =>
           if LinkRegistry.contains (fb_links f) link then (StatusCode.Ok, f)
           else if journal_full f then (StatusCode.Busy, refuse_full f)
           else match encode c_link_observed (codec_limits_of f)
                        (mkLinkObservedBody link observed_at (stamp_at f now)) with
                | Bad s => (s, f)
                | Good body =>
                    match LinkRegistry.observe (fb_links f) link observed_at (stamp_at f now) with
                    | (StatusCode.Ok, links) =>
                        let f := count Stat.links_registered 1 (drop_evicted (set_links f links)) in
                        journal_append JournalRecordKind.LinkObserved body f
                    | (e, links) => (e, set_links f links)
                    end
                end
       | e => (e, f)
       end.

Definition advance_link_generation (now : ClockReading) (link : string) (generation : Z)
    (reason : ReasonCode.t) (f : Fabric) : Status * Fabric :=
  if negb (fb_open f) then (StatusCode.Unavailable, f)
  else if journal_full f then (StatusCode.Busy, refuse_full f)
  else
    let at_ := mkTimestamp (cr_wall_nanos now) true in
    match encode c_generation_body (codec_limits_of f)
            (mkGenerationBody link generation at_ (stamp_at f now) reason) with
    | Bad s => (s, f)
    | Good body =>
        match LinkRegistry.advance_generation (fb_links f) link generation at_ (stamp_at f now) with
        | (StatusCode.Ok, links) =>
            let f := count Stat.generations_advanced 1 (drop_evicted (set_links f links)) in
            journal_append JournalRecordKind.LinkGenerationAdvanced body f
        | (e, links) => (e, set_links f links)
        end
    end.

Definition publish_policy (now : ClockReading) (document : PolicyDocument) (f : Fabric)
  : Outcome PolicyStamp * Fabric :=
  if negb (fb_open f) then (Bad StatusCode.Unavailable, f)
  else if journal_full f then (Bad StatusCode.Busy, refuse_full f)
  else match PolicyRegistry.publish (fb_policies f) document (mkTimestamp (cr_wall_nanos now) true)
               (fb_catalog f) (max_policy_rules (limits_of f)) (max_bands_per_rule (limits_of f)) with
       | (Bad s, policies) => (Bad s, count Stat.policy_rejections 1 (set_policies f policies))
       | (Good record, policies) =>
           let f := set_policies f policies in
           match encode c_policy_generation (codec_limits_of f) record with
           | Bad s => (Bad s, f)
           | Good body =>
               let '(_, f) := journal_append JournalRecordKind.Policy body f in
               (Good (pgr_stamp record), count Stat.policy_publications 1 f)
           end
       end.
End Runtime.

(** ** Queries *)

Section Queries.
Context `{Charconv} `{LongDouble}.

Definition context_at (f : Fabric) (now : ClockReading) : ClassifierContext :=
  mkClassifierContext (fb_links f) (fb_evidence f) (fb_capabilities f) (current_policy f) (limits_of f) now
    (fb_epoch f).

Definition capabilities (link : LinkIdentity) (f : Fabric) : Outcome (list MetricCapabilityView) :=
  match validate_link_identity link with
  | StatusCode.Ok => Good (CapabilityRegistry.view_for_link (fb_capabilities f) link)
  | e => Bad e
  end.

Definition query (now : ClockReading) (request : QualityQuery) (f : Fabric)
  : Outcome LinkQualityReport * Fabric :=
  match validate_link_identity (qq_link request) with
  | StatusCode.Ok =>
      (Good (classify_link (context_at f now) request), count Stat.queries_served 1 f)
  | e => (Bad e, f)
  end.

Definition inspect (now : ClockReading) (filter : InspectionFilter) (f : Fabric)
  : Outcome InspectionReport * Fabric :=
  (Good (inspect_fabric (context_at f now) filter), count Stat.inspections 1 f).

(** The instant an as-of assessment is made at. *)
Definition as_of (request : WindowQuery) (now : ClockReading) : ClockReading :=
  if 0 <? wq_as_of_steady_nanos request
  then mkClockReading (cr_wall_nanos now - (cr_steady_nanos now - wq_as_of_steady_nanos request))
         (wq_as_of_steady_nanos request)
  else now.

Definition window (now : ClockReading) (request : WindowQuery) (f : Fabric) : Outcome WindowResult * Fabric :=
  if (wq_limit request =? 0) || (max_window_records (limits_of f) <? wq_limit request)
  then (Bad StatusCode.LimitExceeded, f)
  else if wq_to_nanos request <=? wq_from_nanos request then (Bad StatusCode.Invalid, f)
  else match match wq_link request with Some l => validate_link_identity l | None => StatusCode.Ok end with
       | StatusCode.Ok =>
           if wq_assess_as_of request && (cr_steady_nanos now <? wq_as_of_steady_nanos request)
           then (Bad StatusCode.Invalid, f)
           else
             let scan := EvidenceStore.window (fb_evidence f) request in
             let report :=
               match wq_link request with
               | Some link =>
                   if wq_assess_as_of request
                   then Some (classify_link (context_at f (as_of request now))
                                (mkQualityQuery link (wq_lane request)
                                   (match wq_metric request with Some m => [m] | None => [] end) true
                                   (wq_max_metrics request) (wq_max_evidence_per_metric request)))
                   else None
               | None => None
               end in
             (Good (mkWindowResult (if wq_include_evidence request then ws_records scan else [])
                      (ws_matched scan) (zlen (ws_records scan)) (ws_truncated scan) (ws_earliest scan)
                      (ws_latest scan) (ws_has_range scan) report),
              count Stat.window_queries 1 f)
       | e => (Bad e, f)
       end.

Definition policy_history (f : Fabric) : list PolicyStamp := PolicyRegistry.history (fb_policies f).

Definition policy_document (generation : Z) (f : Fabric) : Outcome PolicyGenerationRecord :=
  match PolicyRegistry.get (fb_policies f) generation with
  | Some record => Good record
  | None => Bad StatusCode.NotFound
  end.
End Queries.

(** ** Recovery *)

Section Recover.
Context `{Charconv} `{LongDouble}.

(** [apply_record] for every kind but the snapshot. *)
Definition apply_plain (record : JournalRecord) (f : Fabric) : Status * Fabric :=
  let L := codec_limits_of f in
  match jrec_kind record with
  | JournalRecordKind.Capability =>
      match decode_body c_capability_declaration L (jrec_body record) with
      | Bad s => (s, f)
      | Good declaration =>
          let '(s, capabilities) := CapabilityRegistry.declare (fb_capabilities f) declaration (fb_catalog f) in
          (s, set_capabilities f capabilities)
      end
  | JournalRecordKind.Policy =>
      match decode_body c_policy_generation L (jrec_body record) with
      | Bad s => (s, f)
      | Good policy =>
          let '(s, policies) := PolicyRegistry.restore (fb_policies f) policy (fb_catalog f)
            (max_policy_rules (limits_of f)) (max_bands_per_rule (limits_of f)) in
          (match s with StatusCode.Duplicate => StatusCode.Ok | _ => s end, set_policies f policies)
      end
  | JournalRecordKind.LinkObserved =>
      match decode_body c_link_observed L (jrec_body record) with
      | Bad s => (s, f)
      | Good body =>
          let '(s, links) := LinkRegistry.observe (fb_links f) (lob_link body) (lob_observed_at body)
            (lob_received body) in
          (s, set_links f links)
      end
  | JournalRecordKind.LinkGenerationAdvanced =>
      match decode_body c_generation_body L (jrec_body record) with
      | Bad s => (s, f)
      | Good body =>
          match LinkRegistry.advance_generation (fb_links f) (gb_link body) (gb_generation body)
                  (gb_at body) (gb_received body) with
          | (StatusCode.Ok, links) => (StatusCode.Ok, drop_evicted (set_links f links))
          | (e, links) => (e, set_links f links)
          end
      end
  | JournalRecordKind.Evidence =>
      match decode_body c_evidence_record L (jrec_body record) with
      | Bad s => (s, f)
      | Good stored =>
          let o := er_observation stored in
          match validate_observation o (catalog_find (fb_catalog f) (ob_metric o)) (observation_limits_of f) with
          | StatusCode.Ok =>
              let config := counter_config_for (pgr_document (current_policy f)) (ob_metric o) in
              match EvidenceStore.append (fb_evidence f) o (er_received stored) (er_ordinal stored)
                      EvidenceOrigin.Recovered config with
              | (Bad s, evidence) => (s, set_evidence f evidence)
              | (Good _, evidence) =>
                  let f := set_evidence f evidence in
                  match LinkRegistry.observe (fb_links f) (ob_link o) (ob_observed_at o) (er_received stored) with
                  | (StatusCode.Ok, links) =>
                      let f := drop_evicted (set_links f links) in
                      (StatusCode.Ok, count Stat.recovered_records 1 (count Stat.observations_recovered 1 f))
                  | (e, links) => (e, set_links f links)
                  end
              end
          | e => (e, f)
          end
      end
  | JournalRecordKind.DedupWindow =>
      match decode_body c_dedup_body L (jrec_body record) with
      | Bad s => (s, f)
      | Good body =>
          let '(s, evidence) := EvidenceStore.seed_dedup_window (fb_evidence f) (db_key body) (db_entries body) in
          (s, set_evidence f evidence)
      end
  | JournalRecordKind.Snapshot => (StatusCode.Corrupt, f)
  end.

(** The nested records, up to the first that is refused. *)
Fixpoint apply_nested (records : list JournalRecord) (f : Fabric) : Status * Fabric :=
  match records with
  | [] => (StatusCode.Ok, f)
  | r :: rest =>
      match apply_plain r f with
      | (StatusCode.Ok, f1) => apply_nested rest f1
      | (e, f1) => (e, f1)
      end
  end.

(** [apply_record] at depth 0; at depth 1 a snapshot is refused. *)
Definition apply_record (record : JournalRecord) (f : Fabric) : Status * Fabric :=
  match jrec_kind record with
  | JournalRecordKind.Snapshot =>
      match decode_record_bundle (jrec_body record) (jc_max_recovery_records (fc_journal (fb_config f)))
              (jc_max_record_bytes (fc_journal (fb_config f))) with
      | Bad s => (s, f)
      | Good nested => apply_nested nested f
      end
  | _ => apply_plain record f
  end.

(** The replay loop.  A record that cannot be applied sets [degraded] on the
    fabric's own report and the loop goes on. *)
Fixpoint replay (fuel : nat) (reader : JournalReader.t) (f : Fabric) : JournalReader.t * Fabric :=
  match fuel with
  | O => (reader, f)
  | S n =>
      match JournalReader.next reader with
      | (Good (Some record), reader') =>
          let '(applied, f') := apply_record record f in
          let p := fb_recovery f' in
          replay n reader'
            (if ok applied then f'
             else set_recovery f'
               (mkRecoveryReport (rr_opened p) (rr_header_valid p) (rr_torn_tail p) true (rr_truncated_file p)
                  (rr_temp_discarded p) (rr_snapshot_loaded p) (rr_limit_reached p) (rr_records_read p)
                  (rr_bytes_read p) (rr_bytes_discarded p) (rr_first_bad_offset p) (rr_status p)))
      | (_, reader') => (reader', f)
      end
  end.

Definition with_status (p : RecoveryReport) (s : Status) : RecoveryReport :=
  mkRecoveryReport (rr_opened p) (rr_header_valid p) (rr_torn_tail p) (rr_degraded p) (rr_truncated_file p)
    (rr_temp_discarded p) (rr_snapshot_loaded p) (rr_limit_reached p) (rr_records_read p)
    (rr_bytes_read p) (rr_bytes_discarded p) (rr_first_bad_offset p) s.

(** The constructor. *)
Definition construct (config : FabricConfig) (epoch : Z) (now : ClockReading) : Fabric :=
  mkFabric config epoch (catalog_create 256)
    (PolicyRegistry.create (fc_initial_policy config) (mkTimestamp (cr_wall_nanos now) true)
       (fc_max_policy_generations config))
    (CapabilityRegistry.create (fc_limits config)) (LinkRegistry.create (fc_limits config))
    (EvidenceStore.create (fc_limits config)) None 0 0 false [] empty_report true.

(** The part of [initialize] that reads the journal: the status, the fabric,
    the disk it leaves, and whether the journal was fresh.  The operating
    system succeeds. *)
Definition recover (disk : Disk) (f : Fabric) : Status * Fabric * Disk * bool :=
  let config := fc_journal (fb_config f) in
  match JournalReader.open no_faults config disk with
  | (Bad s, reader, disk') =>
      (s, set_recovery f (with_status (JournalReader.report reader) s), disk', false)
  | (Good _, reader, disk') =>
      let fuel := S (List.length (match JournalReader.content reader with Some c => c | None => [] end)) in
      let '(reader, f) := replay fuel reader f in
      let report := JournalReader.report reader in
      let fresh := rr_records_read report =? 0 in
      let f := set_ordinal (set_recovery f report) (JournalReader.next_ordinal reader) in
      if rr_degraded report
      then (StatusCode.Corrupt, set_recovery f (with_status report StatusCode.Corrupt), disk', fresh)
      else if rr_torn_tail report then
        match JournalReader.repair_torn_tail true true reader with
        | (StatusCode.Ok, repaired) =>
            (StatusCode.Ok, set_recovery f (with_status (JournalReader.report repaired) StatusCode.Ok),
             mkDisk (JournalReader.content repaired) (disk_temp disk'), fresh)
        | (e, repaired) => (e, set_recovery f (with_status report e), disk', fresh)
        end
      else (StatusCode.Ok, set_recovery f (with_status report StatusCode.Ok), disk', fresh)
  end.

(** [initialize], on the disk the process finds. *)
Definition initialize (now : ClockReading) (disk : Disk) (f : Fabric) : Status * Fabric :=
  let config := fb_config f in
  match limits_validate (fc_limits config) ;;? journal_config_validate (fc_journal config) with
  | StatusCode.Ok =>
      let f := mkFabric (fb_config f) (fb_epoch f) (with_builtin_descriptors 256) (fb_policies f)
        (fb_capabilities f) (fb_links f) (fb_evidence f) (fb_journal f) (fb_next_ordinal f)
        (fb_records_since_compaction f) (fb_persistence_degraded f) (fb_stats f) (fb_recovery f) (fb_open f) in
      let initial := current_policy f in
      match validate_policy (pgr_document initial) (fb_catalog f) (max_policy_rules (limits_of f))
              (max_bands_per_rule (limits_of f)) with
      | StatusCode.Ok =>
          if negb (jc_enabled (fc_journal config)) then
            (StatusCode.Ok, set_open (set_recovery f (with_status (fb_recovery f) StatusCode.Ok)) true)
          else match recover disk f with
               | (StatusCode.Ok, f, disk', fresh) =>
                   match BackgroundJournal.open no_faults (fb_epoch f) (cr_wall_nanos now)
                           (BackgroundJournal.create (fc_journal config) disk') with
                   | (StatusCode.Ok, j) =>
                       let f := count Stat.recoveries 1 (set_journal f (Some j)) in
                       let '(s, f) :=
                         if fresh then
                           match encode c_policy_generation (codec_limits_of f) initial with
                           | Bad s => (s, f)
                           | Good body => journal_append JournalRecordKind.Policy body f
                           end
                         else (StatusCode.Ok, f) in
                       match s with
                       | StatusCode.Ok =>
                           if jc_compact_on_open (fc_journal config) then
                             let '(s, f) := compact_with compact_ok f in
                             if negb (ok s) && negb (is_refused s) then (s, f) else (StatusCode.Ok, set_open f true)
                           else (StatusCode.Ok, set_open f true)
                       | e => (e, f)
                       end
                   | (e, j) => (e, set_journal f (Some j))
                   end
               | (e, f, _, _) => (e, f)
               end
      | e => (e, f)
      end
  | e => (e, f)
  end.

(** [Fabric::open]. *)
Definition open_fabric (config : FabricConfig) (epoch : Z) (now : ClockReading) (disk : Disk)
  : Outcome Fabric :=
  match initialize now disk (construct config epoch now) with
  | (StatusCode.Ok, f) => Good f
  | (e, _) => Bad e
  end.

(** [close]: the journal is drained, synced and closed. *)
Definition close (f : Fabric) : Status * Fabric :=
  match fb_journal f with
  | None => (StatusCode.Ok, set_open f false)
  | Some j =>
      match BackgroundJournal.stop true true (drain j) with
      | Some (s, _) => (s, set_journal (set_open f false) None)
      | None => (StatusCode.Internal, f)  (* a drained journal is idle *)
      end
  end.

Definition flush (sync_ok : bool) (f : Fabric) : Status * Fabric :=
  match fb_journal f with
  | None => (StatusCode.Refused, f)
  | Some j =>
      if negb (jc_enabled (BackgroundJournal.config j)) then (StatusCode.Refused, f)
      else match BackgroundJournal.flush sync_ok (drain j) with
           | Some (s, j') => (s, set_journal f (Some j'))
           | None => (StatusCode.Internal, f)  (* a drained journal is idle *)
           end
  end.
End Recover.
