(* ===== verification/FabricSpec.v ===== *)
(** * The fabric runtime: theorems

    The entry points drive the stores only through the stores' own operations,
    so the invariants of the components hold in every reachable state, whatever
    the disk held when the process started; and a restarted fabric asserts
    nothing until it receives live evidence. *)

From Stdlib Require Import ZArith Lia Bool List String Ascii RelationClasses.
From stdpp Require Import base decidable list strings.
From S2P Require Import Prelude OrdMap Float Core Hash Quality Metric Identity Counter.
From S2P Require Import Capability Config Policy PolicySpec Classification LinkRegistry.
From S2P Require Import EvidenceStore EvidenceStoreSpec Codec FieldCodecs CapabilityRegistry.
From S2P Require Import Classifier ClassifierSpec Journal JournalSpec Fabric.

Open Scope Z_scope.

#[local] Arguments enum_val : simpl never.

(** ** Driving the stores *)

(** An operation on the link registry with the stamps it is given. *)
Definition link_steps (ops : list (Timestamp * ReceiveStamp * LinkOp)) (r : LinkRegistry.t) : LinkRegistry.t :=
  fold_left (fun r x => link_step x.1.1 x.1.2 x.2 r) ops r.

Definition origin_in (P : EvidenceOrigin.t -> Prop) (op : StoreOp) : Prop :=
  match op with OpAppend a => P (ad_origin a) | _ => True end.

Section Driving.
Context `{Charconv} `{LongDouble}.

(** From [f] to [f'] the stores changed by their own operations only, every
    record appended having an origin in [P]. *)
Record driven (P : EvidenceOrigin.t -> Prop) (f f' : Fabric) : Prop := {
  dr_config : fb_config f' = fb_config f;
  dr_epoch : fb_epoch f' = fb_epoch f;
  dr_store : exists ops, Forall (origin_in P) ops /\
    fb_evidence f' = fold_left store_step ops (fb_evidence f);
  dr_links : exists ops, fb_links f' = link_steps ops (fb_links f);
}.

#[export] Instance driven_preorder P : PreOrder (driven P).
Proof.
  split.
  - intros f. constructor; try done; [by exists []|by exists []].
  - intros f g h [A1 A2 (o1 & A3 & A4) (l1 & A5)] [B1 B2 (o2 & B3 & B4) (l2 & B5)].
    constructor; [congruence|congruence| |].
    + exists (o1 ++ o2). rewrite fold_left_app, <- A4, <- B4. split; [by apply Forall_app|done].
    + exists (l1 ++ l2). unfold link_steps in *. by rewrite fold_left_app, <- A5, <- B5.
Qed.

Lemma driven_same P f f' : fb_config f' = fb_config f -> fb_epoch f' = fb_epoch f ->
  fb_evidence f' = fb_evidence f -> fb_links f' = fb_links f -> driven P f f'.
Proof. intros E1 E2 E3 E4. constructor; try done; exists []; simpl; by rewrite ?E3, ?E4. Qed.

Lemma driven_link P f op at_ rcv : driven P f (set_links f (link_step at_ rcv op (fb_links f))).
Proof. constructor; try done; [by exists []|by exists [(at_, rcv, op)]]. Qed.

Lemma driven_store P f op : origin_in P op -> driven P f (set_evidence f (store_step (fb_evidence f) op)).
Proof. intros Ho. constructor; try done; [exists [op]; split; [by constructor|done]|by exists []]. Qed.

Lemma driven_drop_evicted P f : driven P f (drop_evicted f).
Proof.
  unfold drop_evicted. simpl. constructor; try done.
  - exists (map OpDrop (LinkRegistry.evicted (fb_links f))). simpl. split.
    + apply Forall_map, Forall_true. done.
    + generalize (fb_evidence f). induction (LinkRegistry.evicted (fb_links f)) as [|l gone IH]; intros e; [done|].
      apply IH.
  - exists [(mkTimestamp 0 false, mkReceiveStamp 0 0 0, OpTakeEvicted)]. done.
Qed.

Lemma driven_journal_append P kind body f : driven P f (journal_append kind body f).2.
Proof.
  unfold journal_append. destruct (fb_journal f) as [j|]; [|reflexivity].
  destruct (negb _); [reflexivity|]. destruct (negb _); [by apply driven_same|].
  destruct (BackgroundJournal.append _ _ _ _) as [s j']. destruct s; by apply driven_same.
Qed.

Lemma driven_compact P faults f : driven P f (compact_with faults f).2.
Proof.
  unfold compact_with. destruct (fb_journal f) as [j|]; [|reflexivity]. destruct (negb _); [reflexivity|].
  destruct (build_snapshot f) as [[body ordinal]|]; [|reflexivity].
  destruct (BackgroundJournal.compact _ _ _ _) as [[s j']|]; [|reflexivity]. destruct s; by apply driven_same.
Qed.

Lemma driven_maybe_compact P faults f : driven P f (maybe_compact faults f).
Proof.
  unfold maybe_compact. destruct (negb _); [reflexivity|]. destruct (_ || _); [reflexivity|]. apply driven_compact.
Qed.

Lemma driven_count P field by_ f : driven P f (count field by_ f).
Proof. by apply driven_same. Qed.

Lemma driven_count_outcome P outcome f : driven P f (count_outcome outcome f).
Proof. apply driven_same; unfold count_outcome; repeat case_match; done. Qed.
End Driving.

#[export] Hint Resolve driven_count driven_drop_evicted driven_journal_append driven_compact
  driven_maybe_compact driven_count_outcome : lqf.

(** Follow a chain of changes, each of which drives the stores. *)
Ltac drive := etransitivity; [|solve [eauto with lqf | by apply driven_same | apply driven_link]].

Section EntryPoints.
Context `{Charconv} `{LongDouble}.

Definition only_live (o : EvidenceOrigin.t) : Prop := o = EvidenceOrigin.Live.
Definition only_recovered (o : EvidenceOrigin.t) : Prop := o = EvidenceOrigin.Recovered.

Lemma driven_observe P f link at_ rcv s links :
  LinkRegistry.observe (fb_links f) link at_ rcv = (s, links) -> driven P f (set_links f links).
Proof.
  intros E. assert (links = link_step at_ rcv (OpObserve link) (fb_links f)) as -> by (simpl; by rewrite E).
  apply driven_link.
Qed.

Lemma driven_advance P f link g at_ rcv s links :
  LinkRegistry.advance_generation (fb_links f) link g at_ rcv = (s, links) -> driven P f (set_links f links).
Proof.
  intros E. assert (links = link_step at_ rcv (OpAdvance link g) (fb_links f)) as -> by (simpl; by rewrite E).
  apply driven_link.
Qed.

Lemma driven_append (P : EvidenceOrigin.t -> Prop) f o rcv ordinal origin config out evidence : P origin ->
  EvidenceStore.append (fb_evidence f) o rcv ordinal origin config = (out, evidence) ->
  driven P f (set_evidence f evidence).
Proof.
  intros Hp E. assert (evidence = store_step (fb_evidence f) (OpAppend (mkAdmission o rcv ordinal origin config))) as ->
    by (simpl; unfold admit_one; simpl; by rewrite E).
  by apply driven_store.
Qed.

Lemma driven_ingest_link P f rcv o : driven P f (ingest_link f rcv o).2.
Proof.
  unfold ingest_link. destruct (LinkRegistry.observe _ _ _ _) as [s links] eqn:E.
  pose proof (driven_observe P f _ _ _ _ _ E) as Hd. destruct s; try exact Hd. cbv zeta.
  set (f1 := count Stat.links_observed 1 _).
  assert (driven P f f1) as H1.
  { unfold f1. drive. drive. drive. exact Hd. }
  destruct (negb _); [|exact H1].
  destruct (encode _ _ _) as [body|]; [|exact H1].
  pose proof (driven_journal_append P JournalRecordKind.LinkObserved body f1) as H2.
  destruct (journal_append _ _ f1) as [s f2]. by transitivity f1.
Qed.

Lemma driven_ingest_evidence faults f rcv o fenced config :
  driven only_live f (ingest_evidence faults f rcv o fenced config).2.
Proof.
  unfold ingest_evidence, reject. destruct (EvidenceStore.append _ _ _ _ _ _) as [out evidence] eqn:E.
  pose proof (driven_append only_live f _ _ _ _ _ _ _ eq_refl E) as Hd.
  destruct out as [outcome|s]; [|simpl; drive; exact Hd].
  set (f1 := set_evidence f evidence) in *.
  destruct (encode _ _ _) as [body|]; [|simpl; drive; exact Hd].
  pose proof (driven_journal_append only_live JournalRecordKind.Evidence body f1) as H2.
  destruct (journal_append _ _ f1) as [s f2]. simpl in H2.
  set (f3 := if journal_active f2 then f2 else _).
  assert (driven only_live f2 f3) as H3 by (unfold f3; case_match; [reflexivity|by apply driven_same]).
  destruct (negb _ && negb _); simpl.
  - drive. transitivity f2; [|done]. by transitivity f1.
  - drive. drive. transitivity f2; [|done]. by transitivity f1.
Qed.

Lemma driven_ingest faults now o f : driven only_live f (ingest faults now o f).2.
Proof.
  unfold ingest, reject. destruct (negb _); [reflexivity|].
  destruct (ingest_guard f now o); try (simpl; drive; reflexivity).
  destruct (journal_full f); [simpl; drive; drive; reflexivity|].
  pose proof (driven_ingest_link only_live f (stamp_at f now) o) as H1.
  destruct (ingest_link f _ o) as [s f1]. simpl in H1.
  destruct s; try (simpl; drive; exact H1).
  etransitivity; [exact H1|]. apply driven_ingest_evidence.
Qed.

Lemma driven_batch faults l f : driven only_live f (ingest_batch faults l f).2.
Proof.
  unfold ingest_batch. destruct (_ <? _); [reflexivity|].
  assert (forall (acc : BatchOutcome * Fabric), driven only_live acc.2
    (fold_left (fun (acc : BatchOutcome * Fabric) p =>
        let '(outcome, f') := ingest faults p.1 p.2 acc.2 in (tally acc.1 outcome, f')) l acc).2) as Hl.
  { induction l as [|p l IH]; intros [b g]; cbn [fold_left]; [reflexivity|].
    pose proof (driven_ingest faults p.1 p.2 g) as H1. cbn [snd fst].
    destruct (ingest faults p.1 p.2 g) as [out g']. etransitivity; [exact H1|].
    exact (IH (tally b out, g')). }
  specialize (Hl (mkBatchOutcome 0 0 0 0 StatusCode.Ok, f)).
  destruct (fold_left _ _ _) as [b g]. simpl. drive. exact Hl.
Qed.

Lemma driven_declare P d f : driven P f (declare_capability d f).2.
Proof.
  unfold declare_capability. destruct (negb _); [reflexivity|].
  destruct (validate_capability _ _ _ _); try reflexivity.
  destruct (journal_full f); [by apply driven_same|].
  destruct (CapabilityRegistry.declare _ _ _) as [s c].
  destruct s; try (simpl; drive; reflexivity). cbv zeta.
  destruct (encode _ _ _) as [body|]; [|by apply driven_same].
  pose proof (driven_journal_append P JournalRecordKind.Capability body (set_capabilities f c)) as H1.
  destruct (journal_append _ _ _) as [s g]. simpl. drive. etransitivity; [|exact H1]. by apply driven_same.
Qed.

Lemma driven_register P now link at_ f : driven P f (register_link now link at_ f).2.
Proof.
  unfold register_link. destruct (negb _); [reflexivity|]. destruct (validate_link_identity link); try reflexivity.
  destruct (LinkRegistry.contains _ _); [reflexivity|]. destruct (journal_full f); [by apply driven_same|].
  destruct (encode _ _ _) as [body|]; [|reflexivity].
  destruct (LinkRegistry.observe _ _ _ _) as [s links] eqn:E.
  pose proof (driven_observe P f _ _ _ _ _ E) as Hd. destruct s; try exact Hd. cbv zeta.
  drive. drive. drive. exact Hd.
Qed.

Lemma driven_advance_generation P now link g reason f :
  driven P f (advance_link_generation now link g reason f).2.
Proof.
  unfold advance_link_generation. destruct (negb _); [reflexivity|].
  destruct (journal_full f); [by apply driven_same|]. cbv zeta.
  destruct (encode _ _ _) as [body|]; [|reflexivity].
  destruct (LinkRegistry.advance_generation _ _ _ _ _) as [s links] eqn:E.
  pose proof (driven_advance P f _ _ _ _ _ _ E) as Hd. destruct s; try exact Hd.
  drive. drive. drive. exact Hd.
Qed.

Lemma driven_publish P now doc f : driven P f (publish_policy now doc f).2.
Proof.
  unfold publish_policy. destruct (negb _); [reflexivity|].
  destruct (journal_full f); [by apply driven_same|].
  destruct (PolicyRegistry.publish _ _ _ _ _ _) as [out policies].
  destruct out as [record|s]; [|by apply driven_same].
  destruct (encode _ _ _) as [body|]; [|by apply driven_same].
  pose proof (driven_journal_append P JournalRecordKind.Policy body (set_policies f policies)) as H1.
  destruct (journal_append _ _ _) as [s g]. simpl. drive. etransitivity; [|exact H1]. by apply driven_same.
Qed.
End EntryPoints.

(** ** Recovery drives the stores with recovered records only *)

Section RecoverySteps.
Context `{Charconv} `{LongDouble}.

Lemma driven_apply_evidence f stored :
  let o := er_observation stored in
  forall config out evidence,
  EvidenceStore.append (fb_evidence f) o (er_received stored) (er_ordinal stored) EvidenceOrigin.Recovered config
  = (out, evidence) -> driven only_recovered f (set_evidence f evidence).
Proof. intros o config out evidence E. by eapply driven_append. Qed.

Lemma driven_apply_plain record f : driven only_recovered f (apply_plain record f).2.
Proof.
  unfold apply_plain. destruct (jrec_kind record); try reflexivity.
  - destruct (decode_body _ _ _) as [d|]; [|reflexivity].
    destruct (CapabilityRegistry.declare _ _ _) as [s c]. by apply driven_same.
  - destruct (decode_body _ _ _) as [d|]; [|reflexivity].
    destruct (PolicyRegistry.restore _ _ _ _ _) as [s c]. by apply driven_same.
  - destruct (decode_body _ _ _) as [body|]; [|reflexivity].
    destruct (LinkRegistry.observe _ _ _ _) as [s links] eqn:E. by eapply driven_observe.
  - destruct (decode_body _ _ _) as [body|]; [|reflexivity].
    destruct (LinkRegistry.advance_generation _ _ _ _ _) as [s links] eqn:E.
    pose proof (driven_advance only_recovered f _ _ _ _ _ _ E) as Hd. destruct s; try exact Hd. drive. exact Hd.
  - destruct (decode_body _ _ _) as [stored|]; [|reflexivity]. cbv zeta.
    destruct (validate_observation _ _ _); try reflexivity.
    destruct (EvidenceStore.append _ _ _ _ _ _) as [out evidence] eqn:E.
    apply driven_apply_evidence in E as Hd. destruct out as [outcome|s]; [|exact Hd].
    destruct (LinkRegistry.observe _ _ _ _) as [s links] eqn:E2.
    pose proof (driven_observe only_recovered _ _ _ _ _ _ E2) as H2.
    destruct s; try (etransitivity; [exact Hd|exact H2]).
    drive. drive. drive. etransitivity; [exact Hd|exact H2].
  - destruct (decode_body _ _ _) as [body|]; [|reflexivity].
    destruct (EvidenceStore.seed_dedup_window _ _ _) as [s evidence] eqn:E.
    assert (evidence = store_step (fb_evidence f) (OpSeed (db_key body) (db_entries body))) as ->
      by (simpl; by rewrite E).
    by apply driven_store.
Qed.

Lemma driven_apply_nested records : forall f, driven only_recovered f (apply_nested records f).2.
Proof.
  induction records as [|r records IH]; intros f; cbn [apply_nested]; [reflexivity|].
  pose proof (driven_apply_plain r f) as H1. destruct (apply_plain r f) as [s f1]. simpl in H1.
  destruct s; try exact H1. etransitivity; [exact H1|apply IH].
Qed.

Lemma driven_apply_record record f : driven only_recovered f (apply_record record f).2.
Proof.
  unfold apply_record. pose proof (driven_apply_plain record f) as Hp.
  destruct (jrec_kind record); try exact Hp.
  destruct (decode_record_bundle _ _ _) as [nested|]; [|reflexivity]. apply driven_apply_nested.
Qed.

Lemma driven_replay fuel : forall reader f, driven only_recovered f (replay fuel reader f).2.
Proof.
  induction fuel as [|fuel IH]; intros reader f; cbn [replay]; [reflexivity|].
  destruct (JournalReader.next reader) as [[[record|]|s] reader']; try reflexivity.
  pose proof (driven_apply_record record f) as H1. destruct (apply_record record f) as [applied f1]. simpl in H1.
  etransitivity; [exact H1|]. etransitivity; [|apply IH]. case_match; [reflexivity|by apply driven_same].
Qed.

Lemma driven_recover disk f : driven only_recovered f (recover disk f).1.1.2.
Proof.
  unfold recover. destruct (JournalReader.open _ _ _) as [[out reader] disk'].
  destruct out as [rep|s]; [|by apply driven_same]. cbv zeta.
  set (fuel := S _). pose proof (driven_replay fuel reader f) as H1.
  destruct (replay fuel reader f) as [reader' f1]. simpl in H1.
  destruct (rr_degraded _); [etransitivity; [exact H1|by apply driven_same]|].
  destruct (rr_torn_tail _).
  - destruct (JournalReader.repair_torn_tail _ _ _) as [s repaired].
    destruct s; (etransitivity; [exact H1|by apply driven_same]).
  - etransitivity; [exact H1|by apply driven_same].
Qed.

Lemma driven_initialize now disk f : driven only_recovered f (initialize now disk f).2.
Proof.
  unfold initialize. destruct (limits_validate _ ;;? _); try reflexivity. cbv zeta.
  set (f0 := mkFabric _ _ _ _ _ _ _ _ _ _ _ _ _ _).
  assert (driven only_recovered f f0) as Hd0 by by apply driven_same.
  destruct (validate_policy _ _ _ _); try exact Hd0.
  destruct (negb _); [etransitivity; [exact Hd0|by apply driven_same]|].
  pose proof (driven_recover disk f0) as Hd1. destruct (recover disk f0) as [[[s f1] disk'] fresh]. simpl in Hd1.
  assert (driven only_recovered f f1) as Hd2 by (etransitivity; [exact Hd0|exact Hd1]).
  destruct s; try exact Hd2.
  destruct (BackgroundJournal.open _ _ _ _) as [s j]. destruct s; try (etransitivity; [exact Hd2|by apply driven_same]).
  set (f2 := count Stat.recoveries 1 _).
  assert (driven only_recovered f f2) as Hd3 by (etransitivity; [exact Hd2|by apply driven_same]).
  set (step := if fresh then _ else _).
  assert (driven only_recovered f2 step.2) as Hd4.
  { unfold step. destruct fresh; [|reflexivity]. destruct (encode _ _ _); [apply driven_journal_append|reflexivity]. }
  destruct step as [s f3]. simpl in Hd4.
  assert (driven only_recovered f f3) as Hd5 by (etransitivity; [exact Hd3|exact Hd4]).
  destruct s; try exact Hd5. destruct (jc_compact_on_open _); [|etransitivity; [exact Hd5|by apply driven_same]].
  pose proof (driven_compact only_recovered compact_ok f3) as Hd6.
  destruct (compact_with compact_ok f3) as [s f4]. simpl in Hd6.
  destruct (_ && _); [etransitivity; [exact Hd5|exact Hd6]|].
  etransitivity; [exact Hd5|]. etransitivity; [exact Hd6|by apply driven_same].
Qed.

Lemma open_driven config epoch now disk f : open_fabric config epoch now disk = Good f ->
  driven only_recovered (construct config epoch now) f /\ limits_validate (fc_limits config) = StatusCode.Ok.
Proof.
  unfold open_fabric. pose proof (driven_initialize now disk (construct config epoch now)) as H1.
  destruct (initialize _ _ _) as [s f'] eqn:E. destruct s; try done. intros [= <-]. split; [done|].
  revert E. unfold initialize. simpl. destruct (limits_validate (fc_limits config)) eqn:El; [done|..]; simpl; by intros [= ?].
Qed.
End RecoverySteps.

(** ** What every stored record satisfies *)

Section StoredRecords.
Context `{Charconv} `{LongDouble}.

(** The records a stream exposes to the classifier. *)
Definition exposes (stream : StreamState) (r : EvidenceRecord) : Prop :=
  In r (st_recent stream) \/ st_latest_fed stream = Some r.

Definition all_stored (P : EvidenceOrigin.t -> Prop) (s : EvidenceStore.t) : Prop :=
  forall stream r, In stream (om_values (EvidenceStore.streams s)) -> exposes stream r -> P (er_origin r).

Lemma om_values_set {K V} `{Cmp K} (k : K) (v x : V) m :
  In x (om_values (om_set k v m)) -> x = v \/ In x (om_values m).
Proof.
  unfold om_values. induction m as [|[k' v'] m IH]; simpl; [intros [<-|[]]; by left|].
  destruct (cmp k k'); simpl.
  - intros [<- | Hx]; [by left|right; by right].
  - intros [<- | Hx]; [by left|by right].
  - intros [<- | Hx]; [right; by left|]. destruct (IH Hx); [by left|right; by right].
Qed.

Lemma om_find_values {K V} `{Cmp K} (k : K) (v : V) m : om_find k m = Some v -> In v (om_values m).
Proof. intros Hf. apply om_find_In in Hf. unfold om_values. by apply (in_map snd) in Hf. Qed.

Lemma stream_for_stored P s key o s1 : all_stored P s -> EvidenceStore.stream_for s key = (o, s1) ->
  all_stored P s1 /\ (forall stream, o = Some stream -> forall r, exposes stream r -> P (er_origin r)).
Proof.
  intros Ha. unfold EvidenceStore.stream_for. destruct (om_find key _) as [stream|] eqn:Ef.
  - intros [= <- <-]. split; [done|]. intros st [= <-] r. apply Ha. by eapply om_find_values.
  - unfold EvidenceStore.admit_stream. destruct (_ <=? _); intros [= <- <-]; (split; [|]).
    + exact Ha.
    + done.
    + intros stream r Hs. simpl in Hs. apply om_values_set in Hs as [-> | Hs]; [|by apply Ha].
      intros [[] | [=]].
    + intros st [= <-] r [[] | [=]].
Qed.

Lemma with_stream_stored (P : EvidenceOrigin.t -> Prop) s key stream : all_stored P s ->
  (forall r, exposes stream r -> P (er_origin r)) -> all_stored P (EvidenceStore.with_stream s key stream).
Proof.
  intros Ha Hs st r Hin. apply om_values_set in Hin as [-> | Hin]; [by apply Hs|by apply Ha].
Qed.

Lemma seed_exposes entries : forall stream r,
  exposes (fold_left EvidenceStore.seed_entry entries stream) r -> exposes stream r.
Proof. induction entries as [|e entries IH]; intros stream r; simpl; [done|]. intros Hx. by apply IH in Hx. Qed.

Lemma store_step_stored (P : EvidenceOrigin.t -> Prop) s op : origin_in P op -> all_stored P s ->
  all_stored P (store_step s op).
Proof.
  intros Ho Ha. destruct op as [a|key entries|link|]; simpl.
  - unfold admit_one, EvidenceStore.append. destruct (EvidenceStore.stream_for _ _) as [o s1] eqn:E.
    destruct (stream_for_stored P _ _ _ _ Ha E) as [Ha1 Hs]. destruct o as [stream|]; [|exact Ha1].
    specialize (Hs stream eq_refl). destruct (EvidenceStore.verdict _ _ _ _) as [|e|reordered].
    + apply with_stream_stored; [done|]. exact Hs.
    + apply with_stream_stored; [done|]. exact Hs.
    + intros st r Hin. simpl in Hin. apply om_values_set in Hin as [-> | Hin]; [|by apply Ha1].
      unfold exposes, EvidenceStore.accept. cbn [st_recent st_latest_fed].
      intros [Hr | Hr].
      * apply last_n_In in Hr. apply in_app_or in Hr as [Hr | [<- | []]]; [apply Hs; by left|exact Ho].
      * case_match; [injection Hr as <-; exact Ho|apply Hs; by right].
  - unfold EvidenceStore.seed_dedup_window. destruct (EvidenceStore.stream_for _ _) as [o s1] eqn:E.
    destruct (stream_for_stored P _ _ _ _ Ha E) as [Ha1 Hs]. destruct o as [stream|]; [|exact Ha1].
    apply with_stream_stored; [done|]. intros r Hx. apply (Hs stream eq_refl). by apply (seed_exposes entries).
  - intros st r Hin. simpl in Hin. apply Ha. unfold om_values in *. apply in_map_iff in Hin as (e & <- & He).
    apply filter_In in He as [He _]. by apply in_map.
  - intros st r [].
Qed.

Lemma store_run_stored (P : EvidenceOrigin.t -> Prop) ops : Forall (origin_in P) ops -> forall s, all_stored P s ->
  all_stored P (fold_left store_step ops s).
Proof. induction 1 as [|op ops Ho Hops IH]; intros s Ha; simpl; [done|]. apply IH. by apply store_step_stored. Qed.
End StoredRecords.

(** ** Runs of the fabric *)

(** The entry points that take the lock exclusively, and the journal's writer. *)
Inductive FabricOp :=
  | FIngest (faults : CompactFaults) (now : ClockReading) (o : Observation)
  | FIngestBatch (faults : CompactFaults) (l : list (ClockReading * Observation))
  | FDeclare (d : CapabilityDeclaration)
  | FRegister (now : ClockReading) (link : LinkIdentity) (at_ : Timestamp)
  | FAdvance (now : ClockReading) (link : string) (generation : Z) (reason : ReasonCode.t)
  | FPublish (now : ClockReading) (document : PolicyDocument)
  | FCompact (faults : CompactFaults)
  | FFlush (sync_ok : bool)
  | FWriter (limit : option Z).

Section FabricRuns.
Context `{Charconv} `{LongDouble}.

Definition fabric_step (f : Fabric) (op : FabricOp) : Fabric :=
  match op with
  | FIngest faults now o => (ingest faults now o f).2
  | FIngestBatch faults l => (ingest_batch faults l f).2
  | FDeclare d => (declare_capability d f).2
  | FRegister now link at_ => (register_link now link at_ f).2
  | FAdvance now link generation reason => (advance_link_generation now link generation reason f).2
  | FPublish now document => (publish_policy now document f).2
  | FCompact faults => (compact faults f).2
  | FFlush sync_ok => (flush sync_ok f).2
  | FWriter limit =>
      set_journal f
        (match fb_journal f with
         | Some j =>
             Some (match BackgroundJournal.writer_pop j with
                   | Some j1 => j1
                   | None => match BackgroundJournal.writer_write limit j with Some j1 => j1 | None => j end
                   end)
         | None => None
         end)
  end.

Lemma driven_step f op : driven only_live f (fabric_step f op).
Proof.
  destruct op; cbn [fabric_step].
  - apply driven_ingest.
  - apply driven_batch.
  - apply driven_declare.
  - apply driven_register.
  - apply driven_advance_generation.
  - apply driven_publish.
  - apply driven_compact.
  - unfold flush. destruct (fb_journal f) as [j|]; [|reflexivity]. destruct (negb _); [reflexivity|].
    destruct (BackgroundJournal.flush _ _) as [[s j']|]; [by apply driven_same|reflexivity].
  - by apply driven_same.
Qed.

Lemma driven_run ops : forall f, driven only_live f (fold_left fabric_step ops f).
Proof.
  induction ops as [|op ops IH]; intros f; simpl; [reflexivity|].
  etransitivity; [apply driven_step|apply IH].
Qed.

Lemma driven_any P f f' : driven P f f' -> driven (fun _ => True) f f'.
Proof.
  intros [E1 E2 (ops & _ & E3) E4]. constructor; try done. exists ops. split; [|done].
  apply Forall_true. by intros [].
Qed.

Lemma link_steps_inv ops : forall r, limits_sound (LinkRegistry.limits r) -> registry_inv r ->
  registry_inv (link_steps ops r).
Proof.
  unfold link_steps. induction ops as [|x ops IH]; intros r Hs Hi; simpl; [done|].
  destruct (link_step_inv x.1.1 x.1.2 x.2 r Hs Hi) as [H1 H2]. apply IH; [by rewrite H2|done].
Qed.

(** Driving a sound fabric keeps its stores sound. *)
Lemma driven_sound P f f' : limits_sound (EvidenceStore.limits (fb_evidence f)) ->
  limits_sound (LinkRegistry.limits (fb_links f)) -> store_inv (fb_evidence f) -> registry_inv (fb_links f) ->
  driven P f f' -> store_inv (fb_evidence f') /\ registry_inv (fb_links f').
Proof.
  intros L1 L2 S1 S2 [_ _ (ops & _ & ->) (lops & ->)]. split.
  - by apply store_run_inv.
  - by apply link_steps_inv.
Qed.
End FabricRuns.

(** ** Theorems *)

(** C11: Whatever the disk holds, every reachable state is sound.  If the fabric
    opens at all, on any bytes in the journal and in the temporary file, then
    after any sequence of ingests, batches, declarations, registrations,
    generation advances, publications, compactions (failing or not), flushes and
    writer steps, the evidence store keeps all its bounds and its replay fence,
    and the link registry its generation fencing. *)
Theorem fabric_stays_sound (CC : Charconv) (LD : LongDouble) config epoch now disk f ops :
  open_fabric config epoch now disk = Good f ->
  store_inv (fb_evidence (fold_left fabric_step ops f)) /\ registry_inv (fb_links (fold_left fabric_step ops f)).
Proof.
  intros Ho. destruct (open_driven config epoch now disk f Ho) as [Hd Hv]. apply limits_validate_sound in Hv.
  apply (driven_sound (fun _ => True) (construct config epoch now)); try done.
  - by apply create_store_inv.
  - by apply create_registry_inv.
  - etransitivity; [by eapply driven_any|]. eapply driven_any, driven_run.
Qed.

(** C10: A restarted process asserts nothing about any link.  If the fabric
    opens on any journal, every quality query answered before new evidence
    arrives, at any later time and with any filter, reports an overall state that
    is Unknown, Unsupported, Stale or Incomplete, and so does each of its
    metrics: what was recovered is never presented as current. *)
Theorem restart_asserts_nothing (CC : Charconv) (LD : LongDouble) config epoch now disk f later request report :
  open_fabric config epoch now disk = Good f -> (query later request f).1 = Good report ->
  asserts_nothing (rep_overall report) = true /\
  Forall (fun a => asserts_nothing (as_state a) = true) (rep_metrics report).
Proof.
  intros Ho Hq. destruct (open_driven config epoch now disk f Ho) as [[_ _ (ops & Hops & Es) _] _].
  assert (all_stored only_recovered (fb_evidence f)) as Hall.
  { rewrite Es. apply store_run_stored; [done|]. intros st r []. }
  revert Hq. unfold query. destruct (validate_link_identity _); try done. intros [= <-].
  apply classify_nothing_live. intros stream r Hs Hr. left. rewrite (Hall stream r Hs Hr). discriminate.
Qed.

(** ** A concrete fabric *)

Module FabricExamples.
Import ClassifierExamples.

Definition journal_config : JournalConfig := mkJournalConfig true "j" 1048576 64 true 0 1000 false 1000 16777216.
Definition config : FabricConfig := mkFabricConfig default_limits journal_config PolicyExamples.doc 2.
Definition now0 : ClockReading := mkClockReading 1000 1000.
Definition started (disk : Disk) : Fabric :=
  match open_fabric config 1 now0 disk with Good f => f | Bad _ => construct config 1 now0 end.
Definition observation : Observation := ad_observation (sample 1 20 aggregate_dimension EvidenceOrigin.Live).
Definition ops : list FabricOp := [FDeclare (declaration 0); FIngest compact_ok now0 observation].
Definition running : Fabric := Eval vm_compute in fold_left fabric_step ops (started (mkDisk None None)).

Definition fresh : Fabric := Eval vm_compute in started (mkDisk None None).

(** What a process that ends in [f] leaves on the disk. *)
Definition disk_of (f : Fabric) : Disk :=
  match fb_journal f with Some j => BackgroundJournal.disk (drain j) | None => mkDisk None None end.

Definition retained (f : Fabric) : Z * Z * Z :=
  (CapabilityRegistry.size (fb_capabilities f), LinkRegistry.size (fb_links f),
   EvidenceStore.record_count (fb_evidence f)).

(** The policy is published three times with two generations retained. *)
Definition republished : Fabric :=
  fold_left fabric_step [FPublish now0 PolicyExamples.doc; FPublish now0 PolicyExamples.doc;
    FPublish now0 PolicyExamples.doc] running.
Definition compacted : Status * Fabric := Eval vm_compute in compact compact_ok republished.
Definition restarted : Outcome Fabric := open_fabric config 2 now0 (disk_of compacted.2).
End FabricExamples.

Import ClassifierExamples FabricExamples.

Lemma fabric_stays_sound_witness : store_inv (fb_evidence running) /\ registry_inv (fb_links running).
Proof.
  change running with (fold_left fabric_step ops fresh).
  apply (fabric_stays_sound fixed_charconv ld config 1 now0 (mkDisk None None) fresh ops).
  vm_compute. reflexivity.
Defined.

Definition left_behind : Disk := Eval vm_compute in disk_of running.
Definition recovered : Fabric := Eval vm_compute in started left_behind.
Definition answer : LinkQualityReport := Eval vm_compute in
  classify_link (context_at recovered now0) ClassifierExamples.query.

Lemma restart_asserts_nothing_witness :
  rep_overall answer = QualityState.Stale /\ asserts_nothing (rep_overall answer) = true.
Proof.
  split; [reflexivity|].
  apply (restart_asserts_nothing fixed_charconv ld config 1 now0 left_behind recovered now0
    ClassifierExamples.query answer).
  - vm_compute. reflexivity.
  - vm_compute. reflexivity.
Defined.

(** A compaction can cost the whole state at the next restart, silently.
    With two policy generations retained, publish the policy three times and
    compact: the compaction succeeds on a fabric that holds a declaration, a link
    and an observation.  The process that starts on the resulting journal refuses
    the snapshot's first policy record, drops the rest of the snapshot with it,
    opens successfully with nothing retained, and reports neither a degraded
    recovery nor an error. *)
Example compaction_then_restart_loses_state :
  compacted.1 = StatusCode.Ok /\ retained compacted.2 = (1, 1, 1) /\
  match restarted with
  | Good f => retained f = (0, 0, 0) /\ rr_degraded (fb_recovery f) = false /\ rr_status (fb_recovery f) = StatusCode.Ok
  | Bad _ => False
  end.
Proof. vm_compute. repeat split. Qed.
