(* ===== verification/Frame.v ===== *)
(** * Frames

    [transport/frame.*]: the length-prefixed, checksummed frames of the wire
    protocol, the message types they carry and the error replies a refusal
    crosses the boundary as.  A frame is eight header bytes (payload length and
    CRC-32C, little-endian) followed by the payload: the message type and the
    body. *)

From Stdlib Require Import ZArith Lia Bool List String Ascii.
From stdpp Require Import base decidable list strings.
From S2P Require Import Prelude OrdMap Float Core Hash Quality Codec Journal JournalSpec.

Open Scope Z_scope.

(** ** Message types *)

Module MessageType.
Inductive t :=
  | Invalid | Hello | RegisterCapability | PublishPolicy | Ingest | Query | Window
  | Explain | Inspect | Stats | Flush | Compact | Shutdown | Capabilities | PolicyDocument
  | Welcome | CapabilityAck | PolicyAck | IngestAck | QualityReport | WindowReply
  | ExplanationReply | InspectionReply | StatsReply | FlushAck | CompactAck | ShutdownAck
  | CapabilitiesReply | PolicyDocumentReply | Error.
End MessageType.

#[export] Instance MessageType_enum : Enum MessageType.t.
Proof.
  refine {| enum_val := fun x => match x with
      | MessageType.Invalid => 0 | MessageType.Hello => 1 | MessageType.RegisterCapability => 2
      | MessageType.PublishPolicy => 3 | MessageType.Ingest => 4 | MessageType.Query => 5
      | MessageType.Window => 6 | MessageType.Explain => 7 | MessageType.Inspect => 8
      | MessageType.Stats => 9 | MessageType.Flush => 10 | MessageType.Compact => 11
      | MessageType.Shutdown => 12 | MessageType.Capabilities => 13
      | MessageType.PolicyDocument => 14 | MessageType.Welcome => 64
      | MessageType.CapabilityAck => 65 | MessageType.PolicyAck => 66
      | MessageType.IngestAck => 67 | MessageType.QualityReport => 68
      | MessageType.WindowReply => 69 | MessageType.ExplanationReply => 70
      | MessageType.InspectionReply => 71 | MessageType.StatsReply => 72
      | MessageType.FlushAck => 73 | MessageType.CompactAck => 74
      | MessageType.ShutdownAck => 75 | MessageType.CapabilitiesReply => 76
      | MessageType.PolicyDocumentReply => 77 | MessageType.Error => 127 end;
    enum_all := [MessageType.Invalid; MessageType.Hello; MessageType.RegisterCapability;
      MessageType.PublishPolicy; MessageType.Ingest; MessageType.Query; MessageType.Window;
      MessageType.Explain; MessageType.Inspect; MessageType.Stats; MessageType.Flush;
      MessageType.Compact; MessageType.Shutdown; MessageType.Capabilities;
      MessageType.PolicyDocument; MessageType.Welcome; MessageType.CapabilityAck;
      MessageType.PolicyAck; MessageType.IngestAck; MessageType.QualityReport;
      MessageType.WindowReply; MessageType.ExplanationReply; MessageType.InspectionReply;
      MessageType.StatsReply; MessageType.FlushAck; MessageType.CompactAck;
      MessageType.ShutdownAck; MessageType.CapabilitiesReply; MessageType.PolicyDocumentReply;
      MessageType.Error] |}; solve_enum.
Defined.
#[export] Instance MessageType_Cmp : Cmp MessageType.t := enum_cmp.

(** [static_cast<u8>] of a status code, for the replies that carry one. *)
#[export] Instance StatusCode_enum : Enum StatusCode.t.
Proof.
  refine {| enum_val := fun x => match x with
      | StatusCode.Ok => 0 | StatusCode.Invalid => 1 | StatusCode.NotFound => 2
      | StatusCode.Unsupported => 3 | StatusCode.Conflict => 4 | StatusCode.Stale => 5
      | StatusCode.Fenced => 6 | StatusCode.Rejected => 7 | StatusCode.Duplicate => 8
      | StatusCode.IdMismatch => 9 | StatusCode.Overflow => 10 | StatusCode.LimitExceeded => 11
      | StatusCode.Corrupt => 12 | StatusCode.Unavailable => 13 | StatusCode.Busy => 14
      | StatusCode.Cancelled => 15 | StatusCode.Refused => 16 | StatusCode.Protocol => 17
      | StatusCode.Io => 18 | StatusCode.Internal => 19 end;
    enum_all := [StatusCode.Ok; StatusCode.Invalid; StatusCode.NotFound;
      StatusCode.Unsupported; StatusCode.Conflict; StatusCode.Stale; StatusCode.Fenced;
      StatusCode.Rejected; StatusCode.Duplicate; StatusCode.IdMismatch; StatusCode.Overflow;
      StatusCode.LimitExceeded; StatusCode.Corrupt; StatusCode.Unavailable; StatusCode.Busy;
      StatusCode.Cancelled; StatusCode.Refused; StatusCode.Protocol; StatusCode.Io;
      StatusCode.Internal] |}; solve_enum.
Defined.

(** The switch lists every enumerator but [Invalid]. *)
Definition type_is_known (raw : Z) : bool :=
  match enum_of raw with
  | Some MessageType.Invalid | None => false
  | Some _ => true
  end.

(** [to_string]. *)
Definition message_to_string (type : MessageType.t) : string :=
  match type with
  | MessageType.Invalid => "invalid"
  | MessageType.Hello => "hello"
  | MessageType.RegisterCapability => "register-capability"
  | MessageType.PublishPolicy => "publish-policy"
  | MessageType.Ingest => "ingest"
  | MessageType.Query => "query"
  | MessageType.Window => "window"
  | MessageType.Explain => "explain"
  | MessageType.Inspect => "inspect"
  | MessageType.Stats => "stats"
  | MessageType.Flush => "flush"
  | MessageType.Compact => "compact"
  | MessageType.Shutdown => "shutdown"
  | MessageType.Capabilities => "capabilities"
  | MessageType.PolicyDocument => "policy-document"
  | MessageType.Welcome => "welcome"
  | MessageType.CapabilityAck => "capability-ack"
  | MessageType.PolicyAck => "policy-ack"
  | MessageType.IngestAck => "ingest-ack"
  | MessageType.QualityReport => "quality-report"
  | MessageType.WindowReply => "window-reply"
  | MessageType.ExplanationReply => "explanation-reply"
  | MessageType.InspectionReply => "inspection-reply"
  | MessageType.StatsReply => "stats-reply"
  | MessageType.FlushAck => "flush-ack"
  | MessageType.CompactAck => "compact-ack"
  | MessageType.ShutdownAck => "shutdown-ack"
  | MessageType.CapabilitiesReply => "capabilities-reply"
  | MessageType.PolicyDocumentReply => "policy-document-reply"
  | MessageType.Error => "error"
  end.

Lemma message_names_distinct a b : message_to_string a = message_to_string b -> a = b.
Proof. destruct a; destruct b; first [reflexivity | discriminate]. Qed.

Definition message_is_response (type : MessageType.t) : bool :=
  enum_val MessageType.Welcome <=? enum_val type.

(** ** Frames *)

Record FrameLimits := mkFrameLimits { fl_max_frame_bytes : Z }.
Record Frame := mkFrame { fr_type : MessageType.t; fr_body : list Z }.

Definition kFrameHeaderBytes : Z := 8.
Definition kMaxFrameBytesDefault : Z := 1048576.
Definition kMaxFrameBytesCeiling : Z := 67108864.

Definition frame_limit (limits : FrameLimits) : Z :=
  if kMaxFrameBytesCeiling <? fl_max_frame_bytes limits then kMaxFrameBytesCeiling
  else fl_max_frame_bytes limits.

Definition encode_frame (frame : Frame) (limits : FrameLimits) : Outcome (list Z) :=
  if eqb (fr_type frame) MessageType.Invalid || negb (type_is_known (enum_val (fr_type frame)))
  then Bad StatusCode.Invalid
  else match checked_add_size (zlen (fr_body frame)) 1 with
       | None => Bad StatusCode.Overflow
       | Some payload_size =>
           if frame_limit limits <? payload_size then Bad StatusCode.LimitExceeded
           else
             let payload := enum_val (fr_type frame) :: fr_body frame in
             Good (le_bytes 4 (zlen payload) ++ le_bytes 4 (crc32c payload 0) ++ payload)
       end.

(** The payload length and the checksum, from the eight header bytes. *)
Definition decode_frame_header (header : list Z) (limits : FrameLimits) : Outcome (Z * Z) :=
  let payload_length := decode_u32 0 header in
  let payload_crc := decode_u32 4 header in
  if payload_length <? 1 then Bad StatusCode.Protocol
  else if frame_limit limits <? payload_length then Bad StatusCode.Protocol
  else Good (payload_length, payload_crc).

Definition decode_frame_payload (payload : list Z) (payload_crc : Z) : Outcome Frame :=
  match payload with
  | [] => Bad StatusCode.Protocol
  | raw_type :: body =>
      if negb (crc32c payload 0 =? payload_crc) then Bad StatusCode.Corrupt
      else if negb (type_is_known raw_type) then Bad StatusCode.Protocol
      else match enum_of raw_type with
           | Some type => Good (mkFrame type body)
           | None => Bad StatusCode.Protocol  (* a known type has an enumerator *)
           end
  end.

(** ** Error replies *)

Record ErrorReply := mkErrorReply { erp_code : Status; erp_message : string }.

Definition error_limits : CodecLimits :=
  mkCodecLimits 512 (cl_max_items default_codec_limits) (cl_max_total_bytes default_codec_limits).

Definition encode_error_reply (reply : ErrorReply) : Outcome (list Z) :=
  let w := put_text error_limits (erp_message reply) (cl_max_string_bytes error_limits)
             (put_u8 error_limits (enum_val (erp_code reply)) empty_writer) in
  if ok (w_status w) then Good (w_buffer w) else Bad (w_status w).

Definition decode_error_reply (body : list Z) : Outcome ErrorReply :=
  match get_u8 (reader_of body) with
  | (None, r) => Bad (r_status r)
  | (Some raw_code, r) =>
      if enum_val StatusCode.Internal <? raw_code then Bad StatusCode.Protocol
      else match get_text error_limits (cl_max_string_bytes error_limits) r, enum_of raw_code with
           | (Some message, _), Some code => Good (mkErrorReply code message)
           | (Some _, _), None => Bad StatusCode.Protocol  (* a code in range has an enumerator *)
           | (None, r1), _ => Bad (r_status r1)
           end
  end.

(** ** Reading from a stream *)

(** The next [n] bytes and what follows them, once that many have arrived. *)
Definition read_exact (n : Z) (input : list Z) : option (list Z * list Z) :=
  if zlen input <? n then None
  else Some (take (Z.to_nat n) input, drop (Z.to_nat n) input).

(** ** Laws *)

#[local] Arguments enum_val : simpl never.

Lemma type_is_known_val type : type_is_known (enum_val type) = negb (eqb type MessageType.Invalid).
Proof. unfold type_is_known. rewrite enum_of_val. by destruct type. Qed.

Lemma frame_limit_ceiling L : frame_limit L <= kMaxFrameBytesCeiling.
Proof. unfold frame_limit. destruct (Z.ltb_spec kMaxFrameBytesCeiling (fl_max_frame_bytes L)); lia. Qed.

(** What an accepted frame looks like on the wire. *)
Lemma encode_frame_ok frame L bytes : encode_frame frame L = Good bytes ->
  let payload := enum_val (fr_type frame) :: fr_body frame in
  fr_type frame <> MessageType.Invalid /\ 1 <= zlen payload <= frame_limit L /\
  bytes = le_bytes 4 (zlen payload) ++ le_bytes 4 (crc32c payload 0) ++ payload.
Proof.
  unfold encode_frame. rewrite type_is_known_val, negb_involutive.
  destruct (eqb (fr_type frame) MessageType.Invalid) eqn:Ei; [done|]. cbn [orb].
  apply eqb_false in Ei. unfold checked_add_size.
  destruct (u64_max - 1 <? zlen (fr_body frame)) eqn:Eu; [done|].
  destruct (frame_limit L <? _) eqn:El; [done|]. intros [= <-].
  apply Z.ltb_ge in Eu, El. pose proof (zlen_nonneg (fr_body frame)) as Hn.
  rewrite wrap64_id in El by (unfold is_u64; lia). rewrite zlen_cons. repeat split; [done|lia|lia].
Qed.

Lemma read_exact_app n p q : zlen p = n -> read_exact n (p ++ q) = Some (p, q).
Proof.
  intros <-. unfold read_exact. rewrite zlen_app. pose proof (zlen_nonneg q).
  destruct (Z.ltb_spec (zlen p + zlen q) (zlen p)); [lia|].
  unfold zlen. by rewrite Nat2Z.id, take_app_length, drop_app_length.
Qed.

Lemma read_exact_length n input p q : 0 <= n -> read_exact n input = Some (p, q) ->
  input = p ++ q /\ zlen p = n.
Proof.
  unfold read_exact. destruct (Z.ltb_spec (zlen input) n) as [|Hn]; [done|]. intros Hn0 [= <- <-].
  split; [by rewrite take_drop|]. rewrite zlen_take. lia.
Qed.

(** The eight header bytes of an encoded frame. *)
Lemma frame_header_decodes L L' payload : 1 <= zlen payload <= frame_limit L ->
  zlen payload <= frame_limit L' ->
  let header := le_bytes 4 (zlen payload) ++ le_bytes 4 (crc32c payload 0) in
  decode_frame_header header L' = Good (zlen payload, crc32c payload 0).
Proof.
  intros Hp Hp' header. pose proof (frame_limit_ceiling L) as Hc. unfold kMaxFrameBytesCeiling in Hc.
  assert (decode_u32 0 header = zlen payload) as E1.
  { unfold decode_u32, header. rewrite slice_front by apply zlen_le_bytes.
    apply le_value_bytes. change (256 ^ Z.of_nat 4) with 4294967296. lia. }
  assert (decode_u32 4 header = crc32c payload 0) as E2.
  { unfold decode_u32, header. rewrite <- (app_nil_r (le_bytes 4 (crc32c payload 0))).
    rewrite slice_mid by apply zlen_le_bytes. apply le_value_bytes, crc32c_bound. }
  unfold decode_frame_header. rewrite E1, E2.
  rewrite (proj2 (Z.ltb_ge (zlen payload) 1)) by lia. by rewrite (proj2 (Z.ltb_ge _ _)) by lia.
Qed.

Lemma frame_payload_decodes frame : fr_type frame <> MessageType.Invalid ->
  let payload := enum_val (fr_type frame) :: fr_body frame in
  decode_frame_payload payload (crc32c payload 0) = Good frame.
Proof.
  intros Hi payload. unfold decode_frame_payload, payload.
  rewrite Z.eqb_refl. cbn [negb]. rewrite type_is_known_val, enum_of_val.
  apply eqb_neq in Hi. rewrite Hi. by destruct frame.
Qed.

(** Reading one frame off a stream, the way both ends do. *)
Lemma read_encoded_frame frame L L' bytes q : encode_frame frame L = Good bytes ->
  frame_limit L <= frame_limit L' ->
  exists header payload n crc,
    read_exact kFrameHeaderBytes (bytes ++ q) = Some (header, payload ++ q) /\
    decode_frame_header header L' = Good (n, crc) /\
    read_exact n (payload ++ q) = Some (payload, q) /\
    decode_frame_payload payload crc = Good frame /\ 0 < n.
Proof.
  intros E HL. apply encode_frame_ok in E as (Hi & Hp & ->).
  set (payload := enum_val (fr_type frame) :: fr_body frame) in *.
  exists (le_bytes 4 (zlen payload) ++ le_bytes 4 (crc32c payload 0)), payload, (zlen payload), (crc32c payload 0).
  repeat split.
  - rewrite app_assoc, <- app_assoc. apply read_exact_app. by rewrite zlen_app, !zlen_le_bytes.
  - apply (frame_header_decodes L); lia.
  - by apply read_exact_app.
  - by apply frame_payload_decodes.
Qed.

Lemma decode_frame_header_bound header L n crc : decode_frame_header header L = Good (n, crc) ->
  1 <= n <= frame_limit L.
Proof.
  unfold decode_frame_header. destruct (Z.ltb_spec (decode_u32 0 header) 1); [done|].
  destruct (Z.ltb_spec (frame_limit L) (decode_u32 0 header)); [done|]. intros [= <- <-]. lia.
Qed.

(** A strict prefix of an encoded frame stops a reader in the header or in the
    payload. *)
Lemma read_truncated_frame frame L L' p q : encode_frame frame L = Good (p ++ q) -> q <> [] ->
  frame_limit L <= frame_limit L' ->
  match read_exact kFrameHeaderBytes p with
  | None => True
  | Some (header, after) =>
      exists n crc, decode_frame_header header L' = Good (n, crc) /\ read_exact n after = None
  end.
Proof.
  intros E Hq HL. destruct (read_encoded_frame frame L L' (p ++ q) [] E HL) as
    (header & payload & n & crc & R1 & D1 & R2 & _ & _). rewrite !app_nil_r in *.
  destruct (read_exact kFrameHeaderBytes p) as [[h after]|] eqn:Ep; [|done].
  apply read_exact_length in Ep as [-> Lh]; [|done]. rewrite <- app_assoc, (read_exact_app _ h) in R1 by done.
  injection R1 as -> <-. exists n, crc. split; [done|].
  apply decode_frame_header_bound in D1. apply read_exact_length in R2 as [_ R2]; [|lia].
  unfold read_exact. rewrite zlen_app in R2. destruct q as [|b q]; [done|].
  rewrite zlen_cons in R2. pose proof (zlen_nonneg q). by rewrite (proj2 (Z.ltb_lt _ _)) by lia.
Qed.

Lemma error_reply_round_trip reply body : encode_error_reply reply = Good body ->
  decode_error_reply body = Good reply.
Proof.
  unfold encode_error_reply.
  set (w := put_u8 error_limits (enum_val (erp_code reply)) empty_writer).
  destruct (ok _) eqn:Eo; [|done]. intros [= <-]. apply ok_status in Eo.
  destruct (enc_accepts (c := c_string) error_limits (erp_message reply) w I Eo) as (_ & F & B).
  cbn [enc c_string] in B. change (w_buffer w) with [enum_val (erp_code reply)] in B.
  change (cl_max_string_bytes error_limits) with 512 in B. rewrite B. unfold decode_error_reply.
  change (get_u8 (reader_of ([enum_val (erp_code reply)] ++ bytes_of c_string (erp_message reply))))
    with (Some (enum_val (erp_code reply)), mkReader (bytes_of c_string (erp_message reply)) StatusCode.Ok).
  cbv iota. assert ((enum_val StatusCode.Internal <? enum_val (erp_code reply)) = false) as ->.
  { by destruct (erp_code reply). }
  pose proof (dec_enc (c := c_string) error_limits (erp_message reply) [] I F) as D.
  rewrite app_nil_r in D. cbn [dec c_string] in D. rewrite D, enum_of_val. by destruct reply.
Qed.
