(* ===== verification/Render.v ===== *)
(** * Renderings

    The deterministic texts of [domain/classification.cpp] and
    [classify/explain.cpp].  A function that appends to [out] is the string it
    appends. *)

From Stdlib Require Import ZArith Lia Bool List String Ascii.
From stdpp Require Import base decidable list strings.
From S2P Require Import Prelude OrdMap Float Core Quality Metric Identity Counter Capability.
From S2P Require Import Config Policy Classification Classifier.

Open Scope Z_scope.

(** ** Pieces *)

Fixpoint append_indent (indent : nat) : string :=
  match indent with O => "" | S n => String " " (append_indent n) end.

Definition append_pair (indent : nat) (key value : string) : string :=
  append_indent indent +:+ key +:+ ": " +:+ value +:+ newline.

Definition render_lane (lane : LaneDimension) : string :=
  if ld_aggregate lane then "aggregate" else "lane" +:+ text.format_u64 (ld_lane lane).

(** The loops that separate items with a comma test the text built so far. *)
Definition comma_joined (items : list string) : string :=
  fold_left (fun out item => (if String.eqb out "" then out else out +:+ ",") +:+ item) items "".

Section Rendering.
Context `{Charconv}.

Definition render_evidence_record (record : EvidenceRecord) : string :=
  let o := er_observation record in
  "evidence " +:+ render_link_identity (ob_link o) +:+ " " +:+ render_source_identity (ob_source o)
    +:+ " seq=" +:+ text.format_u64 (ob_sequence o) +:+ " " +:+ render_metric_id (ob_metric o)
    +:+ " lane=" +:+ render_lane (ob_lane o) +:+ " value=" +:+ render_reading (ob_reading o) (ob_unit o)
    +:+ " observed=" +:+ text.format_i64 (ts_unix_nanos (ob_observed_at o))
    +:+ (if ts_synchronized (ob_observed_at o) then "s" else "u")
    +:+ " received=" +:+ text.format_i64 (rs_wall_nanos (er_received record))
    +:+ " origin=" +:+ origin_to_string (er_origin record)
    +:+ " class=" +:+ class_to_string (pv_evidence_class (ob_provenance o))
    +:+ " authority=" +:+ text.format_u64 (ob_authority o).

(** ** Reports *)

Definition render_reference (indent : nat) (r : EvidenceRef) : string :=
  append_indent (indent + 2) +:+ "evidence " +:+ render_source_identity (ref_source r)
    +:+ " seq=" +:+ text.format_u64 (ref_sequence r) +:+ " " +:+ render_metric_id (ref_metric r)
    +:+ " lane=" +:+ render_lane (ref_lane r) +:+ " value=" +:+ ref_rendered r
    +:+ " origin=" +:+ origin_to_string (ref_origin r)
    +:+ " class=" +:+ class_to_string (ref_evidence_class r)
    +:+ " authority=" +:+ text.format_u64 (ref_authority r)
    +:+ (if String.eqb (si_id (ref_source r)) "" then ""
         else " provenance=" +:+ (if String.eqb (ref_provenance r) "" then "unknown" else ref_provenance r))
    +:+ " fresh=" +:+ bool_text (ref_fresh r) +:+ " used=" +:+ bool_text (ref_used r)
    +:+ " age-ns=" +:+ text.format_i64 (ref_age_nanos r) +:+ newline.

(** A line that is there only when the value is. *)
Definition optional_pair (indent : nat) (key : string) (value : option double) : string :=
  match value with Some v => append_pair indent key (format_double v) | None => "" end.

Definition render_assessment (a : MetricAssessment) (indent : nat) : string :=
  let inner := (indent + 2)%nat in
  append_indent indent +:+ "metric " +:+ render_metric_id (as_metric a) +:+ " lane=" +:+ render_lane (as_lane a)
    +:+ newline
    +:+ append_pair inner "state" (state_to_string (as_state a))
    +:+ append_pair inner "confidence" (confidence_to_string (as_confidence a))
    +:+ append_pair inner "reasons" (render_reasons (as_reasons a))
    +:+ append_pair inner "capability-declared" (bool_text (as_capability_declared a))
    +:+ append_pair inner "sources"
          (text.format_u64 (as_sources_declared a) +:+ " declared, "
             +:+ text.format_u64 (as_sources_with_evidence a) +:+ " with evidence, "
             +:+ text.format_u64 (as_sources_fresh a) +:+ " fresh")
    +:+ optional_pair inner "value" (as_value a)
    +:+ optional_pair inner "rate-per-second" (as_rate_per_second a)
    +:+ optional_pair inner "interval-rate-per-second (not a current rate)" (as_interval_rate_per_second a)
    +:+ optional_pair inner "disagreement" (as_disagreement a)
    +:+ (if is_nil (as_rules a) then "" else append_pair inner "rules" (comma_joined (as_rules a)))
    +:+ (if is_nil (as_missing_lanes a) then ""
         else append_pair inner "missing-lanes" (comma_joined (map text.format_u64 (as_missing_lanes a))))
    +:+ concat_map (render_reference indent) (as_evidence a).

Definition render_report (r : LinkQualityReport) : string :=
  let policy := rep_policy r in
  "link-quality " +:+ render_link_identity (rep_link r) +:+ newline
    +:+ append_pair 2 "overall" (state_to_string (rep_overall r))
    +:+ append_pair 2 "confidence" (confidence_to_string (rep_confidence r))
    +:+ append_pair 2 "reasons" (render_reasons (rep_reasons r))
    +:+ append_pair 2 "registered" (bool_text (rep_link_registered r))
    +:+ append_pair 2 "evidence-present" (bool_text (rep_evidence_present r))
    +:+ append_pair 2 "policy"
          (ps_id policy +:+ "/gen" +:+ text.format_u64 (ps_generation policy) +:+ " " +:+ ps_content_hash policy)
    +:+ append_pair 2 "epoch" (text.format_u64 (rep_epoch r))
    +:+ append_pair 2 "evidence-counts"
          ("considered=" +:+ text.format_u64 (rep_evidence_considered r)
             +:+ " fresh=" +:+ text.format_u64 (rep_evidence_fresh r)
             +:+ " recovered=" +:+ text.format_u64 (rep_evidence_recovered r))
    +:+ append_pair 2 "generated-wall-nanos" (text.format_i64 (rep_generated_wall_nanos r))
    +:+ (if rep_truncated r then append_pair 2 "truncated" "true" else "")
    +:+ concat_map (fun a => render_assessment a 2) (rep_metrics r).

(** ** Inspections *)

(** The link, metric and lane every line of an inspection starts with. *)
Definition render_subject (link : LinkIdentity) (metric : MetricId) (lane : LaneDimension) : string :=
  append_indent 4 +:+ render_link_identity link +:+ " " +:+ render_metric_id metric
    +:+ " lane=" +:+ render_lane lane.

Definition render_claimant (r : EvidenceRef) : string :=
  append_indent 6 +:+ render_source_identity (ref_source r) +:+ " seq=" +:+ text.format_u64 (ref_sequence r)
    +:+ " authority=" +:+ text.format_u64 (ref_authority r) +:+ " value=" +:+ ref_rendered r +:+ newline.

Definition render_conflict (c : ConflictEntry) : string :=
  render_subject (ce_link c) (ce_metric c) (ce_lane c) +:+ " spread=" +:+ format_double (ce_spread c)
    +:+ " tolerance=" +:+ format_double (ce_tolerance c) +:+ newline
    +:+ concat_map render_claimant (ce_claimants c).

Definition render_stale (e : StaleEntry) : string :=
  render_subject (se_link e) (se_metric e) (se_lane e)
    +:+ " source=" +:+ render_source_identity (se_source e) +:+ " origin=" +:+ origin_to_string (se_origin e)
    +:+ " age-ns=" +:+ text.format_i64 (se_age_nanos e) +:+ " reason=" +:+ reason_to_string (se_reason e)
    +:+ newline.

Definition render_freshness (e : FreshnessEntry) : string :=
  render_subject (fe_link e) (fe_metric e) (fe_lane e)
    +:+ " fresh=" +:+ text.format_u64 (fe_fresh_sources e) +:+ " stale=" +:+ text.format_u64 (fe_stale_sources e)
    +:+ " recovered=" +:+ text.format_u64 (fe_recovered_sources e)
    +:+ " declared=" +:+ text.format_u64 (fe_declared_sources e)
    +:+ " newest-age-ns=" +:+ text.format_i64 (fe_newest_age_nanos e) +:+ newline.

Definition render_inspection (r : InspectionReport) : string :=
  "inspection epoch=" +:+ text.format_u64 (ir_epoch r) +:+ " policy=" +:+ ps_id (ir_policy r)
    +:+ "/gen" +:+ text.format_u64 (ps_generation (ir_policy r)) +:+ newline
    +:+ append_pair 2 "links-inspected" (text.format_u64 (ir_links_inspected r))
    +:+ append_pair 2 "entries-dropped" (text.format_u64 (ir_entries_dropped r))
    +:+ append_pair 2 "truncated" (bool_text (ir_truncated r))
    +:+ append_pair 2 "conflicts" (text.format_u64 (zlen (ir_conflicts r)))
    +:+ concat_map render_conflict (ir_conflicts r)
    +:+ append_pair 2 "stale" (text.format_u64 (zlen (ir_stale r)))
    +:+ concat_map render_stale (ir_stale r)
    +:+ append_pair 2 "freshness" (text.format_u64 (zlen (ir_freshness r)))
    +:+ concat_map render_freshness (ir_freshness r).

(** ** Policies and capabilities *)

Definition render_band (band : ThresholdBand) : string :=
  "    band " +:+ tb_id band +:+ " [" +:+ format_double (tb_lower band) +:+ ","
    +:+ match tb_upper band with Some u => format_double u | None => "inf" end
    +:+ ") -> " +:+ state_to_string (tb_state band) +:+ newline.

Definition render_rule (rule : MetricRule) : string :=
  "  rule " +:+ render_metric_id (mr_metric rule) +:+ " basis=" +:+ basis_to_string (mr_basis rule)
    +:+ " tolerance=" +:+ format_double (mr_conflict_tolerance rule)
    +:+ " validity-ns=" +:+ text.format_i64 (mr_validity_nanos rule)
    +:+ " gap-ns=" +:+ text.format_i64 (mr_max_continuity_gap_nanos rule)
    +:+ " wrap-inference=" +:+ bool_text (mr_wrap_inference rule) +:+ newline
    +:+ concat_map render_band (mr_bands rule).

Definition render_policy_document (document : PolicyDocument) : string :=
  let freshness := pd_freshness document in
  "policy " +:+ pd_id document +:+ " require-capability=" +:+ bool_text (pd_require_capability document)
    +:+ newline +:+ "  freshness default-validity-ns=" +:+ text.format_i64 (fp_default_validity_nanos freshness)
    +:+ " continuity-gap-ns=" +:+ text.format_i64 (fp_default_continuity_gap_nanos freshness)
    +:+ " min-rate-interval-ns=" +:+ text.format_i64 (fp_min_rate_interval_nanos freshness) +:+ newline
    +:+ concat_map (fun state => "  severity " +:+ state_to_string state +:+ "="
                       +:+ text.format_u64 (severity_of (ap_severity (pd_aggregation document)) state)
                       +:+ newline) enum_all
    +:+ concat_map render_rule (std_sort (fun l r => lessb (mr_metric l) (mr_metric r)) (pd_rules document))
    +:+ concat_map (fun metric => "  unsupported " +:+ render_metric_id metric +:+ newline)
          (pd_unsupported_metrics document).

Definition render_declared (s : DeclaredSource) : string :=
  "  " +:+ render_source_identity (ds_source s) +:+ " rev=" +:+ text.format_u64 (ds_revision s)
    +:+ " unit=" +:+ unit_to_string (ds_unit s) +:+ " semantics=" +:+ semantics_to_string (ds_semantics s)
    +:+ " width=" +:+ width_to_string (ds_counter_width s)
    +:+ " lanes=" +:+ (if ds_lanes_declared s then text.format_u64 (ds_lane_count s) else "none")
    +:+ " class=" +:+ class_to_string (ds_evidence_class s)
    +:+ " transport=" +:+ transport_to_string (ds_transport s) +:+ newline.

Definition render_capability_view (view : MetricCapabilityView) : string :=
  render_metric_id (mv_metric view) +:+ " declared-by=" +:+ text.format_u64 (zlen (mv_declared_by view))
    +:+ " unsupported-by=" +:+ text.format_u64 (zlen (mv_declared_unsupported_by view)) +:+ newline
    +:+ concat_map render_declared (mv_declared_by view)
    +:+ concat_map (fun s => "  unsupported-by " +:+ render_source_identity (ds_source s) +:+ newline)
          (mv_declared_unsupported_by view).

(** ** Explanations *)

Record Explanation := mkExplanation { ex_report : LinkQualityReport; ex_text : string }.

Definition explain_link `{LongDouble} (cx : ClassifierContext) (query : QualityQuery) : Explanation :=
  let report := classify_link cx query in mkExplanation report (render_report report).
End Rendering.
