(* ===== verification/Messages.v ===== *)
(** * Messages

    [transport/messages.hpp]: the requests and replies of the wire protocol with
    their field descriptions, and the reports of the fabric they carry that are
    not part of its state ([Fabric::explain], [Fabric::stats],
    [Fabric::journal_stats]). *)

From Stdlib Require Import ZArith Lia Bool List String Ascii.
From stdpp Require Import base decidable list strings.
From S2P Require Import Prelude OrdMap Float Core Hash Quality Metric Identity Counter.
From S2P Require Import Capability Config Policy Classification LinkRegistry EvidenceStore.
From S2P Require Import Codec FieldCodecs CapabilityRegistry Classifier Journal Fabric.
From S2P Require Import JournalSpec Frame Render.

Open Scope Z_scope.

(** Set by the build: [CMakeLists.txt]. *)
Definition LQF_WIRE_PROTOCOL_VERSION : Z := 1.

(** ** The message structures *)

Record HelloRequest := mkHelloRequest { hello_protocol_version : Z; hello_client_name : string;
  hello_client_epoch : Z }.
Record WelcomeReply := mkWelcomeReply { welcome_protocol_version : Z; welcome_server_epoch : Z;
  welcome_max_frame_bytes : Z; welcome_accepted : Z; welcome_detail : string }.
Record CapabilityAck := mkCapabilityAck { cack_revision : Z; cack_reason : ReasonCode.t;
  cack_duplicate : Z }.
Record PolicyAck := mkPolicyAck { pack_stamp : PolicyStamp }.
Record IngestAck := mkIngestAck { iack_accepted : Z; iack_duplicates : Z; iack_reordered : Z;
  iack_rejected : Z; iack_first_code : Status; iack_first_reason : ReasonCode.t }.
Record FlushAck := mkFlushAck { fack_records_written : Z; fack_bytes_written : Z }.
Record CompactAck := mkCompactAck { coack_records_written : Z; coack_compactions : Z }.
Record ShutdownRequest := mkShutdownRequest { shut_token : string }.
Record ShutdownAck := mkShutdownAck { sack_accepted : Z; sack_detail : string }.
Record CapabilitiesRequest := mkCapabilitiesRequest { capreq_link : LinkIdentity }.
Record CapabilitiesReply := mkCapabilitiesReply { caprep_views : list MetricCapabilityView }.
Record PolicyDocumentRequest := mkPolicyDocumentRequest { pdreq_generation : Z }.
Record PolicyDocumentReply := mkPolicyDocumentReply { pdrep_record : PolicyGenerationRecord;
  pdrep_found : Z; pdrep_detail : string }.
Record RecoverySummary := mkRecoverySummary { rsum_opened : bool; rsum_header_valid : bool;
  rsum_torn_tail : bool; rsum_degraded : bool; rsum_truncated : bool; rsum_snapshot_loaded : bool;
  rsum_limit_reached : bool; rsum_records_read : Z; rsum_bytes_read : Z; rsum_bytes_discarded : Z;
  rsum_status : Status }.

(** The counters of [FabricStats] in field order, then the rest of it. *)
Record StatsReport := mkStatsReport {
  sr_epoch : Z; sr_policy : PolicyStamp; sr_counters : list Z; sr_links : Z; sr_streams : Z;
  sr_retained_records : Z; sr_journal_enabled : bool; sr_open : bool; sr_recovery : RecoverySummary }.

(** ** Field descriptions *)

Definition c_status : codec Status := c_enum8 (enum_val StatusCode.Internal).
#[export] Instance c_status_laws : CodecLaws c_status := c_enum8_laws _.

Definition c_hello_request : codec HelloRequest := c_iso (fun v => (hello_protocol_version v,
  (hello_client_name v, hello_client_epoch v))) (fun '(x0, (x1, x2)) => mkHelloRequest x0 x1 x2)
  (c_pair c_u32 (c_pair c_string c_u64)).
#[export] Instance c_hello_request_laws : CodecLaws c_hello_request. Proof. record_codec. Qed.

Definition c_welcome_reply : codec WelcomeReply := c_iso (fun v => (welcome_protocol_version v,
  (welcome_server_epoch v, (welcome_max_frame_bytes v, (welcome_accepted v, welcome_detail v)))))
  (fun '(x0, (x1, (x2, (x3, x4)))) => mkWelcomeReply x0 x1 x2 x3 x4) (c_pair c_u32 (c_pair c_u64
  (c_pair c_u32 (c_pair c_u8 c_string)))).
#[export] Instance c_welcome_reply_laws : CodecLaws c_welcome_reply. Proof. record_codec. Qed.

Definition c_capability_ack : codec CapabilityAck := c_iso (fun v => (cack_revision v, (cack_reason
  v, cack_duplicate v))) (fun '(x0, (x1, x2)) => mkCapabilityAck x0 x1 x2) (c_pair c_u64 (c_pair
  c_reason c_u8)).
#[export] Instance c_capability_ack_laws : CodecLaws c_capability_ack. Proof. record_codec. Qed.

Definition c_policy_ack : codec PolicyAck := c_iso (fun v => pack_stamp v) (fun x0 => mkPolicyAck
  x0) c_policy_stamp.
#[export] Instance c_policy_ack_laws : CodecLaws c_policy_ack. Proof. record_codec. Qed.

Definition c_ingest_ack : codec IngestAck := c_iso (fun v => (iack_accepted v, (iack_duplicates v,
  (iack_reordered v, (iack_rejected v, (iack_first_code v, iack_first_reason v)))))) (fun '(x0, (x1,
  (x2, (x3, (x4, x5))))) => mkIngestAck x0 x1 x2 x3 x4 x5) (c_pair c_u64 (c_pair c_u64 (c_pair c_u64
  (c_pair c_u64 (c_pair c_status c_reason))))).
#[export] Instance c_ingest_ack_laws : CodecLaws c_ingest_ack. Proof. record_codec. Qed.

Definition c_flush_ack : codec FlushAck := c_iso (fun v => (fack_records_written v,
  fack_bytes_written v)) (fun '(x0, x1) => mkFlushAck x0 x1) (c_pair c_u64 c_u64).
#[export] Instance c_flush_ack_laws : CodecLaws c_flush_ack. Proof. record_codec. Qed.

Definition c_compact_ack : codec CompactAck := c_iso (fun v => (coack_records_written v,
  coack_compactions v)) (fun '(x0, x1) => mkCompactAck x0 x1) (c_pair c_u64 c_u64).
#[export] Instance c_compact_ack_laws : CodecLaws c_compact_ack. Proof. record_codec. Qed.

Definition c_shutdown_request : codec ShutdownRequest := c_iso (fun v => shut_token v) (fun x0 =>
  mkShutdownRequest x0) c_string.
#[export] Instance c_shutdown_request_laws : CodecLaws c_shutdown_request. Proof. record_codec. Qed.

Definition c_shutdown_ack : codec ShutdownAck := c_iso (fun v => (sack_accepted v, sack_detail v))
  (fun '(x0, x1) => mkShutdownAck x0 x1) (c_pair c_u8 c_string).
#[export] Instance c_shutdown_ack_laws : CodecLaws c_shutdown_ack. Proof. record_codec. Qed.

Definition c_capabilities_request : codec CapabilitiesRequest := c_iso (fun v => capreq_link v) (fun
  x0 => mkCapabilitiesRequest x0) c_link_identity.
#[export] Instance c_capabilities_request_laws : CodecLaws c_capabilities_request. Proof. record_codec. Qed.

Definition c_capabilities_reply : codec CapabilitiesReply := c_iso (fun v => caprep_views v) (fun x0
  => mkCapabilitiesReply x0) (c_vector c_capability_view).
#[export] Instance c_capabilities_reply_laws : CodecLaws c_capabilities_reply. Proof. record_codec. Qed.

Definition c_policy_document_request : codec PolicyDocumentRequest := c_iso (fun v =>
  pdreq_generation v) (fun x0 => mkPolicyDocumentRequest x0) c_u64.
#[export] Instance c_policy_document_request_laws : CodecLaws c_policy_document_request. Proof. record_codec. Qed.

Definition c_policy_document_reply : codec PolicyDocumentReply := c_iso (fun v => (pdrep_record v,
  (pdrep_found v, pdrep_detail v))) (fun '(x0, (x1, x2)) => mkPolicyDocumentReply x0 x1 x2) (c_pair
  c_policy_generation (c_pair c_u8 c_string)).
#[export] Instance c_policy_document_reply_laws : CodecLaws c_policy_document_reply. Proof. record_codec. Qed.

Definition c_recovery_summary : codec RecoverySummary := c_iso (fun v => (rsum_opened v,
  (rsum_header_valid v, (rsum_torn_tail v, (rsum_degraded v, (rsum_truncated v,
  (rsum_snapshot_loaded v, (rsum_limit_reached v, (rsum_records_read v, (rsum_bytes_read v,
  (rsum_bytes_discarded v, rsum_status v))))))))))) (fun '(x0, (x1, (x2, (x3, (x4, (x5, (x6, (x7,
  (x8, (x9, x10)))))))))) => mkRecoverySummary x0 x1 x2 x3 x4 x5 x6 x7 x8 x9 x10) (c_pair c_bool
  (c_pair c_bool (c_pair c_bool (c_pair c_bool (c_pair c_bool (c_pair c_bool (c_pair c_bool (c_pair
  c_u64 (c_pair c_u64 (c_pair c_u64 c_status)))))))))).
#[export] Instance c_recovery_summary_laws : CodecLaws c_recovery_summary. Proof. record_codec. Qed.

Definition c_explanation : codec Explanation :=
  c_iso (fun v => (ex_report v, ex_text v)) (fun '(x0, x1) => mkExplanation x0 x1)
    (c_pair c_link_quality_report c_string).
#[export] Instance c_explanation_laws : CodecLaws c_explanation. Proof. record_codec. Qed.

(** [stats_] has thirty counters of 64 bits between the policy and the sizes. *)
Definition stats_counter_count : nat := 30.

Definition c_stats_report : codec StatsReport :=
  c_iso (fun v => (sr_epoch v, (sr_policy v, (sr_counters v, (sr_links v, (sr_streams v,
                   (sr_retained_records v, (sr_journal_enabled v, (sr_open v, sr_recovery v)))))))))
    (fun '(x0, (x1, (x2, (x3, (x4, (x5, (x6, (x7, x8)))))))) => mkStatsReport x0 x1 x2 x3 x4 x5 x6 x7 x8)
    (c_pair c_u64 (c_pair c_policy_stamp (c_pair (c_array stats_counter_count c_u64) (c_pair c_u64
      (c_pair c_u64 (c_pair c_u64 (c_pair c_bool (c_pair c_bool c_recovery_summary)))))))).
#[export] Instance c_stats_report_laws : CodecLaws c_stats_report. Proof. record_codec. Qed.

(** ** The reports of the fabric *)

Definition summarize (report : RecoveryReport) : RecoverySummary :=
  mkRecoverySummary (rr_opened report) (rr_header_valid report) (rr_torn_tail report) (rr_degraded report)
    (rr_truncated_file report) (rr_snapshot_loaded report) (rr_limit_reached report) (rr_records_read report)
    (rr_bytes_read report) (rr_bytes_discarded report) (rr_status report).

(** [Fabric::journal_stats]. *)
Definition journal_stats (f : Fabric) : JournalStats :=
  match fb_journal f with Some j => BackgroundJournal.stats_now j | None => empty_stats end.

(** The counters the runtime keeps, in field order; [limit_rejections] and
    [journal_bytes] are fields it never counts itself. *)
Definition counters_of (f : Fabric) : list Z :=
  let s field := stat field (fb_stats f) in
  let of_journal (own : Z) (g : JournalStats -> Z) :=
    match fb_journal f with Some j => g (BackgroundJournal.stats j) | None => own end in
  [s Stat.observations_accepted; s Stat.observations_duplicate; s Stat.observations_reordered;
   s Stat.observations_rejected; s Stat.observations_recovered; s Stat.ingest_batches;
   s Stat.capability_declarations; s Stat.capability_rejections; s Stat.policy_publications;
   s Stat.policy_rejections; s Stat.links_observed; s Stat.links_registered; s Stat.generations_advanced;
   s Stat.queries_served; s Stat.window_queries; s Stat.explanations; s Stat.inspections;
   s Stat.stream_evictions; s Stat.history_evictions; s Stat.continuity_breaks; s Stat.wraps_inferred;
   s Stat.resets_observed; s Stat.unproven_decreases; 0;
   of_journal (s Stat.journal_records) js_records_written; of_journal 0 js_bytes_written;
   of_journal (s Stat.journal_rejections)
     (fun j => wrap64 (s Stat.journal_rejections + js_rejected_appends j));
   of_journal (s Stat.compactions) js_compactions; s Stat.recovered_records; s Stat.recoveries].

(** [Fabric::stats] of an initialized fabric. *)
Definition stats (f : Fabric) : StatsReport :=
  mkStatsReport (fb_epoch f) (pgr_stamp (current_policy f)) (counters_of f)
    (LinkRegistry.size (fb_links f)) (EvidenceStore.stream_count (fb_evidence f))
    (EvidenceStore.record_count (fb_evidence f))
    (match fb_journal f with
     | Some j => js_open (BackgroundJournal.stats j)
     | None => jc_enabled (fc_journal (fb_config f))
     end) (fb_open f) (summarize (fb_recovery f)).

(** [Fabric::explain]. *)
Definition explain `{Charconv} `{LongDouble} (now : ClockReading) (request : QualityQuery) (f : Fabric)
  : Outcome Explanation * Fabric :=
  match validate_link_identity (qq_link request) with
  | StatusCode.Ok => (Good (explain_link (context_at f now) request), count Stat.explanations 1 f)
  | e => (Bad e, f)
  end.
