(* ===== verification/Server.v ===== *)
(** * The server

    [transport/server.*].  The operating system's part is explicit: the bytes a
    peer has sent and not yet been read, whether it closed its end, how many bytes
    each [send] takes and whether it fails, the clock readings taken while a
    request is served, what the file system does to a compaction or a flush, and
    the text a refusal carries (statuses are identified with their codes, so the
    text is an input).  A connection's thread reads a whole request, dispatches it
    and sends the reply, which are steps of their own: other threads run, and the
    server may be asked to stop, between them; and a reply is sent in as many
    steps as the socket needs, each of which a peer that does not read delays for
    as long as it likes.  The accept loop is a thread of the same kind.  The
    threads are any interleaving of these steps, since the state they share is
    behind locks.  A handler that makes several calls on the fabric (a batch, a
    flush or a compaction followed by the statistics, the current generation
    followed by its document) is one step.  A read that ends because the peer is
    gone, by an orderly close or by an error, is [co_eof].  A process that a signal
    kills takes no further step. *)

From Stdlib Require Import ZArith Lia Bool List String Ascii.
From stdpp Require Import base decidable list strings.
From S2P Require Import Prelude OrdMap Float Core Hash Quality Metric Identity Counter.
From S2P Require Import Capability Config Policy Classification LinkRegistry EvidenceStore.
From S2P Require Import Codec FieldCodecs CapabilityRegistry Classifier Journal Fabric.
From S2P Require Import JournalSpec Frame Render Messages.

Open Scope Z_scope.

Record ServerConfig := mkServerConfig {
  sc_frames : FrameLimits;
  sc_codec : CodecLimits;
  sc_max_connections : Z;
  sc_shutdown_token : string;
}.

(** What the world answers while one request is served. *)
Record RequestEnv := mkRequestEnv {
  env_clock : nat -> ClockReading;
  env_compaction : CompactFaults;
  env_sync_ok : bool;
  env_text : string;
  env_sent : option Z;    (* of a reply: all of it, or so many bytes before the send fails *)
}.

(** ** Dispatch *)

(** [PolicyGenerationRecord{}]: the member initialisers. *)
Definition default_policy_record : PolicyGenerationRecord :=
  mkPolicyGenerationRecord (mkPolicyStamp "" 0 "") (mkTimestamp 0 false)
    (mkPolicyDocument "default" [] (mkFreshnessPolicy 15000000000 [] 60000000000 1000000)
       (mkAggregationPolicy severity_defaults true) [] true).

(** [decode_request] is [decode_body] of the fabric; [encode_reply] is [encode]. *)
Definition reply_frame {A} (c : codec A) (L : CodecLimits) (type : MessageType.t) (value : A) : Outcome Frame :=
  match encode c L value with Good body => Good (mkFrame type body) | Bad s => Bad s end.

(** The observations of a batch, each with the clock reading it takes. *)
Fixpoint stamped (clock : nat -> ClockReading) (k : nat) (observations : list Observation)
  : list (ClockReading * Observation) :=
  match observations with
  | [] => []
  | o :: rest => (clock k, o) :: stamped clock (S k) rest
  end.

Section Dispatch.
Context `{Charconv} `{LongDouble}.
Context (config : ServerConfig) (env : RequestEnv).

(** A handler that decodes its request, runs an entry point and encodes the
    answer. *)
Definition handle {A B R} (cr : codec R) (request : Frame) (call : R -> Fabric -> Outcome A * Fabric)
    (answer : R -> Fabric -> A -> B) (cb : codec B) (type : MessageType.t) (f : Fabric) : Outcome Frame * Fabric :=
  match decode_body cr (sc_codec config) (fr_body request) with
  | Bad s => (Bad s, f)
  | Good value =>
      match call value f with
      | (Bad s, f') => (Bad s, f')
      | (Good a, f') => (reply_frame cb (sc_codec config) type (answer value f' a), f')
      end
  end.

Definition welcome (f : Fabric) (hello : HelloRequest) : WelcomeReply :=
  if hello_protocol_version hello =? LQF_WIRE_PROTOCOL_VERSION
  then mkWelcomeReply LQF_WIRE_PROTOCOL_VERSION (fb_epoch f) (fl_max_frame_bytes (sc_frames config)) 1 ""
  else mkWelcomeReply LQF_WIRE_PROTOCOL_VERSION (fb_epoch f) (fl_max_frame_bytes (sc_frames config)) 0
         "protocol version mismatch".

(** [first_reason] of a batch is never set by the fabric. *)
Definition ingest_ack (b : BatchOutcome) : IngestAck :=
  mkIngestAck (bo_accepted b) (bo_duplicates b) (bo_reordered b) (bo_rejected b) (bo_first_code b)
    ReasonCode.None.

Definition find_policy (request : PolicyDocumentRequest) (f : Fabric) : PolicyDocumentReply :=
  let generation := if counter_is_zero (pdreq_generation request)
                    then ps_generation (pgr_stamp (current_policy f)) else pdreq_generation request in
  match policy_document generation f with
  | Good record => mkPolicyDocumentReply record 1 ""
  | Bad _ => mkPolicyDocumentReply default_policy_record 0 "policy generation is not retained"
  end.

(** The acknowledgement of a shutdown request, and whether it is obeyed. *)
Definition shutdown_ack (request : ShutdownRequest) : Outcome (ShutdownAck * bool) :=
  if String.eqb (sc_shutdown_token config) "" then
    Good (mkShutdownAck 0 "shutdown is not armed on this runtime", false)
  else if negb (String.eqb (shut_token request) (sc_shutdown_token config)) then Bad StatusCode.Refused
  else Good (mkShutdownAck 1 "shutdown accepted", true).

(** An entry point that only reads the state. *)
Definition reading {R A} (g : R -> Fabric -> Outcome A) (value : R) (f : Fabric) : Outcome A * Fabric :=
  (g value f, f).

(** The second half of the switch: statistics, persistence, the documents and
    the shutdown. *)
Definition dispatch_control (request : Frame) (f : Fabric) : Outcome Frame * bool * Fabric :=
  let L := sc_codec config in
  let served (r : Outcome Frame * Fabric) := (r.1, false, r.2) in
  match fr_type request with
  | MessageType.Stats => (reply_frame c_stats_report L MessageType.StatsReply (stats f), false, f)
  | MessageType.Flush =>
      match flush (env_sync_ok env) f with
      | (StatusCode.Ok, f') =>
          let j := journal_stats f' in
          (reply_frame c_flush_ack L MessageType.FlushAck
             (mkFlushAck (js_records_written j) (js_bytes_written j)), false, f')
      | (e, f') => (Bad e, false, f')
      end
  | MessageType.Compact =>
      match compact (env_compaction env) f with
      | (StatusCode.Ok, f') =>
          let j := journal_stats f' in
          (reply_frame c_compact_ack L MessageType.CompactAck
             (mkCompactAck (js_records_written j) (js_compactions j)), false, f')
      | (e, f') => (Bad e, false, f')
      end
  | MessageType.Capabilities =>
      served (handle c_capabilities_request request (reading (fun r => capabilities (capreq_link r)))
                (fun _ _ views => mkCapabilitiesReply views) c_capabilities_reply
                MessageType.CapabilitiesReply f)
  | MessageType.PolicyDocument =>
      served (handle c_policy_document_request request (reading (fun r f => Good (find_policy r f)))
                (fun _ _ reply => reply) c_policy_document_reply MessageType.PolicyDocumentReply f)
  | MessageType.Shutdown =>
      match decode_body c_shutdown_request L (fr_body request) with
      | Bad s => (Bad s, false, f)
      | Good shutdown =>
          match shutdown_ack shutdown with
          | Bad s => (Bad s, false, f)
          | Good (ack, stop) =>
              match reply_frame c_shutdown_ack L MessageType.ShutdownAck ack with
              | Good reply => (Good reply, stop, f)
              | Bad s => (Bad s, false, f)
              end
          end
      end
  | _ => (Bad StatusCode.Unsupported, false, f)
  end.

(** The first half: the handshake, the declarations and the queries. *)
Definition dispatch (request : Frame) (f : Fabric) : Outcome Frame * bool * Fabric :=
  let now := env_clock env 0 in
  let served (r : Outcome Frame * Fabric) := (r.1, false, r.2) in
  match fr_type request with
  | MessageType.Hello =>
      served (handle c_hello_request request (reading (fun hello f => Good (welcome f hello)))
                (fun _ _ w => w) c_welcome_reply MessageType.Welcome f)
  | MessageType.RegisterCapability =>
      served (handle c_capability_declaration request declare_capability
                (fun d _ (duplicate : bool) =>
                   mkCapabilityAck (cap_revision d) ReasonCode.None (if duplicate then 1 else 0))
                c_capability_ack MessageType.CapabilityAck f)
  | MessageType.PublishPolicy =>
      served (handle c_policy_document request (publish_policy now)
                (fun _ _ stamp => mkPolicyAck stamp) c_policy_ack MessageType.PolicyAck f)
  | MessageType.Ingest =>
      served (handle (c_vector c_observation) request
                (fun l => ingest_batch (env_compaction env) (stamped (env_clock env) 0 l))
                (fun _ _ b => ingest_ack b) c_ingest_ack MessageType.IngestAck f)
  | MessageType.Query =>
      served (handle c_quality_query request (query now) (fun _ _ report => report)
                c_link_quality_report MessageType.QualityReport f)
  | MessageType.Window =>
      served (handle c_window_query request (window now) (fun _ _ result => result)
                c_window_result MessageType.WindowReply f)
  | MessageType.Explain =>
      served (handle c_quality_query request (explain now) (fun _ _ explanation => explanation)
                c_explanation MessageType.ExplanationReply f)
  | MessageType.Inspect =>
      served (handle c_inspection_filter request (inspect now) (fun _ _ inspection => inspection)
                c_inspection_report MessageType.InspectionReply f)
  | _ => dispatch_control request f
  end.
End Dispatch.

(** ** Connections *)

Record ServerStats := mkServerStats {
  ss_connections_accepted : Z; ss_connections_rejected : Z; ss_frames_in : Z; ss_frames_out : Z;
  ss_protocol_errors : Z; ss_requests_refused : Z; ss_bytes_in : Z; ss_bytes_out : Z }.

Definition note_connection_accepted (s : ServerStats) : ServerStats :=
  mkServerStats (incr64 (ss_connections_accepted s)) (ss_connections_rejected s) (ss_frames_in s)
    (ss_frames_out s) (ss_protocol_errors s) (ss_requests_refused s) (ss_bytes_in s) (ss_bytes_out s).
Definition note_connection_rejected (s : ServerStats) : ServerStats :=
  mkServerStats (ss_connections_accepted s) (incr64 (ss_connections_rejected s)) (ss_frames_in s)
    (ss_frames_out s) (ss_protocol_errors s) (ss_requests_refused s) (ss_bytes_in s) (ss_bytes_out s).
Definition note_frames_in (bytes : Z) (s : ServerStats) : ServerStats :=
  mkServerStats (ss_connections_accepted s) (ss_connections_rejected s) (incr64 (ss_frames_in s))
    (ss_frames_out s) (ss_protocol_errors s) (ss_requests_refused s) (wrap64 (ss_bytes_in s + bytes))
    (ss_bytes_out s).
Definition note_frames_out (bytes : Z) (s : ServerStats) : ServerStats :=
  mkServerStats (ss_connections_accepted s) (ss_connections_rejected s) (ss_frames_in s)
    (incr64 (ss_frames_out s)) (ss_protocol_errors s) (ss_requests_refused s) (ss_bytes_in s)
    (wrap64 (ss_bytes_out s + bytes)).
Definition note_protocol_error (s : ServerStats) : ServerStats :=
  mkServerStats (ss_connections_accepted s) (ss_connections_rejected s) (ss_frames_in s) (ss_frames_out s)
    (incr64 (ss_protocol_errors s)) (ss_requests_refused s) (ss_bytes_in s) (ss_bytes_out s).
Definition note_request_refused (s : ServerStats) : ServerStats :=
  mkServerStats (ss_connections_accepted s) (ss_connections_rejected s) (ss_frames_in s) (ss_frames_out s)
    (ss_protocol_errors s) (incr64 (ss_requests_refused s)) (ss_bytes_in s) (ss_bytes_out s).

(** [send_status] up to the call of [send_all]: the bytes to send, or why the
    reply cannot be encoded. *)
Definition begin_status (config : ServerConfig) (code : Status) (text : string) (s : ServerStats)
  : Outcome (list Z) * ServerStats :=
  match encode_error_reply (mkErrorReply code text) with
  | Bad e => (Bad e, s)
  | Good body => (encode_frame (mkFrame MessageType.Error body) (sc_frames config), note_request_refused s)
  end.

(** What a connection's thread does once its reply is sent. *)
Inductive After := KeepServing | StopServer | HangUp.

(** Where the thread is: reading a request, with a request it has read, in
    [send_all] with [pending] still to go of [total] bytes, or at its end. *)
Inductive Stage :=
  | Reading
  | Dispatching (request : Frame)
  | Sending (pending : list Z) (total : Z) (after : After)
  | Ended.

(** One connection: the bytes received and not yet consumed, whether the peer
    closed its end, everything sent to it, and where its thread is. *)
Record Connection := mkConnection {
  co_input : list Z; co_eof : bool; co_output : list Z; co_stage : Stage }.

(** [done]. *)
Definition co_done (co : Connection) : bool := match co_stage co with Ended => true | _ => false end.

(** Where the accept loop is: before its test of the stop flag, waiting for a
    connection, refusing one ([sent] so far, [pending] to go), or at its end. *)
Inductive AcceptStage :=
  | Checking
  | Waiting
  | Refusing (sent pending : list Z) (total : Z)
  | AcceptEnded.

(** [ac_sent]: what the peers that were refused have been sent. *)
Record Acceptor := mkAcceptor { ac_stage : AcceptStage; ac_sent : list (list Z) }.

Record Server := mkServer {
  sv_config : ServerConfig;
  sv_fabric : Fabric;
  sv_stats : ServerStats;
  sv_stop_requested : bool;
  sv_active : Z;
  sv_connections : list Connection;
  sv_acceptor : Acceptor;
}.

Definition with_fabric (sv : Server) (f : Fabric) (s : ServerStats) : Server :=
  mkServer (sv_config sv) f s (sv_stop_requested sv) (sv_active sv) (sv_connections sv) (sv_acceptor sv).

Definition with_counters (sv : Server) (s : ServerStats) : Server := with_fabric sv (sv_fabric sv) s.

Definition with_acceptor (sv : Server) (a : Acceptor) : Server :=
  mkServer (sv_config sv) (sv_fabric sv) (sv_stats sv) (sv_stop_requested sv) (sv_active sv) (sv_connections sv) a.

Definition request_stop (sv : Server) : Server :=
  mkServer (sv_config sv) (sv_fabric sv) (sv_stats sv) true (sv_active sv) (sv_connections sv) (sv_acceptor sv).

(** The end of [connection_loop]: [done] is set and the counter decremented. *)
Definition finish (sv : Server) (co : Connection) : Server * Connection :=
  (mkServer (sv_config sv) (sv_fabric sv) (sv_stats sv) (sv_stop_requested sv) (sv_active sv - 1)
     (sv_connections sv) (sv_acceptor sv),
   mkConnection [] (co_eof co) (co_output co) Ended).

Definition at_stage (co : Connection) (input : list Z) (stage : Stage) : Connection :=
  mkConnection input (co_eof co) (co_output co) stage.

(** A reply that could be encoded is sent; one that could not ends the loop. *)
Definition send_or_finish (sv : Server) (co : Connection) (input : list Z) (encoded : Outcome (list Z)) (after : After)
  : Server * Connection :=
  match encoded with
  | Bad _ => finish sv co
  | Good bytes => (sv, at_stage co input (Sending bytes (zlen bytes) after))
  end.

(** A read that did not get its bytes: the thread waits, or the peer is gone. *)
Definition short_read (sv : Server) (co : Connection) : option (Server * Connection) :=
  if co_eof co then Some (finish sv co) else None.

(** ** The steps of a connection's thread

    [None]: the thread is not there, or waits for bytes. *)

(** The test of the stop flag and the reading of one request.  The flag is tested
    again whenever the thread has waited, so a thread that is reading when the
    server stops ends. *)
Definition read_step (text : string) (sv : Server) (co : Connection) : option (Server * Connection) :=
  let config := sv_config sv in
  let drop_with code s :=
    let '(encoded, s') := begin_status config code text (note_protocol_error s) in
    Some (send_or_finish (with_counters sv s') co [] encoded HangUp) in
  match co_stage co with
  | Reading =>
      if sv_stop_requested sv then Some (finish sv co)
      else match read_exact kFrameHeaderBytes (co_input co) with
      | None => short_read sv co
      | Some (header, after) =>
          match decode_frame_header header (sc_frames config) with
          | Bad code => drop_with code (sv_stats sv)
          | Good (payload_length, payload_crc) =>
              match read_exact payload_length after with
              | None => short_read sv co
              | Some (payload, rest) =>
                  let s := note_frames_in (kFrameHeaderBytes + payload_length) (sv_stats sv) in
                  match decode_frame_payload payload payload_crc with
                  | Bad code => drop_with code s
                  | Good request => Some (with_counters sv s, at_stage co rest (Dispatching request))
                  end
              end
          end
      end
  | _ => None
  end.

Section Loop.
Context `{Charconv} `{LongDouble}.

(** The request is dispatched and its reply encoded. *)
Definition dispatch_step (env : RequestEnv) (sv : Server) (co : Connection) : option (Server * Connection) :=
  let config := sv_config sv in
  match co_stage co with
  | Dispatching request =>
      let '(outcome, stop_after, f) := dispatch config env request (sv_fabric sv) in
      let '(encoded, s) :=
        match outcome with
        | Bad code => begin_status config code (env_text env) (sv_stats sv)
        | Good reply => (encode_frame reply (sc_frames config), sv_stats sv)
        end in
      Some (send_or_finish (with_fabric sv f s) co (co_input co) encoded (if stop_after then StopServer else KeepServing))
  | _ => None
  end.

(** What one call of [send] answers: the bytes it took, or a failure. *)
Inductive SendAnswer := Took (n : Z) | SendFailed.

(** One round of [send_all], and what the loop does when it returns. *)
Definition send_step (answer : SendAnswer) (sv : Server) (co : Connection) : option (Server * Connection) :=
  match co_stage co with
  | Sending pending total after =>
      let n := match answer with Took n => n | SendFailed => 0 end in
      if n <=? 0 then Some (finish sv co)
      else
        let co := mkConnection (co_input co) (co_eof co) (co_output co ++ take (Z.to_nat n) pending)
                    (Sending (drop (Z.to_nat n) pending) total after) in
        match drop (Z.to_nat n) pending with
        | _ :: _ => Some (sv, co)
        | [] =>
            let sv := with_counters sv (note_frames_out total (sv_stats sv)) in
            match after with
            | KeepServing => Some (sv, at_stage co (co_input co) Reading)
            | StopServer => Some (finish (request_stop sv) co)
            | HangUp => Some (finish sv co)
            end
        end
  | _ => None
  end.

(** ** A whole iteration

    What the loop does when nothing comes between its steps: the request is
    read, dispatched, and the reply sent as far as [env_sent] says. *)

Definition settle (step : Server -> Connection -> option (Server * Connection)) (p : Server * Connection)
  : Server * Connection := match step p.1 p.2 with Some q => q | None => p end.

Definition send_rest (limit : option Z) (p : Server * Connection) : Server * Connection :=
  match co_stage p.2 with
  | Sending pending _ _ =>
      if write_complete limit pending then settle (send_step (Took (zlen pending))) p
      else settle (send_step SendFailed)
             (settle (fun sv co => match written_of limit pending with
                                   | [] => None
                                   | part => send_step (Took (zlen part)) sv co
                                   end) p)
  | _ => p
  end.

Definition connection_step (env : RequestEnv) (sv : Server) (co : Connection) : option (Server * Connection) :=
  match read_step (env_text env) sv co with
  | None => None
  | Some p => Some (send_rest (env_sent env) (settle (dispatch_step env) p))
  end.
End Loop.

(** ** The accept loop *)

(** [reap_finished_locked]. *)
Definition reap_finished (sv : Server) : Server :=
  mkServer (sv_config sv) (sv_fabric sv) (sv_stats sv) (sv_stop_requested sv) (sv_active sv)
    (List.filter (fun co => negb (co_done co)) (sv_connections sv)) (sv_acceptor sv).

Definition at_accept (sv : Server) (stage : AcceptStage) : Server :=
  with_acceptor sv (mkAcceptor stage (ac_sent (sv_acceptor sv))).

(** The test of the stop flag, and the reaping. *)
Definition accept_check (sv : Server) : option Server :=
  match ac_stage (sv_acceptor sv) with
  | Checking => Some (if sv_stop_requested sv then at_accept sv AcceptEnded else at_accept (reap_finished sv) Waiting)
  | _ => None
  end.

(** The wait returns because of the wakeup channel, or fails. *)
Definition accept_woken (wait_ok : bool) (sv : Server) : option Server :=
  match ac_stage (sv_acceptor sv) with
  | Waiting => Some (at_accept sv (if wait_ok then Checking else AcceptEnded))
  | _ => None
  end.

(** [send_status] to a peer that is not served. *)
Definition refuse_peer (sv : Server) (code : Status) (text : string) (s : ServerStats) : Server :=
  let '(encoded, s') := begin_status (sv_config sv) code text s in
  at_accept (with_counters sv s')
    match encoded with Bad _ => Checking | Good bytes => Refusing [] bytes (zlen bytes) end.

(** One ready listener: refused at capacity, otherwise a new connection when the
    wakeup channel can be created. *)
Definition accept_one (accept_ok : bool) (channel : Status) (text : string) (sv : Server) : option Server :=
  match ac_stage (sv_acceptor sv) with
  | Waiting =>
      let config := sv_config sv in
      Some (if sc_max_connections config <=? sv_active sv then
              let s := note_connection_rejected (sv_stats sv) in
              if accept_ok then refuse_peer sv StatusCode.Busy text s
              else at_accept (with_counters sv s) Checking
            else if negb accept_ok then at_accept sv Checking
            else if negb (ok channel) then refuse_peer sv channel text (sv_stats sv)
            else
              mkServer config (sv_fabric sv) (note_connection_accepted (sv_stats sv)) (sv_stop_requested sv)
                (sv_active sv + 1) (sv_connections sv ++ [mkConnection [] false [] Reading])
                (mkAcceptor Checking (ac_sent (sv_acceptor sv))))
  | _ => None
  end.

(** One round of sending a refusal; the socket is closed at the end. *)
Definition refusal_step (answer : SendAnswer) (sv : Server) : option Server :=
  match ac_stage (sv_acceptor sv) with
  | Refusing sent pending total =>
      let n := match answer with Took n => n | SendFailed => 0 end in
      let closed sent := mkAcceptor Checking (ac_sent (sv_acceptor sv) ++ [sent]) in
      if n <=? 0 then Some (with_acceptor sv (closed sent))
      else
        let sent := sent ++ take (Z.to_nat n) pending in
        match drop (Z.to_nat n) pending with
        | [] => Some (with_acceptor (with_counters sv (note_frames_out total (sv_stats sv))) (closed sent))
        | rest => Some (at_accept sv (Refusing sent rest total))
        end
  | _ => None
  end.

(** ** The server's threads *)

Inductive ServerEvent :=
  | EvAcceptCheck
  | EvAcceptWoken (wait_ok : bool)
  | EvAccept (accept_ok : bool) (channel : Status) (text : string)
  | EvRefusalSend (answer : SendAnswer)
  | EvReceive (i : nat) (data : list Z)
  | EvPeerCloses (i : nat)
  | EvRead (i : nat) (text : string)
  | EvDispatch (i : nat) (env : RequestEnv)
  | EvSend (i : nat) (answer : SendAnswer)
  | EvRequestStop.

(** Replace connection [i]. *)
Definition with_connection (sv : Server) (i : nat) (co : Connection) : Server :=
  mkServer (sv_config sv) (sv_fabric sv) (sv_stats sv) (sv_stop_requested sv) (sv_active sv)
    (<[i := co]> (sv_connections sv)) (sv_acceptor sv).

(** A step of the thread of connection [i]. *)
Definition on_thread (step : Server -> Connection -> option (Server * Connection)) (i : nat) (sv : Server)
  : option Server :=
  match sv_connections sv !! i with
  | Some co => match step sv co with Some (sv', co') => Some (with_connection sv' i co') | None => None end
  | None => None
  end.

Section Run.
Context `{Charconv} `{LongDouble}.

(** [None]: the step cannot be taken. *)
Definition server_step (sv : Server) (ev : ServerEvent) : option Server :=
  match ev with
  | EvAcceptCheck => accept_check sv
  | EvAcceptWoken wait_ok => accept_woken wait_ok sv
  | EvAccept accept_ok channel text => accept_one accept_ok channel text sv
  | EvRefusalSend answer => refusal_step answer sv
  | EvReceive i data =>
      on_thread (fun sv co => Some (sv, mkConnection (co_input co ++ data) (co_eof co) (co_output co) (co_stage co))) i sv
  | EvPeerCloses i =>
      on_thread (fun sv co => Some (sv, mkConnection (co_input co) true (co_output co) (co_stage co))) i sv
  | EvRead i text => on_thread (read_step text) i sv
  | EvDispatch i env => on_thread (dispatch_step env) i sv
  | EvSend i answer => on_thread (send_step answer) i sv
  | EvRequestStop => Some (request_stop sv)
  end.

(** Events in an order; one that cannot happen does not. *)
Definition server_next (sv : Server) (ev : ServerEvent) : Server :=
  match server_step sv ev with Some sv' => sv' | None => sv end.
Definition server_steps (events : list ServerEvent) (sv : Server) : Server := fold_left server_next events sv.
End Run.

(** ** Waiting for the stop

    [wait] evaluates its predicate under [wait_mutex_] and then blocks, releasing the
    mutex; [request_stop] sets the flag and notifies, without taking the mutex. *)

Inductive Waiter := Testing | Falling | Asleep | Awake.

(** A step of the thread in [wait]; [None] while it is asleep or has returned. *)
Definition wait_step (stop_requested : bool) (w : Waiter) : option Waiter :=
  match w with
  | Testing => Some (if stop_requested then Awake else Falling)
  | Falling => Some Asleep
  | Asleep | Awake => None
  end.

(** [wait_cv_.notify_all]. *)
Definition notify_waiter (w : Waiter) : Waiter := match w with Asleep => Testing | _ => w end.

(** ** Starting and stopping *)

Definition no_stats : ServerStats := mkServerStats 0 0 0 0 0 0 0 0.
Definition new_acceptor : Acceptor := mkAcceptor Checking [].

(** [start]: [wake] and [listener] are what creating the channel and the
    listening socket report. *)
Definition start (config : ServerConfig) (f : Fabric) (running : bool) (wake listener : Status) : Outcome Server :=
  if running then Bad StatusCode.Busy
  else if sc_max_connections config =? 0 then Bad StatusCode.Invalid
  else match wake ;;? listener with
       | StatusCode.Ok => Good (mkServer config f no_stats false 0 [] new_acceptor)
       | e => Bad e
       end.

Definition acceptor_ended (sv : Server) : bool :=
  match ac_stage (sv_acceptor sv) with AcceptEnded => true | _ => false end.

(** The joins of [stop]: they have all returned once every thread is at its end;
    [None] before. *)
Definition join_all (sv : Server) : option Server :=
  if acceptor_ended sv && forallb co_done (sv_connections sv)
  then Some (mkServer (sv_config sv) (sv_fabric sv) (sv_stats sv) (sv_stop_requested sv) (sv_active sv) []
               (sv_acceptor sv))
  else None.

(** [stop] from the owning thread, while the other threads do [events]. *)
Definition stop `{Charconv} `{LongDouble} (events : list ServerEvent) (sv : Server) : option Server :=
  join_all (server_steps events (request_stop sv)).
