(* ===== verification/Client.v ===== *)
(** * The client

    [transport/client.*].  A request is one frame out and one frame back over
    one connection.  The socket is an interface ([Channel]): what it carries to
    the peer and what arrives in return.  A read that can never be satisfied,
    because the peer neither answers nor closes, has no result. *)

From Stdlib Require Import ZArith Lia Bool List String Ascii.
From stdpp Require Import base decidable list strings.
From S2P Require Import Prelude OrdMap Float Core Hash Quality Metric Identity Counter.
From S2P Require Import Capability Config Policy Classification LinkRegistry EvidenceStore.
From S2P Require Import Codec FieldCodecs CapabilityRegistry Classifier Journal Fabric.
From S2P Require Import JournalSpec Frame Render Messages Server.

Open Scope Z_scope.

Record ClientConfig := mkClientConfig {
  ccf_port : Z;
  ccf_frames : FrameLimits;
  ccf_codec : CodecLimits;
  ccf_client_name : string;
  ccf_client_epoch : Z;
}.

(** The bytes that arrived and were not read are part of the connection. *)
Record FabricClient := mkFabricClient {
  cl_config : ClientConfig; cl_server_epoch : Z; cl_connected : bool; cl_unread : list Z }.

(** [transmit data s]: the bytes are handed to the peer, or the send fails;
    otherwise, what arrives before the peer waits again, and whether it closed
    its end. *)
Class Channel (S : Type) := { transmit : list Z -> S -> Outcome (list Z * bool) * S }.

(** [None]: the call never returns. *)
Definition Answer (A : Type) : Type := option (Outcome A).

Definition connect (config : ClientConfig) (socket : Status) : Outcome FabricClient :=
  if ccf_port config =? 0 then Bad StatusCode.Invalid
  else match socket with
       | StatusCode.Ok => Good (mkFabricClient config 0 true [])
       | e => Bad e
       end.

Definition close_client (c : FabricClient) : FabricClient :=
  mkFabricClient (cl_config c) (cl_server_epoch c) false [].

Definition with_unread (c : FabricClient) (unread : list Z) : FabricClient :=
  mkFabricClient (cl_config c) (cl_server_epoch c) (cl_connected c) unread.

(** [recv_exact]. *)
Definition recv_exact (n : Z) (closed : bool) (unread : list Z) : Answer (list Z * list Z) :=
  match read_exact n unread with
  | Some r => Some (Good r)
  | None => if closed then Some (Bad StatusCode.Cancelled) else None
  end.

Definition receive_frame (c : FabricClient) (closed : bool) : Answer Frame * FabricClient :=
  match recv_exact kFrameHeaderBytes closed (cl_unread c) with
  | None => (None, c)
  | Some (Bad s) => (Some (Bad s), with_unread c [])
  | Some (Good (header, after)) =>
      match decode_frame_header header (ccf_frames (cl_config c)) with
      | Bad s => (Some (Bad s), with_unread c after)
      | Good (payload_length, payload_crc) =>
          match recv_exact payload_length closed after with
          | None => (None, c)
          | Some (Bad s) => (Some (Bad s), with_unread c [])
          | Some (Good (payload, rest)) =>
              (Some (decode_frame_payload payload payload_crc), with_unread c rest)
          end
      end
  end.

Section Calls.
Context {S : Type} `{Channel S}.

(** A call over a session: the client and the channel it holds. *)
Definition Session : Type := FabricClient * S.

Definition request (type : MessageType.t) (body : list Z) (ses : Session) : Answer Frame * Session :=
  let '(c, s) := ses in
  if negb (cl_connected c) then (Some (Bad StatusCode.Unavailable), ses)
  else match encode_frame (mkFrame type body) (ccf_frames (cl_config c)) with
  | Bad e => (Some (Bad e), ses)
  | Good encoded =>
      match transmit encoded s with
      | (Bad e, s') => (Some (Bad e), (c, s'))
      | (Good (arrived, closed), s') =>
          match receive_frame (with_unread c (cl_unread c ++ arrived)) closed with
          | (None, c') => (None, (c', s'))
          | (Some (Bad e), c') => (Some (Bad e), (c', s'))
          | (Some (Good reply), c') =>
              if eqb (fr_type reply) MessageType.Error then
                match decode_error_reply (fr_body reply) with
                | Bad e => (Some (Bad e), (c', s'))
                | Good error => (Some (Bad (erp_code error)), (c', s'))
                end
              else if negb (message_is_response (fr_type reply)) then (Some (Bad StatusCode.Protocol), (c', s'))
              else (Some (Good reply), (c', s'))
          end
      end
  end.

(** The reply must have the expected type; its body is decoded, and what
    follows the value is ignored. *)
Definition expect {B} (cb : codec B) (L : CodecLimits) (type : MessageType.t) (reply : Frame) : Outcome B :=
  if negb (eqb (fr_type reply) type) then Bad StatusCode.Protocol
  else match dec cb L (reader_of (fr_body reply)) with
       | (v, r) => if negb (ok (r_status r)) then Bad (r_status r)
                   else match v with Some b => Good b | None => Bad StatusCode.Internal end
       end.

Definition exchange {B} (type : MessageType.t) (body : list Z) (cb : codec B) (reply_type : MessageType.t)
    (ses : Session) : Answer B * Session :=
  match request type body ses with
  | (None, ses') => (None, ses')
  | (Some (Bad e), ses') => (Some (Bad e), ses')
  | (Some (Good reply), ses') => (Some (expect cb (ccf_codec (cl_config ses.1)) reply_type reply), ses')
  end.

(** Encode the request, exchange, decode the reply. *)
Definition call {A B} (ca : codec A) (type : MessageType.t) (value : A) (cb : codec B)
    (reply_type : MessageType.t) (ses : Session) : Answer B * Session :=
  match encode ca (ccf_codec (cl_config ses.1)) value with
  | Bad e => (Some (Bad e), ses)
  | Good body => exchange type body cb reply_type ses
  end.

Definition map_answer {A B} (g : A -> Outcome B) (r : Answer A * Session) : Answer B * Session :=
  (match r.1 with
   | None => None
   | Some (Bad e) => Some (Bad e)
   | Some (Good a) => Some (g a)
   end, r.2).

(** ** The client's operations *)

Definition handshake (ses : Session) : Answer unit * Session :=
  let config := cl_config ses.1 in
  let '(answer, (c, s)) :=
    call c_hello_request MessageType.Hello
      (mkHelloRequest LQF_WIRE_PROTOCOL_VERSION (ccf_client_name config) (ccf_client_epoch config))
      c_welcome_reply MessageType.Welcome ses in
  match answer with
  | None => (None, (c, s))
  | Some (Bad e) => (Some (Bad e), (c, s))
  | Some (Good welcome) =>
      if welcome_accepted welcome =? 0 then (Some (Bad StatusCode.Unsupported), (c, s))
      else if negb (welcome_protocol_version welcome =? LQF_WIRE_PROTOCOL_VERSION)
      then (Some (Bad StatusCode.Unsupported), (c, s))
      else (Some (Good tt),
            (mkFabricClient (cl_config c) (welcome_server_epoch welcome) (cl_connected c) (cl_unread c), s))
  end.

Definition client_declare_capability (d : CapabilityDeclaration) : Session -> Answer CapabilityAck * Session :=
  call c_capability_declaration MessageType.RegisterCapability d c_capability_ack MessageType.CapabilityAck.

Definition client_publish_policy (document : PolicyDocument) (ses : Session) : Answer PolicyStamp * Session :=
  map_answer (fun ack => Good (pack_stamp ack))
    (call c_policy_document MessageType.PublishPolicy document c_policy_ack MessageType.PolicyAck ses).

Definition client_ingest (observations : list Observation) (ses : Session) : Answer BatchOutcome * Session :=
  map_answer (fun ack => Good (mkBatchOutcome (iack_accepted ack) (iack_duplicates ack) (iack_reordered ack)
                                 (iack_rejected ack) (iack_first_code ack)))
    (call (c_vector c_observation) MessageType.Ingest observations c_ingest_ack MessageType.IngestAck ses).

Definition client_query (q : QualityQuery) : Session -> Answer LinkQualityReport * Session :=
  call c_quality_query MessageType.Query q c_link_quality_report MessageType.QualityReport.

Definition client_window (q : WindowQuery) : Session -> Answer WindowResult * Session :=
  call c_window_query MessageType.Window q c_window_result MessageType.WindowReply.

Definition client_explain (q : QualityQuery) : Session -> Answer Explanation * Session :=
  call c_quality_query MessageType.Explain q c_explanation MessageType.ExplanationReply.

Definition client_inspect (filter : InspectionFilter) : Session -> Answer InspectionReport * Session :=
  call c_inspection_filter MessageType.Inspect filter c_inspection_report MessageType.InspectionReply.

Definition client_capabilities (link : LinkIdentity) (ses : Session)
  : Answer (list MetricCapabilityView) * Session :=
  map_answer (fun reply => Good (caprep_views reply))
    (call c_capabilities_request MessageType.Capabilities (mkCapabilitiesRequest link) c_capabilities_reply
       MessageType.CapabilitiesReply ses).

Definition client_policy_document (generation : Z) (ses : Session) : Answer PolicyGenerationRecord * Session :=
  map_answer (fun reply => if pdrep_found reply =? 0 then Bad StatusCode.NotFound else Good (pdrep_record reply))
    (call c_policy_document_request MessageType.PolicyDocument (mkPolicyDocumentRequest generation)
       c_policy_document_reply MessageType.PolicyDocumentReply ses).

Definition client_stats : Session -> Answer StatsReport * Session :=
  exchange MessageType.Stats [] c_stats_report MessageType.StatsReply.

Definition client_flush : Session -> Answer FlushAck * Session :=
  exchange MessageType.Flush [] c_flush_ack MessageType.FlushAck.

Definition client_compact : Session -> Answer CompactAck * Session :=
  exchange MessageType.Compact [] c_compact_ack MessageType.CompactAck.

Definition client_shutdown (token : string) : Session -> Answer ShutdownAck * Session :=
  call c_shutdown_request MessageType.Shutdown (mkShutdownRequest token) c_shutdown_ack MessageType.ShutdownAck.
End Calls.

Arguments Session : clear implicits.

(** ** A connection of the server as the peer *)

Section Peer.
Context `{Charconv} `{LongDouble}.

(** Serve what a connection has received until its thread waits or is done. *)
Fixpoint serve_pending (fuel : nat) (env : nat -> RequestEnv) (sv : Server) (co : Connection)
  : Server * Connection :=
  match fuel with
  | O => (sv, co)
  | S n =>
      match connection_step (env n) sv co with
      | None => (sv, co)
      | Some (sv', co') => serve_pending n env sv' co'
      end
  end.

(** Hand bytes to connection [i] and let its thread run. *)
Definition converse (i : nat) (env : nat -> RequestEnv) (data : list Z) (sv : Server)
  : Outcome (list Z * bool) * Server :=
  match sv_connections sv !! i with
  | None => (Bad StatusCode.Io, sv)
  | Some co =>
      if co_done co then (Bad StatusCode.Io, sv)
      else
        let co1 := mkConnection (co_input co ++ data) (co_eof co) (co_output co) (co_stage co) in
        let '(sv', co') := serve_pending (S (List.length (co_input co1))) env sv co1 in
        (Good (drop (List.length (co_output co)) (co_output co'), co_done co'), with_connection sv' i co')
  end.

Definition connection_channel (i : nat) (env : nat -> RequestEnv) : Channel Server :=
  {| transmit := converse i env |}.
End Peer.
