(* ===== verification/ServerSpec.v ===== *)
(** * The server: theorems

    Whatever bytes peers send, in whatever interleaving with the steps of the
    server's threads, the runtime behind the server stays sound, its connections
    stay bounded and what a peer is sent is a sequence of response frames, of which
    only the last may be torn; a connection's thread takes a number of steps bounded
    by what it has received; and [stop] waits for nothing but peers that do not
    read. *)

From Stdlib Require Import ZArith Lia Bool List String Ascii RelationClasses.
From stdpp Require Import base decidable list strings.
From S2P Require Import Prelude OrdMap Float Core Hash Quality Metric Identity Counter.
From S2P Require Import Capability Config Policy PolicySpec Classification LinkRegistry.
From S2P Require Import EvidenceStore EvidenceStoreSpec Codec FieldCodecs CapabilityRegistry.
From S2P Require Import Classifier ClassifierSpec Journal JournalSpec Fabric FabricSpec.
From S2P Require Import Frame Render Messages Server Client.

Open Scope Z_scope.

#[local] Arguments enum_val : simpl never.

(** ** What a peer can do *)

(** An outcome made of a successful status has no value: [ok()] holds and
    [value()] is undefined. *)
Abbreviation empty_outcome := (Bad StatusCode.Ok) (only parsing).

(** A frame a client can rely on: a response, and when it is an error reply, one
    whose code is an error. *)
Definition honest_response (frame : Frame) : Prop :=
  message_is_response (fr_type frame) = true
  /\ (fr_type frame = MessageType.Error ->
      exists reply, decode_error_reply (fr_body frame) = Good reply /\ erp_code reply <> StatusCode.Ok).

(** A sequence of such frames, each within the frame limit. *)
Definition response_stream (L : FrameLimits) (bytes : list Z) : Prop :=
  exists sent : list (Frame * list Z),
    Forall (fun p => encode_frame p.1 L = Good p.2 /\ honest_response p.1) sent /\
    bytes = concat (map snd sent).

Lemma response_stream_nil L : response_stream L [].
Proof. exists []. split; [constructor|done]. Qed.

Lemma response_stream_app L p q : response_stream L p -> response_stream L q -> response_stream L (p ++ q).
Proof.
  intros (s1 & F1 & ->) (s2 & F2 & ->). exists (s1 ++ s2). split; [by apply Forall_app|].
  by rewrite map_app, concat_app.
Qed.

Lemma response_stream_one L frame bytes : encode_frame frame L = Good bytes ->
  honest_response frame -> response_stream L bytes.
Proof.
  intros E R. exists [(frame, bytes)]. split; [constructor; [split; done|constructor]|]. cbn. by rewrite app_nil_r.
Qed.

(** The bytes of one such frame. *)
Definition response_bytes (L : FrameLimits) (bytes : list Z) : Prop :=
  exists frame, encode_frame frame L = Good bytes /\ honest_response frame.

(** [out] ends inside a frame, of which [rest] is still to come. *)
Definition unfinished_stream (L : FrameLimits) (out rest : list Z) : Prop :=
  exists whole part, out = whole ++ part /\ response_stream L whole /\ response_bytes L (part ++ rest).

(** Whole frames, and possibly the beginning of one more. *)
Definition torn_stream (L : FrameLimits) (out : list Z) : Prop :=
  response_stream L out \/ exists rest, rest <> [] /\ unfinished_stream L out rest.

Lemma response_stream_bytes L p bytes : response_stream L p -> response_bytes L bytes -> response_stream L (p ++ bytes).
Proof. intros Hp (frame & E & Hf). apply response_stream_app; [done|by eapply response_stream_one]. Qed.

Lemma unfinished_begin L out bytes : response_stream L out -> response_bytes L bytes -> unfinished_stream L out bytes.
Proof. intros Ho Hb. exists out, []. by rewrite app_nil_r. Qed.

Lemma unfinished_more L out p q : unfinished_stream L out (p ++ q) -> unfinished_stream L (out ++ p) q.
Proof. intros (whole & part & -> & Hw & Hb). exists whole, (part ++ p). by rewrite <- !app_assoc. Qed.

Lemma unfinished_end L out : unfinished_stream L out [] -> response_stream L out.
Proof. intros (whole & part & -> & Hw & Hb). rewrite app_nil_r in Hb. by apply response_stream_bytes. Qed.

Lemma unfinished_torn L out rest : unfinished_stream L out rest -> torn_stream L out.
Proof. intros Hu. destruct rest as [|b rest]; [left; by apply unfinished_end|right; by exists (b :: rest)]. Qed.

(** The most bytes a frame has. *)
Definition frame_room (L : FrameLimits) : nat := Z.to_nat (frame_limit L + 8).

Lemma encode_frame_length frame L bytes : encode_frame frame L = Good bytes ->
  bytes <> [] /\ (List.length bytes <= frame_room L)%nat.
Proof.
  intros E. apply encode_frame_ok in E as (_ & Hp & ->). split; [done|].
  set (payload := enum_val (fr_type frame) :: fr_body frame) in *.
  assert (zlen (le_bytes 4 (zlen payload) ++ le_bytes 4 (crc32c payload 0) ++ payload) <= frame_limit L + 8) as Hl
    by (rewrite !zlen_app, !zlen_le_bytes; lia).
  unfold zlen at 1 in Hl. unfold frame_room. lia.
Qed.

Lemma response_bytes_length L bytes : response_bytes L bytes -> bytes <> [] /\ (List.length bytes <= frame_room L)%nat.
Proof. intros (frame & E & _). by eapply encode_frame_length. Qed.

(** ** Errors are errors *)

Lemma encode_nonempty {A} (c : codec A) L a : encode c L a <> empty_outcome.
Proof. unfold encode. destruct (ok _) eqn:E; [done|]. intros [= E']. by rewrite E' in E. Qed.

Lemma decode_body_nonempty {A} (c : codec A) L body : decode_body c L body <> empty_outcome.
Proof.
  unfold decode_body. destruct (dec c L (reader_of body)) as [v r]. destruct (ok (r_status r)) eqn:E; cbn.
  - by destruct (r_rest r), v.
  - intros [= E']. by rewrite E' in E.
Qed.

Lemma reply_frame_nonempty {A} (c : codec A) L type (value : A) : reply_frame c L type value <> empty_outcome.
Proof.
  unfold reply_frame. pose proof (encode_nonempty c L value). destruct (encode c L value); [done|].
  by intros [= ->].
Qed.

Section Effects.
Context `{Charconv} `{LongDouble}.

Lemma driven_flush P sync_ok f : driven P f (flush sync_ok f).2.
Proof.
  unfold flush. destruct (fb_journal f) as [j|]; [|reflexivity]. destruct (negb _); [reflexivity|].
  destruct (BackgroundJournal.flush _ _) as [[s j']|]; [by apply driven_same|reflexivity].
Qed.

Lemma driven_handle {A B R} P config (cr : codec R) request (call_ : R -> Fabric -> Outcome A * Fabric)
    (answer_ : R -> Fabric -> A -> B) (cb : codec B) type f :
  (forall v g, driven P g (call_ v g).2) -> driven P f (handle config cr request call_ answer_ cb type f).2.
Proof.
  intros Hc. unfold handle. destruct (decode_body _ _ _) as [v|s]; [|reflexivity].
  specialize (Hc v f). by destruct (call_ v f) as [[a|s] f'].
Qed.

Lemma handle_type {A B R} config (cr : codec R) request (call_ : R -> Fabric -> Outcome A * Fabric)
    (answer_ : R -> Fabric -> A -> B) (cb : codec B) type f reply :
  (handle config cr request call_ answer_ cb type f).1 = Good reply -> fr_type reply = type.
Proof.
  unfold handle, reply_frame. destruct (decode_body _ _ _) as [v|s]; [|done].
  destruct (call_ v f) as [[a|s] f']; [|done]. simpl. destruct (encode _ _ _); [|done]. by intros [= <-].
Qed.

Lemma dispatch_driven config env request f : driven only_live f (dispatch config env request f).2.
Proof.
  unfold dispatch, dispatch_control. destruct (fr_type request); try reflexivity; cbn [fst snd];
    try (apply driven_handle; intros v g; first [reflexivity | idtac]).
  - apply driven_declare.
  - apply driven_publish.
  - apply driven_batch.
  - unfold query. destruct (validate_link_identity _); try reflexivity. apply driven_count.
  - unfold window. repeat case_match; first [reflexivity | apply driven_count].
  - unfold explain. destruct (validate_link_identity _); try reflexivity. apply driven_count.
  - apply driven_count.
  - pose proof (driven_flush only_live (env_sync_ok env) f) as Hd. by destruct (flush _ f) as [[] f'].
  - pose proof (driven_compact only_live (env_compaction env) f) as Hd. unfold compact.
    by destruct (compact_with _ f) as [[] f'].
  - repeat case_match; reflexivity.
Qed.

(** A frame of another response type needs no more than its type. *)
Lemma honest_type frame : message_is_response (fr_type frame) = true -> fr_type frame <> MessageType.Error ->
  honest_response frame.
Proof. by intros Hr He; split. Qed.

Lemma dispatch_response config env request f reply stop f' :
  dispatch config env request f = (Good reply, stop, f') -> honest_response reply.
Proof.
  assert (forall A (c : codec A) L type (value : A) r, message_is_response type = true -> type <> MessageType.Error ->
            reply_frame c L type value = Good r -> honest_response r) as Hf.
  { intros A c L type value r H1 H2. unfold reply_frame. destruct (encode _ _ _); [|done]. intros [= <-].
    by apply honest_type. }
  unfold dispatch, dispatch_control. destruct (fr_type request); try done; cbn [fst snd];
    try (intros [= E _ _]; apply handle_type in E; apply honest_type; by rewrite E).
  - destruct (reply_frame _ _ _ _) as [r|] eqn:E; [|done]. intros [= -> _ _]. by eapply Hf in E.
  - destruct (flush _ f) as [[] g]; try done.
    destruct (reply_frame _ _ _ _) as [r|] eqn:E; [|done]. intros [= -> _ _]. by eapply Hf in E.
  - destruct (compact _ f) as [[] g]; try done.
    destruct (reply_frame _ _ _ _) as [r|] eqn:E; [|done]. intros [= -> _ _]. by eapply Hf in E.
  - destruct (decode_body _ _ _); [|done]. destruct (shutdown_ack _ _) as [[ack st]|]; [|done].
    destruct (reply_frame _ _ _ _) as [r|] eqn:E; [|done]. intros [= -> _ _]. by eapply Hf in E.
Qed.

Lemma handle_nonempty {A B R} config (cr : codec R) request (call_ : R -> Fabric -> Outcome A * Fabric)
    (answer_ : R -> Fabric -> A -> B) (cb : codec B) type f :
  (forall v g, (call_ v g).1 <> empty_outcome) ->
  (handle config cr request call_ answer_ cb type f).1 <> empty_outcome.
Proof.
  intros Hc. unfold handle. pose proof (decode_body_nonempty cr (sc_codec config) (fr_body request)) as Hd.
  destruct (decode_body _ _ _) as [v|s]; [|by intros [= ->]]. specialize (Hc v f).
  destruct (call_ v f) as [[a|s] f']; [apply reply_frame_nonempty|]. cbn. by intros [= ->].
Qed.

Lemma publish_nonempty r document at_ catalog rules bands :
  (PolicyRegistry.publish r document at_ catalog rules bands).1 <> empty_outcome.
Proof. unfold PolicyRegistry.publish. repeat case_match; done. Qed.

Lemma declare_capability_nonempty d f : (declare_capability d f).1 <> empty_outcome.
Proof.
  unfold declare_capability. pose proof (fun g => encode_nonempty c_capability_declaration g d) as He.
  destruct (negb _); [done|]. destruct (validate_capability _ _ _ _); try done. destruct (journal_full f); [done|].
  destruct (CapabilityRegistry.declare _ _ _) as [[] capabilities']; try done.
  specialize (He (codec_limits_of (set_capabilities f capabilities'))). cbv zeta.
  destruct (encode _ _ _); [by destruct (journal_append _ _ _)|by intros [= ->]].
Qed.

Lemma publish_policy_nonempty now document f : (publish_policy now document f).1 <> empty_outcome.
Proof.
  unfold publish_policy. destruct (negb _); [done|]. destruct (journal_full f); [done|].
  match goal with |- context [PolicyRegistry.publish ?a ?b ?c ?d ?e ?g] =>
    pose proof (publish_nonempty a b c d e g) as Hp;
    destruct (PolicyRegistry.publish a b c d e g) as [[record|s] policies] end; [|by intros [= ->]].
  cbv zeta. pose proof (encode_nonempty c_policy_generation (codec_limits_of (set_policies f policies)) record) as He.
  destruct (encode _ _ _); [by destruct (journal_append _ _ _)|by intros [= ->]].
Qed.

(** A request that is refused is refused with an error. *)
Lemma dispatch_nonempty config env request f : (dispatch config env request f).1.1 <> empty_outcome.
Proof.
  unfold dispatch, dispatch_control. destruct (fr_type request); try done; cbn [fst snd];
    try (apply handle_nonempty; intros v g; unfold reading; cbn [fst]; try done).
  - apply declare_capability_nonempty.
  - apply publish_policy_nonempty.
  - unfold ingest_batch. destruct (_ <? _); [done|]. by destruct (fold_left _ _ _).
  - unfold query. by destruct (validate_link_identity _).
  - unfold window. repeat case_match; done.
  - unfold explain. by destruct (validate_link_identity _).
  - apply reply_frame_nonempty.
  - by destruct (flush _ f) as [[] g].
  - by destruct (compact _ f) as [[] g].
  - pose proof (decode_body_nonempty c_shutdown_request (sc_codec config) (fr_body request)) as Hd.
    destruct (decode_body _ _ _) as [v|s]; [|by intros [= ->]]. unfold shutdown_ack. repeat case_match; try done;
      simplify_eq; intros [= ->]; by eapply reply_frame_nonempty.
  - unfold capabilities. by destruct (validate_link_identity _).
Qed.

Lemma decode_frame_header_nonempty header L : decode_frame_header header L <> empty_outcome.
Proof. unfold decode_frame_header. repeat case_match; done. Qed.

Lemma decode_frame_payload_nonempty payload crc : decode_frame_payload payload crc <> empty_outcome.
Proof. unfold decode_frame_payload. repeat case_match; done. Qed.

Lemma dispatch_stop config env request f reply f' :
  dispatch config env request f = (reply, true, f') ->
  sc_shutdown_token config <> ""%string /\ fr_type request = MessageType.Shutdown.
Proof.
  unfold dispatch, dispatch_control. destruct (fr_type request); try done.
  - destruct (flush _ f) as [[] g]; done.
  - destruct (compact _ f) as [[] g]; done.
  - destruct (decode_body _ _ _); [|done]. unfold shutdown_ack.
    destruct (String.eqb_spec (sc_shutdown_token config) ""); [|by repeat case_match].
    unfold reply_frame. by destruct (encode _ _ _).
Qed.
End Effects.

(** What a thread has sent, by where it is: whole frames between requests; in
    [send_all], what completes the frame is what is pending; and at its end the
    last frame may be torn. *)
Definition sent_ok (L : FrameLimits) (co : Connection) : Prop :=
  match co_stage co with
  | Reading | Dispatching _ => response_stream L (co_output co)
  | Sending pending _ _ => pending <> [] /\ unfinished_stream L (co_output co) pending
  | Ended => torn_stream L (co_output co)
  end.

(** What one step of a connection's thread leaves behind. *)
Record step_effect `{Charconv} `{LongDouble} (sv : Server) (co : Connection) (sv' : Server) (co' : Connection)
  : Prop := {
  se_config : sv_config sv' = sv_config sv;
  se_connections : sv_connections sv' = sv_connections sv;
  se_acceptor : sv_acceptor sv' = sv_acceptor sv;
  se_active : sv_active sv' = sv_active sv - (if co_done co' then 1 else 0);
  se_driven : driven only_live (sv_fabric sv) (sv_fabric sv');
  se_output : sent_ok (sc_frames (sv_config sv)) co';
  se_stop : sv_stop_requested sv' = true ->
    sv_stop_requested sv = true \/
    (sc_shutdown_token (sv_config sv) <> ""%string /\ exists pending total, co_stage co = Sending pending total StopServer);
}.

(** A reply that stops the server answers a shutdown request with the token. *)
Definition armed (config : ServerConfig) (co : Connection) : Prop :=
  forall pending total, co_stage co = Sending pending total StopServer -> sc_shutdown_token config <> ""%string.

Section StepEffects.
Context `{Charconv} `{LongDouble}.

Lemma begin_status_bytes config code text s bytes s' : code <> StatusCode.Ok ->
  begin_status config code text s = (Good bytes, s') -> response_bytes (sc_frames config) bytes.
Proof.
  intros Hc. unfold begin_status. destruct (encode_error_reply _) eqn:E; [|done]. intros [= Ef _].
  eexists. split; [exact Ef|]. split; [done|]. intros _. exists (mkErrorReply code text).
  split; [by apply error_reply_round_trip|done].
Qed.

Lemma sent_torn L co : sent_ok L co -> torn_stream L (co_output co).
Proof.
  unfold sent_ok. destruct (co_stage co); [by left|by left| |done]. intros [_ Hu]. by eapply unfinished_torn.
Qed.

Lemma finish_effect sv co sv0 co0 : sv_config sv = sv_config sv0 -> sv_connections sv = sv_connections sv0 ->
  sv_acceptor sv = sv_acceptor sv0 -> sv_active sv = sv_active sv0 -> driven only_live (sv_fabric sv0) (sv_fabric sv) ->
  torn_stream (sc_frames (sv_config sv0)) (co_output co) ->
  (sv_stop_requested sv = true -> sv_stop_requested sv0 = true \/
    (sc_shutdown_token (sv_config sv0) <> ""%string /\ exists pending total, co_stage co0 = Sending pending total StopServer)) ->
  step_effect sv0 co0 (finish sv co).1 (finish sv co).2.
Proof. intros E1 E2 E3 E4 D R Hs. constructor; cbn; try done. lia. Qed.

Lemma send_or_finish_effect sv co input encoded after sv0 : sv_config sv = sv_config sv0 ->
  sv_connections sv = sv_connections sv0 -> sv_acceptor sv = sv_acceptor sv0 -> sv_active sv = sv_active sv0 ->
  driven only_live (sv_fabric sv0) (sv_fabric sv) -> response_stream (sc_frames (sv_config sv0)) (co_output co) ->
  (forall bytes, encoded = Good bytes -> response_bytes (sc_frames (sv_config sv0)) bytes) ->
  sv_stop_requested sv = sv_stop_requested sv0 ->
  step_effect sv0 co (send_or_finish sv co input encoded after).1 (send_or_finish sv co input encoded after).2.
Proof.
  intros E1 E2 E3 E4 D R Hb Hs. unfold send_or_finish. destruct encoded as [bytes|e].
  - specialize (Hb bytes eq_refl). constructor; cbn; try done; [lia| |rewrite Hs; by left].
    split; [by eapply response_bytes_length|by apply unfinished_begin].
  - apply finish_effect; try done; [by left|rewrite Hs; by left].
Qed.

Lemma read_step_effect text sv co sv' co' : read_step text sv co = Some (sv', co') ->
  sent_ok (sc_frames (sv_config sv)) co -> co_done co = false /\ step_effect sv co sv' co'.
Proof.
  unfold read_step, sent_ok, co_done. destruct (co_stage co) eqn:Est; try done. intros E R. split; [done|]. revert E.
  assert (step_effect sv co (finish sv co).1 (finish sv co).2) as Hfin by (apply finish_effect; try done; by left).
  assert (forall code s sv1 co1, code <> StatusCode.Ok ->
    (let '(encoded, s') := begin_status (sv_config sv) code text s in
     Some (send_or_finish (with_counters sv s') co [] encoded HangUp)) = Some (sv1, co1) -> step_effect sv co sv1 co1) as Hdrop.
  { intros code s sv1 co1 Hc. destruct (begin_status _ _ _ _) as [encoded s'] eqn:Eb. intros [= E].
    pose proof (send_or_finish_effect (with_counters sv s') co [] encoded HangUp sv) as Hx. rewrite E in Hx.
    apply Hx; try done. intros bytes ->. by eapply begin_status_bytes. }
  destruct (sv_stop_requested sv) eqn:Estop; [by intros [= <- <-]|].
  assert (forall sv1 co1, short_read sv co = Some (sv1, co1) -> step_effect sv co sv1 co1) as Hshort.
  { intros sv1 co1. unfold short_read. destruct (co_eof co); [|done]. by intros [= <- <-]. }
  destruct (read_exact kFrameHeaderBytes (co_input co)) as [[header after]|]; [|apply Hshort].
  pose proof (decode_frame_header_nonempty header (sc_frames (sv_config sv))) as Hh.
  destruct (decode_frame_header _ _) as [[n crc]|e]; [|apply Hdrop; by intros ->].
  destruct (read_exact n after) as [[payload rest]|]; [|apply Hshort].
  pose proof (decode_frame_payload_nonempty payload crc) as Hp.
  destruct (decode_frame_payload _ _) as [request|e]; [|apply Hdrop; by intros ->].
  intros [= <- <-]. constructor; cbn; try done; [lia|rewrite Estop; by left].
Qed.

Lemma dispatch_step_effect env sv co sv' co' : dispatch_step env sv co = Some (sv', co') ->
  sent_ok (sc_frames (sv_config sv)) co ->
  co_done co = false /\ step_effect sv co sv' co' /\ armed (sv_config sv) co'.
Proof.
  unfold dispatch_step, sent_ok, co_done. destruct (co_stage co) as [|request| |] eqn:Est; try done. intros E R.
  split; [done|]. revert E.
  destruct (dispatch (sv_config sv) env request (sv_fabric sv)) as [[outcome stop] f] eqn:Ed.
  pose proof (dispatch_driven (sv_config sv) env request (sv_fabric sv)) as Hd. rewrite Ed in Hd. cbn [snd] in Hd.
  pose proof (dispatch_nonempty (sv_config sv) env request (sv_fabric sv)) as Hn. rewrite Ed in Hn. cbn [fst] in Hn.
  destruct (match outcome with Good reply => _ | Bad code => _ end) as [encoded s] eqn:Es.
  assert (forall bytes, encoded = Good bytes -> response_bytes (sc_frames (sv_config sv)) bytes) as Hb.
  { intros bytes ->. destruct outcome as [reply|code].
    - injection Es as Ef <-. exists reply. split; [done|]. by eapply dispatch_response.
    - eapply begin_status_bytes; [|exact Es]. by intros ->. }
  intros [= E]. split.
  - pose proof (send_or_finish_effect (with_fabric sv f s) co (co_input co) encoded
      (if stop then StopServer else KeepServing) sv) as Hx. rewrite E in Hx. by apply Hx.
  - intros pending total. destruct encoded as [bytes|e]; cbn [send_or_finish] in E; injection E as <- <-; cbn; [|done].
    intros [= _ _ Ha]. destruct stop; [|done]. by apply dispatch_stop in Ed as [? _].
Qed.

Lemma send_step_effect answer sv co sv' co' : send_step answer sv co = Some (sv', co') ->
  sent_ok (sc_frames (sv_config sv)) co -> armed (sv_config sv) co ->
  co_done co = false /\ step_effect sv co sv' co' /\ armed (sv_config sv) co'.
Proof.
  unfold send_step, sent_ok, co_done, armed. destruct (co_stage co) as [| |pending total after|] eqn:Est; try done.
  intros E [Hp Hu] Ha. split; [done|]. revert E. set (n := match answer with Took n => n | SendFailed => 0 end).
  destruct (n <=? 0).
  { intros [= <- <-]. split; [|done]. apply finish_effect; try done; [by eapply unfinished_torn|by left]. }
  rewrite <- (take_drop (Z.to_nat n) pending) in Hu. apply unfinished_more in Hu.
  destruct (drop (Z.to_nat n) pending) as [|b rest] eqn:Edrop.
  - apply unfinished_end in Hu. set (sv1 := with_counters sv (note_frames_out total (sv_stats sv))).
    set (co1 := mkConnection (co_input co) (co_eof co) (co_output co ++ take (Z.to_nat n) pending) (Sending [] total after)).
    destruct after; intros [= <- <-]; (split; [|done]).
    + constructor; cbn; try done; [lia|by left].
    + apply (finish_effect (request_stop sv1) co1); try done; [by left|]. intros _. right.
      split; [by eapply Ha|by eexists _, _].
    + apply (finish_effect sv1 co1); try done; by left.
  - intros [= <- <-]. split; [constructor; cbn; try done; [lia|by left]|]. cbn. intros p t [= _ _ ->]. by eapply Ha.
Qed.
End StepEffects.

(** ** Runs of the server *)

Definition live (connections : list Connection) : Z :=
  zlen (List.filter (fun co => negb (co_done co)) connections).

Lemma live_app p q : live (p ++ q) = live p + live q.
Proof. unfold live. by rewrite List.filter_app, zlen_app. Qed.

Lemma live_cons c cs : live (c :: cs) = (if co_done c then 0 else 1) + live cs.
Proof.
  unfold live. cbn [List.filter]. destruct (co_done c); cbn [negb]; unfold zlen; cbn [List.length]; lia.
Qed.

Lemma live_insert connections : forall i co co', connections !! i = Some co ->
  live (<[i := co']> connections) =
  live connections - (if co_done co then 0 else 1) + (if co_done co' then 0 else 1).
Proof.
  induction connections as [|c cs IH]; intros i co co' E; [done|]. destruct i as [|i]; cbn in E.
  - injection E as ->. cbn [insert list_insert]. rewrite !live_cons. lia.
  - change (<[S i := co']> (c :: cs)) with (c :: <[i := co']> cs). rewrite !live_cons, (IH i co co' E). lia.
Qed.

Lemma live_reaped connections :
  live (List.filter (fun co => negb (co_done co)) connections) = live connections.
Proof.
  induction connections as [|c cs IH]; [done|]. cbn [List.filter].
  destruct (co_done c) eqn:E; cbn [negb]; rewrite !live_cons, ?IH, E; lia.
Qed.

(** What the accept loop has sent to those it refused. *)
Definition refusals_ok (L : FrameLimits) (a : Acceptor) : Prop :=
  Forall (torn_stream L) (ac_sent a) /\
  match ac_stage a with
  | Refusing sent pending _ => pending <> [] /\ unfinished_stream L sent pending
  | _ => True
  end.

Record server_inv (sv : Server) : Prop := {
  svi_active : sv_active sv = live (sv_connections sv);
  svi_bound : sv_active sv <= sc_max_connections (sv_config sv);
  svi_output : Forall (sent_ok (sc_frames (sv_config sv))) (sv_connections sv);
  svi_armed : Forall (armed (sv_config sv)) (sv_connections sv);
  svi_refusals : refusals_ok (sc_frames (sv_config sv)) (sv_acceptor sv);
}.

(** From [sv] to [sv'] the fabric's stores changed by their own operations, and
    the server was stopped by its owner or with an armed token only. *)
Record server_run `{Charconv} `{LongDouble} (owner_stops : bool) (sv sv' : Server) : Prop := {
  run_config : sv_config sv' = sv_config sv;
  run_driven : driven only_live (sv_fabric sv) (sv_fabric sv');
  run_stop : sv_stop_requested sv' = true ->
    sv_stop_requested sv = true \/ sc_shutdown_token (sv_config sv) <> ""%string \/ owner_stops = true;
}.

Definition is_owner_stop (ev : ServerEvent) : bool := match ev with EvRequestStop => true | _ => false end.

Section Runs.
Context `{Charconv} `{LongDouble}.

(** A step of a connection's thread. *)
Lemma on_thread_inv step i sv sv' : server_inv sv -> on_thread step i sv = Some sv' ->
  (forall co sv1 co1, step sv co = Some (sv1, co1) -> sent_ok (sc_frames (sv_config sv)) co -> armed (sv_config sv) co ->
     co_done co = false /\ step_effect sv co sv1 co1 /\ armed (sv_config sv) co1) ->
  server_inv sv' /\ server_run false sv sv'.
Proof.
  intros [A B C D E] Hst Heff. unfold on_thread in Hst. destruct (sv_connections sv !! i) as [co|] eqn:Ei; [|done].
  destruct (step sv co) as [[sv1 co1]|] eqn:Es; [|done]. injection Hst as <-.
  destruct (Heff co sv1 co1 Es) as (Hd & [E1 E2 E3 E4 E5 E6 E7] & Ha);
    [by eapply Forall_lookup_1 in C|by eapply Forall_lookup_1 in D|].
  split.
  - constructor; cbn; rewrite ?E1, ?E2, ?E3; [| |by apply Forall_insert|by apply Forall_insert|done].
    + rewrite (live_insert _ _ _ _ Ei), E4, A, Hd. destruct (co_done co1); lia.
    + rewrite E4. destruct (co_done co1); lia.
  - constructor; cbn; [done|done|]. intros Hst. destruct (E7 Hst) as [|[? _]]; tauto.
Qed.

(** Bytes that arrive, and a peer that closes its end. *)
Lemma with_connection_inv sv i co co' : server_inv sv -> sv_connections sv !! i = Some co ->
  co_stage co' = co_stage co -> co_output co' = co_output co -> server_inv (with_connection sv i co').
Proof.
  intros [A B C D E] Ei Est Eo. assert (co_done co' = co_done co) as Ed by (unfold co_done; by rewrite Est).
  constructor; cbn; [|done|..|done].
  - rewrite (live_insert _ _ _ _ Ei), Ed, A. destruct (co_done co); lia.
  - apply Forall_insert; [done|]. unfold sent_ok. rewrite Est, Eo. by eapply Forall_lookup_1 in C.
  - apply Forall_insert; [done|]. unfold armed. rewrite Est. by eapply Forall_lookup_1 in D.
Qed.

Lemma same_run b sv sv' : sv_config sv' = sv_config sv -> sv_fabric sv' = sv_fabric sv ->
  sv_stop_requested sv' = sv_stop_requested sv -> server_run b sv sv'.
Proof. intros E1 E2 E3. constructor; [done|by rewrite E2|rewrite E3; by left]. Qed.

Lemma refuse_peer_inv sv code text s : code <> StatusCode.Ok -> server_inv sv ->
  server_inv (refuse_peer sv code text s) /\ server_run false sv (refuse_peer sv code text s).
Proof.
  intros Hc [A B C D [E1 E2]]. unfold refuse_peer. destruct (begin_status _ _ _ _) as [encoded s'] eqn:Eb.
  split; [|by apply same_run]. constructor; cbn; try done. split; [done|]. cbn. destruct encoded as [bytes|e]; [|done].
  apply begin_status_bytes in Eb; [|done]. split; [by eapply response_bytes_length|].
  apply unfinished_begin; [apply response_stream_nil|done].
Qed.

Lemma accept_one_inv accept_ok channel text sv sv' : server_inv sv -> accept_one accept_ok channel text sv = Some sv' ->
  server_inv sv' /\ server_run false sv sv'.
Proof.
  intros Hi. pose proof Hi as [A B C D [E1 E2]]. unfold accept_one. destruct (ac_stage (sv_acceptor sv)); try done.
  intros [= <-]. destruct (Z.leb_spec (sc_max_connections (sv_config sv)) (sv_active sv)).
  - destruct accept_ok; [by apply refuse_peer_inv|]. split; [by constructor|by apply same_run].
  - destruct accept_ok; cbn [negb]; [|split; [by constructor|by apply same_run]].
    destruct (ok channel) eqn:Eo; cbn [negb].
    + split; [|by apply same_run]. constructor; cbn; [|lia|..|done].
      * rewrite live_app, A. done.
      * apply Forall_app. split; [done|]. apply Forall_singleton, response_stream_nil.
      * apply Forall_app. split; [done|]. by apply Forall_singleton.
    + apply refuse_peer_inv; [|done]. by intros ->.
Qed.

Lemma refusal_step_inv answer sv sv' : server_inv sv -> refusal_step answer sv = Some sv' ->
  server_inv sv' /\ server_run false sv sv'.
Proof.
  intros [A B C D [E1 E2]]. unfold refusal_step. destruct (ac_stage (sv_acceptor sv)) as [| |sent pending total|]; try done.
  destruct E2 as [Hp Hu]. set (n := match answer with Took n => n | SendFailed => 0 end). destruct (n <=? 0).
  { intros [= <-]. split; [|by apply same_run]. constructor; cbn; try done. split; [|done].
    apply Forall_app. split; [done|]. apply Forall_singleton. by eapply unfinished_torn. }
  rewrite <- (take_drop (Z.to_nat n) pending) in Hu. apply unfinished_more in Hu.
  destruct (drop (Z.to_nat n) pending) as [|b rest]; intros [= <-]; (split; [|by apply same_run]); constructor; cbn; try done.
  split; [|done]. apply Forall_app. split; [done|]. apply Forall_singleton. left. by apply unfinished_end.
Qed.

Lemma reap_inv sv : server_inv sv -> server_inv (reap_finished sv).
Proof.
  intros [A B C D E]. constructor; cbn; [by rewrite live_reaped|done|..|done].
  - apply Forall_forall. intros co Hco. apply list_elem_of_In, filter_In in Hco as [Hco _].
    rewrite Forall_forall in C. by apply C, list_elem_of_In.
  - apply Forall_forall. intros co Hco. apply list_elem_of_In, filter_In in Hco as [Hco _].
    rewrite Forall_forall in D. by apply D, list_elem_of_In.
Qed.

Lemma server_step_inv sv ev sv' : server_inv sv -> server_step sv ev = Some sv' ->
  server_inv sv' /\ server_run (is_owner_stop ev) sv sv'.
Proof.
  intros Hi. pose proof Hi as [A B C D [E1 E2]].
  destruct ev as [|wait_ok|accept_ok channel text|answer|i data|i|i text|i env|i answer|];
    cbn [server_step is_owner_stop].
  - unfold accept_check. destruct (ac_stage (sv_acceptor sv)); try done. intros [= <-].
    destruct (sv_stop_requested sv); (split; [|by apply same_run]); [by constructor|].
    destruct (reap_inv sv Hi) as [A' B' C' D' [F1 F2]]. by constructor.
  - unfold accept_woken. destruct (ac_stage (sv_acceptor sv)); try done. intros [= <-].
    split; [|by apply same_run]. constructor; try done. split; [done|]. cbn. by destruct wait_ok.
  - by apply accept_one_inv.
  - by apply refusal_step_inv.
  - unfold on_thread. destruct (sv_connections sv !! i) as [co|] eqn:E; [|done]. intros [= <-].
    split; [by eapply with_connection_inv|by apply same_run].
  - unfold on_thread. destruct (sv_connections sv !! i) as [co|] eqn:E; [|done]. intros [= <-].
    split; [by eapply with_connection_inv|by apply same_run].
  - intros Hs. eapply on_thread_inv; [done|exact Hs|]. intros co sv1 co1 Hst Hsent Harm.
    destruct (read_step_effect _ _ _ _ _ Hst Hsent) as [Hd He]. split; [done|]. split; [done|].
    intros p t Hp. revert Hst. unfold read_step, send_or_finish, short_read. repeat case_match; intros [= <- <-]; cbn in Hp; simplify_eq.
  - intros Hs. eapply on_thread_inv; [done|exact Hs|]. intros co sv1 co1 Hst Hsent Harm. by eapply dispatch_step_effect.
  - intros Hs. eapply on_thread_inv; [done|exact Hs|]. intros co sv1 co1 Hst Hsent Harm. by eapply send_step_effect.
  - intros [= <-]. split; [by constructor|]. constructor; [done|reflexivity|]. intros _. by right; right.
Qed.

Lemma server_run_trans b1 b2 sv1 sv2 sv3 : server_run b1 sv1 sv2 -> server_run b2 sv2 sv3 ->
  server_run (b1 || b2) sv1 sv3.
Proof.
  intros [A1 A2 A3] [B1 B2 B3]. constructor; [congruence|by etransitivity|]. intros Hs.
  destruct (B3 Hs) as [Ht|[Ht|Ht]].
  - destruct (A3 Ht) as [|[|Hb]]; [tauto|tauto|]. rewrite Hb. tauto.
  - rewrite A1 in Ht. tauto.
  - rewrite Ht, orb_true_r. tauto.
Qed.

Lemma server_steps_inv events : forall sv, server_inv sv ->
  server_inv (server_steps events sv) /\
  server_run (existsb is_owner_stop events) sv (server_steps events sv).
Proof.
  unfold server_steps. induction events as [|ev events IH]; intros sv Hi; cbn [fold_left existsb].
  - split; [done|]. by apply same_run.
  - assert (server_inv (server_next sv ev) /\ server_run (is_owner_stop ev) sv (server_next sv ev)) as [H1 H2].
    { unfold server_next. destruct (server_step sv ev) eqn:E; [by eapply server_step_inv|].
      split; [done|by apply same_run]. }
    destruct (IH _ H1) as [H3 H4]. split; [done|]. by eapply server_run_trans.
Qed.
End Runs.

(** ** How long a thread runs *)




Section Work.
Context `{Charconv} `{LongDouble}.












Lemma start_inv config f running wake listener sv : 0 <= sc_max_connections config ->
  start config f running wake listener = Good sv ->
  server_inv sv /\ sv_config sv = config /\ sv_fabric sv = f /\ sv_stop_requested sv = false.
Proof.
  intros Hm. unfold start. destruct running; [done|]. destruct (_ =? 0); [done|].
  destruct (wake ;;? listener); try done. intros [= <-]. split; [|done].
  constructor; cbn; try done; repeat constructor.
Qed.
End Work.

(** ** Stopping *)






Section Stopping.
Context `{Charconv} `{LongDouble}.
















End Stopping.

(** ** Waiting for the stop *)

(** The thread in [wait] runs for as long as it can. *)
Fixpoint wait_on (n : nat) (stop_requested : bool) (w : Waiter) : Waiter :=
  match n with
  | O => w
  | S n => match wait_step stop_requested w with Some w' => wait_on n stop_requested w' | None => w end
  end.

(** Once the flag is set and the notification given, [wait] returns, unless both
    happened between its test of the flag and its going to sleep: the notification
    is then lost, and nothing but a spurious wakeup ends the wait. *)
Theorem wait_can_miss_the_stop w n : (2 <= n)%nat -> w <> Falling ->
  wait_on n true (notify_waiter w) = Awake /\ wait_on n true (notify_waiter Falling) = Asleep /\
  wait_step true Asleep = None.
Proof. intros Hn Hw. destruct n as [|[|n]]; [lia|lia|]. destruct w; try done; by destruct n. Qed.

(** ** Theorems *)


(** C13: Peers cannot corrupt the runtime.  A server started on a fabric that opened
    on any disk, after any interleaving of the steps of its threads, with arbitrary
    bytes from any peer, disconnections, and sends that take any part of what they
    are given or fail: the evidence store keeps its bounds and its replay fence and
    the registry its fencing, the active connections are counted exactly and never
    exceed the limit, what a peer has been sent, one that was refused included, is a
    sequence of well-formed response frames within the frame limit, whose error
    replies carry the code of an error, with the beginning of one more only while
    that frame is being sent or where the connection ended inside it, and the server
    was asked to stop only by its owner or through an armed shutdown token. *)
Theorem server_stays_sound (CC : Charconv) (LD : LongDouble) config epoch now disk f sconfig wake listener sv events :
  open_fabric config epoch now disk = Good f -> 0 <= sc_max_connections sconfig ->
  start sconfig f false wake listener = Good sv ->
  let sv' := server_steps events sv in
  store_inv (fb_evidence (sv_fabric sv')) /\ registry_inv (fb_links (sv_fabric sv')) /\
  sv_active sv' = live (sv_connections sv') /\ sv_active sv' <= sc_max_connections sconfig /\
  Forall (sent_ok (sc_frames sconfig)) (sv_connections sv') /\
  refusals_ok (sc_frames sconfig) (sv_acceptor sv') /\
  (sv_stop_requested sv' = true -> sc_shutdown_token sconfig <> ""%string \/ existsb is_owner_stop events = true).
Proof.
  intros Ho Hm Hs sv'. destruct (open_driven config epoch now disk f Ho) as [Hd Hv]. apply limits_validate_sound in Hv.
  destruct (start_inv _ _ _ _ _ _ Hm Hs) as (Hi & Ec & Ef & Est).
  destruct (server_steps_inv events sv Hi) as [[A B C _ R] [D E F]]. fold sv' in A, B, C, D, E, F, R.
  rewrite D, Ec in B, C, R. rewrite Ef in E. rewrite Est, Ec in F.
  assert (store_inv (fb_evidence (sv_fabric sv')) /\ registry_inv (fb_links (sv_fabric sv'))) as [G1 G2].
  { apply (driven_sound (fun _ => True) (construct config epoch now)); try done.
    - by apply create_store_inv.
    - by apply create_registry_inv.
    - etransitivity; [by eapply driven_any|by eapply driven_any]. }
  do 6 (split; [assumption|]). intros Hst. by destruct (F Hst).
Qed.


(** ** A concrete run *)

Module ServerExamples.
Import ClassifierExamples FabricExamples.

Definition server_config : ServerConfig :=
  mkServerConfig (mkFrameLimits kMaxFrameBytesDefault) default_codec_limits 8 "".
Definition env : RequestEnv := mkRequestEnv (fun _ => now0) compact_ok true "refused" None.
Definition started : Server := mkServer server_config fresh no_stats false 0 [] new_acceptor.

(** A request for the capabilities of a link, as a client sends it. *)
Definition request_bytes : list Z := Eval vm_compute in
  match encode c_capabilities_request default_codec_limits (mkCapabilitiesRequest (ob_link observation)) with
  | Good body => match encode_frame (mkFrame MessageType.Capabilities body) (sc_frames server_config) with
                 | Good bytes => bytes
                 | Bad _ => []
                 end
  | Bad _ => []
  end.

(** Two peers: one sends a request in two pieces and then half a request more; the
    other sends garbage and takes seven bytes of the answer. *)
Definition events : list ServerEvent :=
  [EvAcceptCheck; EvAccept true StatusCode.Ok ""; EvAcceptCheck; EvAccept true StatusCode.Ok "";
   EvReceive 0 (take 5 request_bytes); EvRead 0 ""; EvReceive 1 (repeat 255 40); EvRead 1 "refused";
   EvReceive 0 (drop 5 request_bytes); EvRead 0 ""; EvSend 1 (Took 7); EvDispatch 0 env; EvSend 0 (Took 1000);
   EvAcceptCheck; EvReceive 0 (take 9 request_bytes); EvRead 0 ""].
Definition after_events : Server := Eval vm_compute in server_steps events started.

End ServerExamples.

Import ClassifierExamples FabricExamples ServerExamples.


Lemma server_stays_sound_witness :
  sv_active after_events = 2 /\ store_inv (fb_evidence (sv_fabric after_events)) /\
  map (fun co => 0 <? zlen (co_output co)) (sv_connections after_events) = [true; true].
Proof.
  change after_events with (server_steps events ServerExamples.started).
  destruct (server_stays_sound fixed_charconv ld config 1 now0 (mkDisk None None) fresh server_config
    StatusCode.Ok StatusCode.Ok ServerExamples.started events) as [E _].
  - vm_compute. reflexivity.
  - vm_compute. discriminate.
  - reflexivity.
  - split; [vm_compute; reflexivity|]. split; [exact E|vm_compute; reflexivity].
Defined.

