(* ===== verification/WireSpec.v ===== *)
(** * A call over the wire

    The client's operations over a connection of the server are the entry points
    of the fabric: the frames, the codecs, the dispatch and the error replies
    between the two are transparent. *)

From Stdlib Require Import ZArith Lia Bool List String Ascii.
From stdpp Require Import base decidable list strings.
From S2P Require Import Prelude OrdMap Float Core Hash Quality Metric Identity Counter.
From S2P Require Import Capability Config Policy PolicySpec Classification LinkRegistry.
From S2P Require Import EvidenceStore EvidenceStoreSpec Codec FieldCodecs CapabilityRegistry.
From S2P Require Import Classifier ClassifierSpec Journal JournalSpec Fabric FabricSpec.
From S2P Require Import Frame Render Messages Server Client ServerSpec.

Open Scope Z_scope.

#[local] Arguments enum_val : simpl never.

(** ** The calls *)

(** The operations of a client that leave the server running. *)
Inductive Call : Type -> Type :=
  | CDeclare (d : CapabilityDeclaration) : Call CapabilityAck
  | CPublish (document : PolicyDocument) : Call PolicyStamp
  | CIngest (observations : list Observation) : Call BatchOutcome
  | CQuery (q : QualityQuery) : Call LinkQualityReport
  | CWindow (q : WindowQuery) : Call WindowResult
  | CExplain (q : QualityQuery) : Call Explanation
  | CInspect (filter : InspectionFilter) : Call InspectionReport
  | CCapabilities (link : LinkIdentity) : Call (list MetricCapabilityView)
  | CPolicyDocument (generation : Z) : Call PolicyGenerationRecord
  | CStats : Call StatsReport
  | CFlush : Call FlushAck
  | CCompact : Call CompactAck.

(** The call made by a client. *)
Definition remote {S A} `{Channel S} (c : Call A) : Session S -> Answer A * Session S :=
  match c in Call A return Session S -> Answer A * Session S with
  | CDeclare d => client_declare_capability d
  | CPublish document => client_publish_policy document
  | CIngest observations => client_ingest observations
  | CQuery q => client_query q
  | CWindow q => client_window q
  | CExplain q => client_explain q
  | CInspect filter => client_inspect filter
  | CCapabilities link => client_capabilities link
  | CPolicyDocument generation => client_policy_document generation
  | CStats => client_stats
  | CFlush => client_flush
  | CCompact => client_compact
  end.

(** A result the fabric already has, in another shape. *)
Definition shaped {A B} (g : A -> Fabric -> B) (r : Outcome A * Fabric) : Outcome B * Fabric :=
  match r with (Good a, f) => (Good (g a f), f) | (Bad e, f) => (Bad e, f) end.

Definition of_status {B} (g : Fabric -> B) (r : Status * Fabric) : Outcome B * Fabric :=
  match r with (StatusCode.Ok, f) => (Good (g f), f) | (e, f) => (Bad e, f) end.

Section Local.
Context `{Charconv} `{LongDouble}.

(** The call made on the fabric itself. *)
Definition local {A} (c : Call A) (env : RequestEnv) : Fabric -> Outcome A * Fabric :=
  match c in Call A return Fabric -> Outcome A * Fabric with
  | CDeclare d => fun f =>
      shaped (fun (duplicate : bool) _ =>
                mkCapabilityAck (cap_revision d) ReasonCode.None (if duplicate then 1 else 0))
        (declare_capability d f)
  | CPublish document => publish_policy (env_clock env 0) document
  | CIngest observations => ingest_batch (env_compaction env) (stamped (env_clock env) 0 observations)
  | CQuery q => query (env_clock env 0) q
  | CWindow q => window (env_clock env 0) q
  | CExplain q => explain (env_clock env 0) q
  | CInspect filter => inspect (env_clock env 0) filter
  | CCapabilities link => reading capabilities link
  | CPolicyDocument generation => fun f =>
      (policy_document (if counter_is_zero generation then ps_generation (pgr_stamp (current_policy f))
                        else generation) f, f)
  | CStats => fun f => (Good (stats f), f)
  | CFlush => fun f =>
      of_status (fun g => mkFlushAck (js_records_written (journal_stats g)) (js_bytes_written (journal_stats g)))
        (flush (env_sync_ok env) f)
  | CCompact => fun f =>
      of_status (fun g => mkCompactAck (js_records_written (journal_stats g)) (js_compactions (journal_stats g)))
        (compact (env_compaction env) f)
  end.
End Local.

(** ** What fits a frame *)

Definition sendable {A} (c : codec A) (L : CodecLimits) (FL : FrameLimits) (a : A) : Prop :=
  typed c a /\ exists body, encode c L a = Good body /\ zlen body + 1 <= frame_limit FL.

Definition request_sendable {A} (c : Call A) (L : CodecLimits) (FL : FrameLimits) : Prop :=
  match c with
  | CDeclare d => sendable c_capability_declaration L FL d
  | CPublish document => sendable c_policy_document L FL document
  | CIngest observations => sendable (c_vector c_observation) L FL observations
  | CQuery q => sendable c_quality_query L FL q
  | CWindow q => sendable c_window_query L FL q
  | CExplain q => sendable c_quality_query L FL q
  | CInspect filter => sendable c_inspection_filter L FL filter
  | CCapabilities link => sendable c_capabilities_request L FL (mkCapabilitiesRequest link)
  | CPolicyDocument generation => sendable c_policy_document_request L FL (mkPolicyDocumentRequest generation)
  | CStats | CFlush | CCompact => True
  end.

Definition sendable_good {A B} (c : codec B) (L : CodecLimits) (FL : FrameLimits) (g : A -> B) (o : Outcome A) : Prop :=
  match o with Good a => sendable c L FL (g a) | Bad _ => True end.

Definition reply_sendable {A} (c : Call A) (L : CodecLimits) (FL : FrameLimits) : Outcome A -> Prop :=
  match c in Call A return Outcome A -> Prop with
  | CDeclare _ => sendable_good c_capability_ack L FL id
  | CPublish _ => sendable_good c_policy_ack L FL mkPolicyAck
  | CIngest _ => sendable_good c_ingest_ack L FL ingest_ack
  | CQuery _ => sendable_good c_link_quality_report L FL id
  | CWindow _ => sendable_good c_window_result L FL id
  | CExplain _ => sendable_good c_explanation L FL id
  | CInspect _ => sendable_good c_inspection_report L FL id
  | CCapabilities _ => sendable_good c_capabilities_reply L FL mkCapabilitiesReply
  | CPolicyDocument _ => fun o =>
      sendable c_policy_document_reply L FL
        (match o with
         | Good record => mkPolicyDocumentReply record 1 ""
         | Bad _ => mkPolicyDocumentReply default_policy_record 0 "policy generation is not retained"
         end)
  | CStats => sendable_good c_stats_report L FL id
  | CFlush => sendable_good c_flush_ack L FL id
  | CCompact => sendable_good c_compact_ack L FL id
  end.

(** ** A session between requests *)

Record ready (i : nat) (ses : Session Server) : Prop := {
  rd_connected : cl_connected ses.1 = true;
  rd_unread : cl_unread ses.1 = [];
  rd_connection : exists output, sv_connections ses.2 !! i = Some (mkConnection [] false output Reading);
  rd_running : sv_stop_requested ses.2 = false;
  rd_frames : ccf_frames (cl_config ses.1) = sc_frames (sv_config ses.2);
  rd_codec : ccf_codec (cl_config ses.1) = sc_codec (sv_config ses.2);
  rd_room : 518 <= frame_limit (sc_frames (sv_config ses.2));
}.

(** What a served request leaves of a session: the fabric and the statistics
    changed, and the reply was sent. *)
Definition after_call (i : nat) (ses : Session Server) (f : Fabric) (s : ServerStats) (co : Connection)
  : Session Server := (with_unread ses.1 [], with_connection (with_fabric ses.2 f s) i co).

Lemma ready_after i ses f s output : ready i ses ->
  ready i (after_call i ses f s (mkConnection [] false output Reading)).
Proof.
  intros [A B (o & C) D E F G]. constructor; cbn; try done.
  exists output. apply list_lookup_insert_eq. by eapply lookup_lt_Some.
Qed.

Lemma encode_frame_fits type body FL : type <> MessageType.Invalid -> zlen body + 1 <= frame_limit FL ->
  exists bytes, encode_frame (mkFrame type body) FL = Good bytes.
Proof.
  intros Ht Hl. unfold encode_frame. cbn [fr_type fr_body]. rewrite type_is_known_val, negb_involutive.
  apply eqb_neq in Ht. rewrite Ht. cbn [orb]. unfold checked_add_size.
  pose proof (frame_limit_ceiling FL) as Hc. unfold kMaxFrameBytesCeiling in Hc.
  pose proof (zlen_nonneg body). rewrite (proj2 (Z.ltb_ge _ _)) by (unfold u64_max; lia).
  rewrite wrap64_id by (unfold is_u64, u64_max; lia). rewrite (proj2 (Z.ltb_ge _ _)) by lia. by eexists.
Qed.

Lemma writer_raw_fits L data buffer : zlen buffer + zlen data <= Z.min (cl_max_total_bytes L) u64_max ->
  writer_raw L data (mkWriter buffer StatusCode.Ok) = mkWriter (buffer ++ data) StatusCode.Ok.
Proof.
  intros Hl. pose proof (zlen_nonneg buffer). pose proof (zlen_nonneg data).
  unfold writer_raw, checked_add_size. cbn [w_buffer w_status].
  rewrite (proj2 (Z.ltb_ge _ _)) by lia. rewrite wrap64_id by (unfold is_u64; lia).
  by rewrite (proj2 (Z.ltb_ge _ _)) by lia.
Qed.

Lemma encode_error_reply_fits code text : zslen text <= 512 ->
  exists body, encode_error_reply (mkErrorReply code text) = Good body /\ zlen body + 1 <= 518.
Proof.
  intros Ht. pose proof (zslen_nonneg text) as Hn. unfold encode_error_reply. cbn [erp_code erp_message].
  change (put_u8 error_limits (enum_val code) empty_writer) with (mkWriter [enum_val code] StatusCode.Ok).
  assert (put_text error_limits text (cl_max_string_bytes error_limits) (mkWriter [enum_val code] StatusCode.Ok) =
    mkWriter (([enum_val code] ++ le_bytes 4 (zslen text)) ++ bytes_of_string text) StatusCode.Ok) as ->.
  { unfold put_text, put_bytes, put_le. cbn [w_status w_buffer].
    change (negb (ok StatusCode.Ok)) with false. cbv iota. rewrite bytes_of_string_length.
    change (cl_max_string_bytes error_limits) with 512. change (cl_max_total_bytes error_limits) with 8388608.
    rewrite (proj2 (Z.ltb_ge 512 _)), (proj2 (Z.ltb_ge 8388608 _)), (proj2 (Z.ltb_ge u32_max _)) by (unfold u32_max; lia).
    cbn [orb]. apply writer_raw_fits. rewrite zlen_app, zlen_le_bytes, bytes_of_string_length.
    change (cl_max_total_bytes error_limits) with 8388608. unfold u64_max. change (zlen [enum_val code]) with 1. lia. }
  eexists. split; [done|]. cbn [w_buffer]. rewrite !zlen_app, zlen_le_bytes, bytes_of_string_length.
  change (zlen [enum_val code]) with 1. lia.
Qed.

(** ** One request and its reply *)

Section OneRequest.
Context `{Charconv} `{LongDouble}.

(** The frame that answers an outcome, and its bytes. *)
Definition answer_frame (text : string) (outcome : Outcome Frame) (frame : Frame) : Prop :=
  match outcome with
  | Good reply => frame = reply
  | Bad code => fr_type frame = MessageType.Error /\ encode_error_reply (mkErrorReply code text) = Good (fr_body frame)
  end.

(** The reply of a dispatched request, encoded. *)
Lemma answer_encodes config text outcome frame bytes s : answer_frame text outcome frame ->
  encode_frame frame (sc_frames config) = Good bytes ->
  exists s', (match outcome with
              | Bad code => begin_status config code text s
              | Good reply => (encode_frame reply (sc_frames config), s)
              end) = (Good bytes, s').
Proof.
  intros Ha E. destruct outcome as [reply|code]; cbn in Ha.
  - subst frame. rewrite E. by eexists.
  - destruct Ha as [Ht Hb]. unfold begin_status. rewrite Hb.
    assert (mkFrame MessageType.Error (fr_body frame) = frame) as -> by (destruct frame; cbn in *; by subst).
    rewrite E. by eexists.
Qed.

(** A reply whose every byte is taken. *)
Lemma send_rest_whole sv input output bytes : bytes <> [] ->
  exists s, send_rest None (sv, mkConnection input false output (Sending bytes (zlen bytes) KeepServing)) =
    (with_counters sv s, mkConnection input false (output ++ bytes) Reading).
Proof.
  intros Hb. unfold send_rest, settle, send_step. cbn [co_stage fst snd write_complete].
  assert (0 < zlen bytes) as Hl by (unfold zlen; destruct bytes; cbn [List.length]; [congruence|lia]).
  assert (Z.to_nat (zlen bytes) = List.length bytes) as -> by (unfold zlen; lia).
  rewrite (proj2 (Z.leb_gt _ _) Hl), drop_all, firstn_all. by eexists.
Qed.

Lemma step_serves env sv output request bytes outcome f frame reply : sv_stop_requested sv = false ->
  encode_frame request (sc_frames (sv_config sv)) = Good bytes ->
  dispatch (sv_config sv) env request (sv_fabric sv) = (outcome, false, f) -> env_sent env = None ->
  answer_frame (env_text env) outcome frame -> encode_frame frame (sc_frames (sv_config sv)) = Good reply ->
  exists s, connection_step env sv (mkConnection bytes false output Reading) =
    Some (with_fabric sv f s, mkConnection [] false (output ++ reply) Reading).
Proof.
  intros Hs E Ed Hok Ha Er. destruct (read_encoded_frame request _ (sc_frames (sv_config sv)) bytes [] E) as
    (header & payload & n & crc & R1 & D1 & R2 & D2 & _); [done|]. rewrite !app_nil_r in *.
  unfold connection_step, read_step. cbn [co_stage co_input]. rewrite Hs, R1, D1, R2, D2.
  set (s0 := note_frames_in _ _). unfold settle at 1, dispatch_step. cbn [fst snd at_stage co_stage co_input].
  change (sv_config (with_counters sv s0)) with (sv_config sv). change (sv_fabric (with_counters sv s0)) with (sv_fabric sv).
  rewrite Ed. destruct (answer_encodes (sv_config sv) (env_text env) outcome frame reply
    (sv_stats (with_counters sv s0)) Ha Er) as [s1 ->]. rewrite Hok. unfold send_or_finish, at_stage. cbn [co_eof co_output].
  destruct (send_rest_whole (with_fabric (with_counters sv s0) f s1) [] output reply) as [s ->];
    [by eapply encode_frame_length|]. by exists s.
Qed.

Lemma serve_pending_idle n env sv output : sv_stop_requested sv = false ->
  serve_pending n env sv (mkConnection [] false output Reading) = (sv, mkConnection [] false output Reading).
Proof.
  intros Hs. destruct n; [done|]. cbn [serve_pending]. unfold connection_step, read_step. cbn [co_stage co_input]. by rewrite Hs.
Qed.

Lemma transmit_served i env sv output request bytes outcome f frame reply :
  sv_connections sv !! i = Some (mkConnection [] false output Reading) -> sv_stop_requested sv = false ->
  encode_frame request (sc_frames (sv_config sv)) = Good bytes ->
  dispatch (sv_config sv) env request (sv_fabric sv) = (outcome, false, f) -> env_sent env = None ->
  answer_frame (env_text env) outcome frame -> encode_frame frame (sc_frames (sv_config sv)) = Good reply ->
  exists s, converse i (fun _ => env) bytes sv =
    (Good (reply, false), with_connection (with_fabric sv f s) i (mkConnection [] false (output ++ reply) Reading)).
Proof.
  intros Hc Hs E Ed Hok Ha Er. unfold converse. rewrite Hc. cbn [co_done co_input co_eof co_output co_stage app].
  destruct (step_serves env sv output request bytes outcome f frame reply Hs E Ed Hok Ha Er) as [s Es].
  cbn [serve_pending]. rewrite Es. rewrite serve_pending_idle by done.
  exists s. cbn [co_output co_done co_stage]. by rewrite drop_app_length.
Qed.

Lemma receive_frame_served c frame FL bytes q closed : encode_frame frame FL = Good bytes ->
  frame_limit FL <= frame_limit (ccf_frames (cl_config c)) ->
  receive_frame (with_unread c (bytes ++ q)) closed = (Some (Good frame), with_unread c q).
Proof.
  intros E HL. destruct (read_encoded_frame frame _ (ccf_frames (cl_config c)) bytes q E HL) as
    (header & payload & n & crc & R1 & D1 & R2 & D2 & _).
  unfold receive_frame, recv_exact. cbn [with_unread cl_unread cl_config]. rewrite R1, D1, R2, D2. done.
Qed.

Lemma answer_frame_exists text outcome FL : zslen text <= 512 -> 518 <= frame_limit FL ->
  match outcome with
  | Good reply => fr_type reply <> MessageType.Invalid /\ zlen (fr_body reply) + 1 <= frame_limit FL
  | Bad _ => True
  end -> exists frame bytes, answer_frame text outcome frame /\ encode_frame frame FL = Good bytes.
Proof.
  intros Ht HF Ho. destruct outcome as [[type body]|code].
  - destruct Ho as (Hi & Hl). destruct (encode_frame_fits type body FL Hi Hl) as [bytes E].
    by exists (mkFrame type body), bytes.
  - destruct (encode_error_reply_fits code text Ht) as (body & E1 & E2).
    destruct (encode_frame_fits MessageType.Error body FL) as [bytes E]; [done|lia|].
    by exists (mkFrame MessageType.Error body), bytes.
Qed.

Lemma exchange_served {B} (cb : codec B) `{!CodecLaws cb} i env ses type body rtype r f :
  ready i ses -> env_sent env = None -> zslen (env_text env) <= 512 ->
  type <> MessageType.Invalid -> zlen body + 1 <= frame_limit (sc_frames (sv_config ses.2)) ->
  message_is_response rtype = true -> rtype <> MessageType.Error ->
  dispatch (sv_config ses.2) env (mkFrame type body) (sv_fabric ses.2) =
    (match r with Good b => reply_frame cb (sc_codec (sv_config ses.2)) rtype b | Bad e => Bad e end, false, f) ->
  (forall b, r = Good b -> sendable cb (sc_codec (sv_config ses.2)) (sc_frames (sv_config ses.2)) b) ->
  exists s output, exchange (H := connection_channel i (fun _ => env)) type body cb rtype ses =
    (Some r, after_call i ses f s (mkConnection [] false output Reading)).
Proof.
  destruct ses as [c sv]. cbn [fst snd]. intros [A B0 (output & C) D E F G] Hok Ht Hty Hl Hr Hne Ed Hs. cbn in *.
  destruct (encode_frame_fits type body _ Hty Hl) as [bytes Eb].
  assert (exists frame reply, answer_frame (env_text env)
      (match r with Good b => reply_frame cb (sc_codec (sv_config sv)) rtype b | Bad e => Bad e end) frame /\
      encode_frame frame (sc_frames (sv_config sv)) = Good reply) as (frame & reply & Ha & Er).
  { apply answer_frame_exists; [done|done|]. destruct r as [b|e]; [|done].
    destruct (Hs b eq_refl) as (_ & rbody & Ee & Hn). unfold reply_frame. rewrite Ee. cbn.
    split; [by intros ->|done]. }
  destruct (transmit_served i env sv output _ bytes _ f frame reply C D Eb Ed Hok Ha Er) as [s Ec].
  exists s, (output ++ reply). unfold exchange, request. rewrite A, E, Eb. cbn [negb transmit connection_channel].
  rewrite Ec, B0. cbn [app]. rewrite <- (app_nil_r reply) at 1.
  rewrite (receive_frame_served c frame _ reply [] false Er) by (by rewrite E).
  destruct r as [b|e].
  - destruct (Hs b eq_refl) as (T & rbody & Ee & Hn). unfold reply_frame in Ha. rewrite Ee in Ha. cbn in Ha. subst frame.
    cbn [fr_type fr_body]. apply eqb_neq in Hne. rewrite Hne, Hr. cbn [negb fst].
    unfold expect. cbn [fr_type fr_body]. rewrite eqb_refl. cbn [negb].
    pose proof (encode_decode cb _ b rbody [] T Ee) as Hd. rewrite app_nil_r in Hd. by rewrite F, Hd.
  - cbn in Ha. destruct Ha as [-> Hb]. change (eqb MessageType.Error MessageType.Error) with true. cbv iota.
    by rewrite (error_reply_round_trip _ _ Hb).
Qed.

Lemma call_served {A B} (ca : codec A) (cb : codec B) `{!CodecLaws ca} `{!CodecLaws cb} i env ses type v rtype r f :
  ready i ses -> env_sent env = None -> zslen (env_text env) <= 512 ->
  type <> MessageType.Invalid -> message_is_response rtype = true -> rtype <> MessageType.Error ->
  sendable ca (sc_codec (sv_config ses.2)) (sc_frames (sv_config ses.2)) v ->
  (forall body, decode_body ca (sc_codec (sv_config ses.2)) body = Good v ->
    dispatch (sv_config ses.2) env (mkFrame type body) (sv_fabric ses.2) =
    (match r with Good b => reply_frame cb (sc_codec (sv_config ses.2)) rtype b | Bad e => Bad e end, false, f)) ->
  (forall b, r = Good b -> sendable cb (sc_codec (sv_config ses.2)) (sc_frames (sv_config ses.2)) b) ->
  exists s output, call (H := connection_channel i (fun _ => env)) ca type v cb rtype ses =
    (Some r, after_call i ses f s (mkConnection [] false output Reading)).
Proof.
  intros Hrd Hok Ht Hty Hr Hne (T & body & E & Hl) Ed Hs. unfold call. rewrite (rd_codec _ _ Hrd), E.
  apply exchange_served; try done. apply Ed. unfold decode_body.
  pose proof (encode_decode ca _ v body [] T E) as Hd. rewrite app_nil_r in Hd. by rewrite Hd.
Qed.
End OneRequest.

(** ** Theorem *)

Section Transparent.
Context `{Charconv} `{LongDouble}.

Definition transparent {A} (c : Call A) (i : nat) (env : RequestEnv) (ses : Session Server) : Prop :=
  let r := remote (H := connection_channel i (fun _ => env)) c ses in
  let l := local c env (sv_fabric ses.2) in
  r.1 = Some l.1 /\ sv_fabric r.2.2 = l.2 /\ ready i r.2.

(** A served exchange in the client's shape. *)
Lemma served_shape {A B} (x : Answer B * Session Server) (r : Outcome B) (g : B -> Outcome A) i ses f s output (l : Outcome A * Fabric) :
  ready i ses -> x = (Some r, after_call i ses f s (mkConnection [] false output Reading)) ->
  match r with Good b => g b | Bad e => Bad e end = l.1 -> f = l.2 ->
  (map_answer g x).1 = Some l.1 /\ sv_fabric (map_answer g x).2.2 = l.2 /\ ready i (map_answer g x).2.
Proof.
  intros Hrd -> E1 ->. unfold map_answer. cbn [fst snd]. split; [|split; [done|by apply ready_after]].
  destruct r; by rewrite <- E1.
Qed.

Definition out_map {A B} (g : A -> B) (o : Outcome A) : Outcome B :=
  match o with Good a => Good (g a) | Bad e => Bad e end.

(** A call whose handler answers with [g] of what the entry point returns. *)
Lemma call_transparent {R A B} (ca : codec R) (cb : codec B) `{!CodecLaws ca} `{!CodecLaws cb} i env ses
    type v rtype (g : A -> B) (back : B -> Outcome A) (l : Outcome A * Fabric) :
  ready i ses -> env_sent env = None -> zslen (env_text env) <= 512 ->
  type <> MessageType.Invalid -> message_is_response rtype = true -> rtype <> MessageType.Error ->
  sendable ca (sc_codec (sv_config ses.2)) (sc_frames (sv_config ses.2)) v ->
  (forall body, decode_body ca (sc_codec (sv_config ses.2)) body = Good v ->
    dispatch (sv_config ses.2) env (mkFrame type body) (sv_fabric ses.2) =
    (match out_map g l.1 with Good b => reply_frame cb (sc_codec (sv_config ses.2)) rtype b | Bad e => Bad e end,
     false, l.2)) ->
  sendable_good cb (sc_codec (sv_config ses.2)) (sc_frames (sv_config ses.2)) g l.1 ->
  (forall a, back (g a) = Good a) ->
  let x := map_answer back (call (H := connection_channel i (fun _ => env)) ca type v cb rtype ses) in
  x.1 = Some l.1 /\ sv_fabric x.2.2 = l.2 /\ ready i x.2.
Proof.
  intros Hrd Hok Ht Hty Hr Hne Hsend Ed Hs Hback.
  destruct (call_served ca cb i env ses type v rtype (out_map g l.1) l.2) as (s & output & E); try done.
  - intros b Eb. destruct (l.1); [|done]. injection Eb as <-. exact Hs.
  - apply (served_shape _ _ back i ses l.2 s output l Hrd E); [|done].
    destruct (l.1); [|done]. apply Hback.
Qed.

Lemma map_answer_good {A S} (x : Answer A * Session S) : map_answer Good x = x.
Proof. destruct x as [[[]|] ses]; done. Qed.

(** The handler of [type] runs an entry point and answers with its result. *)
Ltac by_handler :=
  intros body Hb; unfold dispatch, dispatch_control; cbn [fr_type fr_body]; unfold handle, reading, shaped; cbn [fr_body];
  rewrite Hb; cbn [fst snd capreq_link out_map]; repeat case_match; by simplify_eq/=.

Ltac by_call g := apply (call_transparent _ _ _ _ _ _ _ _ g); try done; [by_handler|..].
Ltac by_plain_call :=
  match goal with
  | |- context [client_declare_capability] => unfold client_declare_capability
  | |- context [client_query] => unfold client_query
  | |- context [client_window] => unfold client_window
  | |- context [client_explain] => unfold client_explain
  | |- context [client_inspect] => unfold client_inspect
  end;
  rewrite <- (map_answer_good (call _ _ _ _ _ _)); apply (call_transparent _ _ _ _ _ _ _ _ id); try done; [by_handler].

Lemma policy_document_transparent generation i env ses : ready i ses -> env_sent env = None ->
  zslen (env_text env) <= 512 ->
  request_sendable (CPolicyDocument generation) (sc_codec (sv_config ses.2)) (sc_frames (sv_config ses.2)) ->
  reply_sendable (CPolicyDocument generation) (sc_codec (sv_config ses.2)) (sc_frames (sv_config ses.2))
    (local (CPolicyDocument generation) env (sv_fabric ses.2)).1 ->
  transparent (CPolicyDocument generation) i env ses.
Proof.
  intros Hrd Hok Ht Hq Hp. cbn [request_sendable reply_sendable local fst] in *.
  set (reply := find_policy (mkPolicyDocumentRequest generation) (sv_fabric ses.2)).
  destruct (call_served c_policy_document_request c_policy_document_reply i env ses MessageType.PolicyDocument
    (mkPolicyDocumentRequest generation) MessageType.PolicyDocumentReply (Good reply) (sv_fabric ses.2))
    as (s & output & E); try done.
  - by_handler.
  - intros b [= <-]. unfold reply, find_policy. cbn [pdreq_generation]. by case_match.
  - apply (served_shape _ _ _ i ses (sv_fabric ses.2) s output _ Hrd E); [|done].
    unfold reply, find_policy. cbn [local fst pdreq_generation]. unfold policy_document. by destruct (PolicyRegistry.get _ _).
Qed.

Lemma exchange_transparent {A} (cb : codec A) `{!CodecLaws cb} i env ses type rtype (l : Outcome A * Fabric) :
  ready i ses -> env_sent env = None -> zslen (env_text env) <= 512 ->
  type <> MessageType.Invalid -> message_is_response rtype = true -> rtype <> MessageType.Error ->
  dispatch (sv_config ses.2) env (mkFrame type []) (sv_fabric ses.2) =
    (match l.1 with Good b => reply_frame cb (sc_codec (sv_config ses.2)) rtype b | Bad e => Bad e end, false, l.2) ->
  sendable_good cb (sc_codec (sv_config ses.2)) (sc_frames (sv_config ses.2)) id l.1 ->
  let x := exchange (H := connection_channel i (fun _ => env)) type [] cb rtype ses in
  x.1 = Some l.1 /\ sv_fabric x.2.2 = l.2 /\ ready i x.2.
Proof.
  intros Hrd Hok Ht Hty Hr Hne Ed Hs. pose proof (rd_room _ _ Hrd) as Hroom.
  destruct (exchange_served cb i env ses type [] rtype l.1 l.2) as (s & output & E); try done.
  - change (zlen (@nil Z)) with 0. lia.
  - intros b Eb. by rewrite Eb in Hs.
  - cbv zeta. rewrite E. split; [done|]. split; [done|]. by apply ready_after.
Qed.

Ltac by_exchange l :=
  apply (exchange_transparent _ _ _ _ _ _ l);
  [assumption|assumption|assumption|discriminate|reflexivity|discriminate| |assumption];
  unfold dispatch, dispatch_control, l, of_status; cbn [fr_type].

Lemma calls_transparent {A} (c : Call A) i env ses : ready i ses -> env_sent env = None ->
  zslen (env_text env) <= 512 ->
  request_sendable c (sc_codec (sv_config ses.2)) (sc_frames (sv_config ses.2)) ->
  reply_sendable c (sc_codec (sv_config ses.2)) (sc_frames (sv_config ses.2)) (local c env (sv_fabric ses.2)).1 ->
  transparent c i env ses.
Proof.
  intros Hrd Hok Ht Hq Hp. unfold transparent. set (l := local c env (sv_fabric ses.2)) in *.
  destruct c; cbn [request_sendable reply_sendable remote local] in *.
  - by_plain_call.
  - by_call mkPolicyAck.
  - by_call ingest_ack. by intros [].
  - by_plain_call.
  - by_plain_call.
  - by_plain_call.
  - by_plain_call.
  - subst l. by_call mkCapabilitiesReply.
  - apply (policy_document_transparent _ i env ses Hrd Hok Ht Hq Hp).
  - unfold client_stats. by_exchange l. cbn [fst snd]. reflexivity.
  - unfold client_flush. by_exchange l. by destruct (flush _ _) as [[] g].
  - unfold client_compact. by_exchange l. by destruct (compact _ _) as [[] g].
Qed.
End Transparent.

(** Frames survive the stream.  A frame one end accepts for sending is read by
    the other exactly, from the front of whatever has arrived, leaving what
    follows it; and when the stream ends anywhere inside the frame the reader
    reports the loss and returns no frame. *)
Theorem frames_round_trip frame L bytes c : encode_frame frame L = Good bytes ->
  frame_limit L <= frame_limit (ccf_frames (cl_config c)) ->
  (forall q closed, receive_frame (with_unread c (bytes ++ q)) closed = (Some (Good frame), with_unread c q)) /\
  (forall p q, bytes = p ++ q -> q <> [] ->
     (receive_frame (with_unread c p) true).1 = Some (Bad StatusCode.Cancelled)).
Proof.
  intros E HL. split; [intros q closed; by eapply receive_frame_served|]. intros p q -> Hq.
  pose proof (read_truncated_frame frame L _ p q E Hq HL) as Ht.
  unfold receive_frame, recv_exact. cbn [with_unread cl_unread cl_config].
  destruct (read_exact kFrameHeaderBytes p) as [[header after]|]; [|done].
  destruct Ht as (n & crc & -> & ->). done.
Qed.

(** C12: A call over the wire is the call on the fabric.  On an idle connection, with
    both ends configured alike, provided that the request and the reply fit the
    limits of the codec and of a frame ([request_sendable], [reply_sendable]), that
    the text of a refusal is at most 512 bytes, the limit of an error reply, and that
    the socket takes the whole reply: every operation of the client other than the
    handshake and the shutdown returns, and returns exactly what the entry point of
    the fabric returns, a refusal with its code included; the fabric behind the
    server changes exactly as the entry point changes it, and the connection is idle
    again. *)
Theorem remote_call_is_local_call (CC : Charconv) (LD : LongDouble) A (c : Call A) i env ses :
  ready i ses -> env_sent env = None -> zslen (env_text env) <= 512 ->
  request_sendable c (sc_codec (sv_config ses.2)) (sc_frames (sv_config ses.2)) ->
  reply_sendable c (sc_codec (sv_config ses.2)) (sc_frames (sv_config ses.2)) (local c env (sv_fabric ses.2)).1 ->
  let r := remote (H := connection_channel i (fun _ => env)) c ses in
  r.1 = Some (local c env (sv_fabric ses.2)).1 /\
  sv_fabric r.2.2 = (local c env (sv_fabric ses.2)).2 /\ ready i r.2.
Proof.
  intros Hr Ho Ht Hq Hp. pose proof (calls_transparent c i env ses Hr Ho Ht Hq Hp) as Hc.
  unfold transparent in Hc. exact Hc.
Qed.

Module WireExamples.
Import ClassifierExamples FabricExamples ServerExamples.

Definition client_config : ClientConfig :=
  mkClientConfig 4710 (mkFrameLimits kMaxFrameBytesDefault) default_codec_limits "probe" 7.
Definition server : Server := Eval vm_compute in
  match start server_config running false StatusCode.Ok StatusCode.Ok with
  | Good sv => server_steps [EvAcceptCheck; EvAccept true StatusCode.Ok ""] sv
  | Bad _ => mkServer server_config running no_stats true 0 [] new_acceptor
  end.
Definition session : Session Server := (mkFabricClient client_config 1 true [], server).

Lemma session_ready : ready 0 session.
Proof. constructor; try reflexivity; [by exists []|by vm_compute]. Qed.
End WireExamples.

Import ClassifierExamples FabricExamples ServerExamples WireExamples.

Definition asked : Call LinkQualityReport := CQuery ClassifierExamples.query.
Definition told : LinkQualityReport := Eval vm_compute in
  match (local asked env running).1 with Good r => r | Bad _ => FabricSpec.answer end.

Lemma asked_sendable : request_sendable asked default_codec_limits (mkFrameLimits kMaxFrameBytesDefault).
Proof. split; [repeat (split || constructor); vm_compute; done|]. eexists. split; [vm_compute; reflexivity|vm_compute; done]. Qed.

Lemma told_sendable : sendable c_link_quality_report default_codec_limits (mkFrameLimits kMaxFrameBytesDefault) told.
Proof. split; [repeat (split || constructor); vm_compute; done|]. eexists. split; [vm_compute; reflexivity|vm_compute; done]. Qed.

Lemma told_by_fabric : (local asked env (sv_fabric session.2)).1 = Good told.
Proof. vm_compute. reflexivity. Qed.

Lemma remote_call_is_local_call_witness :
  (remote (H := connection_channel 0 (fun _ => env)) asked session).1 = Some (Good told).
Proof.
  destruct (remote_call_is_local_call fixed_charconv ld _ asked 0 env session) as [E _].
  - exact session_ready.
  - reflexivity.
  - vm_compute. discriminate.
  - exact asked_sendable.
  - rewrite told_by_fabric. exact told_sendable.
  - rewrite told_by_fabric in E. exact E.
Defined.

Definition listening : FabricClient := mkFabricClient client_config 1 true [].

Lemma frames_round_trip_witness :
  receive_frame (with_unread listening (request_bytes ++ [1; 2; 3])) false =
    (Some (decode_frame_payload (drop 8 request_bytes) (decode_u32 4 request_bytes)), with_unread listening [1; 2; 3]) /\
  (receive_frame (with_unread listening (take 20 request_bytes)) true).1 = Some (Bad StatusCode.Cancelled).
Proof.
  set (frame := match decode_frame_payload (drop 8 request_bytes) (decode_u32 4 request_bytes) with
                | Good frame => frame | Bad _ => mkFrame MessageType.Invalid [] end).
  destruct (frames_round_trip frame (sc_frames server_config) request_bytes listening) as [E1 E2].
  - vm_compute. reflexivity.
  - vm_compute. discriminate.
  - split.
    + rewrite (E1 [1; 2; 3] false). vm_compute. reflexivity.
    + apply (E2 (take 20 request_bytes) (drop 20 request_bytes)); [by rewrite take_drop|vm_compute; discriminate].
Defined.
