(* ===== verification/LockTracker.v ===== *)
(** * The lock audit

    [core/lock_tracker.*]: the audit that runs before every blocking acquisition
    of a tracked mutex.  A lock is identified by its address.  Each thread has
    the list of the locks it holds or is acquiring, in order; the registry, behind
    its own mutex, has the observed order of the locks as a graph.  The audit is
    modelled as built with [LQF_LOCK_TRACKING]; allocation failures are not. *)

From Stdlib Require Import ZArith Lia Bool List String Ascii Sorted.
From stdpp Require Import base decidable relations list strings.
From S2P Require Import Prelude OrdMap Core Quality.

Open Scope Z_scope.

Inductive LockMode := Shared | Exclusive.

Module ViolationKind.
Inductive t := None | Reentrancy | OrderInversion.
End ViolationKind.

Record LockViolation := mkLockViolation {
  lv_kind : ViolationKind.t; lv_acquiring : string; lv_held : string }.

Definition kMaxHeldPerThread : Z := 64.
Definition kMaxEdges : Z := 1024.
Definition kMaxRecentViolations : Z := 16.

Record Edge := mkEdge { ed_from : Z; ed_to : Z; ed_from_name : string; ed_to_name : string }.

Record Registry := mkRegistry {
  rg_edges : list Edge;
  rg_names : list (Z * string);
  rg_recent : list LockViolation;
  rg_violations : Z;
  rg_reentrancy : Z;
  rg_inversion : Z;
  rg_edges_dropped : Z;
}.

Definition empty_registry : Registry := mkRegistry [] [] [] 0 0 0 0.

(** The thread-local lists. *)
Record ThreadLocal := mkThreadLocal { tls_held : list Z; tls_held_names : list string }.

(** ** The audit *)

(** The search gives up below depth 32: [fuel] is 33 minus the depth. *)
Fixpoint reaches (fuel : nat) (edges : list Edge) (from target : Z) : bool :=
  match fuel with
  | O => false
  | S fuel =>
      existsb (fun edge => if negb (ed_from edge =? from) then false
                           else if ed_to edge =? target then true
                           else reaches fuel edges (ed_to edge) target) edges
  end.
Definition kSearchDepth : nat := 33.

Fixpoint name_of (names : list (Z * string)) (id : Z) : string :=
  match names with
  | [] => "unknown"
  | (known, name) :: rest => if known =? id then name else name_of rest id
  end.

Definition remember_name (id : Z) (name : string) (reg : Registry) : Registry :=
  if existsb (fun entry => fst entry =? id) (rg_names reg) then reg
  else if zlen (rg_names reg) <? kMaxEdges
  then mkRegistry (rg_edges reg) (rg_names reg ++ [(id, name)]) (rg_recent reg) (rg_violations reg)
         (rg_reentrancy reg) (rg_inversion reg) (rg_edges_dropped reg)
  else reg.

(** [recent] keeps the last sixteen violations. *)
Definition push_recent (violation : LockViolation) (recent : list LockViolation) : list LockViolation :=
  (if kMaxRecentViolations <=? zlen recent then tail recent else recent) ++ [violation].

Definition report_reentrancy (own_name : string) (reg : Registry) : Registry :=
  mkRegistry (rg_edges reg) (rg_names reg)
    (push_recent (mkLockViolation ViolationKind.Reentrancy own_name own_name) (rg_recent reg))
    (incr64 (rg_violations reg)) (incr64 (rg_reentrancy reg)) (rg_inversion reg) (rg_edges_dropped reg).

Definition report_inversion (own_name : string) (held : Z) (reg : Registry) : Registry :=
  mkRegistry (rg_edges reg) (rg_names reg)
    (push_recent (mkLockViolation ViolationKind.OrderInversion own_name (name_of (rg_names reg) held))
       (rg_recent reg))
    (incr64 (rg_violations reg)) (rg_reentrancy reg) (incr64 (rg_inversion reg)) (rg_edges_dropped reg).

Definition record_edge (held id : Z) (own_name : string) (reg : Registry) : Registry :=
  if existsb (fun edge => (ed_from edge =? held) && (ed_to edge =? id)) (rg_edges reg) then reg
  else if zlen (rg_edges reg) <? kMaxEdges
  then mkRegistry (rg_edges reg ++ [mkEdge held id (name_of (rg_names reg) held) own_name]) (rg_names reg)
         (rg_recent reg) (rg_violations reg) (rg_reentrancy reg) (rg_inversion reg) (rg_edges_dropped reg)
  else mkRegistry (rg_edges reg) (rg_names reg) (rg_recent reg) (rg_violations reg) (rg_reentrancy reg)
         (rg_inversion reg) (incr64 (rg_edges_dropped reg)).

(** One lock already held, with the name recorded beside it. *)
Definition audit_held (id : Z) (own_name : string) (held : Z) (held_name : string) (reg : Registry) : Registry :=
  let reg := if reaches kSearchDepth (rg_edges reg) id held then report_inversion own_name held reg else reg in
  record_edge held id own_name (remember_name held held_name (remember_name id own_name reg)).

(** The loop over the held locks, from [index]. *)
Fixpoint audit_order (id : Z) (own_name : string) (names : list string) (index : nat) (held : list Z)
    (reg : Registry) : Registry :=
  match held with
  | [] => reg
  | h :: rest =>
      audit_order id own_name names (S index) rest
        (audit_held id own_name h (match names !! index with Some name => name | None => "unknown" end) reg)
  end.

Definition before_acquire (id : Z) (name : option string) (_ : LockMode) (tls : ThreadLocal) (reg : Registry)
  : ThreadLocal * Registry :=
  let own_name := match name with Some n => n | None => "unnamed"%string end in
  let reg :=
    if existsb (fun held => held =? id) (tls_held tls) then report_reentrancy own_name reg
    else audit_order id own_name (tls_held_names tls) 0 (tls_held tls) reg in
  (if zlen (tls_held tls) <? kMaxHeldPerThread
   then mkThreadLocal (tls_held tls ++ [id]) (tls_held_names tls ++ [own_name]) else tls, reg).

(** The index of the last occurrence. *)
Fixpoint last_index (id : Z) (held : list Z) : option nat :=
  match held with
  | [] => None
  | h :: rest =>
      match last_index id rest with
      | Some i => Some (S i)
      | None => if h =? id then Some O else None
      end
  end.

Definition after_release (id : Z) (tls : ThreadLocal) : ThreadLocal :=
  match last_index id (tls_held tls) with
  | None => tls
  | Some index => mkThreadLocal (delete index (tls_held tls)) (delete index (tls_held_names tls))
  end.

Definition held_depth (tls : ThreadLocal) : Z := zlen (tls_held tls).

(** ** What the audit reports *)

Definition violation_count (reg : Registry) : Z := rg_violations reg.
Definition reentrancy_count (reg : Registry) : Z := rg_reentrancy reg.
Definition inversion_count (reg : Registry) : Z := rg_inversion reg.
Definition tracked_lock_count (reg : Registry) : Z := zlen (rg_names reg).
Definition tracked_edge_count (reg : Registry) : Z := zlen (rg_edges reg).
Definition recent_violations (reg : Registry) : list LockViolation := rg_recent reg.

Definition violation_report (reg : Registry) : string :=
  "lock-audit violations=" +:+ text.format_u64 (rg_violations reg)
    +:+ " reentrancy=" +:+ text.format_u64 (rg_reentrancy reg)
    +:+ " inversion=" +:+ text.format_u64 (rg_inversion reg)
    +:+ " tracked=" +:+ text.format_u64 (zlen (rg_names reg))
    +:+ " edges=" +:+ text.format_u64 (zlen (rg_edges reg))
    +:+ " edges-dropped=" +:+ text.format_u64 (rg_edges_dropped reg)
    +:+ fold_right (fun violation rest =>
          String "010"%char "  "
            +:+ (match lv_kind violation with
                 | ViolationKind.Reentrancy => "reentrancy" | _ => "order-inversion" end)
            +:+ " acquiring=" +:+ lv_acquiring violation +:+ " held=" +:+ lv_held violation +:+ rest)
          "" (rg_recent reg).

Definition reset_tracking (_ : Registry) : Registry := empty_registry.

(** ** Tracked mutexes *)

Record TrackedMutex := mkTrackedMutex { tm_id : Z; tm_name : option string }.

(** The registry and the locals of every thread. *)
Record AuditState := mkAuditState { au_registry : Registry; au_threads : nat -> ThreadLocal }.

Definition set_thread (st : AuditState) (t : nat) (tls : ThreadLocal) (reg : Registry) : AuditState :=
  mkAuditState reg (fun u => if (u =? t)%nat then tls else au_threads st u).

Definition lock (t : nat) (m : TrackedMutex) (mode : LockMode) (st : AuditState) : AuditState :=
  let '(tls, reg) := before_acquire (tm_id m) (tm_name m) mode (au_threads st t) (au_registry st) in
  set_thread st t tls reg.

Definition unlock (t : nat) (m : TrackedMutex) (st : AuditState) : AuditState :=
  set_thread st t (after_release (tm_id m) (au_threads st t)) (au_registry st).

(** [acquired]: what [try_lock] of the underlying mutex answers. *)
Definition try_lock (t : nat) (m : TrackedMutex) (mode : LockMode) (acquired : bool) (st : AuditState)
  : bool * AuditState :=
  let st := lock t m mode st in if acquired then (true, st) else (false, unlock t m st).

Inductive LockEvent :=
  | LkLock (t : nat) (m : TrackedMutex) (mode : LockMode)
  | LkTryLock (t : nat) (m : TrackedMutex) (mode : LockMode) (acquired : bool)
  | LkUnlock (t : nat) (m : TrackedMutex).

Definition audit_step (st : AuditState) (ev : LockEvent) : AuditState :=
  match ev with
  | LkLock t m mode => lock t m mode st
  | LkTryLock t m mode acquired => (try_lock t m mode acquired st).2
  | LkUnlock t m => unlock t m st
  end.

Definition initial_audit : AuditState := mkAuditState empty_registry (fun _ => mkThreadLocal [] []).

(** ** The observed order *)

Definition ordered (edges : list Edge) (a b : Z) : Prop :=
  exists edge, In edge edges /\ ed_from edge = a /\ ed_to edge = b.

Definition acyclic (R : relation Z) : Prop := forall a, ~ tc R a a.

(** Thread [t] holds [h] (or began to acquire it) and is acquiring [w]. *)
Definition holds_while_acquiring (st : AuditState) (h w : Z) : Prop :=
  exists t hs, tls_held (au_threads st t) = hs ++ [w] /\ In h hs.

Definition ev_lock (ev : LockEvent) : Z :=
  match ev with LkLock _ m _ | LkTryLock _ m _ _ | LkUnlock _ m => tm_id m end.

(** A walk through the vertices of [l] after [a]. *)
Fixpoint chain (R : relation Z) (a : Z) (l : list Z) : Prop :=
  match l with [] => True | b :: l => R a b /\ chain R b l end.

Section Graphs.
Context (R : relation Z).

Lemma tc_chain a b : tc R a b -> exists l, chain R a (l ++ [b]).
Proof.
  induction 1 as [a b Hab|a b c Hab _ [l IH]]; [by exists []|]. exists (b :: l). by split.
Qed.

Lemma chain_tc l : forall a b, chain R a l -> In b l -> tc R a b.
Proof.
  induction l as [|c l IH]; intros a b; [done|]. intros [H1 H2] [<- | Hb]; [by apply tc_once|].
  eapply tc_l; [exact H1|by apply IH].
Qed.

Lemma chain_NoDup l : forall a, acyclic R -> chain R a l -> List.NoDup (a :: l).
Proof.
  induction l as [|b l IH]; intros a Ha Hc; [constructor; [intros []|constructor]|].
  constructor; [|destruct Hc as [_ Hc]; by apply IH]. intros Hin. by apply (Ha a), (chain_tc (b :: l)).
Qed.

Lemma chain_vertices (P : Z -> Prop) l : (forall a b, R a b -> P b) -> forall a, chain R a l -> Forall P l.
Proof. intros HP. induction l as [|b l IH]; intros a; [constructor|]. intros [H1 H2]. constructor; eauto. Qed.

(** The relation with one more pair. *)
Definition plus (x y a b : Z) : Prop := R a b \/ (a = x /\ b = y).

Lemma tc_plus x y a b : tc (plus x y) a b ->
  tc R a b \/ ((a = x \/ tc R a x) /\ (b = y \/ tc R y b)).
Proof.
  induction 1 as [a b [Hab | [-> ->]] | a b c [Hab | [-> ->]] _ IH].
  - left. by apply tc_once.
  - right. split; by left.
  - destruct IH as [IH | [[-> | IH1] IH2]].
    + left. by eapply tc_l.
    + right. split; [right; by apply tc_once|done].
    + right. split; [right; by eapply tc_l|done].
  - destruct IH as [IH | [_ IH2]]; right; (split; [by left|]); [by right|done].
Qed.

Lemma acyclic_plus x y : acyclic R -> x <> y -> ~ tc R y x -> acyclic (plus x y).
Proof.
  intros Ha Hne Hn a Hc. apply tc_plus in Hc as [Hc | [H1 H2]]; [by apply (Ha a)|].
  destruct H1 as [-> | H1], H2 as [-> | H2]; try done. apply Hn. by eapply tc_transitive.
Qed.
End Graphs.

Lemma acyclic_mono (R S : relation Z) : (forall a b, R a b -> S a b) -> acyclic S -> acyclic R.
Proof.
  intros HRS HS a Ha. apply (HS a). clear HS. revert Ha. generalize a at 2 4. intros b Hab.
  induction Hab as [x y Hxy|x y z Hxy _ IH]; [by apply tc_once, HRS|]. eapply tc_l; [by apply HRS|done].
Qed.

(** ** The search *)

Lemma reaches_sound fuel edges : forall a b, reaches fuel edges a b = true -> tc (ordered edges) a b.
Proof.
  induction fuel as [|fuel IH]; intros a b; [done|]. cbn [reaches]. intros Hx.
  apply existsb_exists in Hx as (e & He & Hx). destruct (Z.eqb_spec (ed_from e) a) as [E1 |]; [cbn in Hx|done].
  assert (ordered edges a (ed_to e)) as Ho by (by exists e).
  destruct (Z.eqb_spec (ed_to e) b) as [<- |]; [by apply tc_once|]. eapply tc_l; [exact Ho|by apply IH].
Qed.

Lemma reaches_complete edges l : forall fuel a b, chain (ordered edges) a (l ++ [b]) ->
  (List.length l < fuel)%nat -> reaches fuel edges a b = true.
Proof.
  induction l as [|c l IH]; intros fuel a b Hc Hf; destruct fuel as [|fuel]; cbn [List.length] in Hf; [lia| |lia|];
    cbn [reaches]; apply existsb_exists; destruct Hc as [(e & He & Ef & Et) Hc]; exists e; (split; [done|]);
    rewrite Ef, Z.eqb_refl, Et; cbn [negb].
  - by rewrite Z.eqb_refl.
  - destruct (c =? b); [done|]. apply IH; [done|lia].
Qed.

(** On an acyclic order over at most 33 locks the depth limit never shows. *)
Lemma reaches_exact edges ids a b : acyclic (ordered edges) -> (List.length ids <= kSearchDepth)%nat ->
  (forall x y, ordered edges x y -> In x ids /\ In y ids) ->
  reaches kSearchDepth edges a b = true <-> tc (ordered edges) a b.
Proof.
  intros Ha Hn Hin. split; [apply reaches_sound|]. intros Ht. apply tc_chain in Ht as [l Hc].
  apply (reaches_complete edges l); [done|].
  pose proof (chain_NoDup _ _ _ Ha Hc) as Hd.
  assert (incl (a :: l ++ [b]) ids) as Hi.
  { intros x [<- | Hx].
    - destruct l; destruct Hc as [Hc _]; by apply Hin in Hc as [? _].
    - pose proof (chain_vertices _ (fun y => In y ids) _ (fun x y Hxy => proj2 (Hin x y Hxy)) _ Hc) as Hf.
      rewrite List.Forall_forall in Hf. by apply Hf. }
  pose proof (NoDup_incl_length Hd Hi) as Hl. cbn [List.length] in Hl. rewrite length_app in Hl. cbn in Hl. lia.
Qed.

(** ** What one audit adds to the order *)

Section Audit.
Context (ids : list Z).
Hypothesis few_locks : (List.length ids <= 32)%nat.

Definition edge_pair (edge : Edge) : Z * Z := (ed_from edge, ed_to edge).

Record order_inv (reg : Registry) : Prop := {
  oi_acyclic : acyclic (ordered (rg_edges reg));
  oi_known : forall x y, ordered (rg_edges reg) x y -> In x ids /\ In y ids;
  oi_nodup : List.NoDup (map edge_pair (rg_edges reg));
}.

Lemma order_inv_same reg reg' : rg_edges reg' = rg_edges reg -> order_inv reg -> order_inv reg'.
Proof. intros E [A B C]. constructor; by rewrite E. Qed.

Lemma ordered_pair edges a b : ordered edges a b <-> In (a, b) (map edge_pair edges).
Proof.
  rewrite in_map_iff. split.
  - intros (e & He & <- & <-). by exists e.
  - intros (e & [= <- <-] & He). by exists e.
Qed.

(** With at most 32 locks there is room for every edge. *)
Lemma record_edge_spec h id own_name reg : order_inv reg -> In h ids -> In id ids -> h <> id ->
  ~ tc (ordered (rg_edges reg)) id h ->
  let reg' := record_edge h id own_name reg in
  order_inv reg' /\ rg_recent reg' = rg_recent reg /\
  (forall a b, ordered (rg_edges reg') a b <-> plus (ordered (rg_edges reg)) h id a b).
Proof using few_locks.
  intros [A B C] Hh Hid Hne Hn reg'.
  destruct (existsb (fun edge => (ed_from edge =? h) && (ed_to edge =? id)) (rg_edges reg)) eqn:Ex.
  { unfold reg', record_edge. rewrite Ex. split; [done|]. split; [done|]. intros a b. split; [by left|].
    intros [Hab | [-> ->]]; [done|]. apply existsb_exists in Ex as (e & He & Ex). apply andb_prop in Ex as [E1 E2].
    apply Z.eqb_eq in E1, E2. by exists e. }
  assert (~ In (h, id) (map edge_pair (rg_edges reg))) as Hnew.
  { intros Hin. apply in_map_iff in Hin as (e & [= E1 E2] & He). apply not_true_iff_false in Ex. apply Ex, existsb_exists.
    exists e. split; [done|]. by rewrite E1, E2, !Z.eqb_refl. }
  assert (zlen (rg_edges reg) < kMaxEdges) as Hroom.
  { assert (List.NoDup ((h, id) :: map edge_pair (rg_edges reg))) as Hd by (by constructor).
    assert (incl ((h, id) :: map edge_pair (rg_edges reg)) (list_prod ids ids)) as Hi.
    { intros [x y] [[= <- <-] | Hin]; apply in_prod_iff; [done|]. by apply B, ordered_pair. }
    pose proof (NoDup_incl_length Hd Hi) as Hl. cbn [List.length] in Hl. rewrite length_map, length_prod in Hl.
    unfold zlen, kMaxEdges. nia. }
  assert (forall a b, ordered (rg_edges reg') a b <-> plus (ordered (rg_edges reg)) h id a b) as Ho.
  { intros a b. unfold reg', record_edge. rewrite Ex, (proj2 (Z.ltb_lt _ _) Hroom). cbn [rg_edges].
    rewrite ordered_pair, map_app, in_app_iff, <- ordered_pair. cbn. unfold plus, edge_pair. cbn.
    split; (intros [Hab | Hab]; [by left|right]); [by destruct Hab as [[= -> ->] | []]|left; by destruct Hab as [-> ->]]. }
  split; [constructor|split; [|done]].
  - eapply acyclic_mono; [intros a b; apply Ho|]. by apply acyclic_plus.
  - intros x y Hxy. apply Ho in Hxy as [Hxy | [-> ->]]; [by apply B|done].
  - unfold reg', record_edge. rewrite Ex, (proj2 (Z.ltb_lt _ _) Hroom). cbn [rg_edges]. rewrite map_app.
    apply List.NoDup_app; [done|constructor; [intros []|constructor]|]. cbn. intros [x y] Hin [[= <- <-] | []]. done.
  - unfold reg', record_edge. by rewrite Ex, (proj2 (Z.ltb_lt _ _) Hroom).
Qed.

Lemma remember_name_same id name reg : rg_edges (remember_name id name reg) = rg_edges reg /\
  rg_recent (remember_name id name reg) = rg_recent reg.
Proof. unfold remember_name. by repeat case_match. Qed.

Lemma push_recent_nonempty v recent : push_recent v recent <> [].
Proof. unfold push_recent. intros E. by apply app_nil in E as [_ E]. Qed.

(** Auditing against one held lock reports exactly the cycles, and otherwise
    records the pair. *)
Lemma audit_held_spec id own_name h held_name reg : order_inv reg -> In h ids -> In id ids -> h <> id ->
  let reg' := audit_held id own_name h held_name reg in
  (rg_recent reg' = [] <-> rg_recent reg = [] /\ ~ tc (ordered (rg_edges reg)) id h) /\
  (~ tc (ordered (rg_edges reg)) id h -> order_inv reg' /\
    forall a b, ordered (rg_edges reg') a b <-> plus (ordered (rg_edges reg)) h id a b).
Proof using few_locks.
  intros Hi Hh Hid Hne reg'.
  assert (reaches kSearchDepth (rg_edges reg) id h = true <-> tc (ordered (rg_edges reg)) id h) as Hr.
  { destruct Hi as [A B _]. apply (reaches_exact _ ids); [done|unfold kSearchDepth; lia|done]. }
  unfold reg', audit_held. destruct (reaches _ _ _ _) eqn:Er.
  - assert (tc (ordered (rg_edges reg)) id h) as Ht by (by apply Hr). split; [|tauto]. split; [|tauto]. intros E. exfalso.
    revert E. unfold record_edge. set (reg2 := remember_name _ _ (remember_name _ _ _)).
    assert (rg_recent reg2 <> []) as Hne2.
    { unfold reg2. rewrite !(proj2 (remember_name_same _ _ _)). apply push_recent_nonempty. }
    repeat case_match; done.
  - assert (~ tc (ordered (rg_edges reg)) id h) as Ht by (rewrite <- Hr; done).
    set (reg2 := remember_name _ _ (remember_name _ _ _)).
    assert (rg_edges reg2 = rg_edges reg /\ rg_recent reg2 = rg_recent reg) as [E1 E2].
    { unfold reg2. by rewrite !(proj1 (remember_name_same _ _ _)), !(proj2 (remember_name_same _ _ _)). }
    destruct (record_edge_spec h id own_name reg2) as (S1 & S2 & S3); try done.
    { by apply (order_inv_same reg). }
    { by rewrite E1. }
    rewrite S2, E2. rewrite E1 in S3. tauto.
Qed.

Lemma tc_mono (R S : relation Z) a b : (forall x y, R x y -> S x y) -> tc R a b -> tc S a b.
Proof. intros HRS. induction 1 as [x y Hxy|x y z Hxy _ IH]; [by apply tc_once, HRS|]. eapply tc_l; [by apply HRS|done]. Qed.

Lemma audit_held_recent id own_name h held_name reg :
  rg_recent (audit_held id own_name h held_name reg) = [] -> rg_recent reg = [].
Proof.
  unfold audit_held, record_edge. set (reg2 := remember_name _ _ (remember_name _ _ _)).
  assert (rg_recent reg2 = [] -> rg_recent reg = []) as Hr.
  { unfold reg2. rewrite !(proj2 (remember_name_same _ _ _)). case_match; [|done].
    intros E. by apply push_recent_nonempty in E. }
  repeat case_match; exact Hr.
Qed.

Lemma audit_order_recent id own_name names held : forall index reg,
  rg_recent (audit_order id own_name names index held reg) = [] -> rg_recent reg = [].
Proof.
  induction held as [|h held IH]; intros index reg; cbn [audit_order]; [done|].
  intros E. by apply IH, audit_held_recent in E.
Qed.

(** Auditing against all of them. *)
Lemma audit_order_spec id own_name names held : In id ids -> ~ In id held -> Forall (fun h => In h ids) held ->
  forall index reg, order_inv reg ->
  let reg' := audit_order id own_name names index held reg in
  (rg_recent reg' = [] <-> rg_recent reg = [] /\ forall h, In h held -> ~ tc (ordered (rg_edges reg)) id h) /\
  (rg_recent reg' = [] -> order_inv reg' /\
    forall a b, ordered (rg_edges reg') a b <-> ordered (rg_edges reg) a b \/ (In a held /\ b = id)).
Proof using few_locks.
  intros Hid. induction held as [|h held IH]; intros Hnin Hf index reg Hi; cbn [audit_order].
  { split; [split; [by split|by intros []]|]. intros _. split; [done|]. intros a b. split; [by left|]. intros [|[[] _]]; done. }
  apply Forall_cons in Hf as [Hh Hf]. assert (h <> id /\ ~ In id held) as [Hne Hnin'] by (split; intros ?; apply Hnin; [by left|by right]).
  set (name := match names !! index with Some name => name | None => _ end).
  destruct (audit_held_spec id own_name h name reg Hi Hh Hid Hne) as [H1 H2].
  set (reg1 := audit_held id own_name h name reg) in *.
  assert (~ tc (ordered (rg_edges reg)) id h -> forall x, tc (ordered (rg_edges reg1)) id x <-> tc (ordered (rg_edges reg)) id x) as Hsame.
  { intros Hn x. destruct (H2 Hn) as [_ Ho]. split; [|apply tc_mono; intros a b Hab; apply Ho; by left].
    intros Ht. apply (tc_mono _ (plus (ordered (rg_edges reg)) h id)) in Ht; [|intros a b; apply Ho].
    apply tc_plus in Ht as [Ht | [[-> | Ht] _]]; done. }
  assert (rg_recent (audit_order id own_name names (S index) held reg1) = [] ->
    rg_recent reg = [] /\ ~ tc (ordered (rg_edges reg)) id h) as Hback.
  { intros E. apply audit_order_recent in E. by apply H1. }
  assert (~ tc (ordered (rg_edges reg)) id h -> order_inv reg1) as Hi1 by (intros Hn; by apply H2).
  split; [split|].
  - intros E. destruct (Hback E) as [E0 Hn]. split; [done|]. intros x [<- | Hx]; [done|].
    rewrite <- (Hsame Hn). by apply (IH Hnin' Hf (S index) reg1 (Hi1 Hn)).
  - intros [E0 Hall]. assert (~ tc (ordered (rg_edges reg)) id h) as Hn by (apply Hall; by left).
    apply (IH Hnin' Hf (S index) reg1 (Hi1 Hn)). split; [by apply H1|]. intros x Hx. rewrite (Hsame Hn). apply Hall. by right.
  - intros E. destruct (Hback E) as [E0 Hn]. destruct (IH Hnin' Hf (S index) reg1 (Hi1 Hn)) as [_ Hl].
    destruct (Hl E) as [Hi' Ho']. split; [done|]. intros a b. rewrite Ho'. destruct (H2 Hn) as [_ Ho]. rewrite Ho.
    unfold plus. cbn [In].
    assert (a = h <-> h = a) as Hsym by (by split). tauto.
Qed.
End Audit.

(** ** Runs of the audit *)

Lemma StronglySorted_snoc {A} (R : A -> A -> Prop) l x : StronglySorted R l -> Forall (fun y => R y x) l ->
  StronglySorted R (l ++ [x]).
Proof.
  induction 1 as [|y l Hl IH Hy]; intros HF; cbn; [by repeat constructor|].
  apply Forall_cons in HF as [Hyx HF]. constructor; [by apply IH|]. apply Forall_app. by repeat constructor.
Qed.

Lemma StronglySorted_delete {A} (R : A -> A -> Prop) l : StronglySorted R l -> forall i, StronglySorted R (delete i l).
Proof.
  induction 1 as [|y l Hl IH Hy]; intros [|i]; cbn; [constructor|constructor|done|].
  constructor; [apply IH|by apply Forall_delete].
Qed.

Lemma StronglySorted_mono {A} (R S : A -> A -> Prop) l : (forall x y, R x y -> S x y) -> StronglySorted R l ->
  StronglySorted S l.
Proof.
  intros HRS. induction 1 as [|y l Hl IH Hy]; constructor; [done|]. eapply Forall_impl; [exact Hy|]. cbn. auto.
Qed.

Section Runs.
Context (ids : list Z).
Hypothesis few_locks : (List.length ids <= 32)%nat.

(** The order is acyclic and has every pair of locks some thread nests. *)
Record audit_inv (st : AuditState) : Prop := {
  ai_order : order_inv ids (au_registry st);
  ai_nested : forall t, StronglySorted (ordered (rg_edges (au_registry st))) (tls_held (au_threads st t));
  ai_known : forall t, Forall (fun h => In h ids) (tls_held (au_threads st t));
}.

Definition clean (st : AuditState) : Prop := recent_violations (au_registry st) = [].

Lemma initial_audit_inv : audit_inv initial_audit.
Proof.
  constructor; [constructor|constructor|constructor].
  - intros a Ha. apply tc_chain in Ha as [[|b l] [(e & [] & _) _]].
  - intros x y (e & [] & _).
  - constructor.
Qed.

Lemma unlock_inv t m st : audit_inv st -> audit_inv (unlock t m st).
Proof.
  intros [A B C]. constructor; cbn; [done| |]; intros u; (destruct (Nat.eqb_spec u t) as [-> |]; [|done]);
    unfold after_release; case_match; cbn; [by apply StronglySorted_delete|done|by apply Forall_delete|done].
Qed.

(** What an acquisition reports, and what it leaves. *)
Lemma lock_spec t m mode st : audit_inv st -> In (tm_id m) ids ->
  let held := tls_held (au_threads st t) in
  let st' := lock t m mode st in
  (clean st' <-> clean st /\ ~ In (tm_id m) held /\
     forall h, In h held -> ~ tc (ordered (rg_edges (au_registry st))) (tm_id m) h) /\
  (clean st' -> audit_inv st').
Proof using few_locks.
  intros [A B C] Hid held st'. unfold st', lock, clean, recent_violations, before_acquire. fold held.
  set (own := match tm_name m with Some n => n | None => _ end).
  destruct (existsb (fun h => h =? tm_id m) held) eqn:Ex.
  - assert (In (tm_id m) held) as Hin.
    { apply existsb_exists in Ex as (h & Hh & E). by apply Z.eqb_eq in E as <-. }
    cbn. split; [split; [|tauto]|]; intros E; exfalso; by eapply push_recent_nonempty.
  - assert (~ In (tm_id m) held) as Hnin.
    { intros Hin. apply not_true_iff_false in Ex. apply Ex, existsb_exists. exists (tm_id m). by rewrite Z.eqb_refl. }
    destruct (audit_order_spec ids few_locks (tm_id m) own (tls_held_names (au_threads st t)) held Hid Hnin (C t) 0
      (au_registry st) A) as [H1 H2].
    cbn. split; [tauto|]. intros E. destruct (H2 E) as [Hi Ho].
    assert (forall l, StronglySorted (ordered (rg_edges (au_registry st))) l ->
      StronglySorted (ordered (rg_edges (audit_order (tm_id m) own (tls_held_names (au_threads st t)) 0 held (au_registry st)))) l) as Hmono.
    { intros l. apply StronglySorted_mono. intros x y Hxy. apply Ho. by left. }
    constructor; cbn; [done| |]; intros u; (destruct (Nat.eqb_spec u t) as [-> |]; [|by auto]); case_match; cbn; try by auto.
    + apply StronglySorted_snoc; [apply Hmono, B|]. apply List.Forall_forall. intros h Hh. apply Ho. by right.
    + apply Forall_app. split; [apply C|by repeat constructor].
Qed.

Lemma unlock_clean t m st : clean (unlock t m st) <-> clean st.
Proof. done. Qed.

Lemma lock_clean t m mode st : clean (lock t m mode st) -> clean st.
Proof.
  unfold clean, recent_violations, lock, before_acquire. cbn. case_match; [intros E; by apply push_recent_nonempty in E|].
  apply audit_order_recent.
Qed.

Lemma audit_step_clean st ev : clean (audit_step st ev) -> clean st.
Proof.
  destruct ev as [t m mode|t m mode acquired|t m]; cbn [audit_step]; [apply lock_clean| |done].
  unfold try_lock. destruct acquired; cbn [snd]; apply lock_clean.
Qed.

Lemma audit_step_inv st ev : audit_inv st -> In (ev_lock ev) ids -> clean (audit_step st ev) ->
  audit_inv (audit_step st ev).
Proof using few_locks.
  intros Hi Hid. destruct ev as [t m mode|t m mode acquired|t m]; cbn [audit_step ev_lock] in *.
  - by apply lock_spec.
  - unfold try_lock. destruct acquired; cbn [snd]; [by apply lock_spec|]. intros Hc. apply unlock_inv. by apply lock_spec.
  - intros _. by apply unlock_inv.
Qed.

Lemma audit_run_inv events : Forall (fun ev => In (ev_lock ev) ids) events ->
  clean (fold_left audit_step events initial_audit) -> audit_inv (fold_left audit_step events initial_audit).
Proof using few_locks.
  induction events as [|ev events IH] using rev_ind; [intros; apply initial_audit_inv|].
  intros HF. apply Forall_app in HF as [HF Hev]. apply Forall_cons in Hev as [Hev _].
  rewrite fold_left_app. cbn [fold_left]. intros Hc. apply audit_step_inv; [|done|done].
  apply IH; [done|]. by eapply audit_step_clean.
Qed.

Lemma nested_ordered st h w : audit_inv st -> holds_while_acquiring st h w ->
  ordered (rg_edges (au_registry st)) h w.
Proof.
  intros [_ B _] (t & hs & E & Hh). specialize (B t). rewrite E in B. clear E. induction hs as [|x hs IH]; [done|].
  apply StronglySorted_inv in B as [B Hx]. destruct Hh as [-> | Hh]; [|by apply IH].
  rewrite List.Forall_forall in Hx. apply Hx, in_or_app. right. by left.
Qed.
End Runs.

(** ** Theorems *)

(** C14: A clean audit excludes deadlock.  If every tracked acquisition and release
    of a run, by any threads in any interleaving, is of one of at most 32 locks
    and the audit has no violation to report, then no circular wait exists: there
    is no cycle of locks in which some thread holds each lock while acquiring the
    next. *)
Theorem clean_audit_excludes_deadlock ids events : (List.length ids <= 32)%nat ->
  Forall (fun ev => In (ev_lock ev) ids) events ->
  let st := fold_left audit_step events initial_audit in
  recent_violations (au_registry st) = [] -> acyclic (holds_while_acquiring st).
Proof.
  intros Hn HF st Hc. pose proof (audit_run_inv ids Hn events HF Hc) as Hi.
  eapply acyclic_mono; [intros h w; by apply (nested_ordered ids)|]. by destruct (ai_order _ _ Hi).
Qed.

(** The audit is exact.  After a clean run over at most 32 locks, an
    acquisition is reported if and only if the thread already holds the lock or
    holds one that the order observed so far reaches from it: every inversion is
    found despite the depth limit of the search and the bound on the edges, and
    nothing else is reported. *)
Theorem audit_reports_exactly_the_cycles ids events t m mode : (List.length ids <= 32)%nat ->
  Forall (fun ev => In (ev_lock ev) ids) events -> In (tm_id m) ids ->
  let st := fold_left audit_step events initial_audit in
  recent_violations (au_registry st) = [] ->
  let held := tls_held (au_threads st t) in
  recent_violations (au_registry (lock t m mode st)) = [] <->
  ~ In (tm_id m) held /\ (forall h, In h held -> ~ tc (ordered (rg_edges (au_registry st))) (tm_id m) h).
Proof.
  intros Hn HF Hm st Hc held. pose proof (audit_run_inv ids Hn events HF Hc) as Hi.
  destruct (lock_spec ids Hn t m mode st Hi Hm) as [H1 _]. unfold clean in H1. tauto.
Qed.

Module LockExamples.
Definition state_lock : TrackedMutex := mkTrackedMutex 1 (Some "fabric_state"%string).
Definition journal_lock : TrackedMutex := mkTrackedMutex 2 (Some "journal_compaction"%string).
Definition stats_lock : TrackedMutex := mkTrackedMutex 3 (Some "server_stats"%string).
Definition locks : list Z := [1; 2; 3].

(** Two threads that nest their locks the same way, both still holding some. *)
Definition disciplined : list LockEvent :=
  [LkLock 0 state_lock Exclusive; LkLock 0 journal_lock Exclusive; LkLock 1 state_lock Shared;
   LkUnlock 0 journal_lock; LkTryLock 1 stats_lock Exclusive false; LkLock 1 journal_lock Exclusive].
Definition nesting : AuditState := fold_left audit_step disciplined initial_audit.
End LockExamples.

Import LockExamples.

Lemma clean_audit_excludes_deadlock_witness :
  holds_while_acquiring nesting 1 2 /\ acyclic (holds_while_acquiring nesting).
Proof.
  split; [exists 1%nat, [1]; split; [vm_compute; reflexivity|by left]|].
  apply (clean_audit_excludes_deadlock locks disciplined).
  - cbn. lia.
  - repeat (constructor; [cbn; tauto|]). constructor.
  - vm_compute. reflexivity.
Defined.

(** Thread 2 holds the journal's lock and asks for the state's: a report. *)
Lemma audit_reports_exactly_the_cycles_witness :
  recent_violations (au_registry (lock 2 state_lock Exclusive
    (fold_left audit_step (disciplined ++ [LkLock 2 journal_lock Exclusive]) initial_audit))) <> [] /\
  exists h, In h [2] /\ tc (ordered (rg_edges (au_registry
    (fold_left audit_step (disciplined ++ [LkLock 2 journal_lock Exclusive]) initial_audit)))) 1 h.
Proof.
  pose proof (audit_reports_exactly_the_cycles locks (disciplined ++ [LkLock 2 journal_lock Exclusive]) 2
    state_lock Exclusive) as E.
  split.
  - intros Hc. apply E in Hc as [_ Hc].
    + apply (Hc 2); [vm_compute; by left|]. apply tc_once. eexists (mkEdge 1 2 "fabric_state" "journal_compaction").
      split; [vm_compute; tauto|done].
    + cbn. lia.
    + repeat (constructor; [cbn; tauto|]). constructor.
    + by left.
    + vm_compute. reflexivity.
  - exists 2. split; [by left|]. apply tc_once. eexists (mkEdge 1 2 "fabric_state" "journal_compaction").
    split; [vm_compute; tauto|done].
Defined.
