(* ===== verification/LockGuards.v ===== *)
(** * The scoped locks

    [UniqueLock] and [SharedLock] of [core/lock_tracker.hpp]: a guard holds a
    tracked mutex or nothing, acquires in its constructor, releases in its
    destructor and hands its mutex over when it is moved.  The guards of a thread
    are slots; an empty slot is a variable that does not exist yet, has been
    destroyed or has been moved from. *)

From Stdlib Require Import ZArith Lia Bool List String Ascii.
From stdpp Require Import base decidable relations list strings.
From S2P Require Import Prelude OrdMap Core Quality LockTracker.

Open Scope Z_scope.

(** A guard and how it acquired its mutex. *)
Record Guard := mkGuard { gd_mode : LockMode; gd_mutex : option TrackedMutex }.

Definition released (mode : LockMode) : Guard := mkGuard mode None.

Section Thread.
Context (t : nat).

Definition lock_shared (m : TrackedMutex) (st : AuditState) : AuditState := lock t m Shared st.
Definition unlock_shared (m : TrackedMutex) (st : AuditState) : AuditState := unlock t m st.
Definition try_lock_shared (m : TrackedMutex) (acquired : bool) (st : AuditState) : bool * AuditState :=
  let st := lock_shared m st in if acquired then (true, st) else (false, unlock_shared m st).

Definition guard_construct (mode : LockMode) (m : TrackedMutex) (st : AuditState) : Guard * AuditState :=
  (mkGuard mode (Some m), match mode with Exclusive => lock t m Exclusive st | Shared => lock_shared m st end).

Definition guard_release (g : Guard) (st : AuditState) : AuditState :=
  match gd_mutex g with
  | Some m => match gd_mode g with Exclusive => unlock t m st | Shared => unlock_shared m st end
  | None => st
  end.
Definition guard_destroy (g : Guard) (st : AuditState) : AuditState := guard_release g st.

(** The new guard and what is left of the other one. *)
Definition guard_move (other : Guard) : Guard * Guard :=
  (mkGuard (gd_mode other) (gd_mutex other), released (gd_mode other)).

Definition guard_assign (g other : Guard) (st : AuditState) : Guard * Guard * AuditState :=
  (mkGuard (gd_mode g) (gd_mutex other), released (gd_mode other), guard_release g st).

(** ** A thread's guards *)

Inductive GuardOp :=
  | GConstruct (x : nat) (mode : LockMode) (m : TrackedMutex)
  | GDestroy (x : nat)
  | GMove (x y : nat)          (* construct [x] from [y] *)
  | GAssign (x y : nat).       (* [x = std::move(y)] *)

(** [None]: the program is not a C++ program (a slot out of range, a variable
    constructed over one that holds a mutex, a guard assigned from the other
    kind). *)
Definition guard_op (op : GuardOp) (s : list Guard * AuditState) : option (list Guard * AuditState) :=
  let '(gs, st) := s in
  match op with
  | GConstruct x mode m =>
      match gs !! x with
      | Some (mkGuard _ None) => let '(g, st') := guard_construct mode m st in Some (<[x := g]> gs, st')
      | _ => None
      end
  | GDestroy x =>
      match gs !! x with
      | Some g => Some (<[x := released (gd_mode g)]> gs, guard_destroy g st)
      | None => None
      end
  | GMove x y =>
      match gs !! x, gs !! y with
      | Some (mkGuard _ None), Some other =>
          if (x =? y)%nat then None
          else let '(g, emptied) := guard_move other in Some (<[x := g]> (<[y := emptied]> gs), st)
      | _, _ => None
      end
  | GAssign x y =>
      match gs !! x, gs !! y with
      | Some g, Some other =>
          if (x =? y)%nat then Some (gs, st)      (* this == &other *)
          else match gd_mode g, gd_mode other with
               | Shared, Shared | Exclusive, Exclusive =>
                   let '(g', emptied, st') := guard_assign g other st in Some (<[x := g']> (<[y := emptied]> gs), st')
               | _, _ => None
               end
      | _, _ => None
      end
  end.

Fixpoint guard_run (ops : list GuardOp) (s : list Guard * AuditState) : option (list Guard * AuditState) :=
  match ops with [] => Some s | op :: ops => guard_op op s ≫= guard_run ops end.

(** ** What the guards hold *)

Definition guarded (gs : list Guard) : list Z := omap (fun g => tm_id <$> gd_mutex g) gs.

(** Changing one guard changes its own share only. *)
Definition share (g : Guard) : list Z := match gd_mutex g with Some m => [tm_id m] | None => [] end.

Lemma guarded_cons g gs : guarded (g :: gs) = share g ++ guarded gs.
Proof. unfold guarded, share. cbn. by destruct (gd_mutex g). Qed.

Lemma guarded_insert gs : forall x g g', gs !! x = Some g ->
  share g ++ guarded (<[x := g']> gs) ≡ₚ share g' ++ guarded gs.
Proof.
  induction gs as [|h gs IH]; intros [|x] g g'; [done|done| |]; cbn [lookup list_lookup insert list_insert].
  - intros [= ->]. rewrite !guarded_cons. apply Permutation_app_swap_app.
  - intros H. rewrite !guarded_cons, !(Permutation_app_swap_app _ (share h)). by rewrite IH.
Qed.

Lemma last_index_lookup id held : In id held -> exists i, last_index id held = Some i /\ held !! i = Some id.
Proof.
  induction held as [|h held IH]; [done|]. cbn [last_index In]. intros Hin.
  destruct (last_index id held) as [i|] eqn:Ei.
  - exists (S i). split; [done|]. destruct IH as (i' & [= <-] & H); [|done].
    clear -Ei. revert i Ei. induction held as [|h held IH]; intros i; [done|]. cbn [last_index].
    destruct (last_index id held) as [j|] eqn:Ej; [intros _; right; by eapply IH|].
    destruct (Z.eqb_spec h id); [by left|done].
  - destruct Hin as [-> | Hin]; [|by destruct (IH Hin) as (i & ? & _)]. exists 0%nat. by rewrite Z.eqb_refl.
Qed.

Lemma release_held id tls : In id (tls_held tls) -> id :: tls_held (after_release id tls) ≡ₚ tls_held tls.
Proof.
  intros Hin. unfold after_release. destruct (last_index_lookup id _ Hin) as (i & -> & Hi). cbn [tls_held].
  symmetry. by apply delete_Permutation.
Qed.

(** The thread's list is the mutexes of its guards. *)
Definition balanced (s : list Guard * AuditState) : Prop := tls_held (au_threads s.2 t) ≡ₚ guarded s.1.

Lemma guarded_length gs : (length (guarded gs) <= length gs)%nat.
Proof. induction gs as [|g gs IH]; [done|]. rewrite guarded_cons, length_app. unfold share. case_match; simpl; lia. Qed.

Lemma lock_held m mode st gs : (length gs <= 64)%nat -> (exists x k, gs !! x = Some (mkGuard k None)) ->
  tls_held (au_threads st t) ≡ₚ guarded gs -> tls_held (au_threads (lock t m mode st) t) ≡ₚ tm_id m :: guarded gs.
Proof.
  intros Hlen (x & k & Hx) Hb. unfold lock, before_acquire. cbn. rewrite Nat.eqb_refl.
  assert (length (guarded gs) < 64)%nat as Hlt.
  { pose proof (guarded_insert gs x _ (mkGuard k (Some m)) Hx) as Hp. apply Permutation_length in Hp.
    cbn [share gd_mutex app length] in Hp. pose proof (guarded_length (<[x := mkGuard k (Some m)]> gs)) as Hl.
    rewrite length_insert in Hl. lia. }
  assert ((zlen (tls_held (au_threads st t)) <? kMaxHeldPerThread) = true) as ->.
  { apply Z.ltb_lt. unfold zlen, kMaxHeldPerThread. rewrite Hb. lia. }
  cbn [tls_held]. rewrite Hb. symmetry. apply Permutation_cons_append.
Qed.

Lemma release_balanced g st rest : tls_held (au_threads st t) ≡ₚ share g ++ rest ->
  tls_held (au_threads (guard_release g st) t) ≡ₚ rest.
Proof.
  unfold guard_release, share. destruct (gd_mutex g) as [m|]; [|done]. intros Hb.
  assert (match gd_mode g with Exclusive => unlock t m st | Shared => unlock_shared m st end = unlock t m st) as ->
    by (by destruct (gd_mode g)).
  unfold unlock. cbn.  rewrite Nat.eqb_refl. apply (Permutation_cons_inv (a := tm_id m)). rewrite release_held; [done|].
  rewrite Hb. by left.
Qed.

Lemma guard_op_balanced op s s' : (length s.1 <= 64)%nat -> balanced s -> guard_op op s = Some s' ->
  balanced s' /\ length s'.1 = length s.1.
Proof.
  destruct s as [gs st]. unfold balanced. cbn [fst snd]. intros Hlen Hb. destruct op as [x mode m|x|x y|x y]; cbn [guard_op].
  - destruct (gs !! x) as [[k [m'|]]|] eqn:Hx; try done. intros [= <-]. cbn [fst snd]. rewrite length_insert. split; [|done].
    assert (tls_held (au_threads (match mode with Exclusive => lock t m Exclusive st | Shared => lock_shared m st end) t)
      ≡ₚ tm_id m :: guarded gs) as -> by (destruct mode; apply lock_held; eauto).
    symmetry. by apply (guarded_insert gs x _ (mkGuard mode (Some m)) Hx).
  - destruct (gs !! x) as [g|] eqn:Hx; [|done]. intros [= <-]. cbn [fst snd]. rewrite length_insert. split; [|done].
    apply release_balanced. rewrite Hb. exact (symmetry (guarded_insert gs x g (released (gd_mode g)) Hx)).
  - destruct (gs !! x) as [[k [m'|]]|] eqn:Hx; try done. destruct (gs !! y) as [other|] eqn:Hy; [|done].
    destruct (Nat.eqb_spec x y) as [|Hne]; [done|]. intros [= <-]. cbn [fst snd]. rewrite !length_insert. split; [|done].
    rewrite Hb. pose proof (guarded_insert gs y other (released (gd_mode other)) Hy) as P1.
    assert (<[y := released (gd_mode other)]> gs !! x = Some (mkGuard k None)) as Hx' by (by rewrite list_lookup_insert_ne).
    pose proof (guarded_insert _ x _ (mkGuard (gd_mode other) (gd_mutex other)) Hx') as P2.
    cbn [share gd_mutex released app] in P1, P2. rewrite P2. symmetry. exact P1.
  - destruct (gs !! x) as [g|] eqn:Hx; [|done]. destruct (gs !! y) as [other|] eqn:Hy; [|done].
    destruct (Nat.eqb_spec x y) as [|Hne]; [by intros [= <-]|].
    destruct (gd_mode g), (gd_mode other); try done; intros [= <-]; cbn [fst snd]; rewrite !length_insert; (split; [|done]);
    apply release_balanced; rewrite Hb;
    match goal with |- context [<[y := ?l]> gs] =>
      pose proof (guarded_insert gs y other l Hy) as P1;
      assert (<[y := l]> gs !! x = Some g) as Hx' by (by rewrite list_lookup_insert_ne)
    end;
    match goal with |- context [<[x := ?q]> _] => pose proof (guarded_insert _ x _ q Hx') as P2 end;
    rewrite P2; symmetry; exact P1.
Qed.

Lemma guard_run_balanced ops : forall s s', (length s.1 <= 64)%nat -> balanced s -> guard_run ops s = Some s' ->
  balanced s' /\ length s'.1 = length s.1.
Proof.
  induction ops as [|op ops IH]; intros s s' Hlen Hb; cbn [guard_run]; [by intros [= <-]|].
  destruct (guard_op op s) as [s1|] eqn:E; [|done]. cbn [mbind option_bind]. intros Hr.
  destruct (guard_op_balanced op s s1 Hlen Hb E) as [Hb1 Hl1]. destruct (IH s1 s' ltac:(lia) Hb1 Hr) as [? ?]. split; [done|lia].
Qed.
End Thread.

(** ** Theorem *)

(** Guards release what they acquire, once.  Whatever a thread does with at most
    64 scoped locks (constructing, destroying, moving and assigning them), the
    locks the audit takes it to hold are those its guards hold; so when every
    guard is gone or moved from, it holds none. *)
Theorem guards_release_what_they_acquire t n ops gs st :
  (n <= 64)%nat -> guard_run t ops (repeat (released Exclusive) n, initial_audit) = Some (gs, st) ->
  tls_held (au_threads st t) ≡ₚ guarded gs /\
  (Forall (fun g => gd_mutex g = None) gs -> held_depth (au_threads st t) = 0).
Proof.
  intros Hn Hr.
  assert (guarded (repeat (released Exclusive) n) = []) as E0 by (clear; induction n; [done|]; cbn; done).
  destruct (guard_run_balanced t ops (repeat (released Exclusive) n, initial_audit) (gs, st)
    ltac:(cbn [fst]; by rewrite repeat_length) ltac:(unfold balanced; cbn [fst snd]; by rewrite E0) Hr)
    as [Hb _]. unfold balanced in Hb. cbn [fst snd] in Hb. split; [done|].
  intros Hf. assert (guarded gs = []) as E.
  { clear -Hf. induction Hf as [|g gs Hg _ IH]; [done|]. rewrite guarded_cons, IH. unfold share. by rewrite Hg. }
  rewrite E in Hb. apply Permutation_nil_r in Hb. unfold held_depth. by rewrite Hb.
Qed.

(** ** Witness *)

Module GuardExamples.
Definition state_lock : TrackedMutex := mkTrackedMutex 1 (Some "fabric_state"%string).
Definition compaction_lock : TrackedMutex := mkTrackedMutex 2 (Some "journal_compaction"%string).
Definition ops : list GuardOp :=
  [GConstruct 0 Exclusive state_lock; GConstruct 1 Shared compaction_lock; GMove 2 0; GDestroy 0; GDestroy 2; GDestroy 1].
Definition after : list Guard * AuditState :=
  match guard_run 0 ops (repeat (released Exclusive) 3, initial_audit) with Some s => s | None => ([], initial_audit) end.

Lemma guards_release_what_they_acquire_witness : held_depth (au_threads after.2 0) = 0.
Proof.
  apply (guards_release_what_they_acquire 0 3 ops after.1 after.2).
  - lia.
  - vm_compute. reflexivity.
  - vm_compute. repeat constructor.
Defined.
End GuardExamples.
