(* ===== verification/Clock.v ===== *)
(** * Clocks

    [core/clock.*].  The readings of the operating system are arguments.  A
    [ManualClock] is two atomic counters: [now] loads one after the other and
    [advance_nanos] adds to one after the other, so between threads the four
    accesses may interleave ([race_step]). *)

From Stdlib Require Import ZArith Lia Bool List String Ascii.
From stdpp Require Import base decidable list strings relations.
From S2P Require Import Prelude OrdMap Float Core Quality Metric Identity.

Open Scope Z_scope.

(** ** The system clock *)

Record SystemClock := mkSystemClock { sysc_steady_origin_nanos : Z }.

Definition system_clock_create (steady : Z) : SystemClock := mkSystemClock steady.

(** [wall] and [steady] are what [system_clock] and [steady_clock] report. *)
Definition system_clock_now (wall steady : Z) (c : SystemClock) : ClockReading :=
  mkClockReading wall (steady - sysc_steady_origin_nanos c).

(** ** The manual clock *)

Record ManualClock := mkManualClock { mcl_wall_nanos : Z; mcl_steady_nanos : Z }.

Definition manual_clock_default : ManualClock := mkManualClock 1700000000000000000 0.

Definition manual_now (c : ManualClock) : ClockReading :=
  mkClockReading (mcl_wall_nanos c) (mcl_steady_nanos c).

(** [fetch_add] on a signed atomic wraps around. *)
Definition fetch_add (value delta : Z) : Z := to_i64 (value + delta).

Definition advance_nanos (delta : Z) (c : ManualClock) : ManualClock :=
  mkManualClock (fetch_add (mcl_wall_nanos c) delta) (fetch_add (mcl_steady_nanos c) delta).
Definition advance_millis (delta : Z) : ManualClock -> ManualClock := advance_nanos (delta * 1000000).
Definition advance_seconds (delta : Z) : ManualClock -> ManualClock := advance_nanos (delta * 1000000000).
Definition set_wall_nanos (wall_nanos : Z) (c : ManualClock) : ManualClock :=
  mkManualClock wall_nanos (mcl_steady_nanos c).
Definition set_steady_nanos (steady_nanos : Z) (c : ManualClock) : ManualClock :=
  mkManualClock (mcl_wall_nanos c) steady_nanos.

(** ** Reading while another thread advances *)

(** Where the reading thread stands: the parts it has loaded. *)
Inductive ReaderPoint := RStart | RWall (wall : Z) | RDone (reading : ClockReading).
(** Where the advancing thread stands. *)
Inductive WriterPoint := WStart | WWall | WDone.

Record Race := mkRace { race_clock : ManualClock; race_reader : ReaderPoint; race_writer : WriterPoint }.

Inductive race_step (delta : Z) : Race -> Race -> Prop :=
  | race_load_wall c wr :
      race_step delta (mkRace c RStart wr) (mkRace c (RWall (mcl_wall_nanos c)) wr)
  | race_load_steady c wall wr :
      race_step delta (mkRace c (RWall wall) wr) (mkRace c (RDone (mkClockReading wall (mcl_steady_nanos c))) wr)
  | race_add_wall c rd :
      race_step delta (mkRace c rd WStart)
        (mkRace (mkManualClock (fetch_add (mcl_wall_nanos c) delta) (mcl_steady_nanos c)) rd WWall)
  | race_add_steady c rd :
      race_step delta (mkRace c rd WWall)
        (mkRace (mkManualClock (mcl_wall_nanos c) (fetch_add (mcl_steady_nanos c) delta)) rd WDone).

(** A race started on [c] that ends with a reading and the advance done. *)
Definition race_reads (delta : Z) (c : ManualClock) (reading : ClockReading) : Prop :=
  exists c', rtc (race_step delta) (mkRace c RStart WStart) (mkRace c' (RDone reading) WDone).

(** The clock's members where the writer stands. *)
Definition race_wall (delta : Z) (c : ManualClock) (w : WriterPoint) : Z :=
  match w with WStart => mcl_wall_nanos c | _ => mcl_wall_nanos (advance_nanos delta c) end.
Definition race_steady (delta : Z) (c : ManualClock) (w : WriterPoint) : Z :=
  match w with WDone => mcl_steady_nanos (advance_nanos delta c) | _ => mcl_steady_nanos c end.

(** What every state of the race has: the shared clock is where the writer put
    it, and what was loaded is an old or a new member. *)
Definition race_inv (delta : Z) (c : ManualClock) (r : Race) : Prop :=
  race_clock r = mkManualClock (race_wall delta c (race_writer r)) (race_steady delta c (race_writer r))
  /\ match race_reader r with
     | RStart => True
     | RWall wall => wall = mcl_wall_nanos c \/ wall = mcl_wall_nanos (advance_nanos delta c)
     | RDone reading =>
         (cr_wall_nanos reading = mcl_wall_nanos c
          \/ cr_wall_nanos reading = mcl_wall_nanos (advance_nanos delta c))
         /\ (cr_steady_nanos reading = mcl_steady_nanos c
             \/ cr_steady_nanos reading = mcl_steady_nanos (advance_nanos delta c))
     end.

Lemma race_step_inv delta c r r' : race_step delta r r' -> race_inv delta c r -> race_inv delta c r'.
Proof.
  intros Hs [Hc Hr]. destruct Hs as [cl wr|cl wall wr|cl rd|cl rd]; cbn in *; subst cl; split; cbn; auto;
    destruct wr || idtac; cbn; auto.
Qed.

Lemma race_inv_rtc delta c r r' : rtc (race_step delta) r r' -> race_inv delta c r -> race_inv delta c r'.
Proof. induction 1 as [|r1 r2 r3 Hs _ IH]; [done|]. intros Hi. apply IH. by eapply race_step_inv. Qed.

(** A reading taken while another thread advances the clock mixes members of the
    clock before and after the advance, and no others. *)
Lemma race_reading_members delta c reading : race_reads delta c reading ->
  (cr_wall_nanos reading = mcl_wall_nanos c \/ cr_wall_nanos reading = mcl_wall_nanos (advance_nanos delta c))
  /\ (cr_steady_nanos reading = mcl_steady_nanos c
      \/ cr_steady_nanos reading = mcl_steady_nanos (advance_nanos delta c)).
Proof.
  intros [c' Hr]. apply (race_inv_rtc delta c) in Hr; [exact (proj2 Hr)|]. by destruct c.
Qed.

(** A reading that races with an advance is not always a single consistent
    point: for every advance that changes a clock, some interleaving reads the
    wall time of before and the steady time of after. *)
Theorem manual_reading_can_tear delta c :
  race_reads delta c (mkClockReading (mcl_wall_nanos c) (mcl_steady_nanos (advance_nanos delta c))).
Proof.
  destruct c as [w s]. eexists.
  eapply rtc_l; [apply race_load_wall|]. eapply rtc_l; [apply race_add_wall|].
  eapply rtc_l; [apply race_add_steady|]. eapply rtc_l; [apply race_load_steady|]. apply rtc_refl.
Qed.

(** Read alone, an advance moves both members by its length, so ages computed
    from either agree. *)
Lemma advance_nanos_exact delta c : is_i64 (mcl_wall_nanos c + delta) -> is_i64 (mcl_steady_nanos c + delta) ->
  manual_now (advance_nanos delta c) =
    mkClockReading (mcl_wall_nanos c + delta) (mcl_steady_nanos c + delta).
Proof. intros Hw Hs. unfold manual_now, advance_nanos, fetch_add. cbn. by rewrite !to_i64_id. Qed.
