(* ===== verification/Json.v ===== *)
(** * JSON texts

    The grammar the command line's [--json] output has to obey (RFC 8259): the
    values, the texts that denote them ([denotes]) and a reference parser that
    is proved to read every such text back ([parse_json_denotes]).  Strings are
    bytes; a byte of 128 and above stands for itself, and of the [\u] escapes
    only those of one-byte characters are in the grammar, since the renderer
    writes no others.  A number is kept as its text. *)

From Stdlib Require Import ZArith Lia Bool List String Ascii.
From stdpp Require Import base decidable list strings.
From S2P Require Import Prelude OrdMap Float Core.

Open Scope Z_scope.

#[local] Arguments String.append : simpl nomatch.

(** ** Strings as sequences *)

Lemma sapp_assoc (a b c : string) : (a +:+ b) +:+ c = a +:+ (b +:+ c).
Proof. induction a as [|x a IH]; [done|]. cbn. by f_equal. Qed.

Lemma sapp_nil_r (a : string) : a +:+ "" = a.
Proof. induction a as [|x a IH]; [done|]. cbn. by f_equal. Qed.

Lemma sapp_length (a b : string) : String.length (a +:+ b) = (String.length a + String.length b)%nat.
Proof. induction a as [|x a IH]; [done|]. cbn. by f_equal. Qed.

Lemma all_chars_app f (a b : string) : all_chars f (a +:+ b) = all_chars f a && all_chars f b.
Proof. induction a as [|x a IH]; [done|]. cbn. rewrite IH. by rewrite andb_assoc. Qed.

(** ** Values *)

#[warnings="-register-all"]
Inductive json :=
  | JNull
  | JBool (b : bool)
  | JNum (text : string)
  | JStr (s : string)
  | JArr (l : list json)
  | JObj (l : list (string * json)).

(** ** Characters *)

Definition quote : ascii := "034".
Definition backslash : ascii := "092".

Definition json_space (c : ascii) : bool :=
  (Ascii.eqb c " " || Ascii.eqb c "009" || Ascii.eqb c "010" || Ascii.eqb c "013")%bool.

Definition ws (s : string) : Prop := all_chars json_space s = true.

(** A byte a string may hold unescaped; those from 128 up are not checked to be UTF-8. *)
Definition plain (c : ascii) : bool :=
  negb (Ascii.eqb c quote) && negb (Ascii.eqb c backslash) && (32 <=? N_of_ascii c)%N.

(** The character a two-character escape stands for. *)
Definition escape_of (e : ascii) : option ascii :=
  if Ascii.eqb e quote then Some quote
  else if Ascii.eqb e backslash then Some backslash
  else if Ascii.eqb e "/" then Some "/"%char
  else if Ascii.eqb e "b" then Some "008"%char
  else if Ascii.eqb e "f" then Some "012"%char
  else if Ascii.eqb e "n" then Some "010"%char
  else if Ascii.eqb e "r" then Some "013"%char
  else if Ascii.eqb e "t" then Some "009"%char
  else None.

Definition hex_value (c : ascii) : option Z :=
  let n := Z.of_N (N_of_ascii c) in
  if (48 <=? n) && (n <=? 57) then Some (n - 48)
  else if (97 <=? n) && (n <=? 102) then Some (n - 87)
  else if (65 <=? n) && (n <=? 70) then Some (n - 55)
  else None.

(** The one-byte character of four hexadecimal digits. *)
Definition unicode_of (a b c d : ascii) : option ascii :=
  match hex_value a, hex_value b, hex_value c, hex_value d with
  | Some x, Some y, Some z, Some w =>
      let code := ((x * 16 + y) * 16 + z) * 16 + w in
      if code <? 128 then Some (ascii_of_N (Z.to_N code)) else None
  | _, _, _, _ => None
  end.

(** ** Numbers *)

Fixpoint digits_only (s : string) : bool :=
  match s with "" => true | String c r => if is_digit c then digits_only r else false end.

Definition digits1 (s : string) : bool :=
  match s with "" => false | _ => digits_only s end.

Definition exponent (s : string) : bool :=
  match s with
  | String c r => if Ascii.eqb c "+" || Ascii.eqb c "-" then digits1 r else digits1 s
  | "" => false
  end.

Definition is_exponent_mark (c : ascii) : bool := Ascii.eqb c "e" || Ascii.eqb c "E".

Fixpoint fraction (s : string) : bool :=
  match s with
  | "" => true
  | String c r => if is_digit c then fraction r else if is_exponent_mark c then exponent r else false
  end.

Definition after_integer (s : string) : bool :=
  match s with
  | "" => true
  | String c r =>
      if Ascii.eqb c "." then match r with String d r' => is_digit d && fraction r' | "" => false end
      else if is_exponent_mark c then exponent r else false
  end.

Fixpoint integer_digits (s : string) : bool :=
  match s with
  | "" => true
  | String c r => if is_digit c then integer_digits r else after_integer s
  end.

(** No leading zero. *)
Definition magnitude (s : string) : bool :=
  match s with
  | "" => false
  | String c r => if Ascii.eqb c "0" then after_integer r else is_digit c && integer_digits r
  end.

Definition json_number (s : string) : bool :=
  match s with
  | String c r => if Ascii.eqb c "-" then magnitude r else magnitude s
  | "" => false
  end.

(** ** The grammar *)

Inductive chars : string -> string -> Prop :=
  | ch_end : chars "" ""
  | ch_plain c s t : plain c = true -> chars s t -> chars (String c s) (String c t)
  | ch_escape e c s t : escape_of e = Some c -> chars s t ->
      chars (String c s) (String backslash (String e t))
  | ch_unicode h1 h2 h3 h4 c s t : unicode_of h1 h2 h3 h4 = Some c -> chars s t ->
      chars (String c s) (String backslash (String "u" (String h1 (String h2 (String h3 (String h4 t)))))).

Definition quoted (t : string) : string := String quote (t +:+ String quote "").

Inductive denotes : json -> string -> Prop :=
  | d_null : denotes JNull "null"
  | d_true : denotes (JBool true) "true"
  | d_false : denotes (JBool false) "false"
  | d_num t : json_number t = true -> denotes (JNum t) t
  | d_str s t : chars s t -> denotes (JStr s) (quoted t)
  | d_arr_none w : ws w -> denotes (JArr []) (String "[" (w +:+ "]"))
  | d_arr l t : elements l t -> denotes (JArr l) (String "[" (t +:+ "]"))
  | d_obj_none w : ws w -> denotes (JObj []) (String "{" (w +:+ "}"))
  | d_obj l t : members l t -> denotes (JObj l) (String "{" (t +:+ "}"))
with elements : list json -> string -> Prop :=
  | e_one v w1 t w2 : ws w1 -> denotes v t -> ws w2 -> elements [v] (w1 +:+ t +:+ w2)
  | e_cons v l w1 t w2 t' : ws w1 -> denotes v t -> ws w2 -> elements l t' ->
      elements (v :: l) (w1 +:+ t +:+ w2 +:+ String "," t')
with members : list (string * json) -> string -> Prop :=
  | m_one k kt v w1 w2 w3 t w4 : ws w1 -> chars k kt -> ws w2 -> ws w3 -> denotes v t -> ws w4 ->
      members [(k, v)] (w1 +:+ quoted kt +:+ w2 +:+ String ":" (w3 +:+ t +:+ w4))
  | m_cons k kt v l w1 w2 w3 t w4 t' : ws w1 -> chars k kt -> ws w2 -> ws w3 -> denotes v t -> ws w4 ->
      members l t' ->
      members ((k, v) :: l) (w1 +:+ quoted kt +:+ w2 +:+ String ":" (w3 +:+ t +:+ w4 +:+ String "," t')).

Scheme denotes_mut := Induction for denotes Sort Prop
  with elements_mut := Induction for elements Sort Prop
  with members_mut := Induction for members Sort Prop.
Combined Scheme json_mutind from denotes_mut, elements_mut, members_mut.

(** ** The reference parser *)

Fixpoint skip_ws (s : string) : string :=
  match s with
  | String c r => if json_space c then skip_ws r else s
  | "" => ""
  end.

(** The characters up to the closing quote, and what follows it. *)
Fixpoint parse_chars (s : string) : option (string * string) :=
  let push c r := match r with Some (v, rest) => Some (String c v, rest) | None => None end in
  match s with
  | "" => None
  | String c r =>
      if Ascii.eqb c quote then Some ("", r)
      else if Ascii.eqb c backslash then
        match r with
        | "" => None
        | String e r1 =>
            match escape_of e with
            | Some c' => push c' (parse_chars r1)
            | None =>
                if Ascii.eqb e "u" then
                  match r1 with
                  | String h1 (String h2 (String h3 (String h4 r2))) =>
                      match unicode_of h1 h2 h3 h4 with
                      | Some c' => push c' (parse_chars r2)
                      | None => None
                      end
                  | _ => None
                  end
                else None
            end
        end
      else if plain c then push c (parse_chars r) else None
  end.

Definition number_char (c : ascii) : bool :=
  is_digit c || Ascii.eqb c "+" || Ascii.eqb c "-" || Ascii.eqb c "." || is_exponent_mark c.

Fixpoint span (f : ascii -> bool) (s : string) : string * string :=
  match s with
  | String c r => if f c then let '(a, b) := span f r in (String c a, b) else ("", s)
  | "" => ("", "")
  end.

(** [literal p s]: [s] without its prefix [p]. *)
Fixpoint literal (p s : string) : option string :=
  match p, s with
  | "", _ => Some s
  | String a p', String b s' => if Ascii.eqb a b then literal p' s' else None
  | _, _ => None
  end.

Definition parse_scalar (s : string) : option (json * string) :=
  match literal "null" s with Some r => Some (JNull, r) | None =>
  match literal "true" s with Some r => Some (JBool true, r) | None =>
  match literal "false" s with Some r => Some (JBool false, r) | None =>
    let '(t, r) := span number_char s in if json_number t then Some (JNum t, r) else None
  end end end.

Fixpoint parse_value (fuel : nat) (s : string) {struct fuel} : option (json * string) :=
  match fuel, s with
  | S n, String c r =>
      if Ascii.eqb c quote then
        match parse_chars r with Some (v, rest) => Some (JStr v, rest) | None => None end
      else if Ascii.eqb c "[" then
        match literal "]" (skip_ws r) with
        | Some rest => Some (JArr [], rest)
        | None => match parse_elements n r with Some (l, rest) => Some (JArr l, rest) | None => None end
        end
      else if Ascii.eqb c "{" then
        match literal "}" (skip_ws r) with
        | Some rest => Some (JObj [], rest)
        | None => match parse_members n r with Some (l, rest) => Some (JObj l, rest) | None => None end
        end
      else parse_scalar s
  | _, _ => None
  end
with parse_elements (fuel : nat) (s : string) {struct fuel} : option (list json * string) :=
  match fuel with
  | O => None
  | S n =>
      match parse_value n (skip_ws s) with
      | None => None
      | Some (v, r) =>
          match literal "]" (skip_ws r) with
          | Some rest => Some ([v], rest)
          | None =>
              match literal "," (skip_ws r) with
              | None => None
              | Some r' => match parse_elements n r' with Some (l, rest) => Some (v :: l, rest) | None => None end
              end
          end
      end
  end
with parse_members (fuel : nat) (s : string) {struct fuel} : option (list (string * json) * string) :=
  match fuel with
  | O => None
  | S n =>
      match literal (String quote "") (skip_ws s) with
      | None => None
      | Some r0 =>
          match parse_chars r0 with
          | None => None
          | Some (k, r1) =>
              match literal ":" (skip_ws r1) with
              | None => None
              | Some r2 =>
                  match parse_value n (skip_ws r2) with
                  | None => None
                  | Some (v, r) =>
                      match literal "}" (skip_ws r) with
                      | Some rest => Some ([(k, v)], rest)
                      | None =>
                          match literal "," (skip_ws r) with
                          | None => None
                          | Some r' =>
                              match parse_members n r' with
                              | Some (l, rest) => Some ((k, v) :: l, rest)
                              | None => None
                              end
                          end
                      end
                  end
              end
          end
      end
  end.

(** One value with white space around it, and nothing else. *)
Definition parse_json (s : string) : option json :=
  match parse_value (S (2 * String.length s)) (skip_ws s) with
  | Some (v, r) => match skip_ws r with "" => Some v | _ => None end
  | None => None
  end.

(** ** The parser reads the grammar *)

Lemma parse_chars_denotes s t rest : chars s t -> parse_chars (t +:+ String quote rest) = Some (s, rest).
Proof.
  intros Hc. induction Hc as [|c s t Hp _ IH|e c s t He _ IH|h1 h2 h3 h4 c s t Hu _ IH]; [done| | |].
  - cbn [String.append parse_chars]. rewrite IH, Hp. unfold plain in Hp. breflect.
    rewrite H, H1. done.
  - cbn [String.append parse_chars]. rewrite He, IH. done.
  - cbn [String.append parse_chars]. rewrite Hu, IH. done.
Qed.

Lemma skip_ws_app w s : ws w -> skip_ws (w +:+ s) = skip_ws s.
Proof.
  unfold ws. induction w as [|c w IH]; [done|]. cbn. intros Hw. breflect. rewrite H. by apply IH.
Qed.

Lemma skip_ws_head c r : json_space c = false -> skip_ws (String c r) = String c r.
Proof. intros Hc. cbn. by rewrite Hc. Qed.

(** A number ends where the next character cannot continue it. *)
Definition ends (s : string) : Prop := match s with "" => True | String c _ => number_char c = false end.

Lemma json_space_ends c : json_space c = true -> number_char c = false.
Proof. destruct c as [[] [] [] [] [] [] [] []]; vm_compute; congruence. Qed.

Lemma ends_ws w s : ws w -> ends s -> ends (w +:+ s).
Proof. unfold ws. destruct w as [|c w]; [done|]. cbn. intros Hw _. breflect. by apply json_space_ends. Qed.

Lemma span_all f t rest : all_chars f t = true ->
  match rest with "" => True | String c _ => f c = false end -> span f (t +:+ rest) = (t, rest).
Proof.
  induction t as [|c t IH]; cbn; intros Ht Hr.
  - destruct rest as [|c r]; [done|]. cbn. by rewrite Hr.
  - breflect. rewrite H, IH by done. done.
Qed.

Lemma digits_number_chars s : digits_only s = true -> all_chars number_char s = true.
Proof.
  induction s as [|c s IH]; [done|]. cbn. destruct (is_digit c) eqn:E; [|done]. intros Hs.
  unfold number_char at 1. rewrite E. by apply IH.
Qed.

Lemma exponent_number_chars s : exponent s = true -> all_chars number_char s = true.
Proof.
  destruct s as [|c r]; [done|]. cbn [exponent all_chars].
  destruct (Ascii.eqb c "+" || Ascii.eqb c "-") eqn:E; intros Hs.
  - unfold number_char at 1. rewrite <- !orb_assoc, (orb_assoc (Ascii.eqb c "+")), E.
    rewrite orb_true_r. destruct r as [|d r]; [done|]. by apply digits_number_chars.
  - by apply (digits_number_chars (String c r)).
Qed.

Lemma mark_number_char c : is_exponent_mark c = true -> number_char c = true.
Proof. unfold number_char. intros ->. by rewrite orb_true_r. Qed.

Lemma digit_number_char c : is_digit c = true -> number_char c = true.
Proof. unfold number_char. by intros ->. Qed.

Lemma fraction_number_chars s : fraction s = true -> all_chars number_char s = true.
Proof.
  induction s as [|c s IH]; [done|]. cbn.
  destruct (is_digit c) eqn:E; [by rewrite digit_number_char|].
  destruct (is_exponent_mark c) eqn:E2; [|done]. rewrite mark_number_char by done. apply exponent_number_chars.
Qed.

Lemma after_integer_number_chars s : after_integer s = true -> all_chars number_char s = true.
Proof.
  destruct s as [|c r]; [done|]. cbn. destruct (Ascii.eqb c ".") eqn:E.
  - apply Ascii.eqb_eq in E as ->. destruct r as [|d r]; [done|]. cbn [all_chars]. intros Hs. breflect.
    rewrite (digit_number_char d) by done. by apply fraction_number_chars.
  - destruct (is_exponent_mark c) eqn:E2; [|done]. rewrite mark_number_char by done. apply exponent_number_chars.
Qed.

Lemma integer_number_chars s : integer_digits s = true -> all_chars number_char s = true.
Proof.
  induction s as [|c s IH]; [done|]. cbn [integer_digits].
  destruct (is_digit c) eqn:E; [|apply after_integer_number_chars].
  cbn. by rewrite digit_number_char.
Qed.

Lemma magnitude_number_chars s : magnitude s = true -> all_chars number_char s = true.
Proof.
  destruct s as [|c r]; [done|]. cbn [magnitude all_chars]. destruct (Ascii.eqb c "0") eqn:E.
  - apply Ascii.eqb_eq in E as ->. apply after_integer_number_chars.
  - intros Hs. breflect. rewrite digit_number_char by done. by apply integer_number_chars.
Qed.

Lemma json_number_chars s : json_number s = true -> all_chars number_char s = true.
Proof.
  destruct s as [|c r]; [done|]. cbn [json_number]. destruct (Ascii.eqb c "-") eqn:E.
  - apply Ascii.eqb_eq in E as ->. exact (magnitude_number_chars r).
  - apply magnitude_number_chars.
Qed.

(** The first character of a value: no space and no punctuation. *)
Definition head_ok (c : ascii) : bool :=
  negb (json_space c) && negb (Ascii.eqb c "]") && negb (Ascii.eqb c "}") && negb (Ascii.eqb c ",").

Lemma number_char_head c : number_char c = true -> head_ok c = true.
Proof. destruct c as [[] [] [] [] [] [] [] []]; vm_compute; congruence. Qed.

Lemma denotes_head v t : denotes v t -> exists c r, t = String c r /\ head_ok c = true.
Proof.
  intros Hd. destruct Hd as [| | |t Hn|s t _|w _|l t _|w _|l t _]; try (eexists _, _; split; reflexivity).
  destruct t as [|c r]; [done|]. eexists _, _. split; [done|].
  apply json_number_chars in Hn. cbn in Hn. breflect. by apply number_char_head.
Qed.

Lemma head_ok_space c : head_ok c = true -> json_space c = false.
Proof. unfold head_ok. intros. by breflect. Qed.

Lemma parse_scalar_number t rest : json_number t = true -> ends rest ->
  parse_scalar (t +:+ rest) = Some (JNum t, rest).
Proof.
  intros Hn Hr. unfold parse_scalar.
  pose proof (json_number_chars _ Hn) as Hc.
  destruct t as [|c t]; [done|].
  assert (number_char c = true) as Hh by (cbn in Hc; by breflect).
  assert (forall p, (Ascii.eqb p c = true -> number_char p = true)) as Hp
    by (intros p ->%Ascii.eqb_eq; done).
  assert (forall p s, number_char p = false -> literal (String p s) (String c t +:+ rest) = None) as Hl.
  { intros p s Hf. cbn. destruct (Ascii.eqb p c) eqn:E; [|done]. by rewrite (Hp p E) in Hf. }
  rewrite !Hl by reflexivity. rewrite span_all by done. by rewrite Hn.
Qed.

Lemma parse_value_number n t rest : json_number t = true -> ends rest ->
  parse_value (S n) (t +:+ rest) = Some (JNum t, rest).
Proof.
  intros Hn Hr. rewrite <- (parse_scalar_number t rest Hn Hr).
  pose proof (json_number_chars _ Hn) as Hc. destruct t as [|c t]; [done|].
  cbn in Hc. breflect. cbn [String.append parse_value].
  assert (forall p, number_char p = false -> Ascii.eqb c p = false) as Hp.
  { intros p Hf. destruct (Ascii.eqb c p) eqn:E; [|done]. apply Ascii.eqb_eq in E. congruence. }
  by rewrite !Hp by reflexivity.
Qed.

Lemma literal_ne a c p r : Ascii.eqb a c = false -> literal (String a p) (String c r) = None.
Proof. intros He. cbn. by rewrite He. Qed.

Lemma head_ok_ne c a : head_ok c = true -> head_ok a = false -> Ascii.eqb a c = false.
Proof. intros Hc Ha. destruct (Ascii.eqb a c) eqn:E; [|done]. apply Ascii.eqb_eq in E. congruence. Qed.

(** The first character of the elements of an array. *)
Lemma elements_head l t : elements l t -> exists w c r, t = w +:+ String c r /\ ws w /\ head_ok c = true.
Proof.
  intros He. destruct He as [v w1 t w2 Hw Hd _|v l w1 t w2 t' Hw Hd _ _];
    destruct (denotes_head _ _ Hd) as (c & r & -> & Hc); eexists w1, c, _; (split; [reflexivity|]; done).
Qed.

Lemma members_head l t : members l t -> exists w r, t = w +:+ String quote r /\ ws w.
Proof. intros Hm. destruct Hm; eexists w1, _; (split; [reflexivity|done]). Qed.

#[local] Ltac norm_app := repeat (rewrite !sapp_assoc || (progress cbn [String.append])).

Lemma parse_denotes :
  (forall v t, denotes v t -> forall n rest, (2 * String.length t <= n)%nat -> ends rest ->
     parse_value n (t +:+ rest) = Some (v, rest))
  /\ (forall l t, elements l t -> forall n rest, (2 * String.length t + 1 <= n)%nat ->
     parse_elements n (t +:+ String "]" rest) = Some (l, rest))
  /\ (forall l t, members l t -> forall n rest, (2 * String.length t + 1 <= n)%nat ->
     parse_members n (t +:+ String "}" rest) = Some (l, rest)).
Proof.
  apply json_mutind.
  1-3: intros [|n] rest Hn Hr; cbn in Hn; [lia|reflexivity].
  - intros t Ht [|n] rest Hn Hr; [by destruct t; cbn in Hn; [|lia]|]. by apply parse_value_number.
  - intros s t Hc [|n] rest Hn Hr; [cbn in Hn; lia|]. unfold quoted. norm_app.
    cbn [parse_value]. by rewrite (parse_chars_denotes s t rest Hc).
  - intros w Hw [|n] rest Hn Hr; [cbn in Hn; lia|]. norm_app. cbn [parse_value].
    by rewrite skip_ws_app.
  - intros l t He IH [|n] rest Hn Hr; [cbn in Hn; lia|]. norm_app. cbn [parse_value].
    cbn [String.length] in Hn. rewrite sapp_length in Hn. cbn in Hn.
    rewrite IH by lia.
    destruct (elements_head _ _ He) as (w & c & r & -> & Hw & Hc). norm_app.
    rewrite skip_ws_app, skip_ws_head by (done || by apply head_ok_space).
    rewrite literal_ne by (by apply head_ok_ne). done.
  - intros w Hw [|n] rest Hn Hr; [cbn in Hn; lia|]. norm_app. cbn [parse_value].
    by rewrite skip_ws_app.
  - intros l t He IH [|n] rest Hn Hr; [cbn in Hn; lia|]. norm_app. cbn [parse_value].
    cbn [String.length] in Hn. rewrite sapp_length in Hn. cbn in Hn.
    rewrite IH by lia.
    destruct (members_head _ _ He) as (w & r & -> & Hw). norm_app. by rewrite skip_ws_app.
  - intros v w1 t w2 Hw1 Hd IH Hw2 [|n] rest Hn; [lia|]. rewrite !sapp_length in Hn. norm_app.
    cbn [parse_elements]. destruct (denotes_head _ _ Hd) as (c & r & E & Hc).
    rewrite skip_ws_app by done.
    replace (skip_ws (t +:+ w2 +:+ String "]" rest)) with (t +:+ w2 +:+ String "]" rest)
      by (subst t; cbn [String.append]; symmetry; apply skip_ws_head; by apply head_ok_space).
    rewrite IH by (lia || (apply ends_ws; [done|reflexivity])). rewrite skip_ws_app by done. done.
  - intros v l w1 t w2 t' Hw1 Hd IH Hw2 He IHe [|n] rest Hn; [lia|].
    rewrite !sapp_length in Hn. cbn in Hn. norm_app.
    cbn [parse_elements]. destruct (denotes_head _ _ Hd) as (c & r & E & Hc).
    rewrite skip_ws_app by done.
    replace (skip_ws (t +:+ w2 +:+ String "," (t' +:+ String "]" rest)))
      with (t +:+ w2 +:+ String "," (t' +:+ String "]" rest))
      by (subst t; cbn [String.append]; symmetry; apply skip_ws_head; by apply head_ok_space).
    rewrite IH by (lia || (apply ends_ws; [done|reflexivity])). rewrite skip_ws_app by done.
    cbn [skip_ws]. change (json_space ",") with false. cbv iota. cbn [literal Ascii.eqb Bool.eqb].
    rewrite IHe by lia. done.
  - intros k kt v w1 w2 w3 t w4 Hw1 Hk Hw2 Hw3 Hd IH Hw4 [|n] rest Hn; [lia|].
    unfold quoted in *. cbn [String.append] in *. repeat (rewrite sapp_length in Hn; cbn [String.length] in Hn). norm_app.
    cbn [parse_members]. destruct (denotes_head _ _ Hd) as (c & r & E & Hc).
    rewrite skip_ws_app, skip_ws_head by done. cbn [literal]. rewrite Ascii.eqb_refl.
    rewrite (parse_chars_denotes k kt) by done. rewrite skip_ws_app, skip_ws_head by done.
    cbn [literal]. rewrite Ascii.eqb_refl, skip_ws_app by done.
    replace (skip_ws (t +:+ w4 +:+ String "}" rest)) with (t +:+ w4 +:+ String "}" rest)
      by (subst t; cbn [String.append]; symmetry; apply skip_ws_head; by apply head_ok_space).
    rewrite IH by (lia || (apply ends_ws; [done|reflexivity])). by rewrite skip_ws_app.
  - intros k kt v l w1 w2 w3 t w4 t' Hw1 Hk Hw2 Hw3 Hd IH Hw4 Hm IHm [|n] rest Hn; [lia|].
    unfold quoted in *. cbn [String.append] in *. repeat (rewrite sapp_length in Hn; cbn [String.length] in Hn). norm_app.
    cbn [parse_members]. destruct (denotes_head _ _ Hd) as (c & r & E & Hc).
    rewrite skip_ws_app, skip_ws_head by done. cbn [literal]. rewrite Ascii.eqb_refl.
    rewrite (parse_chars_denotes k kt) by done. rewrite skip_ws_app, skip_ws_head by done.
    cbn [literal]. rewrite Ascii.eqb_refl, skip_ws_app by done.
    replace (skip_ws (t +:+ w4 +:+ String "," (t' +:+ String "}" rest)))
      with (t +:+ w4 +:+ String "," (t' +:+ String "}" rest))
      by (subst t; cbn [String.append]; symmetry; apply skip_ws_head; by apply head_ok_space).
    rewrite IH by (lia || (apply ends_ws; [done|reflexivity])). rewrite skip_ws_app, skip_ws_head by done.
    cbn [literal Ascii.eqb Bool.eqb]. rewrite IHm by lia. done.
Qed.

(** White space around a text of the grammar does not matter, and the value the
    text denotes is the one read. *)
Lemma parse_json_denotes v t w : denotes v t -> ws w -> parse_json (t +:+ w) = Some v.
Proof.
  intros Hd Hw. unfold parse_json. destruct (denotes_head _ _ Hd) as (c & r & E & Hc).
  replace (skip_ws (t +:+ w)) with (t +:+ w)
    by (subst t; cbn [String.append]; symmetry; apply skip_ws_head; by apply head_ok_space).
  rewrite (proj1 parse_denotes v t Hd).
  - rewrite <- (sapp_nil_r w), skip_ws_app by done. done.
  - rewrite sapp_length. lia.
  - rewrite <- (sapp_nil_r w). by apply ends_ws.
Qed.

(** ** The numbers the renderers write *)

Lemma digits_integer s : all_chars is_digit s = true -> integer_digits s = true.
Proof.
  induction s as [|c s IH]; [done|]. cbn. intros Hs. breflect. rewrite H. by apply IH.
Qed.

(** What [to_chars_fuel] puts in front of [acc] has no leading zero. *)
Lemma to_chars_magnitude fuel : forall v acc, (0 < fuel)%nat -> 0 < v < 10 ^ Z.of_nat fuel ->
  all_chars is_digit acc = true -> magnitude (text.to_chars_fuel fuel v acc) = true.
Proof.
  induction fuel as [|fuel IH]; [lia|]. intros v acc _ Hv Ha. cbn [text.to_chars_fuel].
  assert (is_digit (text.digit_char (v mod 10)) = true) as Hd.
  { unfold is_digit. rewrite digit_value_char; [done|]. apply Z.mod_pos_bound. lia. }
  destruct (v <? 10) eqn:E; breflect.
  - rewrite Z.mod_small in * by lia. cbn [magnitude].
    assert (Ascii.eqb (text.digit_char v) "0" = false) as ->.
    { destruct (Ascii.eqb _ _) eqn:E2; [|done]. apply Ascii.eqb_eq in E2.
      pose proof (digit_value_char v ltac:(lia)) as Hv2. rewrite E2 in Hv2. vm_compute in Hv2. simplify_eq. lia. }
    rewrite Hd. by apply digits_integer.
  - apply IH.
    + destruct fuel; [|lia]. cbn in Hv. lia.
    + split; [apply Z.div_str_pos; lia|]. apply Z.div_lt_upper_bound; [lia|].
      rewrite <- Z.pow_succ_r by lia. replace (Z.succ (Z.of_nat fuel)) with (Z.of_nat (S fuel)) by lia. exact (proj2 Hv).
    + cbn. by rewrite Hd.
Qed.

Lemma format_u64_magnitude v : is_u64 v -> magnitude (text.format_u64 v) = true.
Proof.
  intros Hv. destruct (Z.eq_dec v 0) as [->|Hz]; [reflexivity|].
  apply to_chars_magnitude; [lia| |reflexivity].
  unfold is_u64, u64_max in Hv. change (10 ^ Z.of_nat 20) with 100000000000000000000. lia.
Qed.

Lemma magnitude_number s : magnitude s = true -> json_number s = true.
Proof.
  destruct s as [|c s]; [done|]. intros Hm. cbn [json_number].
  destruct (Ascii.eqb c "-") eqn:E; [|done]. apply Ascii.eqb_eq in E as ->. done.
Qed.

Lemma format_u64_number v : is_u64 v -> json_number (text.format_u64 v) = true.
Proof. intros Hv. by apply magnitude_number, format_u64_magnitude. Qed.

Lemma format_i64_number v : is_i64 v -> json_number (text.format_i64 v) = true.
Proof.
  intros Hv. unfold text.format_i64. destruct (v <? 0) eqn:E; breflect.
  - apply (format_u64_magnitude (- v)). unfold_ints. lia.
  - apply format_u64_number. unfold_ints. lia.
Qed.

(** [std::to_chars] writes a finite double as [printf] does in the C locale:
    decimal digits without a leading zero, an optional fraction and exponent. *)
Definition to_chars_is_decimal `{Charconv} : Prop :=
  forall value, std_isfinite value = true -> json_number (to_chars_double value) = true.

Lemma append_point s : string_has "." s = false -> string_has "e" s = false -> string_has "E" s = false ->
  json_number s = true -> json_number (s +:+ ".0") = true.
Proof.
  assert (forall s, string_has "." s = false -> string_has "e" s = false -> string_has "E" s = false ->
            after_integer s = true -> s = "") as Ha.
  { intros [|c r]; [done|]. cbn [string_has after_integer]. unfold is_exponent_mark.
    intros H1 H2 H3. breflect. rewrite !(Ascii.eqb_sym c). by repeat match goal with E : _ = false |- _ => rewrite E; clear E end. }
  assert (forall s, string_has "." s = false -> string_has "e" s = false -> string_has "E" s = false ->
            integer_digits s = true -> integer_digits (s +:+ ".0") = true) as Hi.
  { intros r. induction r as [|c r IH]; [done|]. intros H1 H2 H3 Hr. pose proof (Ha _ H1 H2 H3) as Hc.
    cbn [integer_digits string_has String.append] in *. breflect. destruct (is_digit c); [by apply IH|].
    by apply Hc in Hr. }
  assert (forall s, string_has "." s = false -> string_has "e" s = false -> string_has "E" s = false ->
            magnitude s = true -> magnitude (s +:+ ".0") = true) as Hm.
  { intros [|c r]; [done|]. cbn [magnitude string_has String.append]. intros H1 H2 H3 Hr. breflect.
    destruct (Ascii.eqb c "0"); [apply Ha in Hr as ->; done|]. breflect.
    rewrite Hi; [|done..]. by rewrite H5. }
  destruct s as [|c r]; [done|]. intros H1 H2 H3. pose proof (Hm (String c r) H1 H2 H3) as Hs.
  cbn [json_number string_has String.append] in *. breflect. destruct (Ascii.eqb c "-"); auto.
Qed.

Lemma format_double_number `{Charconv} value : to_chars_is_decimal -> std_isfinite value = true ->
  json_number (format_double value) = true.
Proof.
  intros Ht Hf. pose proof (Ht value Hf) as Hn. unfold format_double.
  assert (forall b1 b2 : bool, json_number (if negb (string_has "." (to_chars_double value))
     && negb (string_has "e" (to_chars_double value)) && negb (string_has "E" (to_chars_double value)) && b1 && b2
     then to_chars_double value +:+ ".0" else to_chars_double value) = true) as Hb.
  { intros b1 b2. destruct (_ && b1 && b2) eqn:E; [|exact Hn]. breflect. by apply append_point. }
  destruct value as [s|s| |s m e]; [apply Hb|done|done|apply Hb].
Qed.
