(* ===== verification/Cli.v ===== *)
(** * The command line: parsing and renderings

    [apps/lqf/cmd_common.*].  What the tool writes is a list of pieces
    ([Chunk]): literal text, or text the library supplies with a status.  A
    status is identified with its code throughout the development, so a message
    of the library is the piece [MessageOf code] and its rendering by
    [Status::to_text] is [StatusText code]; a status the tool makes itself has
    its text. *)

From Stdlib Require Import ZArith Lia Bool List String Ascii.
From Stdlib Require Import Floats.SpecFloat.
From stdpp Require Import base decidable list strings gmap.
From S2P Require Import Prelude OrdMap Float Core Hash Quality Metric Identity Counter.
From S2P Require Import Capability Policy Classification Config Codec Journal Render Json.

Open Scope Z_scope.

(** ** Exit codes *)

Definition kExitOk : Z := 0.
Definition kExitFailure : Z := 1.
Definition kExitUsage : Z := 2.

Inductive Chunk :=
  | Lit (s : string)
  | MessageOf (code : Status)     (* [status.message()] *)
  | StatusText (code : Status)    (* [status.to_text()] *)
  | Detail.                       (* [RecoveryReport::detail] *)

(** ** Command line description and parsing *)

Record OptionSpec := mkOptionSpec {
  os_name : string; os_takes_value : bool; os_value_name : string; os_help : string }.

Record CommandSpec := mkCommandSpec {
  cs_name : string; cs_summary : string; cs_options : list OptionSpec; cs_required : list string }.

Record Args := mkArgs { arg_values : gmap string string; arg_flags : gset string }.

Definition no_args : Args := mkArgs ∅ ∅.

Definition args_has (name : string) (args : Args) : bool :=
  bool_decide (is_Some (arg_values args !! name)) || bool_decide (name ∈ arg_flags args).

(** [Args::find]: the pointer is null when the option was not given. *)
Definition args_find (name : string) (args : Args) : option string := arg_values args !! name.

Definition value_or (name fallback : string) (args : Args) : string :=
  match args_find name args with Some v => v | None => fallback end.

(** [ParseResult]: [ok] with the arguments, or the error. *)
Inductive ParseResult := ParseOk (args : Args) | ParseError (error : string).

(** The text before and after the first [c]. *)
Fixpoint split_first (c : ascii) (s : string) : option (string * string) :=
  match s with
  | "" => None
  | String d r =>
      if Ascii.eqb d c then Some ("", r)
      else match split_first c r with Some (a, b) => Some (String d a, b) | None => None end
  end.

(** The text before and after the last [c]. *)
Fixpoint split_last (c : ascii) (s : string) : option (string * string) :=
  match s with
  | "" => None
  | String d r =>
      match split_last c r with
      | Some (a, b) => Some (String d a, b)
      | None => if Ascii.eqb d c then Some ("", r) else None
      end
  end.

(** At least three characters, of which the first two are dashes. *)
Definition is_option_token (token : string) : bool :=
  match token with
  | String a (String b (String _ _)) => Ascii.eqb a "-" && Ascii.eqb b "-"
  | _ => false
  end.

Definition find_option (name : string) (spec : CommandSpec) : option OptionSpec :=
  find_first (fun candidate => String.eqb (os_name candidate) name) (cs_options spec).

(** The loop over the tokens. *)
Fixpoint parse_tokens (spec : CommandSpec) (argv : list string) (args : Args) : ParseResult :=
  match argv with
  | [] => ParseOk args
  | token :: rest =>
      if negb (is_option_token token) then ParseError ("unexpected argument: " +:+ token)
      else
        let '(name, inline_value) :=
          match split_first "=" token with Some (n, v) => (n, Some v) | None => (token, None) end in
        match find_option name spec with
        | None => ParseError ("unknown option: " +:+ name)
        | Some option =>
            if negb (os_takes_value option) then
              match inline_value with
              | Some _ => ParseError ("option " +:+ name +:+ " does not take a value")
              | None => parse_tokens spec rest (mkArgs (arg_values args) ({[name]} ∪ arg_flags args))
              end
            else match inline_value with
            | Some value => parse_tokens spec rest (mkArgs (<[name := value]> (arg_values args)) (arg_flags args))
            | None =>
                match rest with
                | value :: rest' =>
                    parse_tokens spec rest' (mkArgs (<[name := value]> (arg_values args)) (arg_flags args))
                | [] => ParseError ("option " +:+ name +:+ " requires a value")
                end
            end
        end
  end.

Definition parse_arguments (spec : CommandSpec) (argv : list string) : ParseResult :=
  match parse_tokens spec argv no_args with
  | ParseError e => ParseError e
  | ParseOk args =>
      match find_first (fun required => negb (bool_decide (is_Some (arg_values args !! required))))
              (cs_required spec) with
      | Some required => ParseError ("missing required option: " +:+ required)
      | None => ParseOk args
      end
  end.

Definition requests_help (argv : list string) : bool :=
  existsb (fun token => String.eqb token "--help" || String.eqb token "-h") argv.

(** ** Usage *)

Definition usage_option (spec : CommandSpec) (option : OptionSpec) : string :=
  let required := existsb (String.eqb (os_name option)) (cs_required spec) in
  " " +:+ (if required then "" else "[") +:+ os_name option
    +:+ (if os_takes_value option then " " +:+ os_value_name option else "")
    +:+ (if required then "" else "]").

Definition usage_line (spec : CommandSpec) : string :=
  "usage: lqf " +:+ cs_name spec +:+ concat_map (usage_option spec) (cs_options spec) +:+ newline.

Definition print_usage (spec : CommandSpec) : string :=
  usage_line spec +:+ "  " +:+ cs_summary spec +:+ newline.

Definition print_help (spec : CommandSpec) : string :=
  print_usage spec +:+ "options:" +:+ newline
    +:+ concat_map (fun option =>
          "  " +:+ os_name option +:+ (if os_takes_value option then " " +:+ os_value_name option else "")
            +:+ "  " +:+ os_help option +:+ newline) (cs_options spec).

Definition print_top_level_usage : string :=
  concat_map (fun line => line +:+ newline) [
    "usage: lqf <command> [options]";
    "commands:";
    "  serve           run a FabricServer on 127.0.0.1 until it is stopped";
    "  shutdown        send the Shutdown protocol message to a running runtime";
    "  journal-verify  open a journal read-only and print the recovery report";
    "  journal-dump    print one line per journal record";
    "  emit            connect and ingest generated gauge readings";
    "  query           print the quality report of one link";
    "  explain         print the derivation of one link's quality report";
    "  inspect         print the fabric inspection report";
    "  metrics         print the declared capability view of one link";
    "  policy          print the current policy generation and document"]%string.

(** ** Typed argument parsing *)

(** [Outcome] with the text of the status, since the tool prints it. *)
Inductive Parsed (A : Type) := PGood (a : A) | PBad (code : Status) (message : Chunk).
Arguments PGood {A} a.
Arguments PBad {A} code message.

Definition kMaxPort : Z := 65535.

Definition parse_u64_value (text_value what : string) : Parsed Z :=
  match text.parse_u64 text_value with
  | Good parsed => PGood parsed
  | Bad _ => PBad StatusCode.Invalid (Lit (what +:+ " is not an unsigned integer: " +:+ text_value))
  end.

Definition parse_port_value (text_value : string) (allow_zero : bool) : Parsed Z :=
  match parse_u64_value text_value "port" with
  | PBad c m => PBad c m
  | PGood parsed =>
      if (kMaxPort <? parsed) || ((parsed =? 0) && negb allow_zero)
      then PBad StatusCode.Invalid
             (Lit ((if allow_zero then "port must be within [0, 65535]: "
                    else "port must be within [1, 65535]: ") +:+ text_value))
      else PGood parsed
  end.

(** The identity is returned when the library's validation accepts it. *)
Definition validated {A} (status : Status) (a : A) : Parsed A :=
  match status with StatusCode.Ok => PGood a | e => PBad e (MessageOf e) end.

(** The generation and the incarnation are 1 by default. *)
Definition parse_link_value (text_value : string) : Parsed LinkIdentity :=
  let plain_id := mkLinkIdentity text_value 1 in
  match split_last "/" text_value with
  | Some (id, after) =>
      match literal "gen" after with
      | Some suffix =>
          match text.parse_u64 suffix with
          | Good generation =>
              if generation =? 0
              then PBad StatusCode.Invalid (Lit ("link generation is malformed: " +:+ text_value))
              else let identity := mkLinkIdentity id generation in
                   validated (validate_link_identity identity) identity
          | Bad _ => PBad StatusCode.Invalid (Lit ("link generation is malformed: " +:+ text_value))
          end
      | None => validated (validate_link_identity plain_id) plain_id
      end
  | None => validated (validate_link_identity plain_id) plain_id
  end.

Definition parse_source_value (text_value : string) : Parsed SourceIdentity :=
  match split_last "@" text_value with
  | Some (id, suffix) =>
      match text.parse_u64 suffix with
      | Good incarnation =>
          if incarnation =? 0
          then PBad StatusCode.Invalid (Lit ("source incarnation is malformed: " +:+ text_value))
          else let identity := mkSourceIdentity id incarnation in
               validated (validate_source_identity identity) identity
      | Bad _ => PBad StatusCode.Invalid (Lit ("source incarnation is malformed: " +:+ text_value))
      end
  | None =>
      let identity := mkSourceIdentity text_value 1 in
      validated (validate_source_identity identity) identity
  end.

Definition parse_metric_value (text_value : string) : Parsed MetricId :=
  match split_first ":" text_value with
  | None =>
      PBad StatusCode.Invalid
        (Lit ("metric must be written as <family>:<name>, for example signal-power:rx.level, received: "
                +:+ text_value))
  | Some (family_text, name) =>
      match parse_metric_family family_text with
      | Bad s => PBad s (MessageOf s)
      | Good family =>
          let id := mkMetricId family name in validated (validate_metric_id id) id
      end
  end.

Definition parse_lane_value (text_value : string) : Parsed LaneDimension :=
  match parse_u64_value text_value "lane" with
  | PBad c m => PBad c m
  | PGood parsed =>
      if 4294967295 <? parsed then PBad StatusCode.Invalid (Lit ("lane is out of range: " +:+ text_value))
      else PGood (lane_dimension parsed)
  end.

(** ** Renderings *)

Definition append_line (key value : string) : string := "  " +:+ key +:+ " " +:+ value +:+ newline.

(** [detail] is set whenever a flag it explains is. *)
Definition has_detail (report : RecoveryReport) : bool :=
  rr_torn_tail report || rr_degraded report || rr_limit_reached report || negb (ok (rr_status report)).

Definition render_recovery_report (report : RecoveryReport) : list Chunk :=
  [Lit (append_line "opened" (bool_text (rr_opened report))
     +:+ append_line "header-valid" (bool_text (rr_header_valid report))
     +:+ append_line "records-read" (text.format_u64 (rr_records_read report))
     +:+ append_line "bytes-read" (text.format_u64 (rr_bytes_read report))
     +:+ append_line "bytes-discarded" (text.format_u64 (rr_bytes_discarded report))
     +:+ append_line "torn-tail" (bool_text (rr_torn_tail report))
     +:+ append_line "degraded" (bool_text (rr_degraded report))
     +:+ append_line "snapshot-loaded" (bool_text (rr_snapshot_loaded report))
     +:+ append_line "truncated-file" (bool_text (rr_truncated_file report))
     +:+ append_line "temp-discarded" (bool_text (rr_temp_discarded report))
     +:+ append_line "limit-reached" (bool_text (rr_limit_reached report))
     +:+ append_line "first-bad-offset" (text.format_u64 (rr_first_bad_offset report))
     +:+ "  status "); StatusText (rr_status report); Lit newline]
  ++ if has_detail report then [Lit "  detail "; Detail; Lit newline] else [].

Definition policy_stamp_text (stamp : PolicyStamp) : string :=
  ps_id stamp +:+ "/gen" +:+ text.format_u64 (ps_generation stamp) +:+ " " +:+ ps_content_hash stamp.

Definition render_epoch_and_policy (epoch : Z) (policy : PolicyStamp) : string :=
  "epoch " +:+ text.format_u64 epoch +:+ " policy " +:+ policy_stamp_text policy.

(** [static_cast<u64>] of a double truncates; outside the range it is
    undefined ([None]). *)
Definition d_to_u64 (value : double) : option Z :=
  let in_range z := if (0 <=? z) && (z <=? u64_max) then Some z else None in
  match value with
  | S754_zero _ => Some 0
  | S754_finite sign m e =>
      let magnitude := if 0 <=? e then Z.shiftl (Zpos m) e else Z.shiftr (Zpos m) (- e) in
      in_range (if sign then - magnitude else magnitude)
  | _ => None
  end.

Fixpoint zeros (n : nat) : string := match n with O => "" | S k => String "0" (zeros k) end.

Definition render_seconds (seconds : double) : option string :=
  if negb (std_isfinite seconds) || d_le seconds d_zero then Some "0.000000"
  else
    let micros := d_mul seconds (d_of_Z 1000000) in
    match d_to_u64 (d_add micros (d_lit 5 1)) with
    | None => None
    | Some rounded =>
        let digits := text.format_u64 (rounded mod 1000000) in
        Some (text.format_u64 (rounded / 1000000) +:+ "." +:+ zeros (6 - String.length digits) +:+ digits)
    end.

(** ** JSON *)

Fixpoint spaces (n : nat) : string := match n with O => "" | S k => String " " (spaces k) end.

Definition indent (depth : nat) : string := spaces (depth * 2).

Definition json_char (c : ascii) : string :=
  if Ascii.eqb c quote then String backslash (String quote "")
  else if Ascii.eqb c backslash then String backslash (String backslash "")
  else if Ascii.eqb c "010" then String backslash "n"
  else if Ascii.eqb c "013" then String backslash "r"
  else if Ascii.eqb c "009" then String backslash "t"
  else
    let raw := Z.of_N (N_of_ascii c) in
    if raw <? 32 then
      String backslash ("u00" +:+ String (text.hex_digit (Z.land (Z.shiftr raw 4) 15))
                                    (String (text.hex_digit (Z.land raw 15)) ""))
    else String c "".

Fixpoint json_escape (value : string) : string :=
  match value with "" => "" | String c s => json_char c +:+ json_escape s end.

Definition json_string (value : string) : string := quoted (json_escape value).

(** The items of an array, separated by a comma and a space. *)
Fixpoint comma_items (items : list string) : string :=
  match items with
  | [] => ""
  | [x] => x
  | x :: rest => x +:+ ", " +:+ comma_items rest
  end.

Definition json_array (items : list string) : string := "[" +:+ comma_items items +:+ "]".

Definition json_reason_array (reasons : ReasonList) : string :=
  json_array (map (fun r => json_string (reason_to_string r)) reasons).
Definition json_rule_array (rules : list string) : string := json_array (map json_string rules).
Definition json_lane_array (lanes : list Z) : string := json_array (map text.format_u64 lanes).

Definition lane_label (lane : LaneDimension) : string :=
  if ld_aggregate lane then "aggregate" else "lane" +:+ text.format_u64 (ld_lane lane).

(** A member of an object: the quoted key, a colon and the value. *)
Definition json_member (key value : string) : string := quoted key +:+ ": " +:+ value.

(** A member on a line of its own, with the comma that follows it. *)
Definition json_line (depth : nat) (key value : string) : string :=
  indent depth +:+ json_member key value +:+ "," +:+ newline.

(** The elements of an array, a line each: all but the last are followed by a
    comma. *)
Fixpoint json_lines (items : list string) : string :=
  match items with
  | [] => ""
  | [x] => x +:+ newline
  | x :: rest => x +:+ "," +:+ newline +:+ json_lines rest
  end.

(** The last member of an object: an array with an element per line. *)
Definition json_block (depth : nat) (key : string) (items : list string) : string :=
  indent depth +:+ quoted key +:+ ": [" +:+
    match items with
    | [] => "]" +:+ newline
    | _ => newline +:+ json_lines items +:+ indent depth +:+ "]" +:+ newline
    end.

Section Json.
Context `{Charconv}.

Definition json_double (value : option double) : string :=
  match value with
  | Some v => if std_isfinite v then format_double v else "null"
  | None => "null"
  end.

Definition reference_json (r : EvidenceRef) : string :=
  indent 4 +:+ "{" +:+
    comma_items [
      json_member "source" (json_string (render_source_identity (ref_source r)));
      json_member "sequence" (text.format_u64 (ref_sequence r));
      json_member "lane" (json_string (lane_label (ref_lane r)));
      json_member "unit" (json_string (unit_to_string (ref_unit r)));
      json_member "origin" (json_string (origin_to_string (ref_origin r)));
      json_member "evidence_class" (json_string (class_to_string (ref_evidence_class r)));
      json_member "authority" (text.format_u64 (ref_authority r));
      json_member "observed_at_unix_nanos" (text.format_i64 (ts_unix_nanos (ref_observed_at r)));
      json_member "fresh" (bool_text (ref_fresh r));
      json_member "age_nanos" (text.format_i64 (ref_age_nanos r));
      json_member "rendered" (json_string (ref_rendered r))]
  +:+ "}".

Definition assessment_json (a : MetricAssessment) : string :=
  indent 2 +:+ "{" +:+ newline
    +:+ json_line 3 "metric" (json_string (render_metric_id (as_metric a)))
    +:+ json_line 3 "lane" (json_string (lane_label (as_lane a)))
    +:+ json_line 3 "state" (json_string (state_to_string (as_state a)))
    +:+ json_line 3 "confidence" (json_string (confidence_to_string (as_confidence a)))
    +:+ json_line 3 "capability_declared" (bool_text (as_capability_declared a))
    +:+ json_line 3 "sources_declared" (text.format_u64 (as_sources_declared a))
    +:+ json_line 3 "sources_with_evidence" (text.format_u64 (as_sources_with_evidence a))
    +:+ json_line 3 "sources_fresh" (text.format_u64 (as_sources_fresh a))
    +:+ json_line 3 "sources_conflicting" (text.format_u64 (as_sources_conflicting a))
    +:+ json_line 3 "value" (json_double (as_value a))
    +:+ json_line 3 "rate_per_second" (json_double (as_rate_per_second a))
    +:+ json_line 3 "interval_rate_per_second" (json_double (as_interval_rate_per_second a))
    +:+ json_line 3 "disagreement" (json_double (as_disagreement a))
    +:+ json_line 3 "rules" (json_rule_array (as_rules a))
    +:+ json_line 3 "reasons" (json_reason_array (as_reasons a))
    +:+ json_line 3 "missing_lanes" (json_lane_array (as_missing_lanes a))
    +:+ json_block 3 "evidence" (map reference_json (as_evidence a))
    +:+ indent 2 +:+ "}".

(** An object on the line of its member. *)
Definition json_object (items : list string) : string := "{" +:+ comma_items items +:+ "}".

Definition render_report_json (r : LinkQualityReport) : string :=
  "{" +:+ newline
    +:+ json_line 1 "link" (json_string (render_link_identity (rep_link r)))
    +:+ json_line 1 "link_registered" (bool_text (rep_link_registered r))
    +:+ json_line 1 "evidence_present" (bool_text (rep_evidence_present r))
    +:+ json_line 1 "overall" (json_string (state_to_string (rep_overall r)))
    +:+ json_line 1 "confidence" (json_string (confidence_to_string (rep_confidence r)))
    +:+ json_line 1 "reasons" (json_reason_array (rep_reasons r))
    +:+ json_line 1 "policy"
          (json_object [json_member "id" (json_string (ps_id (rep_policy r)));
                        json_member "generation" (text.format_u64 (ps_generation (rep_policy r)));
                        json_member "content_hash" (json_string (ps_content_hash (rep_policy r)))])
    +:+ json_line 1 "epoch" (text.format_u64 (rep_epoch r))
    +:+ json_line 1 "evidence"
          (json_object [json_member "considered" (text.format_u64 (rep_evidence_considered r));
                        json_member "fresh" (text.format_u64 (rep_evidence_fresh r));
                        json_member "recovered" (text.format_u64 (rep_evidence_recovered r))])
    +:+ json_line 1 "generated_wall_nanos" (text.format_i64 (rep_generated_wall_nanos r))
    +:+ json_line 1 "generated_steady_nanos" (text.format_i64 (rep_generated_steady_nanos r))
    +:+ json_line 1 "truncated" (bool_text (rep_truncated r))
    +:+ json_block 1 "metrics" (map assessment_json (rep_metrics r))
    +:+ "}" +:+ newline.
End Json.
