(* ===== verification/CliSpec.v ===== *)
(** * The command line: what it reads and what it prints

    The arguments the parser accepts, the values the typed parsers return, and
    the two renderings: the identities the library prints are read back by the
    tool, and the JSON of a report is a JSON text of the report. *)

From Stdlib Require Import ZArith Lia Bool List String Ascii.
From stdpp Require Import base decidable list strings gmap.
From S2P Require Import Prelude OrdMap Float Core Hash Quality Metric Identity Counter.
From S2P Require Import Capability Policy Classification Config Codec Journal Render Json Cli.

Open Scope Z_scope.

#[local] Arguments String.append : simpl nomatch.
#[local] Arguments enum_val : simpl never.

(** ** JSON pieces *)

Lemma plain_chars s : all_chars plain s = true -> chars s s.
Proof. induction s as [|c s IH]; cbn [all_chars]; [constructor|]. intros Hs. breflect. constructor; auto. Qed.

Lemma json_char_chars c s t : chars s t -> chars (String c s) (json_char c +:+ t).
Proof.
  intros Hs. destruct c as [[] [] [] [] [] [] [] []];
    first [ apply ch_plain; [reflexivity|exact Hs]
          | apply ch_escape; [reflexivity|exact Hs]
          | apply ch_unicode; [reflexivity|exact Hs] ].
Qed.

Lemma json_escape_chars s : chars s (json_escape s).
Proof. induction s as [|c s IH]; [constructor|]. cbn [json_escape]. by apply json_char_chars. Qed.

Lemma json_string_denotes s : denotes (JStr s) (json_string s).
Proof. constructor. apply json_escape_chars. Qed.

Lemma bool_text_denotes b : denotes (JBool b) (bool_text b).
Proof. destruct b; constructor. Qed.

Lemma u64_denotes v : is_u64 v -> denotes (JNum (text.format_u64 v)) (text.format_u64 v).
Proof. intros Hv. constructor. by apply format_u64_number. Qed.

Lemma i64_denotes v : is_i64 v -> denotes (JNum (text.format_i64 v)) (text.format_i64 v).
Proof. intros Hv. constructor. by apply format_i64_number. Qed.

Lemma spaces_ws n : ws (spaces n).
Proof. induction n as [|n IH]; [done|]. exact IH. Qed.

Lemma indent_ws n : ws (indent n).
Proof. apply spaces_ws. Qed.

Lemma newline_ws : ws newline.
Proof. done. Qed.

Lemma ws_app a b : ws a -> ws b -> ws (a +:+ b).
Proof. unfold ws. intros Ha Hb. by rewrite all_chars_app, Ha, Hb. Qed.

Create HintDb json discriminated.
#[export] Hint Resolve indent_ws newline_ws ws_app json_string_denotes bool_text_denotes u64_denotes
  i64_denotes : json.

(** The elements of an array on one line. *)
Lemma elements_comma vs : forall items w, Forall2 denotes vs items -> items <> [] -> ws w ->
  elements vs (w +:+ comma_items items).
Proof.
  induction vs as [|v vs IH]; intros items w Hf Hne Hw; inversion Hf as [|? x ? rest Hd Hr]; subst; [done|].
  destruct rest as [|y rest].
  - inversion Hr; subst. cbn [comma_items]. rewrite <- (sapp_nil_r x). by apply e_one.
  - change (comma_items (x :: y :: rest)) with (x +:+ "" +:+ String "," (" " +:+ comma_items (y :: rest))).
    apply e_cons; [done|done|done|]. by apply IH.
Qed.

Lemma json_array_denotes vs items : Forall2 denotes vs items -> denotes (JArr vs) (json_array items).
Proof.
  intros Hf. unfold json_array. destruct items as [|x items].
  - inversion Hf; subst. by apply (d_arr_none "").
  - apply d_arr. exact (elements_comma vs (x :: items) "" Hf ltac:(done) eq_refl).
Qed.

(** The text of a member of an object. *)
Definition member_text (kv : string * json) (item : string) : Prop :=
  exists t, item = json_member kv.1 t /\ all_chars plain kv.1 = true /\ denotes kv.2 t.

Lemma member_text_intro k v t : all_chars plain k = true -> denotes v t -> member_text (k, v) (json_member k t).
Proof. intros Hk Hd. by exists t. Qed.

Lemma members_comma l : forall items w, Forall2 member_text l items -> items <> [] -> ws w ->
  members l (w +:+ comma_items items).
Proof.
  induction l as [|[k v] l IH]; intros items w Hf Hne Hw; inversion Hf as [|? x ? rest Hd Hr]; subst; [done|].
  destruct Hd as (t & -> & Hk & Hd). cbn [fst snd] in *. unfold json_member. destruct rest as [|y rest].
  - inversion Hr; subst. cbn [comma_items]. 
    change (quoted k +:+ ": " +:+ t) with (quoted k +:+ "" +:+ String ":" (" " +:+ t)).
    rewrite <- (sapp_nil_r t). apply m_one; try done. by apply plain_chars.
  - change (comma_items ((quoted k +:+ ": " +:+ t) :: y :: rest))
      with ((quoted k +:+ ": " +:+ t) +:+ "" +:+ String "," (" " +:+ comma_items (y :: rest))).
    rewrite !sapp_assoc. apply (m_cons k k v l w "" " " t ""); try done.
    + by apply plain_chars.
    + by apply IH.
Qed.

Lemma json_object_denotes l items : items <> [] -> Forall2 member_text l items ->
  denotes (JObj l) (json_object items).
Proof. intros Hne Hf. apply d_obj. exact (members_comma l items "" Hf Hne eq_refl). Qed.

(** A member on its line, before the members that follow. *)
Lemma members_line depth key value v l w rest :
  all_chars plain key = true -> denotes v value -> members l (newline +:+ rest) -> ws w ->
  members ((key, v) :: l) (w +:+ json_line depth key value +:+ rest).
Proof.
  intros Hk Hd Hm Hw. unfold json_line, json_member. rewrite !sapp_assoc, <- (sapp_assoc w).
  apply (m_cons key key v l (w +:+ indent depth) "" " " value ""); auto with json; try done.
  by apply plain_chars.
Qed.

(** A value with white space before it, as an element on a line has. *)
Definition padded (v : json) (item : string) : Prop := exists w t, item = w +:+ t /\ ws w /\ denotes v t.

Lemma elements_lines vs : forall items w tail, Forall2 padded vs items -> items <> [] -> ws w -> ws tail ->
  elements vs (w +:+ json_lines items +:+ tail).
Proof.
  induction vs as [|v vs IH]; intros items w tail Hf Hne Hw Ht; inversion Hf as [|? x ? rest Hd Hr]; subst; [done|].
  destruct Hd as (w' & t & -> & Hw' & Hd). destruct rest as [|y rest].
  - inversion Hr; subst. cbn [json_lines]. rewrite !sapp_assoc, <- (sapp_assoc w).
    apply e_one; auto with json.
  - replace (w +:+ json_lines ((w' +:+ t) :: y :: rest) +:+ tail)
      with ((w +:+ w') +:+ t +:+ "" +:+ String "," (newline +:+ json_lines (y :: rest) +:+ tail))
      by (change (json_lines ((w' +:+ t) :: y :: rest))
            with ((w' +:+ t) +:+ "," +:+ newline +:+ json_lines (y :: rest)); rewrite !sapp_assoc; reflexivity).
    apply e_cons; by auto with json.
Qed.

Lemma members_block depth key items vs w tail : all_chars plain key = true -> Forall2 padded vs items ->
  ws w -> ws tail -> members [(key, JArr vs)] (w +:+ json_block depth key items +:+ tail).
Proof.
  intros Hk Hf Hw Ht. unfold json_block. destruct items as [|x items].
  - inversion Hf; subst. rewrite !sapp_assoc, <- (sapp_assoc w).
    apply (m_one key key (JArr []) (w +:+ indent depth) "" " " "[]" (newline +:+ tail)); auto with json; try done.
    + by apply plain_chars.
    + by apply (d_arr_none "").
  - replace (w +:+ (indent depth +:+ quoted key +:+ ": [" +:+ newline +:+ json_lines (x :: items)
                      +:+ indent depth +:+ "]" +:+ newline) +:+ tail)
      with ((w +:+ indent depth) +:+ quoted key +:+ "" +:+ String ":" (" " +:+
              String "[" ((newline +:+ json_lines (x :: items) +:+ indent depth) +:+ "]") +:+ (newline +:+ tail)))
      by (rewrite !sapp_assoc; cbn [String.append]; rewrite ?sapp_assoc; reflexivity).
    apply m_one; auto with json; try done.
    + by apply plain_chars.
    + apply d_arr. apply elements_lines; by auto with json.
Qed.

(** ** The value of a report *)

Section Report.
Context `{CC : Charconv}.

Definition double_value (value : option double) : json :=
  match value with
  | Some v => if std_isfinite v then JNum (format_double v) else JNull
  | None => JNull
  end.

Definition u64_value (v : Z) : json := JNum (text.format_u64 v).
Definition i64_value (v : Z) : json := JNum (text.format_i64 v).

Definition reference_value (r : EvidenceRef) : json := JObj [
  ("source", JStr (render_source_identity (ref_source r))); ("sequence", u64_value (ref_sequence r));
  ("lane", JStr (lane_label (ref_lane r))); ("unit", JStr (unit_to_string (ref_unit r)));
  ("origin", JStr (origin_to_string (ref_origin r)));
  ("evidence_class", JStr (class_to_string (ref_evidence_class r)));
  ("authority", u64_value (ref_authority r));
  ("observed_at_unix_nanos", i64_value (ts_unix_nanos (ref_observed_at r)));
  ("fresh", JBool (ref_fresh r)); ("age_nanos", i64_value (ref_age_nanos r));
  ("rendered", JStr (ref_rendered r))]%string.

Definition assessment_value (a : MetricAssessment) : json := JObj [
  ("metric", JStr (render_metric_id (as_metric a))); ("lane", JStr (lane_label (as_lane a)));
  ("state", JStr (state_to_string (as_state a))); ("confidence", JStr (confidence_to_string (as_confidence a)));
  ("capability_declared", JBool (as_capability_declared a));
  ("sources_declared", u64_value (as_sources_declared a));
  ("sources_with_evidence", u64_value (as_sources_with_evidence a));
  ("sources_fresh", u64_value (as_sources_fresh a));
  ("sources_conflicting", u64_value (as_sources_conflicting a));
  ("value", double_value (as_value a)); ("rate_per_second", double_value (as_rate_per_second a));
  ("interval_rate_per_second", double_value (as_interval_rate_per_second a));
  ("disagreement", double_value (as_disagreement a)); ("rules", JArr (map JStr (as_rules a)));
  ("reasons", JArr (map (fun r => JStr (reason_to_string r)) (as_reasons a)));
  ("missing_lanes", JArr (map u64_value (as_missing_lanes a)));
  ("evidence", JArr (map reference_value (as_evidence a)))]%string.

Definition report_value (r : LinkQualityReport) : json := JObj [
  ("link", JStr (render_link_identity (rep_link r))); ("link_registered", JBool (rep_link_registered r));
  ("evidence_present", JBool (rep_evidence_present r)); ("overall", JStr (state_to_string (rep_overall r)));
  ("confidence", JStr (confidence_to_string (rep_confidence r)));
  ("reasons", JArr (map (fun r => JStr (reason_to_string r)) (rep_reasons r)));
  ("policy", JObj [("id", JStr (ps_id (rep_policy r))); ("generation", u64_value (ps_generation (rep_policy r)));
                   ("content_hash", JStr (ps_content_hash (rep_policy r)))]);
  ("epoch", u64_value (rep_epoch r));
  ("evidence", JObj [("considered", u64_value (rep_evidence_considered r));
                     ("fresh", u64_value (rep_evidence_fresh r));
                     ("recovered", u64_value (rep_evidence_recovered r))]);
  ("generated_wall_nanos", i64_value (rep_generated_wall_nanos r));
  ("generated_steady_nanos", i64_value (rep_generated_steady_nanos r));
  ("truncated", JBool (rep_truncated r)); ("metrics", JArr (map assessment_value (rep_metrics r)))]%string.

(** The integers of a report are of their widths. *)
Definition reference_in_range (r : EvidenceRef) : Prop :=
  is_u64 (ref_sequence r) /\ is_u64 (ref_authority r) /\ is_i64 (ts_unix_nanos (ref_observed_at r))
  /\ is_i64 (ref_age_nanos r).

Definition assessment_in_range (a : MetricAssessment) : Prop :=
  is_u64 (as_sources_declared a) /\ is_u64 (as_sources_with_evidence a) /\ is_u64 (as_sources_fresh a)
  /\ is_u64 (as_sources_conflicting a) /\ Forall is_u64 (as_missing_lanes a)
  /\ Forall reference_in_range (as_evidence a).

Definition report_in_range (r : LinkQualityReport) : Prop :=
  is_u64 (ps_generation (rep_policy r)) /\ is_u64 (rep_epoch r) /\ is_u64 (rep_evidence_considered r)
  /\ is_u64 (rep_evidence_fresh r) /\ is_u64 (rep_evidence_recovered r)
  /\ is_i64 (rep_generated_wall_nanos r) /\ is_i64 (rep_generated_steady_nanos r)
  /\ Forall assessment_in_range (rep_metrics r).

Context (Hdec : to_chars_is_decimal).

Lemma json_double_denotes value : denotes (double_value value) (json_double value).
Proof using Hdec.
  unfold double_value, json_double. destruct value as [v|]; [|constructor].
  destruct (std_isfinite v) eqn:E; constructor. by apply format_double_number.
Qed.

Lemma reason_array_denotes reasons :
  denotes (JArr (map (fun r => JStr (reason_to_string r)) reasons)) (json_reason_array reasons).
Proof. apply json_array_denotes. induction reasons; cbn; constructor; auto with json. Qed.

Lemma rule_array_denotes rules : denotes (JArr (map JStr rules)) (json_rule_array rules).
Proof. apply json_array_denotes. induction rules; cbn; constructor; auto with json. Qed.

Lemma lane_array_denotes lanes : Forall is_u64 lanes ->
  denotes (JArr (map u64_value lanes)) (json_lane_array lanes).
Proof. intros Hl. apply json_array_denotes. induction Hl; cbn; constructor; auto with json. by apply u64_denotes. Qed.

(** One member after the other. *)
Ltac solve_member :=
  first [ apply json_string_denotes | apply bool_text_denotes | apply json_double_denotes
        | apply reason_array_denotes | apply rule_array_denotes | apply lane_array_denotes; assumption
        | apply u64_denotes; assumption | apply i64_denotes; assumption ].

Ltac solve_object :=
  apply json_object_denotes; [discriminate|];
  repeat constructor; apply member_text_intro; (reflexivity || solve_member).

Lemma reference_denotes r : reference_in_range r -> padded (reference_value r) (reference_json r).
Proof.
  intros (H1 & H2 & H3 & H4). exists (indent 4). eexists. split; [reflexivity|]. split; [apply indent_ws|].
  solve_object.
Qed.

Lemma assessment_denotes a : assessment_in_range a -> padded (assessment_value a) (assessment_json a).
Proof using Hdec.
  intros (H1 & H2 & H3 & H4 & H5 & H6). exists (indent 2). eexists. split; [reflexivity|]. split; [apply indent_ws|].
  match goal with |- denotes _ ?t =>
    replace t with (String "{" ((newline +:+ json_line 3 "metric" (json_string (render_metric_id (as_metric a)))
      +:+ json_line 3 "lane" (json_string (lane_label (as_lane a)))
      +:+ json_line 3 "state" (json_string (state_to_string (as_state a)))
      +:+ json_line 3 "confidence" (json_string (confidence_to_string (as_confidence a)))
      +:+ json_line 3 "capability_declared" (bool_text (as_capability_declared a))
      +:+ json_line 3 "sources_declared" (text.format_u64 (as_sources_declared a))
      +:+ json_line 3 "sources_with_evidence" (text.format_u64 (as_sources_with_evidence a))
      +:+ json_line 3 "sources_fresh" (text.format_u64 (as_sources_fresh a))
      +:+ json_line 3 "sources_conflicting" (text.format_u64 (as_sources_conflicting a))
      +:+ json_line 3 "value" (json_double (as_value a))
      +:+ json_line 3 "rate_per_second" (json_double (as_rate_per_second a))
      +:+ json_line 3 "interval_rate_per_second" (json_double (as_interval_rate_per_second a))
      +:+ json_line 3 "disagreement" (json_double (as_disagreement a))
      +:+ json_line 3 "rules" (json_rule_array (as_rules a))
      +:+ json_line 3 "reasons" (json_reason_array (as_reasons a))
      +:+ json_line 3 "missing_lanes" (json_lane_array (as_missing_lanes a))
      +:+ json_block 3 "evidence" (map reference_json (as_evidence a)) +:+ indent 2) +:+ "}"))
      by (rewrite !sapp_assoc; reflexivity) end.
  apply d_obj. repeat (apply members_line; [reflexivity|solve_member| |apply newline_ws]).
  apply members_block; [reflexivity| |apply newline_ws|apply indent_ws].
  induction H6; cbn; constructor; [by apply reference_denotes|done].
Qed.

Lemma report_denotes r : report_in_range r ->
  exists t, render_report_json r = t +:+ newline /\ denotes (report_value r) t.
Proof using Hdec.
  intros (H1 & H2 & H3 & H4 & H5 & H6 & H7 & H8).
  exists (String "{" ((newline
    +:+ json_line 1 "link" (json_string (render_link_identity (rep_link r)))
    +:+ json_line 1 "link_registered" (bool_text (rep_link_registered r))
    +:+ json_line 1 "evidence_present" (bool_text (rep_evidence_present r))
    +:+ json_line 1 "overall" (json_string (state_to_string (rep_overall r)))
    +:+ json_line 1 "confidence" (json_string (confidence_to_string (rep_confidence r)))
    +:+ json_line 1 "reasons" (json_reason_array (rep_reasons r))
    +:+ json_line 1 "policy"
          (json_object [json_member "id" (json_string (ps_id (rep_policy r)));
                        json_member "generation" (text.format_u64 (ps_generation (rep_policy r)));
                        json_member "content_hash" (json_string (ps_content_hash (rep_policy r)))])
    +:+ json_line 1 "epoch" (text.format_u64 (rep_epoch r))
    +:+ json_line 1 "evidence"
          (json_object [json_member "considered" (text.format_u64 (rep_evidence_considered r));
                        json_member "fresh" (text.format_u64 (rep_evidence_fresh r));
                        json_member "recovered" (text.format_u64 (rep_evidence_recovered r))])
    +:+ json_line 1 "generated_wall_nanos" (text.format_i64 (rep_generated_wall_nanos r))
    +:+ json_line 1 "generated_steady_nanos" (text.format_i64 (rep_generated_steady_nanos r))
    +:+ json_line 1 "truncated" (bool_text (rep_truncated r))
    +:+ json_block 1 "metrics" (map assessment_json (rep_metrics r)) +:+ "") +:+ "}")).
  split; [unfold render_report_json; cbn [String.append]; rewrite !sapp_assoc; reflexivity|].
  apply d_obj.
  repeat (apply members_line; [reflexivity| | |apply newline_ws];
          [first [solve_member|solve_object]|]).
  apply members_block; [reflexivity| |apply newline_ws|done].
  induction H8; cbn; constructor; [by apply assessment_denotes|done].
Qed.
End Report.

(** ** Arguments *)

(** What the parser guarantees of the arguments it accepts: every option that
    has a value is declared to take one, every flag is declared not to, and
    every required option has a value. *)
Definition args_wf (spec : CommandSpec) (args : Args) : Prop :=
  (forall name value, arg_values args !! name = Some value ->
     exists option, find_option name spec = Some option /\ os_takes_value option = true)
  /\ (forall name, name ∈ arg_flags args ->
     exists option, find_option name spec = Some option /\ os_takes_value option = false).

Lemma args_wf_value spec args name value option : args_wf spec args -> find_option name spec = Some option ->
  os_takes_value option = true -> args_wf spec (mkArgs (<[name := value]> (arg_values args)) (arg_flags args)).
Proof.
  intros [Hv Hf] Ho Ht. split; [|exact Hf]. cbn. intros n v. destruct (decide (n = name)) as [->|Hn].
  - eauto.
  - rewrite lookup_insert_ne by done. eauto.
Qed.

Lemma args_wf_flag spec args name option : args_wf spec args -> find_option name spec = Some option ->
  os_takes_value option = false -> args_wf spec (mkArgs (arg_values args) ({[name]} ∪ arg_flags args)).
Proof. intros [Hv Hf] Ho Ht. split; [exact Hv|]. cbn. intros n [->%elem_of_singleton|Hn]%elem_of_union; eauto. Qed.

Lemma parse_tokens_wf spec n : forall argv args args', (List.length argv <= n)%nat -> args_wf spec args ->
  parse_tokens spec argv args = ParseOk args' -> args_wf spec args'.
Proof.
  induction n as [|n IH]; intros [|token rest] args args' Hn Hw; try (cbn in Hn; lia);
    try (intros [= <-]; exact Hw).
  cbn [parse_tokens]. cbn in Hn. destruct (negb (is_option_token token)); [done|].
  destruct (match split_first "=" token with Some (x, v) => (x, Some v) | None => (token, None) end) as [name inline].
  destruct (find_option name spec) as [option|] eqn:Ho; [|done].
  destruct (os_takes_value option) eqn:Ht; cbn [negb].
  - destruct inline as [value|].
    + apply IH; [lia|]. by eapply args_wf_value.
    + destruct rest as [|value rest]; [done|]. cbn in Hn. apply IH; [lia|]. by eapply args_wf_value.
  - destruct inline; [done|]. apply IH; [lia|]. by eapply args_wf_flag.
Qed.

Lemma no_args_wf spec : args_wf spec no_args.
Proof. split; cbn; [intros n v; by rewrite lookup_empty|set_solver]. Qed.

Lemma parse_arguments_wf spec argv args : parse_arguments spec argv = ParseOk args ->
  args_wf spec args /\ Forall (fun name => is_Some (args_find name args)) (cs_required spec).
Proof.
  unfold parse_arguments. destruct (parse_tokens spec argv no_args) as [parsed|] eqn:Ep; [|done].
  destruct (find_first _ _) eqn:Ef; [done|]. intros [= <-]. split.
  - eapply parse_tokens_wf; [reflexivity|apply no_args_wf|exact Ep].
  - apply find_first_None in Ef. eapply Forall_impl; [exact Ef|]. intros name Hn. cbn in Hn.
    apply negb_false_iff in Hn. by apply bool_decide_eq_true in Hn.
Qed.

Lemma required_given spec argv args name : parse_arguments spec argv = ParseOk args ->
  name ∈ cs_required spec -> exists value, args_find name args = Some value.
Proof. intros [_ Hr]%parse_arguments_wf Hn. rewrite Forall_forall in Hr. apply (Hr name Hn). Qed.

(** ** Texts around a separator *)

Lemma split_last_app c a b : string_has c b = false -> split_last c (a +:+ String c b) = Some (a, b).
Proof.
  intros Hb. assert (split_last c b = None) as Hn.
  { induction b as [|d b IH]; [done|]. cbn in Hb |- *. breflect. rewrite IH by done.
    by rewrite Ascii.eqb_sym, H. }
  induction a as [|d a IH]; cbn [String.append split_last].
  - by rewrite Hn, Ascii.eqb_refl.
  - by rewrite IH.
Qed.

Lemma split_first_app c a b : string_has c a = false -> split_first c (a +:+ String c b) = Some (a, b).
Proof.
  induction a as [|d a IH]; cbn [String.append split_first string_has]; intros Ha.
  - by rewrite Ascii.eqb_refl.
  - breflect. by rewrite Ascii.eqb_sym, H, IH.
Qed.

Lemma digits_lack c s : is_digit c = false -> all_chars is_digit s = true -> string_has c s = false.
Proof.
  intros Hc. induction s as [|d s IH]; [done|]. cbn. intros Hs. breflect. rewrite IH by done.
  destruct (Ascii.eqb c d) eqn:E; [|done]. apply Ascii.eqb_eq in E. congruence.
Qed.

Lemma format_u64_digits v : is_u64 v -> all_chars is_digit (text.format_u64 v) = true.
Proof. intros Hv. apply to_chars_fuel_digits; [unfold_ints; lia|done]. Qed.

Lemma validated_good {A} status (a b : A) : validated status a = PGood b <-> status = StatusCode.Ok /\ a = b.
Proof. destruct status; cbn; intuition (simplify_eq; done). Qed.

Lemma family_text_round_trip family : family <> MetricFamily.Unspecified -> family <> MetricFamily.Count ->
  parse_metric_family (family_to_string family) = Good family /\ string_has ":" (family_to_string family) = false.
Proof. by destruct family. Qed.

Lemma validate_link_identity_ok l : validate_link_identity l = StatusCode.Ok -> li_generation l <> 0.
Proof. unfold validate_link_identity, counter_is_zero. intros H. status_inv H. breflect. done. Qed.

Lemma validate_source_identity_ok s : validate_source_identity s = StatusCode.Ok -> si_incarnation s <> 0.
Proof. unfold validate_source_identity, counter_is_zero. intros H. status_inv H. breflect. done. Qed.

Lemma validate_metric_id_ok m : validate_metric_id m = StatusCode.Ok ->
  mi_family m <> MetricFamily.Unspecified /\ mi_family m <> MetricFamily.Count.
Proof.
  unfold validate_metric_id. intros H. status_inv H. split; intros E; rewrite E in *; vm_compute in Hv, Hv0; done.
Qed.

(** The integer a text denotes is of its width. *)
Lemma from_chars_range s : forall acc v, 0 <= acc <= u64_max -> text.from_chars_u64 s acc = Some v -> is_u64 v.
Proof.
  induction s as [|c s IH]; cbn [text.from_chars_u64]; intros acc v Ha.
  - intros [= <-]. done.
  - destruct (text.digit_value c) as [d|] eqn:Ed; [|done]. destruct (u64_max <? acc * 10 + d) eqn:E; [done|].
    breflect. apply IH. unfold text.digit_value in Ed. destruct (_ && _) eqn:Ec; [|done]. breflect. simplify_eq. lia.
Qed.

Lemma parse_u64_range s v : text.parse_u64 s = Good v -> is_u64 v.
Proof.
  unfold text.parse_u64. destruct (text.trim_ascii s) as [|c r]; [done|].
  destruct (text.from_chars_u64 _ 0) as [z|] eqn:E; [|done]. intros [= <-].
  eapply from_chars_range; [|exact E]. unfold u64_max. lia.
Qed.

Lemma parse_u64_value_range s what v : parse_u64_value s what = PGood v -> is_u64 v.
Proof.
  unfold parse_u64_value. destruct (text.parse_u64 s) as [z|] eqn:E; [|done]. intros [= <-]. by eapply parse_u64_range.
Qed.

Lemma parse_port_ok text allow_zero port : parse_port_value text allow_zero = PGood port ->
  is_u16 port /\ (allow_zero = false -> port <> 0).
Proof.
  unfold parse_port_value. destruct (parse_u64_value text "port") as [v|] eqn:E; [|done].
  apply parse_u64_value_range in E. destruct (_ || _) eqn:Eb; [done|]. intros [= <-]. breflect. split.
  - unfold_ints. unfold kMaxPort in *. lia.
  - intros -> ->. done.
Qed.

Lemma parse_lane_ok text lane : parse_lane_value text = PGood lane ->
  ld_aggregate lane = false /\ is_u32 (ld_lane lane).
Proof.
  unfold parse_lane_value. destruct (parse_u64_value text "lane") as [v|] eqn:E; [|done].
  apply parse_u64_value_range in E. destruct (_ <? _) eqn:Eb; [done|]. intros [= <-]. breflect. cbn.
  unfold_ints. lia.
Qed.

Lemma parse_link_ok text link : parse_link_value text = PGood link ->
  validate_link_identity link = StatusCode.Ok /\ 0 < li_generation link <= u64_max.
Proof.
  assert (forall v, validated (validate_link_identity (mkLinkIdentity text 1)) (mkLinkIdentity text 1) = PGood v ->
            validate_link_identity v = StatusCode.Ok /\ 0 < li_generation v <= u64_max) as Hp.
  { intros v [Hv <-]%validated_good. split; [done|]. unfold u64_max. cbn. lia. }
  unfold parse_link_value. destruct (split_last "/" text) as [[id after]|]; [|apply Hp].
  destruct (literal "gen" after) as [suffix|]; [|apply Hp].
  destruct (text.parse_u64 suffix) as [g|] eqn:E; [|done]. apply parse_u64_range in E.
  destruct (g =? 0) eqn:Eg; [done|]. intros [Hv <-]%validated_good. breflect. split; [done|].
  unfold is_u64 in E. cbn. lia.
Qed.

Lemma parse_source_ok text source : parse_source_value text = PGood source ->
  validate_source_identity source = StatusCode.Ok /\ 0 < si_incarnation source <= u64_max.
Proof.
  unfold parse_source_value. destruct (split_last "@" text) as [[id suffix]|].
  - destruct (text.parse_u64 suffix) as [g|] eqn:E; [|done]. apply parse_u64_range in E.
    destruct (g =? 0) eqn:Eg; [done|]. intros [Hv <-]%validated_good. breflect. split; [done|].
    unfold is_u64 in E. cbn. lia.
  - intros [Hv <-]%validated_good. split; [done|]. unfold u64_max. cbn. lia.
Qed.

Lemma parse_metric_ok text metric : parse_metric_value text = PGood metric ->
  validate_metric_id metric = StatusCode.Ok.
Proof.
  unfold parse_metric_value. destruct (split_first ":" text) as [[f n]|]; [|done].
  destruct (parse_metric_family f); [|done]. by intros [Hv <-]%validated_good.
Qed.

(** ** Theorems *)

(** Every identity the tool prints, it reads back: parsing the rendered form of a
    valid link, source or metric identity returns that identity, with its
    generation or incarnation, so the output of one command can be the argument
    of the next. *)
Theorem printed_identities_parse_back l s m :
  validate_link_identity l = StatusCode.Ok -> is_u64 (li_generation l) ->
  validate_source_identity s = StatusCode.Ok -> is_u64 (si_incarnation s) ->
  validate_metric_id m = StatusCode.Ok ->
  parse_link_value (render_link_identity l) = PGood l
  /\ parse_source_value (render_source_identity s) = PGood s
  /\ parse_metric_value (render_metric_id m) = PGood m.
Proof.
  intros Hl Gl Hs Gs Hm. split; [|split].
  - unfold parse_link_value, render_link_identity.
    change (li_id l +:+ "/gen" +:+ text.format_u64 (li_generation l))
      with (li_id l +:+ String "/" ("gen" +:+ text.format_u64 (li_generation l))).
    rewrite split_last_app by (cbn; apply digits_lack; [done|by apply format_u64_digits]).
    cbn [literal String.append Ascii.eqb Bool.eqb]. rewrite parse_format_u64 by done.
    rewrite (proj2 (Z.eqb_neq _ 0)) by (by apply validate_link_identity_ok).
    replace (mkLinkIdentity (li_id l) (li_generation l)) with l by (by destruct l). by rewrite Hl.
  - unfold parse_source_value, render_source_identity.
    change (si_id s +:+ "@" +:+ text.format_u64 (si_incarnation s))
      with (si_id s +:+ String "@" (text.format_u64 (si_incarnation s))).
    rewrite split_last_app by (apply digits_lack; [done|by apply format_u64_digits]).
    rewrite parse_format_u64 by done.
    rewrite (proj2 (Z.eqb_neq _ 0)) by (by apply validate_source_identity_ok).
    replace (mkSourceIdentity (si_id s) (si_incarnation s)) with s by (by destruct s). by rewrite Hs.
  - destruct (validate_metric_id_ok m Hm) as [H1 H2].
    destruct (family_text_round_trip _ H1 H2) as [Hp Hc].
    unfold parse_metric_value, render_metric_id.
    change (family_to_string (mi_family m) +:+ ":" +:+ mi_name m)
      with (family_to_string (mi_family m) +:+ String ":" (mi_name m)).
    rewrite split_first_app by done. rewrite Hp.
    replace (mkMetricId (mi_family m) (mi_name m)) with m by (by destruct m). by rewrite Hm.
Qed.

(** C39: A value the typed parsers return is a value of its type: a port is a 16-bit
    port, and not zero unless zero is allowed; a lane is a 32-bit lane and not
    the aggregate; an identity passed the library's validation and carries a
    nonzero 64-bit generation or incarnation; a metric is a valid metric. *)
Theorem parsed_values_are_valid text :
  (forall allow_zero port, parse_port_value text allow_zero = PGood port ->
     is_u16 port /\ (allow_zero = false -> port <> 0))
  /\ (forall lane, parse_lane_value text = PGood lane -> ld_aggregate lane = false /\ is_u32 (ld_lane lane))
  /\ (forall link, parse_link_value text = PGood link ->
        validate_link_identity link = StatusCode.Ok /\ 0 < li_generation link <= u64_max)
  /\ (forall source, parse_source_value text = PGood source ->
        validate_source_identity source = StatusCode.Ok /\ 0 < si_incarnation source <= u64_max)
  /\ (forall metric, parse_metric_value text = PGood metric -> validate_metric_id metric = StatusCode.Ok).
Proof.
  exact (conj (parse_port_ok text) (conj (parse_lane_ok text) (conj (parse_link_ok text)
    (conj (parse_source_ok text) (parse_metric_ok text))))).
Qed.

(** C38: [lqf query --json] prints JSON, whatever the report holds: the text of a
    report is in the JSON grammar, and a parser reads back exactly the report's
    fields, with every string unescaped, every integer in full, and [null] for a
    double that is absent or not finite.  (Strings are bytes: the grammar lets those
    from 128 up through as they are, and that they are UTF-8 is not stated.) *)
Theorem report_json_is_well_formed (CC : Charconv) r : to_chars_is_decimal -> report_in_range r ->
  parse_json (render_report_json r) = Some (report_value r).
Proof.
  intros Hd Hr. destruct (report_denotes Hd r Hr) as (t & -> & Ht). by apply parse_json_denotes.
Qed.

(** ** Concrete values *)

Module CliExamples.
(** A rendering of doubles by their integer part. *)
#[global] Instance integer_charconv : Charconv := {
  to_chars_double := fun d =>
    match d with
    | SpecFloat.S754_finite sign m e =>
        text.format_i64 ((if sign then -1 else 1) * (Z.shiftl (Zpos m) e mod 1000000000000000))
    | _ => "0"
    end }.

Lemma integer_charconv_decimal : to_chars_is_decimal.
Proof.
  intros [sign|sign| |sign m e] Hf; cbn [to_chars_double integer_charconv]; [reflexivity..|].
  apply format_i64_number. pose proof (Z.mod_pos_bound (Z.shiftl (Zpos m) e) 1000000000000000 eq_refl).
  unfold_ints. destruct sign; lia.
Qed.

Definition quoted_id : string := String quote (String "010" "a").

Definition reference : EvidenceRef :=
  mkEvidenceRef (mkSourceIdentity "s" 3) 18446744073709551615 aggregate_dimension
    (mkMetricId MetricFamily.SignalPower "rx.level") (mkTimestamp (-5) true) (mkReceiveStamp 0 0 1)
    EvidenceOrigin.Live EvidenceClass.Synthetic 1 Unit.None d_zero None None true true 7 quoted_id "".

Definition assessment : MetricAssessment :=
  mkMetricAssessment (mkMetricId MetricFamily.SignalPower "rx.level") (lane_dimension 3) QualityState.Unknown
    ConfidenceLevel.None [] [reference; reference] ["r"] (Some (d_of_Z (-6))) None (Some d_pinf) [1; 2] 1 1 1 0 true
    None.

Definition report : LinkQualityReport :=
  mkLinkQualityReport (mkLinkIdentity quoted_id 2) true true (mkPolicyStamp "p" 1 "ff") 1 QualityState.Unknown
    ConfidenceLevel.None [] [assessment; assessment] 2 1 0 (-9223372036854775808) 5 false.

Lemma report_json_is_well_formed_witness : report_in_range report
  /\ parse_json (render_report_json report) = Some (report_value report).
Proof.
  assert (report_in_range report) as Hr.
  { repeat first [apply conj | constructor]; vm_compute; discriminate. }
  split; [exact Hr|]. exact (report_json_is_well_formed integer_charconv report integer_charconv_decimal Hr).
Defined.

Definition link : LinkIdentity := mkLinkIdentity "a/genx" 18446744073709551615.
Definition source : SourceIdentity := mkSourceIdentity "x@y" 7.
Definition metric : MetricId := mkMetricId MetricFamily.SignalPower "rx.level".

Lemma printed_identities_parse_back_witness :
  parse_link_value (render_link_identity link) = PGood link
  /\ parse_source_value (render_source_identity source) = PGood source
  /\ parse_metric_value (render_metric_id metric) = PGood metric.
Proof.
  apply (printed_identities_parse_back link source metric);
    first [reflexivity | unfold is_u64; cbn; unfold u64_max; lia].
Defined.

Lemma parsed_values_are_valid_witness : parse_port_value "4710" false = PGood 4710 /\ is_u16 4710.
Proof.
  assert (parse_port_value "4710" false = PGood 4710) as E by reflexivity.
  split; [exact E|]. exact (proj1 (proj1 (parsed_values_are_valid "4710") false 4710 E)).
Defined.
End CliExamples.
