(* ===== verification/Commands.v ===== *)
(** * The command line: commands

    [apps/lqf/main.cpp], [cmd_serve.cpp], [cmd_journal.cpp], [cmd_client.cpp],
    [cmd_generate.cpp] and the offline access of [cmd_common.cpp].  A command
    runs on a [World]: what it printed, the files by name and the network.  It
    is a computation of a state monad with early exit ([Cmd]); reaching undefined
    behaviour (a null pointer or an empty optional dereferenced) is the ending
    [Crashed]; [Waits] says what a run that goes no further waits for, and
    [OutOfFuel] is the model's own limit on a loop.  What the operating system
    answers is [CliEnv]. *)

From Stdlib Require Import ZArith Lia Bool List String Ascii.
From stdpp Require Import base decidable list strings gmap.
From S2P Require Import Prelude OrdMap Float Core Hash Quality Metric Identity Counter.
From S2P Require Import Capability Config Policy Classification LinkRegistry EvidenceStore.
From S2P Require Import Codec FieldCodecs CapabilityRegistry Classifier Journal Fabric.
From S2P Require Import JournalSpec Frame Render Messages Server Client Json Cli Clock.

Open Scope Z_scope.

(** ** The world of a process *)

Record World (S : Type) := mkWorld {
  w_out : list Chunk; w_err : list Chunk; w_files : gmap string (list Z); w_net : S }.
Arguments mkWorld {S}.
Arguments w_out {S}.
Arguments w_err {S}.
Arguments w_files {S}.
Arguments w_net {S}.

(** The loopback network: connecting to a port, the bytes exchanged on the
    connection (an instance of [Channel]), and closing it. *)
Class Network (S : Type) := {
  dial : Z -> S -> Status * S;
  network_channel :: Channel S;
  hang_up : S -> S;
}.

(** What the operating system answers while a command runs. *)
Record CliEnv := mkCliEnv {
  ce_clock : nat -> ClockReading;       (* successive readings of the system clock *)
  ce_epoch : Z;                         (* [derive_epoch] *)
  ce_reader_faults : Faults;            (* the calls of [JournalReader::open] *)
  ce_file_seen : bool;                  (* [file_exists] of the command can open the file *)
  ce_temp_dir : option string;          (* [temp_directory_path] *)
  ce_stamp : Z;                         (* the steady clock, for a temporary name *)
  ce_copy_ok : bool;                    (* [copy_file] *)
  ce_os_text : string;                  (* [error.message()] *)
  ce_wake : Status;                     (* creating the wakeup channel *)
  ce_listener : Status;                 (* listening *)
  ce_bound_port : Z;                    (* the ephemeral port *)
  ce_events : list ServerEvent;         (* what the server's threads do *)
  ce_notified : bool;                   (* the notification of the stop reaches [wait] *)
  ce_stop_events : list ServerEvent;    (* what they do while they are joined *)
  ce_stop_status : Status;              (* waking the accept loop *)
}.

(** What a run waits for: the bytes of a reply that has not arrived, a request to
    stop, or a thread of the server that is still in its work. *)
Inductive Wait := ForReply | Serving | Stopping.

Inductive Ending (A : Type) :=
  | Value (a : A)
  | Exited (code : Z)
  | Crashed
  | Waits (why : Wait)
  | OutOfFuel.
Arguments Value {A} a.
Arguments Exited {A} code.
Arguments Crashed {A}.
Arguments Waits {A} why.
Arguments OutOfFuel {A}.

Definition Cmd (S A : Type) : Type := World S -> Ending A * World S.

#[export] Instance Cmd_ret S : MRet (Cmd S) := fun A a w => (Value a, w).
#[export] Instance Cmd_bind S : MBind (Cmd S) := fun A B k m w =>
  match m w with
  | (Value a, w') => k a w'
  | (Exited code, w') => (Exited code, w')
  | (Crashed, w') => (Crashed, w')
  | (Waits why, w') => (Waits why, w')
  | (OutOfFuel, w') => (OutOfFuel, w')
  end.

Section Primitives.
Context {S : Type}.

Definition exit_with {A} (code : Z) : Cmd S A := fun w => (Exited code, w).
Definition crash {A} : Cmd S A := fun w => (Crashed, w).
Definition wait_for {A} (why : Wait) : Cmd S A := fun w => (Waits why, w).
Definition out_of_fuel {A} : Cmd S A := fun w => (OutOfFuel, w).

(** [std::cout] and [std::cerr]. *)
Definition print_chunks (l : list Chunk) : Cmd S unit := fun w =>
  (Value tt, mkWorld (w_out w ++ l) (w_err w) (w_files w) (w_net w)).
Definition print (s : string) : Cmd S unit := print_chunks [Lit s].
Definition complain (l : list Chunk) : Cmd S unit := fun w =>
  (Value tt, mkWorld (w_out w) (w_err w ++ l) (w_files w) (w_net w)).

Definition set_files (files : gmap string (list Z)) : Cmd S unit := fun w =>
  (Value tt, mkWorld (w_out w) (w_err w) files (w_net w)).
Definition get_files : Cmd S (gmap string (list Z)) := fun w => (Value (w_files w), w).

(** ** Diagnostics *)

Definition usage_error {A} (spec : CommandSpec) (message : Chunk) : Cmd S A :=
  _ ← complain [Lit "lqf: "; message; Lit newline; Lit (usage_line spec)]; exit_with kExitUsage.

Definition report_failure {A} (status : Status) : Cmd S A :=
  _ ← complain [Lit "lqf: error: "; StatusText status; Lit newline];
  exit_with (if ok status then kExitOk else kExitFailure).

(** The overload for a status the tool makes itself. *)
Definition report_failure_text {A} (code : Status) (message : string) : Cmd S A :=
  _ ← complain [Lit "lqf: error: "; Lit (status_to_text code message); Lit newline];
  exit_with (if ok code then kExitOk else kExitFailure).

(** [*args.find(name)]: the pointer is not tested. *)
Definition require (name : string) (args : Args) : Cmd S string :=
  match args_find name args with Some v => mret v | None => crash end.

(** [if (!value.ok()) return usage_error(spec, value.status().message());] *)
Definition checked {A} (spec : CommandSpec) (p : Parsed A) : Cmd S A :=
  match p with PGood a => mret a | PBad _ message => usage_error spec message end.

(** [if (!outcome.ok()) return report_failure(outcome.status());] followed by
    [outcome.value()]: an outcome made of a successful status has no value. *)
Definition attempt {A} (o : Outcome A) : Cmd S A :=
  match o with
  | Good a => mret a
  | Bad StatusCode.Ok => crash
  | Bad s => report_failure s
  end.

(** [if (!status.ok()) return report_failure(status);] *)
Definition succeed (s : Status) : Cmd S unit :=
  match s with StatusCode.Ok => mret tt | e => report_failure e end.

(** The beginning of every command: the help, then the arguments. *)
Definition with_arguments (spec : CommandSpec) (argv : list string) (body : Args -> Cmd S unit) : Cmd S unit :=
  if requests_help argv then (_ ← print (print_help spec); exit_with kExitOk)
  else match parse_arguments spec argv with
       | ParseError error => usage_error spec (Lit error)
       | ParseOk args => body args
       end.

(** An option with a value, parsed when it is given. *)
Definition optional {A} (spec : CommandSpec) (name : string) (args : Args) (fallback : A)
    (parse : string -> Parsed A) : Cmd S A :=
  match args_find name args with Some text => checked spec (parse text) | None => mret fallback end.

(** ** Files *)

Definition temporary (path : string) : string := path +:+ ".tmp".
Definition disk_at (path : string) (files : gmap string (list Z)) : Disk :=
  mkDisk (files !! path) (files !! temporary path).
Definition store_disk (path : string) (d : Disk) (files : gmap string (list Z)) : gmap string (list Z) :=
  partial_alter (fun _ => disk_main d) path (partial_alter (fun _ => disk_temp d) (temporary path) files).
End Primitives.

(** ** Clients *)

Section Clients.
Context {S : Type} `{Network S}.

(** [Socket::connect_loopback] is not tried with port 0. *)
Definition open_connection (config : ClientConfig) : Cmd S FabricClient := fun w =>
  if ccf_port config =? 0 then attempt (connect config StatusCode.Ok) w
  else let '(status, net) := dial (ccf_port config) (w_net w) in
       attempt (connect config status) (mkWorld (w_out w) (w_err w) (w_files w) net).

(** A call of the client; what it does to the client is carried along. *)
Definition on_client {A} (op : Session S -> Answer A * Session S) (c : FabricClient)
  : Cmd S (Outcome A * FabricClient) := fun w =>
  let '(answer, (c', net)) := op (c, w_net w) in
  let w' := mkWorld (w_out w) (w_err w) (w_files w) net in
  match answer with
  | None => (Waits ForReply, w')
  | Some o => (Value (o, c'), w')
  end.

(** [if (!reply.ok()) return report_failure(reply.status());] *)
Definition ask {A} (op : Session S -> Answer A * Session S) (c : FabricClient) : Cmd S (A * FabricClient) :=
  r ← on_client op c; a ← attempt r.1; mret (a, r.2).

(** The destructor of the client closes the connection on every way out. *)
Definition closing {A} (m : Cmd S A) : Cmd S A := fun w =>
  match m w with
  | (Crashed, w') => (Crashed, w')
  | (Waits why, w') => (Waits why, w')
  | (OutOfFuel, w') => (OutOfFuel, w')
  | (e, w') => (e, mkWorld (w_out w') (w_err w') (w_files w') (hang_up (w_net w')))
  end.

Definition cli_client_config (port : Z) : ClientConfig :=
  mkClientConfig port (mkFrameLimits kMaxFrameBytesDefault)
    (mkCodecLimits 4096 (cl_max_items default_codec_limits) (cl_max_total_bytes default_codec_limits))
    "lqf-cli" 0.

(** [connect_client], and what the caller does with the client. *)
Definition with_client {A} (config : ClientConfig) (body : FabricClient -> Cmd S A) : Cmd S A :=
  c ← open_connection config;
  closing (h ← ask handshake c; body h.2).
End Clients.

Arguments with_client : simpl never.

(** ** Command descriptions *)

Definition valued (name value_name help : string) : OptionSpec := mkOptionSpec name true value_name help.
Definition port_option : OptionSpec := valued "--port" "<n>" "loopback port of a running lqf serve (required)".
Definition any_port_option : OptionSpec := valued "--port" "<n>" "loopback port of a running lqf serve".
Definition link_option : OptionSpec :=
  valued "--link" "<id>" "link identity, optionally <id>/gen<n> (required)".

Definition serve_spec : CommandSpec :=
  mkCommandSpec "serve" "run a FabricServer on 127.0.0.1 until it is stopped"
    [valued "--journal" "<path>" "journal file to persist and recover (required)";
     valued "--port" "<n>" "loopback port; 0 selects an ephemeral port (default 0)";
     valued "--shutdown-token" "<token>" "token that arms the Shutdown protocol message";
     valued "--clock" "<system|epoch>"
       "system uses the wall clock; epoch uses a deterministic clock at the Unix epoch and a fixed fabric epoch of 1"]
    ["--journal"].

Definition verify_spec : CommandSpec :=
  mkCommandSpec "journal-verify" "open a journal read-only and print the recovery report"
    [valued "--journal" "<path>" "journal file to verify (required)"] ["--journal"].

Definition dump_spec : CommandSpec :=
  mkCommandSpec "journal-dump" "print one line per journal record: ordinal, kind, body size"
    [valued "--journal" "<path>" "journal file to read (required)";
     valued "--limit" "<n>" "stop after n records"] ["--journal"].

Definition shutdown_spec : CommandSpec :=
  mkCommandSpec "shutdown" "send the Shutdown protocol message to a running runtime"
    [port_option; valued "--token" "<token>" "shutdown token the runtime was armed with (required)"]
    ["--port"; "--token"].

Definition query_spec : CommandSpec :=
  mkCommandSpec "query" "print the quality report of one link"
    [port_option; link_option; valued "--lane" "<n>" "restrict the report to one lane";
     mkOptionSpec "--json" false "" "print the report as deterministic JSON instead of text"]
    ["--port"; "--link"].

Definition explain_spec : CommandSpec :=
  mkCommandSpec "explain" "print the derivation of one link's quality report"
    [port_option; link_option; valued "--lane" "<n>" "restrict the derivation to one lane"]
    ["--port"; "--link"].

Definition inspect_spec : CommandSpec :=
  mkCommandSpec "inspect" "print the fabric inspection report"
    [port_option; valued "--link" "<id>" "restrict the inspection to one link"] ["--port"].

Definition metrics_spec : CommandSpec :=
  mkCommandSpec "metrics" "print the declared capability view of one link"
    [any_port_option; valued "--journal" "<path>" "journal to replay offline for the complete view"; link_option]
    ["--link"].

Definition policy_spec : CommandSpec :=
  mkCommandSpec "policy" "print the current policy generation and its document"
    [any_port_option; valued "--journal" "<path>" "journal to replay offline for the full document"] [].

Definition emit_spec : CommandSpec :=
  mkCommandSpec "emit" "declare a synthetic capability and ingest generated gauge readings"
    [port_option; link_option;
     valued "--source" "<id>" "source identity, optionally <id>@<incarnation> (required)";
     valued "--count" "<n>" "number of observations to ingest (default 1)";
     valued "--interval-ms" "<n>" "pause between observations in milliseconds (default 0)";
     mkOptionSpec "--synthetic" false "" "acknowledge that the generated evidence is synthetic (it always is)"]
    ["--port"; "--link"; "--source"].

(** ** Journal inspection *)

Section Reading.
Context {S : Type}.

(** [verdict]: a journal that cannot be trusted is a failure. *)
Definition verdict {A} (report : RecoveryReport) : Cmd S A :=
  if rr_opened report && rr_header_valid report && negb (rr_torn_tail report) && negb (rr_degraded report)
     && negb (rr_truncated_file report) && ok (rr_status report)
  then exit_with kExitOk
  else
    _ ← complain (Lit "lqf: error: " ::
          (if ok (rr_status report)
           then if has_detail report
                then [Lit (status_to_string StatusCode.Corrupt +:+ ": "); Detail]
                else [Lit (status_to_text StatusCode.Corrupt "the journal is corrupt or degraded")]
           else [StatusText (rr_status report)]) ++ [Lit newline]);
    exit_with kExitFailure.

(** The loop over [next]: the records read, the failure that ended it, if any,
    and the reader.  A limit of zero is no limit; [None] while the fuel does not
    suffice. *)
Fixpoint scan (fuel : nat) (limit : Z) (printed : Z) (reader : JournalReader.t)
  : option (list JournalRecord * Status * JournalReader.t) :=
  match fuel with
  | O => None
  | Datatypes.S n =>
      if negb (limit =? 0) && (limit <=? printed) then Some ([], StatusCode.Ok, reader)
      else match JournalReader.next reader with
           | (Bad s, reader') => Some ([], s, reader')
           | (Good None, reader') => Some ([], StatusCode.Ok, reader')
           | (Good (Some record), reader') =>
               match scan n limit (printed + 1) reader' with
               | Some (records, s, final) => Some (record :: records, s, final)
               | None => None
               end
           end
  end.

(** One more step than the file has bytes. *)
Definition scan_fuel (reader : JournalReader.t) : nat :=
  Datatypes.S (List.length (match JournalReader.content reader with Some c => c | None => [] end)).

Definition run_journal_verify (env : CliEnv) (argv : list string) : Cmd S unit :=
  with_arguments verify_spec argv (fun args =>
    path ← require "--journal" args;
    files ← get_files;
    if negb (file_exists (ce_file_seen env) (files !! path))
    then report_failure_text StatusCode.NotFound ("journal file does not exist: " +:+ path)
    else
      let '(opened, reader, disk) :=
        JournalReader.open (ce_reader_faults env) default_journal_config (disk_at path files) in
      _ ← set_files (store_disk path disk files);
      match opened with
      | Bad s =>
          _ ← print ("journal " +:+ path +:+ newline);
          _ ← print_chunks (render_recovery_report (JournalReader.report reader));
          report_failure s
      | Good _ =>
          match scan (scan_fuel reader) 0 0 reader with
          | None => out_of_fuel
          | Some (_, failure, reader) =>
              _ ← print ("journal " +:+ path +:+ newline);
              _ ← print_chunks (render_recovery_report (JournalReader.report reader));
              _ ← succeed failure;
              verdict (JournalReader.report reader)
          end
      end).

Definition record_line (record : JournalRecord) : string :=
  text.format_u64 (jrec_ordinal record) +:+ " " +:+ kind_to_string (jrec_kind record) +:+ " "
    +:+ text.format_u64 (zlen (jrec_body record)) +:+ newline.

Definition parse_limit (text : string) : Parsed Z :=
  match parse_u64_value text "limit" with
  | PBad c m => PBad c m
  | PGood v => if v =? 0 then PBad StatusCode.Invalid (Lit "--limit must be at least 1") else PGood v
  end.

Definition run_journal_dump (env : CliEnv) (argv : list string) : Cmd S unit :=
  with_arguments dump_spec argv (fun args =>
    path ← require "--journal" args;
    limit ← optional dump_spec "--limit" args 0 parse_limit;
    files ← get_files;
    if negb (file_exists (ce_file_seen env) (files !! path))
    then report_failure_text StatusCode.NotFound ("journal file does not exist: " +:+ path)
    else
      let '(opened, reader, disk) :=
        JournalReader.open (ce_reader_faults env) default_journal_config (disk_at path files) in
      _ ← set_files (store_disk path disk files);
      _ ← attempt opened;
      match scan (scan_fuel reader) limit 0 reader with
      | None => out_of_fuel
      | Some (records, failure, reader) =>
          let report := JournalReader.report reader in
          _ ← print_chunks (map (fun r => Lit (record_line r)) records);
          _ ← succeed failure;
          if rr_torn_tail report || rr_degraded report || negb (rr_header_valid report)
          then verdict report else exit_with kExitOk
      end).
End Reading.

(** ** Client commands *)

Section Commands.
Context {S : Type} `{Network S} `{Charconv} `{LongDouble}.
Context (env : CliEnv).

(** [make_quality_query], of options that were parsed. *)
Definition make_quality_query (link lane : option string) : Cmd S (Parsed QualityQuery) :=
  match link with
  | None => crash
  | Some link_text =>
      mret match parse_link_value link_text with
           | PBad c m => PBad c m
           | PGood link_id =>
               match lane with
               | None => PGood (mkQualityQuery link_id None [] true 64 8)
               | Some lane_text =>
                   match parse_lane_value lane_text with
                   | PBad c m => PBad c m
                   | PGood dimension => PGood (mkQualityQuery link_id (Some dimension) [] true 64 8)
                   end
               end
           end
  end.

(** The port of the command, which must not be zero. *)
Definition port_of (spec : CommandSpec) (args : Args) : Cmd S Z :=
  text ← require "--port" args; checked spec (parse_port_value text false).

Definition run_shutdown (argv : list string) : Cmd S unit :=
  with_arguments shutdown_spec argv (fun args =>
    port ← port_of shutdown_spec args;
    with_client (cli_client_config port) (fun client =>
      token ← require "--token" args;
      r ← ask (client_shutdown token) client;
      let ack := r.1 in
      _ ← print ("shutdown accepted=" +:+ bool_text (negb (sack_accepted ack =? 0)) +:+ " "
                   +:+ sack_detail ack +:+ newline);
      if sack_accepted ack =? 0 then
        report_failure_text StatusCode.Refused
          (if String.eqb (sack_detail ack) "" then "the runtime refused the shutdown request" else sack_detail ack)
      else exit_with kExitOk)).

(** Query and explanation differ in the call and in what is printed. *)
Definition quality_command {A} (spec : CommandSpec) (call : QualityQuery -> Session S -> Answer A * Session S)
    (show : Args -> A -> string) (argv : list string) : Cmd S unit :=
  with_arguments spec argv (fun args =>
    port ← port_of spec args;
    parsed ← make_quality_query (args_find "--link" args) (args_find "--lane" args);
    request ← checked spec parsed;
    with_client (cli_client_config port) (fun client =>
      r ← ask (call request) client;
      _ ← print (show args r.1);
      exit_with kExitOk)).

Definition run_query : list string -> Cmd S unit :=
  quality_command query_spec client_query
    (fun args report => if args_has "--json" args then render_report_json report else render_report report).

Definition run_explain : list string -> Cmd S unit :=
  quality_command explain_spec client_explain (fun _ explanation => ex_text explanation).

Definition run_inspect (argv : list string) : Cmd S unit :=
  with_arguments inspect_spec argv (fun args =>
    port ← port_of inspect_spec args;
    link ← optional inspect_spec "--link" args None (fun text =>
             match parse_link_value text with PGood l => PGood (Some l) | PBad c m => PBad c m end);
    with_client (cli_client_config port) (fun client =>
      r ← ask (client_inspect (mkInspectionFilter link None 256 8)) client;
      _ ← print (render_inspection r.1);
      exit_with kExitOk)).

(** ** Offline access *)

Definition join_path (dir name : string) : string :=
  match string_back dir with
  | Some c => if Ascii.eqb c "/" then dir +:+ name else dir +:+ "/" +:+ name
  | None => name
  end.

Definition cli_fabric_config (journal_path : string) : FabricConfig :=
  let d := default_journal_config in
  mkFabricConfig default_limits
    (mkJournalConfig true journal_path (jc_max_record_bytes d) (jc_max_queue_depth d) (jc_fsync_on_flush d)
       (jc_compact_after_bytes d) (jc_compact_after_records d) (jc_compact_on_open d)
       (jc_max_recovery_records d) (jc_max_recovery_bytes d))
    DefaultPolicy.default_policy_document 8.

(** The configuration is refused before any file is touched. *)
Definition startup_status (config : FabricConfig) (epoch : Z) (now : ClockReading) : Status :=
  limits_validate (fc_limits config) ;;? journal_config_validate (fc_journal config) ;;?
  validate_policy (pgr_document (current_policy (construct config epoch now))) (with_builtin_descriptors 256)
    (max_policy_rules (fc_limits config)) (max_bands_per_rule (fc_limits config)).

(** What is on the disk once the fabric's journal is drained and closed; without
    a journal, what the recovery left. *)
Definition disk_after_open (config : FabricConfig) (epoch : Z) (now : ClockReading) (disk : Disk) : Disk :=
  match fb_journal (initialize now disk (construct config epoch now)).2 with
  | Some j => BackgroundJournal.disk (drain j)
  | None =>
      if ok (startup_status config epoch now)
      then (JournalReader.open no_faults (fc_journal config) disk).2 else disk
  end.

Definition journal_disk (f : Fabric) (before : Disk) : Disk :=
  match fb_journal f with Some j => BackgroundJournal.disk (drain j) | None => before end.

Definition offline_failure {A} (code : Status) (message : string) : Cmd S A := report_failure_text code message.

(** [open_offline_journal], the work on the fabric and the destructor of
    [OfflineJournalFabric]: the journal is copied, the copy is replayed, and the
    copy is removed on every way out.  A copy onto itself is an error. *)
Definition with_offline_journal {A} (journal_path : string) (body : Fabric -> Cmd S A) : Cmd S A :=
  files ← get_files;
  match (if file_exists (ce_file_seen env) (files !! journal_path) then files !! journal_path else None) with
  | None =>
      if String.eqb journal_path "" then offline_failure StatusCode.Invalid "a journal path is required"
      else offline_failure StatusCode.NotFound ("journal file does not exist: " +:+ journal_path)
  | Some content =>
      if String.eqb journal_path "" then offline_failure StatusCode.Invalid "a journal path is required"
      else match ce_temp_dir env with
      | None => offline_failure StatusCode.Io ("a temporary directory is not available: " +:+ ce_os_text env)
      | Some dir =>
          let copy := join_path dir ("lqf-cli-" +:+ text.format_i64 (ce_stamp env) +:+ ".journal") in
          if negb (ce_copy_ok env) || String.eqb copy journal_path
          then offline_failure StatusCode.Io
                 ("the journal could not be copied for offline replay: " +:+ ce_os_text env)
          else
            let config := cli_fabric_config copy in
            let disk := mkDisk (Some content) (files !! temporary copy) in
            let now := ce_clock env 0 in
            let left := disk_after_open config (ce_epoch env) now disk in
            (* the copy is gone when the command returns *)
            _ ← set_files (store_disk copy (mkDisk None (disk_temp left)) files);
            f ← attempt (open_fabric config (ce_epoch env) now disk);
            body f
      end
  end.

(** ** Metrics and policy *)

(** [select_endpoint]: the journal to replay, or [None] for a runtime. *)
Definition select_endpoint (spec : CommandSpec) (args : Args) : Cmd S (option string) :=
  let has_port := bool_decide (is_Some (args_find "--port" args)) in
  let has_journal := bool_decide (is_Some (args_find "--journal" args)) in
  if eqb has_port has_journal
  then usage_error spec (Lit "exactly one of --port or --journal must be given")
  else mret (args_find "--journal" args).

Definition render_views (views : list MetricCapabilityView) : string :=
  if is_nil views then "  no metric is declared for this link" +:+ newline
  else concat_map render_capability_view views.

Definition run_metrics (argv : list string) : Cmd S unit :=
  with_arguments metrics_spec argv (fun args =>
    endpoint ← select_endpoint metrics_spec args;
    text ← require "--link" args;
    link ← checked metrics_spec (parse_link_value text);
    match endpoint with
    | Some journal_path =>
        with_offline_journal journal_path (fun f =>
          views ← attempt (capabilities link f);
          let recovery := fb_recovery f in
          _ ← print ("capability-view " +:+ render_link_identity link +:+ " source=journal "
                       +:+ journal_path +:+ newline
                       +:+ "  replayed records=" +:+ text.format_u64 (rr_records_read recovery)
                       +:+ " torn-tail=" +:+ bool_text (rr_torn_tail recovery)
                       +:+ " degraded=" +:+ bool_text (rr_degraded recovery) +:+ newline
                       +:+ render_views views);
          exit_with kExitOk)
    | None =>
        port ← port_of metrics_spec args;
        with_client (cli_client_config port) (fun client =>
          r ← ask (client_capabilities link) client;
          _ ← print ("capability-view " +:+ render_link_identity link +:+ " source=declarations" +:+ newline
                       +:+ render_views r.1);
          exit_with kExitOk)
    end).

Definition policy_line (stamp : PolicyStamp) (source : string) : string :=
  "policy " +:+ ps_id stamp +:+ " generation=" +:+ text.format_u64 (ps_generation stamp)
    +:+ " content-hash=" +:+ ps_content_hash stamp +:+ " source=" +:+ source +:+ newline.

Definition run_policy (argv : list string) : Cmd S unit :=
  with_arguments policy_spec argv (fun args =>
    endpoint ← select_endpoint policy_spec args;
    match endpoint with
    | Some journal_path =>
        with_offline_journal journal_path (fun f =>
          let stamp := pgr_stamp (current_policy f) in
          _ ← print (policy_line stamp ("journal " +:+ journal_path));
          record ← attempt (policy_document (ps_generation stamp) f);
          if negb (String.eqb (content_hash (pgr_document record)) (ps_content_hash stamp))
          then report_failure_text StatusCode.Corrupt
                 "the replayed policy document does not match the published content hash"
          else
            _ ← print ("document verified against the published content hash" +:+ newline
                         +:+ render_policy_document (pgr_document record));
            exit_with kExitOk)
    | None =>
        port ← port_of policy_spec args;
        with_client (cli_client_config port) (fun client =>
          r ← ask client_stats client;
          let stamp := sr_policy r.1 in
          _ ← print (policy_line stamp "server");
          r ← ask (client_policy_document (ps_generation stamp)) r.2;
          if negb (String.eqb (content_hash (pgr_document r.1)) (ps_content_hash stamp))
          then report_failure_text StatusCode.Corrupt
                 "the received policy document does not hash to the published content hash"
          else
            _ ← print ("content-hash recomputed from the received document" +:+ newline
                         +:+ render_policy_document (pgr_document r.1));
            exit_with kExitOk)
    end).
End Commands.

(** ** Emit *)

Section Emit.
Context {S : Type} `{Network S}.
Context (env : CliEnv).

Definition kMaxRevisionAttempts : Z := 16.

Definition kPattern : list double :=
  [d_of_Z (-6); d_lit (-675) 2; d_lit (-75) 1; d_lit (-825) 2; d_of_Z (-9)].

Definition synthetic_level (index : Z) : double :=
  nth (Z.to_nat (index mod zlen kPattern)) kPattern d_zero.

Definition emit_declaration (link : LinkIdentity) (source : SourceIdentity) (descriptor : MetricDescriptor)
    (now : ClockReading) (revision : Z) : CapabilityDeclaration :=
  mkCapabilityDeclaration source (Some link) revision TransportKind.Synthetic EvidenceClass.Synthetic
    (mkTimestamp (cr_wall_nanos now) false)
    [mkMetricCapability (md_id descriptor) (md_unit descriptor) (md_semantics descriptor)
       (md_counter_width descriptor) false 0 0]
    [] "generated by lqf emit; no hardware was measured".

(** The attempts at a revision that the runtime accepts: the revision and
    whether it was a duplicate, or the last refusal. *)
Fixpoint declare_revisions (attempts : nat) (revision : Z) (declaration : Z -> CapabilityDeclaration)
    (last : Status) (client : FabricClient) : Cmd S (Outcome (Z * bool) * FabricClient) :=
  match attempts with
  | O => mret (Bad last, client)
  | Datatypes.S n =>
      r ← on_client (client_declare_capability (declaration revision)) client;
      match r.1 with
      | Good ack => mret (Good (revision, negb (cack_duplicate ack =? 0)), r.2)
      | Bad StatusCode.Ok => crash
      | Bad s =>
          if negb (bool_decide (s = StatusCode.IdMismatch)) && negb (bool_decide (s = StatusCode.Fenced))
          then mret (Bad s, r.2)
          else declare_revisions n (revision + 1) declaration s r.2
      end
  end.

Definition emit_observation (link : LinkIdentity) (source : SourceIdentity) (descriptor : MetricDescriptor)
    (sequence_base index : Z) (now : ClockReading) : Observation :=
  mkObservation link source (wrap64 (sequence_base + index)) (md_id descriptor) aggregate_dimension
    (md_unit descriptor) (ReadGauge (mkGaugeReading (synthetic_level index) 0))
    (mkTimestamp (cr_wall_nanos now) false) None 1
    (mkProvenance TransportKind.Synthetic EvidenceClass.Synthetic "lqf-cli/synthetic-generator" "lqf-emit" false 0).

(** [client.ingest], which copies every field of the acknowledgement. *)
Definition client_ingest_ack (observations : list Observation) : Session S -> Answer IngestAck * Session S :=
  call (c_vector c_observation) MessageType.Ingest observations c_ingest_ack MessageType.IngestAck.

Record EmitTotals := mkEmitTotals { et_accepted : Z; et_duplicates : Z; et_rejected : Z }.

Definition add_totals (t : EmitTotals) (ack : IngestAck) : EmitTotals :=
  mkEmitTotals (wrap64 (et_accepted t + iack_accepted ack)) (wrap64 (et_duplicates t + iack_duplicates ack))
    (wrap64 (et_rejected t + iack_rejected ack)).

(** The observations, one batch each, until one fails or is rejected.  The
    pauses between them have no effect but on the clock. *)
Fixpoint emit_observations (n : nat) (index : nat) (observe : Z -> ClockReading -> Observation)
    (t : EmitTotals) (client : FabricClient) : Cmd S (EmitTotals * FabricClient) :=
  match n with
  | O => mret (t, client)
  | Datatypes.S k =>
      r ← ask (client_ingest_ack [observe (Z.of_nat index) (ce_clock env (Datatypes.S index))]) client;
      let ack := r.1 in
      if negb (iack_rejected ack =? 0) then
        report_failure_text (iack_first_code ack)
          ("the runtime rejected a generated observation: " +:+ status_to_string (iack_first_code ack) +:+ "/"
             +:+ reason_to_string (iack_first_reason ack))
      else emit_observations k (Datatypes.S index) observe (add_totals t ack) r.2
  end.

Definition parse_count (text : string) : Parsed Z :=
  match parse_u64_value text "count" with
  | PBad c m => PBad c m
  | PGood v => if v =? 0 then PBad StatusCode.Invalid (Lit "--count must be at least 1") else PGood v
  end.

Definition emit_metric : MetricId := mkMetricId MetricFamily.SignalPower "rx.level".

Definition emit_header (link : LinkIdentity) (source : SourceIdentity) (metric : MetricId) (revision : Z)
    (duplicate : bool) : string :=
  "emit link=" +:+ render_link_identity link +:+ " source=" +:+ render_source_identity source
    +:+ " metric=" +:+ render_metric_id metric +:+ newline
    +:+ "  declared revision=" +:+ text.format_u64 revision +:+ " duplicate=" +:+ bool_text duplicate +:+ newline
    +:+ "  evidence-class=synthetic transport=synthetic origin=lqf-cli/synthetic-generator producer=lqf-emit"
    +:+ newline.

Definition emit_summary (sequence_base count : Z) (t : EmitTotals) (acknowledged : bool) : string :=
  "  sequences=" +:+ text.format_u64 sequence_base +:+ ".." +:+ text.format_u64 (wrap64 (sequence_base + count - 1))
    +:+ newline
    +:+ "  observations=" +:+ text.format_u64 count +:+ " accepted=" +:+ text.format_u64 (et_accepted t)
    +:+ " duplicates=" +:+ text.format_u64 (et_duplicates t) +:+ " rejected=" +:+ text.format_u64 (et_rejected t)
    +:+ " synthetic-acknowledged=" +:+ bool_text acknowledged +:+ newline
    +:+ "  every emitted reading is generated (synthetic); nothing here is a measurement of hardware" +:+ newline.

(** Once the arguments are known and the client is connected. *)
Definition emit_session (args : Args) (link : LinkIdentity) (source : SourceIdentity) (count : Z)
    (descriptor : MetricDescriptor) (client : FabricClient) : Cmd S unit :=
  let now := ce_clock env 0 in
  r ← declare_revisions (Z.to_nat kMaxRevisionAttempts) 1 (emit_declaration link source descriptor now)
        StatusCode.Ok client;
  declared ← attempt r.1;
  _ ← print (emit_header link source (md_id descriptor) declared.1 declared.2);
  let sequence_base := wrap64 (cr_wall_nanos now) in
  t ← emit_observations (Z.to_nat count) 0 (emit_observation link source descriptor sequence_base)
        (mkEmitTotals 0 0 0) r.2;
  _ ← print (emit_summary sequence_base count t.1 (args_has "--synthetic" args));
  exit_with kExitOk.

Definition run_emit (argv : list string) : Cmd S unit :=
  with_arguments emit_spec argv (fun args =>
    port ← port_of emit_spec args;
    link_text ← require "--link" args;
    link ← checked emit_spec (parse_link_value link_text);
    source_text ← require "--source" args;
    source ← checked emit_spec (parse_source_value source_text);
    count ← optional emit_spec "--count" args 1 parse_count;
    _ ← optional emit_spec "--interval-ms" args 0 (fun text => parse_u64_value text "interval");
    match catalog_find (with_builtin_descriptors 256) emit_metric with
    | None =>
        report_failure_text StatusCode.Internal "the built-in metric signal-power:rx.level is not in the catalog"
    | Some descriptor =>
        with_client
          (mkClientConfig port (mkFrameLimits kMaxFrameBytesDefault) default_codec_limits "lqf-cli" 0)
          (emit_session args link source count descriptor)
    end).
End Emit.

(** ** Serve *)

Section Serve.
Context {S : Type} `{Charconv} `{LongDouble}.
Context (env : CliEnv).

(** [make_clock]: the readings a clock of this mode gives. *)
Definition make_clock (mode : string) : Parsed (nat -> ClockReading) :=
  if String.eqb mode "system" then PGood (ce_clock env)
  else if String.eqb mode "epoch" then PGood (fun _ => manual_now (mkManualClock 0 0))
  else PBad StatusCode.Invalid (Lit ("--clock accepts either system or epoch, received: " +:+ mode)).

(** Requests are stamped by the fabric's clock. *)
Definition with_clock (mode : string) (ev : ServerEvent) : ServerEvent :=
  match ev with
  | EvDispatch i e =>
      if String.eqb mode "epoch"
      then EvDispatch i (mkRequestEnv (fun _ => manual_now (mkManualClock 0 0)) (env_compaction e) (env_sync_ok e)
                           (env_text e) (env_sent e))
      else ev
  | _ => ev
  end.

Definition serve_config (token : string) : ServerConfig :=
  mkServerConfig (mkFrameLimits kMaxFrameBytesDefault)
    (mkCodecLimits 4096 (cl_max_items default_codec_limits) (cl_max_total_bytes default_codec_limits)) 64 token.

Definition serve_banner (port : Z) (path mode token : string) (f : Fabric) : string :=
  "listening " +:+ text.format_u64 port +:+ newline
    +:+ "journal " +:+ path +:+ newline
    +:+ "clock " +:+ mode +:+ newline
    +:+ "shutdown-token " +:+ (if String.eqb token "" then "disabled" else "armed") +:+ newline
    +:+ render_epoch_and_policy (fb_epoch f) (pgr_stamp (current_policy f)) +:+ newline.

(** What is on the disk while [f] runs and after it is destroyed. *)
Definition leave_journal (path : string) (before : Disk) (f : Fabric) : Cmd S unit := fun w =>
  set_files (store_disk path (journal_disk f before) (w_files w)) w.

Definition run_serve (argv : list string) : Cmd S unit :=
  with_arguments serve_spec argv (fun args =>
    port ← optional serve_spec "--port" args 0 (fun text => parse_port_value text true);
    let mode := value_or "--clock" "system" args in
    clock ← checked serve_spec (make_clock mode);
    path ← require "--journal" args;
    files ← get_files;
    let config := cli_fabric_config path in
    let epoch := if String.eqb mode "epoch" then 1 else ce_epoch env in
    let disk := disk_at path files in
    let token := value_or "--shutdown-token" "" args in
    _ ← set_files (store_disk path (disk_after_open config epoch (clock O) disk) files);
    f ← attempt (open_fabric config epoch (clock O) disk);
    sv ← attempt (start (serve_config token) f false (ce_wake env) (ce_listener env));
    let bound := if port =? 0 then ce_bound_port env else port in
    _ ← print (serve_banner bound path mode token f);
    let sv := server_steps (map (with_clock mode) (ce_events env)) sv in
    _ ← leave_journal path disk (sv_fabric sv);
    if negb (sv_stop_requested sv && ce_notified env) then wait_for Serving
    else
      let later := map (with_clock mode) (ce_stop_events env) in
      _ ← leave_journal path disk (sv_fabric (server_steps later (request_stop sv)));
      match stop later sv with
      | None => wait_for Stopping
      | Some sv =>
          _ ← succeed (ce_stop_status env);
          _ ← succeed (close (sv_fabric sv)).1;
          _ ← print ("stopped " +:+ text.format_u64 bound +:+ newline);
          exit_with kExitOk
      end).
End Serve.

(** ** main *)

Section Main.
Context {S : Type} `{Network S} `{Charconv} `{LongDouble}.

(** The project's version, set by the build. *)
Definition kVersion : string := "lqf 1.0.0".

Definition main (env : CliEnv) (arguments : list string) : Cmd S unit :=
  match arguments with
  | [] => _ ← complain [Lit print_top_level_usage]; exit_with kExitUsage
  | command :: rest =>
      if String.eqb command "--version" then (_ ← print (kVersion +:+ newline); exit_with kExitOk)
      else if String.eqb command "--help" || String.eqb command "-h" || String.eqb command "help"
      then (_ ← print print_top_level_usage; exit_with kExitOk)
      else if String.eqb command "serve" then run_serve env rest
      else if String.eqb command "shutdown" then run_shutdown rest
      else if String.eqb command "journal-verify" then run_journal_verify env rest
      else if String.eqb command "journal-dump" then run_journal_dump env rest
      else if String.eqb command "emit" then run_emit env rest
      else if String.eqb command "query" then run_query rest
      else if String.eqb command "explain" then run_explain rest
      else if String.eqb command "inspect" then run_inspect rest
      else if String.eqb command "metrics" then run_metrics env rest
      else if String.eqb command "policy" then run_policy env rest
      else (_ ← complain [Lit ("lqf: unknown command: " +:+ command +:+ newline); Lit print_top_level_usage];
            exit_with kExitUsage)
  end.
End Main.

(** ** A server as the network *)

(** One runtime listens on [sn_port]; [sn_current] is the connection the process
    holds, and [sn_refusal] what a connection refused at capacity was sent. *)
Record ServerNetwork := mkServerNetwork {
  sn_port : Z; sn_server : Server; sn_env : nat -> RequestEnv; sn_text : string;
  sn_current : option nat; sn_refusal : list Z }.

Section ServerNetwork.
Context `{Charconv} `{LongDouble}.

(** A refusal the accept loop is sending, sent to its end. *)
Definition rest_of_refusal (sv : Server) : list Z :=
  match ac_stage (sv_acceptor sv) with Refusing _ pending _ => pending | _ => [] end.
Definition refuse_rest (sv : Server) : Server := server_next sv (EvRefusalSend (Took (zlen (rest_of_refusal sv)))).

(** The accept loop takes the connection: it is served, or refused. *)
Definition network_dial (port : Z) (s : ServerNetwork) : Status * ServerNetwork :=
  if negb (port =? sn_port s) || sv_stop_requested (sn_server s) then (StatusCode.Io, s)
  else
    let sv := server_next (refuse_rest (sn_server s)) EvAcceptCheck in
    match accept_one true StatusCode.Ok (sn_text s) sv with
    | None => (StatusCode.Io, s)
    | Some sv' =>
        if sc_max_connections (sv_config sv) <=? sv_active sv
        then (StatusCode.Ok,
              mkServerNetwork (sn_port s) (refuse_rest sv') (sn_env s) (sn_text s) None (rest_of_refusal sv'))
        else (StatusCode.Ok,
              mkServerNetwork (sn_port s) sv' (sn_env s) (sn_text s) (Some (List.length (sv_connections sv))) [])
    end.

Definition network_transmit (data : list Z) (s : ServerNetwork) : Outcome (list Z * bool) * ServerNetwork :=
  match sn_current s with
  | None => (Good (sn_refusal s, true), mkServerNetwork (sn_port s) (sn_server s) (sn_env s) (sn_text s) None [])
  | Some i =>
      let '(r, sv) := converse i (sn_env s) data (sn_server s) in
      (r, mkServerNetwork (sn_port s) sv (sn_env s) (sn_text s) (sn_current s) [])
  end.

Definition network_hang_up (s : ServerNetwork) : ServerNetwork :=
  mkServerNetwork (sn_port s)
    match sn_current s with
    | Some i => server_next (sn_server s) (EvPeerCloses i)
    | None => sn_server s
    end (sn_env s) (sn_text s) None [].

#[global] Instance server_network : Network ServerNetwork := {
  dial := network_dial;
  network_channel := {| transmit := network_transmit |};
  hang_up := network_hang_up;
}.
End ServerNetwork.
