(* ===== verification/CommandsSpec.v ===== *)
(** * The command line: how commands end and what they touch

    [HonestPeer] is what the commands rely on of the runtime they talk to: it
    never answers with an error reply whose code is success.  Against such a peer
    every command ends with its documented exit code or waits for what it is said to
    wait for, and a usage error depends on nothing but the command line and has no
    effect.  The modelled server is such a peer, even when its replies are torn. *)

From Stdlib Require Import ZArith Lia Bool List String Ascii.
From stdpp Require Import base decidable list strings gmap.
From S2P Require Import Prelude OrdMap Float Core Hash Quality Metric Identity Counter.
From S2P Require Import Capability Config Policy Classification LinkRegistry EvidenceStore.
From S2P Require Import Codec FieldCodecs CapabilityRegistry Classifier Journal Fabric.
From S2P Require Import JournalSpec Frame Render Messages Server Client ServerSpec WireSpec Json Cli CliSpec Clock Commands.

Open Scope Z_scope.

#[local] Arguments enum_val : simpl never.

Class HonestPeer (S : Type) `{Network S} := {
  peer_ready : S -> Prop;
  peer_inv : Session S -> Prop;
  peer_dialed : forall config port s s', peer_ready s ->
    ccf_frames config = mkFrameLimits kMaxFrameBytesDefault ->
    dial port s = (StatusCode.Ok, s') -> peer_inv (mkFabricClient config 0 true [], s');
  peer_request : forall type body ses, peer_inv ses ->
    (request type body ses).1 <> Some empty_outcome
    /\ ((request type body ses).1 <> None -> peer_inv (request type body ses).2);
  peer_epoch : forall c s epoch, peer_inv (c, s) ->
    peer_inv (mkFabricClient (cl_config c) epoch (cl_connected c) (cl_unread c), s);
}.

(** ** Triples *)

(** What a command may do besides exiting: the waits it may end in, and whether it
    may report an error and exit with success. *)
Record Manner := mkManner { may_wait : Wait -> bool; may_excuse : bool }.

Definition waits_for (why : Wait) (m : Manner) : Prop := may_wait m why = true.

(** A run of the reading of the command line: nothing but the diagnostics changes,
    and they are the same in every world. *)
Definition complained {S} (l : list Chunk) (w : World S) : World S :=
  mkWorld (w_out w) (w_err w ++ l) (w_files w) (w_net w).

(** One error is reported. *)
Definition diagnosed {S} (w w' : World S) : Prop :=
  exists text, w_err w' = w_err w ++ Lit "lqf: error: " :: text ++ [Lit newline].

Section Triples.
Context {S : Type} (M : Manner).

(** From a network in [N] the computation never crashes and never lacks fuel; it
    exits with success and no diagnostics, or with failure and an error reported;
    and its values leave the network in [Q]. *)
Definition runs {A} (N : S -> Prop) (m : Cmd S A) (Q : A -> S -> Prop) : Prop :=
  forall w, N (w_net w) ->
    match m w with
    | (Value a, w') => Q a (w_net w') /\ w_err w' = w_err w
    | (Exited code, w') =>
        (code = kExitOk /\ (w_err w' = w_err w \/ (may_excuse M = true /\ diagnosed w w')))
        \/ (code = kExitFailure /\ diagnosed w w')
    | (Crashed, _) => False
    | (Waits why, _) => waits_for why M
    | (OutOfFuel, _) => False
    end.

(** A computation on the command line alone: a value, or a usage error, whatever
    the world. *)
Definition parses {A} (m : Cmd S A) : Prop :=
  (exists a, forall w, m w = (Value a, w)) \/ (exists l, forall w, m w = (Exited kExitUsage, complained l w)).

(** A whole command, in every environment: the command line is at fault, or the
    command runs. *)
Definition finishes {A} (N : S -> Prop) (m : CliEnv -> Cmd S A) : Prop :=
  (exists l, forall env w, m env w = (Exited kExitUsage, complained l w))
  \/ (forall env, runs N (m env) (fun _ _ => False)).

Lemma runs_bind {A B} N (m : Cmd S A) (k : A -> Cmd S B) Q R :
  runs N m Q -> (forall a, runs (Q a) (k a) R) -> runs N (m ≫= k) R.
Proof.
  intros Hm Hk w Hw. specialize (Hm w Hw). unfold mbind, Cmd_bind. destruct (m w) as [[a|code| |why|] w']; try done.
  destruct Hm as [Hq He]. specialize (Hk a w' Hq). unfold diagnosed in *. by rewrite He in Hk.
Qed.

Lemma runs_ret {A} (N : S -> Prop) (a : A) (Q : A -> S -> Prop) :
  (forall s, N s -> Q a s) -> runs N (mret a) Q.
Proof. intros Hq w Hw. split; [by apply Hq|done]. Qed.

Lemma runs_exit {A} N (Q : A -> S -> Prop) : runs N (exit_with kExitOk) Q.
Proof. intros w _. left. by split; [|left]. Qed.

Lemma runs_wait {A} N why (Q : A -> S -> Prop) : waits_for why M -> runs N (wait_for why) Q.
Proof. intros Hm w _. exact Hm. Qed.

Lemma runs_print_chunks N l : runs N (print_chunks l) (fun _ => N).
Proof. intros w Hw. by split. Qed.

Lemma runs_print N s : runs N (print s) (fun _ => N).
Proof. apply runs_print_chunks. Qed.

Lemma runs_set_files N files : runs N (set_files files) (fun _ => N).
Proof. intros w Hw. by split. Qed.

Lemma runs_get_files N : runs N get_files (fun _ => N).
Proof. intros w Hw. by split. Qed.

Lemma runs_report_failure {A} N s (Q : A -> S -> Prop) : s <> StatusCode.Ok -> runs N (report_failure s) Q.
Proof.
  intros Hs w _. right. split; [by destruct s|]. by exists [StatusText s].
Qed.

Lemma runs_report_failure_text {A} N s t (Q : A -> S -> Prop) : s <> StatusCode.Ok ->
  runs N (report_failure_text s t) Q.
Proof. intros Hs w _. right. split; [by destruct s|]. by exists [Lit (status_to_text s t)]. Qed.

(** A code that the peer chose. *)
Lemma runs_report_any {A} N s t (Q : A -> S -> Prop) : may_excuse M = true -> runs N (report_failure_text s t) Q.
Proof.
  intros Hm w Hw. destruct (decide (s = StatusCode.Ok)) as [->|Hs]; [|by apply (runs_report_failure_text N s t Q Hs w)].
  left. split; [done|]. right. split; [done|]. by exists [Lit (status_to_text StatusCode.Ok t)].
Qed.

Lemma runs_attempt {A} N (o : Outcome A) Q : o <> empty_outcome -> (forall a, o = Good a -> forall s, N s -> Q a s) ->
  runs N (attempt o) Q.
Proof.
  intros Ho Hq w Hw. destruct o as [a|s]; [by split; [apply Hq|]|]. assert (s <> StatusCode.Ok) as Hs by (by intros ->).
  destruct s; first [done | by apply (runs_report_failure N _ Q Hs w Hw)].
Qed.

Lemma runs_attempted {A} N (o : Outcome A) : o <> empty_outcome -> runs N (attempt o) (fun _ => N).
Proof. intros Ho. by apply runs_attempt. Qed.

Lemma runs_succeed N s : runs N (succeed s) (fun _ => N).
Proof.
  intros w Hw. destruct (decide (s = StatusCode.Ok)) as [->|Hs]; [by split|].
  destruct s; first [done | by apply (runs_report_failure N _ _ Hs w Hw)].
Qed.

Lemma runs_weaken {A} (N N' : S -> Prop) (m : Cmd S A) Q :
  (forall s, N s -> N' s) -> runs N' m Q -> runs N m Q.
Proof. intros Hn Hm w Hw. apply Hm. auto. Qed.

Lemma runs_fact {A} (P : Prop) N (m : Cmd S A) Q : (P -> runs N m Q) -> runs (fun s => P /\ N s) m Q.
Proof. intros Hm w [Hp Hw]. by apply Hm. Qed.

Lemma finishes_runs {A} N (m : CliEnv -> Cmd S A) : (forall env, runs N (m env) (fun _ _ => False)) -> finishes N m.
Proof. by right. Qed.

Lemma finishes_bind {A B} N (m : Cmd S A) (k : CliEnv -> A -> Cmd S B) :
  parses m -> (forall a, finishes N (fun env => k env a)) -> finishes N (fun env => m ≫= k env).
Proof.
  intros [[a Hm]|[l Hm]] Hk.
  - destruct (Hk a) as [[l Hl]|Hr].
    + left. exists l. intros env w. unfold mbind, Cmd_bind. by rewrite Hm, Hl.
    + right. intros env w Hw. unfold mbind, Cmd_bind. rewrite Hm. by apply Hr.
  - left. exists l. intros env w. unfold mbind, Cmd_bind. by rewrite Hm.
Qed.

Lemma parses_bind {A B} (m : Cmd S A) (k : A -> Cmd S B) :
  parses m -> (forall a, parses (k a)) -> parses (m ≫= k).
Proof.
  intros [[a Hm]|[l Hm]] Hk.
  - destruct (Hk a) as [[b Hb]|[l Hl]]; [left; exists b|right; exists l]; intros w; unfold mbind, Cmd_bind; by rewrite Hm.
  - right. exists l. intros w. unfold mbind, Cmd_bind. by rewrite Hm.
Qed.

Lemma parses_ret {A} (a : A) : parses (mret a).
Proof. left. by exists a. Qed.

Lemma parses_usage_error {A} spec message : parses (A := A) (usage_error spec message).
Proof. right. eexists. by intros w. Qed.

Lemma parses_checked {A} spec (p : Parsed A) : parses (checked spec p).
Proof. destruct p; [apply parses_ret|apply parses_usage_error]. Qed.

Lemma parses_optional {A} spec name args (fallback : A) parse :
  parses (optional spec name args fallback parse).
Proof. unfold optional. destruct (args_find name args); [apply parses_checked|apply parses_ret]. Qed.

Lemma parses_require name args value : args_find name args = Some value -> parses (require name args).
Proof. unfold require. intros ->. apply parses_ret. Qed.

(** Help is printed, a line that does not parse is a usage error, and the body
    runs on arguments that have what is required. *)
Lemma finishes_with_arguments N spec argv (body : CliEnv -> Args -> Cmd S unit) :
  (forall args, (forall name, name ∈ cs_required spec -> exists value, args_find name args = Some value) ->
     finishes N (fun env => body env args)) -> finishes N (fun env => with_arguments spec argv (body env)).
Proof.
  intros Hb. unfold with_arguments. destruct (requests_help argv).
  - apply finishes_runs. intros env. eapply runs_bind; [apply runs_print|]. intros. apply runs_exit.
  - destruct (parse_arguments spec argv) as [args|e] eqn:Ep.
    + apply Hb. intros name. by apply (required_given spec argv).
    + left. eexists. by intros env w.
Qed.
End Triples.

Create HintDb cmd discriminated.
#[export] Hint Resolve runs_exit runs_print runs_print_chunks runs_set_files runs_get_files runs_succeed parses_ret
  parses_usage_error parses_checked parses_optional : cmd.

(** ** Outcomes of the library that have a value or an error *)

Lemma expect_nonempty {B} (cb : codec B) L type reply : expect cb L type reply <> empty_outcome.
Proof.
  unfold expect. destruct (negb _); [done|]. destruct (dec _ _ _) as [v r]. destruct (ok (r_status r)) eqn:E; cbn.
  - by destruct v.
  - intros [= E']. by rewrite E' in E.
Qed.

Section Library.
Context `{Charconv} `{LongDouble}.

Lemma open_fabric_nonempty config epoch now disk : open_fabric config epoch now disk <> empty_outcome.
Proof. unfold open_fabric. by destruct (initialize _ _ _) as [[] f]. Qed.

Lemma start_nonempty config f running wake listener : start config f running wake listener <> empty_outcome.
Proof. unfold start. repeat case_match; done. Qed.

Lemma capabilities_nonempty link f : capabilities link f <> empty_outcome.
Proof. unfold capabilities. by destruct (validate_link_identity link). Qed.

Lemma policy_document_nonempty generation f : policy_document generation f <> empty_outcome.
Proof. unfold policy_document. by destruct (PolicyRegistry.get _ _). Qed.

Lemma reader_open_nonempty faults config disk : (JournalReader.open faults config disk).1.1 <> empty_outcome.
Proof.
  unfold JournalReader.open. repeat case_match; cbn; try done; intros [= ->]; by eapply validate_header_bad.
Qed.
End Library.
#[export] Hint Resolve encode_nonempty expect_nonempty open_fabric_nonempty start_nonempty capabilities_nonempty
  policy_document_nonempty reader_open_nonempty : cmd.

(** ** Calls of an honest peer *)

Section Peer.
Context {S : Type} `{NS : Network S} `{HP : !HonestPeer S}.

Definition honest_op {A} (op : Session S -> Answer A * Session S) : Prop := forall ses, peer_inv ses ->
  (op ses).1 <> Some empty_outcome /\ ((op ses).1 <> None -> peer_inv (op ses).2).

Lemma honest_exchange {B} type body (cb : codec B) reply_type : honest_op (exchange type body cb reply_type).
Proof.
  intros ses Hi. unfold exchange. pose proof (peer_request type body ses Hi) as [Hn Hk].
  destruct (request type body ses) as [[[reply|e]|] ses']; cbn in *; (split; [|by auto]).
  - intros [= E]. by eapply expect_nonempty.
  - intros [= ->]. by apply Hn.
  - done.
Qed.

Lemma honest_call {A B} (ca : codec A) type (value : A) (cb : codec B) reply_type :
  honest_op (call ca type value cb reply_type).
Proof.
  intros ses Hi. unfold call. pose proof (encode_nonempty ca (ccf_codec (cl_config ses.1)) value) as He.
  destruct (encode _ _ _) as [body|e]; [by apply honest_exchange|]. cbn. split; [by intros [= ->]|done].
Qed.

Lemma honest_map_answer {A B} (g : A -> Outcome B) (op : Session S -> Answer A * Session S) :
  (forall a, g a <> empty_outcome) -> honest_op op -> honest_op (fun ses => map_answer g (op ses)).
Proof.
  intros Hg Ho ses Hi. destruct (Ho ses Hi) as [Hn Hk]. unfold map_answer.
  destruct (op ses) as [[[a|e]|] ses']; cbn in *; (split; [|by auto]).
  - intros [= E]. by eapply Hg.
  - by intros [= ->].
  - done.
Qed.

Lemma honest_handshake : honest_op handshake.
Proof.
  intros ses Hi. unfold handshake. cbv zeta.
  match goal with |- context [call ?a ?b ?c ?d ?e ses] => pose proof (honest_call a b c d e ses Hi) as [Hn Hk];
    destruct (call a b c d e ses) as [[[welcome|e']|] [c' s']] end; cbn in *.
  - repeat case_match; cbn; (split; [done|]); intros _; [by apply Hk..|]. by apply peer_epoch, Hk.
  - split; [by intros [= ->]|by auto].
  - split; done.
Qed.

Lemma honest_policy_document generation : honest_op (client_policy_document generation).
Proof. apply honest_map_answer; [|apply honest_call]. intros a. by destruct (_ =? _). Qed.

Lemma honest_capabilities link : honest_op (client_capabilities link).
Proof. apply honest_map_answer; [done|apply honest_call]. Qed.

Lemma runs_on_client {A} M (op : Session S -> Answer A * Session S) c : waits_for ForReply M -> honest_op op ->
  runs M (fun s => peer_inv (c, s)) (on_client op c) (fun r s => r.1 <> empty_outcome /\ peer_inv (r.2, s)).
Proof.
  intros Hm Ho w Hw. destruct (Ho (c, w_net w) Hw) as [Hn Hk]. unfold on_client.
  destruct (op (c, w_net w)) as [[o|] [c' s']]; cbn in *; [|done]. split; [|done]. split; [by intros ->|by apply Hk].
Qed.

Lemma runs_ask {A} M (op : Session S -> Answer A * Session S) c : waits_for ForReply M -> honest_op op ->
  runs M (fun s => peer_inv (c, s)) (ask op c) (fun r s => peer_inv (r.2, s)).
Proof.
  intros Hm Ho. eapply runs_bind; [by apply runs_on_client|]. intros [o c']. cbn [fst snd].
  apply runs_fact. intros Hn. eapply runs_bind; [by apply runs_attempted|]. intros a. by apply runs_ret.
Qed.

Lemma runs_closing {A} M N (m : Cmd S A) Q : runs M N m Q -> runs M N (closing m) (fun _ _ => exists a s, Q a s).
Proof.
  intros Hm w Hw. specialize (Hm w Hw). unfold closing. destruct (m w) as [[a|code| |why|] w']; try done.
  destruct Hm as [Hq He]. split; [by exists a, (w_net w')|done].
Qed.

Lemma runs_never {A} M N (m : Cmd S A) (Q Q' : A -> S -> Prop) : runs M N m Q -> (forall a s, ~ Q a s) -> runs M N m Q'.
Proof.
  intros Hm Hq w Hw. specialize (Hm w Hw). destruct (m w) as [[a|code| |why|] w']; try done. by destruct Hm as [[]%Hq _].
Qed.

(** A session from the connection to its end. *)
Lemma runs_with_client {A} M config (body : FabricClient -> Cmd S A) :
  ccf_frames config = mkFrameLimits kMaxFrameBytesDefault -> waits_for ForReply M ->
  (forall c, runs M (fun s => peer_inv (c, s)) (body c) (fun _ _ => False)) ->
  runs M peer_ready (with_client config body) (fun _ _ => False).
Proof.
  intros Hf Hm Hb. unfold with_client. eapply (runs_bind _ _ _ _ (fun c s => peer_inv (c, s))).
  - intros w Hw. unfold open_connection. destruct (ccf_port config =? 0) eqn:Ep.
    + refine (runs_attempt M (fun _ => True) _ (fun c s => peer_inv (c, s)) _ _ w I); unfold connect; by rewrite Ep.
    + destruct (dial _ _) as [status net] eqn:Ed.
      refine (runs_attempt M (fun s => s = net) _ (fun c s => peer_inv (c, s)) _ _ (mkWorld _ _ (w_files w) net) eq_refl);
        unfold connect; rewrite Ep; [by destruct status|].
      intros a Ha s ->. destruct status; try done. injection Ha as <-. by eapply peer_dialed.
  - intros c. eapply runs_never; [apply runs_closing; eapply runs_bind; [by apply runs_ask, honest_handshake|]|].
    + intros [u c']. apply Hb.
    + by intros a s (_ & _ & []).
Qed.
End Peer.

(** ** The loop over a journal ends *)

Section Scan.
Import JournalReader.

(** A record that is read lies within the file, and is at least seventeen bytes
    long. *)
Lemma next_advances r record r' : next r = (Good (Some record), r') ->
  content r' = content r /\ position r + 17 <= position r'
  /\ position r' <= zlen (match content r with Some c => c | None => [] end).
Proof.
  unfold next. destruct (content r) as [c|] eqn:Ec; [|done]. destruct (reached_end r); [done|].
  destruct (_ || _); [done|]. cbv zeta.
  destruct (_ =? 0); [done|]. destruct (_ <? kRecordHeaderBytes) eqn:E2; [done|].
  set (L := decode_u32 0 _). destruct ((L <? kRecordPrefixBytes) || _) eqn:E3; [done|].
  destruct (zlen (slice _ L _) <? L) eqn:E4; [done|]. destruct (negb _); [done|].
  destruct (parse_journal_record_kind _); [|done].
  destruct (have_ordinal r && (_ <=? _)); [done|]. destruct (have_ordinal r && negb _); [done|].
  intros [= _ <-]. unfold accept. cbn [content position]. rewrite Ec.
  unfold kRecordPrefixBytes, kRecordHeaderBytes in *. breflect.
  split; [done|]. split; [lia|]. rewrite slice_eq, zlen_take in E4. unfold zlen in *. rewrite length_drop in E4. lia.
Qed.

Lemma scan_ends fuel : forall limit printed r, 0 <= position r ->
  zlen (match content r with Some c => c | None => [] end) - position r < Z.of_nat fuel ->
  (0 < fuel)%nat -> scan fuel limit printed r <> None.
Proof.
  induction fuel as [|n IH]; intros limit printed r Hp Hf H0; [lia|]. cbn [scan]. destruct (_ && _); [done|].
  destruct (next r) as [[[record|]|s] r1] eqn:En; [|done|done]. apply next_advances in En as (Ec & E1 & E2).
  specialize (IH limit (printed + 1) r1). rewrite Ec in IH.
  destruct (scan n limit (printed + 1) r1) as [[[records s] final]|]; [done|]. exfalso.
  apply IH; lia || done.
Qed.

Lemma open_position faults config disk : position (open faults config disk).1.2 = 40.
Proof. unfold open. by repeat case_match. Qed.

(** The fuel of the commands is enough, whatever the file holds and whatever the
    calls that opened it answered. *)
Lemma opened_scan_ends faults config disk limit :
  let r := (open faults config disk).1.2 in scan (scan_fuel r) limit 0 r <> None.
Proof.
  cbv zeta. pose proof (open_position faults config disk) as Hp. set (r := (open _ _ _).1.2) in *.
  apply scan_ends; unfold scan_fuel; [lia| |lia]. unfold zlen. lia.
Qed.
End Scan.

(** ** Each command *)

(** A command that talks to a runtime waits for it; [serve] waits to be stopped and
    then for its threads; the others wait for nothing. *)
Definition client_manner (excuse : bool) : Manner :=
  mkManner (fun why => match why with ForReply => true | _ => false end) excuse.
Definition serve_manner : Manner :=
  mkManner (fun why => match why with ForReply => false | _ => true end) false.
Definition quiet_manner : Manner := mkManner (fun _ => false) false.

(** One step of a session or of a command that no longer exits with a usage
    error. *)
Ltac run_step :=
  lazymatch goal with
  | |- runs _ _ (let _ := _ in _) _ => cbv zeta
  | |- runs _ _ (_ ≫= _) _ => eapply runs_bind; [|intro]
  | |- runs _ _ (exit_with kExitOk) _ => apply runs_exit
  | |- runs _ _ (attempt _) _ => apply runs_attempted
  | |- runs _ _ (report_failure _) _ => apply runs_report_failure
  | |- runs _ _ (report_failure_text _ _) _ => apply runs_report_failure_text; discriminate
  | |- runs _ _ (if ?b then _ else _) _ => destruct b
  | |- runs _ _ (ask _ _) _ => apply runs_ask; [reflexivity|]
  | |- honest_op _ => first [apply honest_capabilities | apply honest_policy_document | apply honest_call
                            | apply honest_exchange]
  | |- _ => solve [eauto with cmd]
  end.

Section Commands.
Context {S : Type} `{NS : Network S} `{HP : !HonestPeer S} `{CC : Charconv} `{LD : LongDouble}.

Lemma finishes_spec_value M N spec (args : Args) name (k : CliEnv -> string -> Cmd S unit) :
  (forall n, n ∈ cs_required spec -> exists value, args_find n args = Some value) -> name ∈ cs_required spec ->
  (forall v, finishes M N (fun env => k env v)) -> finishes M N (fun env => require name args ≫= k env).
Proof.
  intros Hr Hn Hk. destruct (Hr name Hn) as [v Hv]. apply finishes_bind; [by eapply parses_require|done].
Qed.

Lemma parses_port spec args : (exists v, args_find "--port" args = Some v) -> parses (S := S) (port_of spec args).
Proof.
  intros [v Hv]. unfold port_of. apply parses_bind; [by eapply parses_require|]. intros. apply parses_checked.
Qed.

Lemma parses_quality_query args : (exists v, args_find "--link" args = Some v) ->
  parses (S := S) (make_quality_query (args_find "--link" args) (args_find "--lane" args)).
Proof. intros [v ->]. unfold make_quality_query. apply parses_ret. Qed.

Lemma run_shutdown_finishes argv : finishes (client_manner false) peer_ready (fun _ => run_shutdown argv).
Proof using HP.
  apply (finishes_with_arguments _ _ _ _ (fun _ => _)). intros args Hr.
  apply (finishes_bind _ _ _ (fun _ => _)); [apply parses_port, Hr; set_solver|]. intros port.
  destruct (Hr "--token") as [token Ht]; [set_solver|].
  apply finishes_runs. intros _. apply runs_with_client; [reflexivity..|]. intros c. unfold require. rewrite Ht.
  eapply runs_bind; [apply (runs_ret _ _ token (fun _ s => peer_inv (c, s))); auto|]. intros v.
  repeat run_step.
Qed.

Lemma quality_command_finishes {A} spec (op : QualityQuery -> Session S -> Answer A * Session S) show argv :
  "--port" ∈ cs_required spec -> "--link" ∈ cs_required spec -> (forall q, honest_op (op q)) ->
  finishes (client_manner false) peer_ready (fun _ => quality_command spec op show argv).
Proof.
  intros Hp Hl Ho. apply (finishes_with_arguments _ _ _ _ (fun _ => _)). intros args Hr.
  apply (finishes_bind _ _ _ (fun _ => _)); [by apply parses_port, Hr|]. intros port.
  apply (finishes_bind _ _ _ (fun _ => _)); [by apply parses_quality_query, Hr|]. intros parsed.
  apply (finishes_bind _ _ _ (fun _ => _)); [apply parses_checked|]. intros q.
  apply finishes_runs. intros _. apply runs_with_client; [reflexivity..|]. intros c. repeat run_step. apply Ho.
Qed.

Lemma run_inspect_finishes argv : finishes (client_manner false) peer_ready (fun _ => run_inspect argv).
Proof using HP.
  apply (finishes_with_arguments _ _ _ _ (fun _ => _)). intros args Hr.
  apply (finishes_bind _ _ _ (fun _ => _)); [apply parses_port, Hr; set_solver|]. intros port.
  apply (finishes_bind _ _ _ (fun _ => _)); [apply parses_optional|]. intros link.
  apply finishes_runs. intros _. apply runs_with_client; [reflexivity..|]. intros c. repeat run_step.
Qed.

(** The selector leaves a runtime's port or a journal. *)
Lemma select_endpoint_spec M N spec args (k : CliEnv -> option string -> Cmd S unit) :
  ((exists v, args_find "--port" args = Some v) -> finishes M N (fun env => k env None)) ->
  (forall path, finishes M N (fun env => k env (Some path))) ->
  finishes M N (fun env => select_endpoint spec args ≫= k env).
Proof.
  intros Hn Hs. unfold select_endpoint.
  destruct (args_find "--port" args) as [port|] eqn:Ep, (args_find "--journal" args) as [path|] eqn:Ej;
    rewrite ?bool_decide_eq_true_2, ?bool_decide_eq_false_2
      by (eauto; intros [? [=]]); cbn [eqb Bool.eqb];
    try (left; eexists; by intros env w).
  - apply Hn. eauto.
  - apply Hs.
Qed.

Lemma runs_offline {A} M env N path (body : Fabric -> Cmd S A) :
  (forall f, runs M N (body f) (fun _ _ => False)) ->
  runs M N (with_offline_journal env path body) (fun _ _ => False).
Proof.
  intros Hb. unfold with_offline_journal, offline_failure. eapply runs_bind; [apply runs_get_files|]. intros files.
  destruct (if file_exists _ _ then _ else None) as [content|]; [|case_match; by apply runs_report_failure_text].
  case_match; [by apply runs_report_failure_text|].
  destruct (ce_temp_dir env) as [dir|]; [|by apply runs_report_failure_text]. cbv zeta.
  case_match; [by apply runs_report_failure_text|].
  eapply runs_bind; [apply runs_set_files|]. intros [].
  eapply runs_bind; [apply runs_attempted, open_fabric_nonempty|]. intros f. apply Hb.
Qed.

Lemma run_metrics_finishes argv : finishes (client_manner false) peer_ready (fun env => run_metrics env argv).
Proof using HP.
  apply finishes_with_arguments. intros args Hr.
  apply select_endpoint_spec; [intros Hport|intros path];
    (apply (finishes_spec_value _ _ metrics_spec); [exact Hr|apply list_elem_of_In; cbn; auto|]; intros text;
     apply finishes_bind; [apply parses_checked|]; intros link).
  - apply finishes_bind; [by apply parses_port|]. intros port.
    apply finishes_runs. intros env. apply runs_with_client; [reflexivity..|]. intros c. repeat run_step.
  - apply finishes_runs. intros env. apply runs_offline. intros f. repeat run_step.
Qed.

Lemma run_policy_finishes argv : finishes (client_manner false) peer_ready (fun env => run_policy env argv).
Proof using HP.
  apply finishes_with_arguments. intros args Hr. apply select_endpoint_spec; [intros Hport|intros path].
  - apply finishes_bind; [by apply parses_port|]. intros port.
    apply finishes_runs. intros env. apply runs_with_client; [reflexivity..|]. intros c.
    eapply runs_bind; [apply runs_ask, honest_exchange; reflexivity|]. intros [st c'].
    eapply runs_bind; [apply runs_print|]. intros [].
    eapply runs_bind; [apply runs_ask, honest_policy_document; reflexivity|]. intros [record c'']. repeat run_step.
  - apply finishes_runs. intros env. apply runs_offline. intros f. repeat run_step.
Qed.

Lemma runs_declare M n : waits_for ForReply M -> forall revision declaration last c, last <> StatusCode.Ok \/ (0 < n)%nat ->
  runs M (fun s => peer_inv (c, s)) (declare_revisions (S := S) n revision declaration last c)
    (fun r s => r.1 <> empty_outcome /\ peer_inv (r.2, s)).
Proof.
  intros Hm. induction n as [|n IH]; intros revision declaration last c Hl.
  - apply runs_ret. cbn. intros s Hs. split; [|done]. intros [= ->]. destruct Hl; [done|lia].
  - cbn [declare_revisions]. eapply runs_bind; [by apply runs_on_client, honest_call|].
    intros [[ack|status] c'] w [Hne Hi]; cbn [fst snd] in *; [by repeat split|].
    destruct (decide (status = StatusCode.Ok)) as [->|Hs]; [done|].
    assert (runs M (fun s => peer_inv (c', s))
              (if negb (bool_decide (status = StatusCode.IdMismatch)) && negb (bool_decide (status = StatusCode.Fenced))
               then mret (Bad status, c') else declare_revisions n (revision + 1) declaration status c')
              (fun r s => r.1 <> empty_outcome /\ peer_inv (r.2, s))) as Hx.
    { case_match; [apply runs_ret; cbn; intros; split; [by intros [= ->]|done]|apply IH; by left]. }
    destruct status; try done; apply (Hx w Hi).
Qed.

Lemma runs_emit_observations M env n : waits_for ForReply M -> may_excuse M = true -> forall index observe t c,
  runs M (fun s => peer_inv (c, s)) (emit_observations (S := S) env n index observe t c)
    (fun r s => peer_inv (r.2, s)).
Proof.
  intros Hm He. induction n as [|n IH]; intros index observe t c; cbn [emit_observations].
  - apply runs_ret. auto.
  - eapply runs_bind; [by apply runs_ask, honest_call|]. intros [ack c']. cbn [fst snd].
    case_match; [by apply runs_report_any|apply IH].
Qed.

Lemma run_emit_finishes argv : finishes (client_manner true) peer_ready (fun env => run_emit env argv).
Proof using HP.
  apply finishes_with_arguments. intros args Hr.
  apply finishes_bind; [apply parses_port, Hr; set_solver|]. intros port.
  apply (finishes_spec_value _ _ emit_spec); [exact Hr|set_solver|]. intros link_text.
  apply finishes_bind; [apply parses_checked|]. intros link.
  apply (finishes_spec_value _ _ emit_spec); [exact Hr|set_solver|]. intros source_text.
  apply finishes_bind; [apply parses_checked|]. intros source.
  apply finishes_bind; [apply parses_optional|]. intros count.
  apply finishes_bind; [apply parses_optional|]. intros _.
  apply finishes_runs. intros env. destruct (catalog_find _ _) as [descriptor|]; [|by apply runs_report_failure_text].
  apply runs_with_client; [reflexivity..|]. intros c. unfold emit_session. cbv zeta.
  eapply runs_bind; [apply runs_declare; [reflexivity|right; vm_compute; lia]|]. intros [o c']. cbn [fst snd].
  apply runs_fact. intros Hne.
  eapply runs_bind; [by apply runs_attempted|]. intros declared.
  eapply runs_bind; [apply runs_print|]. intros [].
  eapply runs_bind; [by apply runs_emit_observations|]. intros t. repeat run_step.
Qed.

Lemma run_serve_finishes argv : finishes serve_manner peer_ready (fun env => run_serve env argv).
Proof.
  apply finishes_with_arguments. intros args Hr.
  apply finishes_bind; [apply parses_optional|]. intros port. cbv zeta.
  match goal with |- finishes _ _ (fun env => checked _ _ ≫= @?k env) =>
    assert (forall clock : CliEnv -> nat -> ClockReading, finishes serve_manner peer_ready (fun env => k env (clock env))) as Hk end.
  - intros clock. cbv beta. apply (finishes_spec_value _ _ serve_spec); [exact Hr|set_solver|]. intros path.
    apply finishes_runs. intros env. eapply runs_bind; [apply runs_get_files|]. intros files. cbv zeta.
    eapply runs_bind; [apply runs_set_files|]. intros [].
    eapply runs_bind; [apply runs_attempted, open_fabric_nonempty|]. intros f.
    eapply runs_bind; [apply runs_attempted, start_nonempty|]. intros sv.
    eapply runs_bind; [apply runs_print|]. intros [].
    eapply (runs_bind _ _ _ _ (fun _ _ => True)); [by intros w _|]. intros [].
    case_match; [by apply runs_wait|].
    eapply (runs_bind _ _ _ _ (fun _ _ => True)); [by intros w _|]. intros [].
    destruct (stop _ _) as [sv'|]; [|by apply runs_wait]. repeat run_step.
  - unfold make_clock. destruct (String.eqb _ "system"); [exact (Hk ce_clock)|].
    destruct (String.eqb _ "epoch"); [exact (Hk (fun _ _ => manual_now (mkManualClock 0 0)))|].
    left. eexists. by intros env w.
Qed.

Lemma runs_verdict {A} M N report (Q : A -> S -> Prop) : runs M N (verdict report) Q.
Proof.
  unfold verdict. case_match; [apply runs_exit|]. intros w _. right. split; [done|]. eexists. cbn. reflexivity.
Qed.

Lemma run_journal_verify_finishes argv : finishes quiet_manner peer_ready (fun env => run_journal_verify env argv).
Proof.
  apply finishes_with_arguments. intros args Hr.
  apply (finishes_spec_value _ _ verify_spec); [exact Hr|set_solver|]. intros path. apply finishes_runs. intros env.
  eapply runs_bind; [apply runs_get_files|]. intros files. case_match; [by apply runs_report_failure_text|].
  pose proof (reader_open_nonempty (ce_reader_faults env) default_journal_config (disk_at path files)) as Hn.
  pose proof (opened_scan_ends (ce_reader_faults env) default_journal_config (disk_at path files) 0) as Hs.
  destruct (JournalReader.open _ _ _) as [[opened reader] disk]. cbn [fst snd] in Hs.
  eapply runs_bind; [apply runs_set_files|]. intros [].
  destruct opened as [report|s]; [|repeat run_step; by intros ->].
  destruct (scan _ _ _ _) as [[[records failure] final]|]; [|done].
  repeat run_step. apply runs_verdict.
Qed.

Lemma run_journal_dump_finishes argv : finishes quiet_manner peer_ready (fun env => run_journal_dump env argv).
Proof.
  apply finishes_with_arguments. intros args Hr.
  apply (finishes_spec_value _ _ dump_spec); [exact Hr|set_solver|]. intros path.
  apply finishes_bind; [apply parses_optional|]. intros limit. apply finishes_runs. intros env.
  eapply runs_bind; [apply runs_get_files|]. intros files. case_match; [by apply runs_report_failure_text|].
  pose proof (reader_open_nonempty (ce_reader_faults env) default_journal_config (disk_at path files)) as Hn.
  pose proof (opened_scan_ends (ce_reader_faults env) default_journal_config (disk_at path files) limit) as Hs.
  destruct (JournalReader.open _ _ _) as [[opened reader] disk]. cbn [fst snd] in Hs.
  eapply runs_bind; [apply runs_set_files|]. intros [].
  eapply runs_bind; [by apply runs_attempted|]. intros opened_report.
  destruct (scan _ _ _ _) as [[[records failure] final]|]; [|done].
  repeat (run_step || apply runs_verdict).
Qed.

(** The manner of a command. *)
Definition manner (argv : list string) : Manner :=
  match argv with
  | [] => quiet_manner
  | command :: _ =>
      if String.eqb command "serve" then serve_manner
      else if String.eqb command "emit" then client_manner true
      else if existsb (String.eqb command) ["shutdown"; "query"; "explain"; "inspect"; "metrics"; "policy"]%string
      then client_manner false
      else quiet_manner
  end.

Lemma main_finishes argv : finishes (manner argv) peer_ready (fun env => main env argv).
Proof using HP.
  unfold main. destruct argv as [|command rest]; [left; eexists; by intros env w|]. unfold manner. cbn [existsb].
  destruct (String.eqb_spec command "--version") as [->|_]; [apply finishes_runs; intros env; repeat run_step|].
  destruct (_ || _ || _); [apply finishes_runs; intros env; repeat run_step|].
  destruct (String.eqb_spec command "serve") as [->|_]; [apply run_serve_finishes|].
  destruct (String.eqb_spec command "shutdown") as [->|_]; [apply run_shutdown_finishes|].
  destruct (String.eqb_spec command "journal-verify") as [->|_]; [apply run_journal_verify_finishes|].
  destruct (String.eqb_spec command "journal-dump") as [->|_]; [apply run_journal_dump_finishes|].
  destruct (String.eqb_spec command "emit") as [->|_]; [apply run_emit_finishes|].
  destruct (String.eqb_spec command "query") as [->|_];
    [apply quality_command_finishes; [set_solver|set_solver|intros; apply honest_call]|].
  destruct (String.eqb_spec command "explain") as [->|_];
    [apply quality_command_finishes; [set_solver|set_solver|intros; apply honest_call]|].
  destruct (String.eqb_spec command "inspect") as [->|_]; [apply run_inspect_finishes|].
  destruct (String.eqb_spec command "metrics") as [->|_]; [apply run_metrics_finishes|].
  destruct (String.eqb_spec command "policy") as [->|_]; [apply run_policy_finishes|].
  left. eexists. by intros env w.
Qed.
End Commands.

(** ** The modelled server is an honest peer *)

Section ServerPeer.
Context `{CC : Charconv} `{LD : LongDouble}.

(** The thread is between two requests, or at its end. *)
Definition between (co : Connection) : Prop := co_stage co = Reading \/ co_stage co = Ended.

(** A reply is being sent, of which nothing has gone yet, or the thread has ended. *)
Definition begun (L : FrameLimits) (co co1 : Connection) : Prop :=
  co_output co1 = co_output co
  /\ match co_stage co1 with
     | Reading => False
     | Sending pending _ _ => response_bytes L pending
     | Dispatching _ | Ended => True
     end.

(** What was sent: whole frames, of which the last is torn only if the thread
    ended. *)
Definition sent_to (L : FrameLimits) (co co' : Connection) : Prop :=
  between co' /\ exists sent, co_output co' = co_output co ++ sent /\ torn_stream L sent
    /\ (co_done co' = false -> response_stream L sent).

Lemma send_or_finish_begins L sv co input encoded after sv1 co1 :
  send_or_finish sv co input encoded after = (sv1, co1) -> (forall bytes, encoded = Good bytes -> response_bytes L bytes) ->
  sv_config sv1 = sv_config sv /\ begun L co co1.
Proof. unfold send_or_finish, begun. destruct encoded; intros [= <- <-] Hb; cbn; auto. Qed.

Lemma read_step_begins text sv co sv1 co1 : read_step text sv co = Some (sv1, co1) ->
  sv_config sv1 = sv_config sv /\ begun (sc_frames (sv_config sv)) co co1.
Proof.
  unfold read_step. destruct (co_stage co) eqn:Est; try done.
  assert (forall p, Some (finish sv co) = Some p -> sv_config p.1 = sv_config sv /\ begun (sc_frames (sv_config sv)) co p.2) as Hfin
    by (by intros p [= <-]).
  assert (forall code s p, code <> StatusCode.Ok ->
    (let '(encoded, s') := begin_status (sv_config sv) code text s in
     Some (send_or_finish (with_counters sv s') co [] encoded HangUp)) = Some p ->
    sv_config p.1 = sv_config sv /\ begun (sc_frames (sv_config sv)) co p.2) as Hdrop.
  { intros code s [sv2 co2] Hc. destruct (begin_status _ _ _ _) as [encoded s'] eqn:Eb. intros [= E].
    eapply (send_or_finish_begins (sc_frames (sv_config sv))) in E; [exact E|]. intros bytes ->. by eapply begin_status_bytes. }
  destruct (sv_stop_requested sv); [apply Hfin|]. unfold short_read.
  destruct (read_exact kFrameHeaderBytes _) as [[header after]|]; [|destruct (co_eof co); [apply Hfin|done]].
  pose proof (decode_frame_header_nonempty header (sc_frames (sv_config sv))) as Hh.
  destruct (decode_frame_header _ _) as [[n crc]|e]; [|apply Hdrop; by intros ->].
  destruct (read_exact n after) as [[payload rest]|]; [|destruct (co_eof co); [apply Hfin|done]].
  pose proof (decode_frame_payload_nonempty payload crc) as Hp.
  destruct (decode_frame_payload _ _) as [request|e]; [by intros [= <- <-]|apply Hdrop; by intros ->].
Qed.

Lemma dispatch_step_begins env sv co sv1 co1 : dispatch_step env sv co = Some (sv1, co1) ->
  sv_config sv1 = sv_config sv /\ begun (sc_frames (sv_config sv)) co co1
  /\ forall request, co_stage co1 <> Dispatching request.
Proof.
  unfold dispatch_step. destruct (co_stage co) as [|request| |]; try done.
  destruct (dispatch (sv_config sv) env request (sv_fabric sv)) as [[outcome stop] f] eqn:Ed.
  pose proof (dispatch_nonempty (sv_config sv) env request (sv_fabric sv)) as Hn. rewrite Ed in Hn. cbn [fst] in Hn.
  destruct (match outcome with Good reply => _ | Bad code => _ end) as [encoded s] eqn:Es. intros [= E].
  assert (forall r, co_stage co1 <> Dispatching r) as Hnd
    by (intros r; unfold send_or_finish in E; destruct encoded; injection E as _ <-; done).
  eapply (send_or_finish_begins (sc_frames (sv_config sv))) in E as [E1 E2]; [done|].
  intros bytes ->. destruct outcome as [reply|code].
  - injection Es as Ef <-. exists reply. split; [done|]. by eapply dispatch_response.
  - eapply begin_status_bytes; [|exact Es]. by intros ->.
Qed.

Lemma written_torn L limit pending : response_bytes L pending ->
  torn_stream L (written_of limit pending).
Proof.
  intros Hp. destruct limit as [n|]; cbn; [|left; apply (response_stream_bytes _ [] _ (response_stream_nil L) Hp)].
  destruct (drop (Z.to_nat n) pending) as [|b rest] eqn:Ed.
  - left. rewrite <- (take_drop (Z.to_nat n) pending), Ed, app_nil_r in Hp.
    apply (response_stream_bytes _ [] _ (response_stream_nil L) Hp).
  - right. exists (b :: rest). split; [done|]. exists [], (take (Z.to_nat n) pending). split; [done|].
    split; [apply response_stream_nil|]. by rewrite <- Ed, take_drop.
Qed.

(** The reply goes as far as [limit] says. *)
Lemma send_rest_sent L limit sv co co1 : begun L co co1 -> (forall request, co_stage co1 <> Dispatching request) ->
  sv_config (send_rest limit (sv, co1)).1 = sv_config sv /\ sent_to L co (send_rest limit (sv, co1)).2.
Proof.
  intros [Eo Hst] Hnd. unfold send_rest. cbn [snd]. unfold sent_to, between.
  destruct (co_stage co1) as [|request|pending total after|] eqn:Est; [done|by destruct (Hnd request)| |].
  2:{ split; [done|]. split; [by right|]. exists []. rewrite app_nil_r. split; [done|]. split; [left|intros _]; apply response_stream_nil. }
  pose proof (response_bytes_length L pending Hst) as [Hp _].
  pose proof (response_stream_bytes _ [] _ (response_stream_nil L) Hst) as Hwhole. cbn [app] in Hwhole.
  unfold settle, send_step. cbn [fst snd]. rewrite !Est. destruct (write_complete limit pending) eqn:Ew.
  - assert (0 < zlen pending) as Hl by (unfold zlen; destruct pending; cbn [List.length]; [congruence|lia]).
    rewrite (proj2 (Z.leb_gt _ _) Hl). assert (Z.to_nat (zlen pending) = List.length pending) as -> by (unfold zlen; lia).
    rewrite drop_all, firstn_all. destruct after; cbn; rewrite ?Eo; (split; [done|]); (split; [auto|]);
      exists pending; (split; [done|]); (split; [by left|done]).
  - pose proof (written_torn L limit pending Hst) as Ht. destruct (written_of limit pending) as [|b part] eqn:Epart.
    + cbn [fst snd]. rewrite Est. change (0 <=? 0) with true. cbn. split; [done|]. split; [by right|].
      exists []. by rewrite app_nil_r.
    + assert (exists n, limit = Some n /\ b :: part = take (Z.to_nat n) pending /\ n < zlen pending) as (n & -> & Etake & Hn).
      { destruct limit as [n|]; [|done]. cbn in Ew, Epart. breflect. by exists n. }
      assert (zlen (b :: part) = n) as Elen.
      { rewrite Etake, zlen_take. assert (0 < zlen (b :: part)) by (unfold zlen; cbn [List.length]; lia).
        destruct (Z.leb_spec n 0); [|lia]. rewrite Etake in H. assert (Z.to_nat n = O) as E0 by lia. rewrite E0 in H. by cbn in H. }
      assert (0 < zlen (b :: part)) as Hpos by (unfold zlen; cbn [List.length]; lia).
      rewrite (proj2 (Z.leb_gt _ _) Hpos), Elen. destruct (drop (Z.to_nat n) pending) as [|c rest] eqn:Edrop.
      { exfalso. apply (f_equal List.length) in Edrop. rewrite length_drop in Edrop. unfold zlen in Hn. cbn in Edrop. lia. }
      cbn [fst snd co_stage]. change (0 <=? 0) with true. cbn. rewrite Eo. split; [done|]. split; [by right|]. exists (b :: part). rewrite Etake. by rewrite Etake in Ht.
Qed.

Lemma connection_step_sent env sv co sv' co' : connection_step env sv co = Some (sv', co') ->
  sv_config sv' = sv_config sv /\ co_done co = false /\ sent_to (sc_frames (sv_config sv)) co co'.
Proof.
  unfold connection_step. destruct (read_step (env_text env) sv co) as [[sv1 co1]|] eqn:E1; [|done].
  assert (co_done co = false) as Hd by (revert E1; unfold read_step, co_done; by destruct (co_stage co)).
  apply read_step_begins in E1 as [C1 B1]. intros [= E]. unfold settle in E. cbn [fst snd] in E.
  destruct (dispatch_step env sv1 co1) as [[sv2 co2]|] eqn:E2.
  - apply dispatch_step_begins in E2 as (C2 & [B2 B3] & Hnd).
    rewrite C1 in B3. destruct (send_rest_sent (sc_frames (sv_config sv)) (env_sent env) sv2 co co2) as [C3 B4]; [|done|].
    { split; [rewrite B2; apply B1|exact B3]. }
    rewrite E in C3, B4. cbn in C3, B4. split; [congruence|done].
  - destruct (send_rest_sent (sc_frames (sv_config sv)) (env_sent env) sv1 co co1 B1) as [C3 B4].
    { intros request Est. revert E2. unfold dispatch_step. rewrite Est. destruct (dispatch _ _ _ _) as [[outcome stop] f].
      by destruct (match outcome with Good reply => _ | Bad code => _ end). }
    rewrite E in C3, B4. cbn in C3, B4. split; [congruence|done].
Qed.

Lemma torn_stream_app L p q : response_stream L p -> torn_stream L q -> torn_stream L (p ++ q).
Proof.
  intros Hp [Hq|(rest & Hr & whole & part & -> & Hw & Hb)]; [left; by apply response_stream_app|].
  right. exists rest. split; [done|]. exists (p ++ whole), part. rewrite app_assoc.
  split; [done|]. split; [by apply response_stream_app|done].
Qed.

Lemma serve_pending_sent n env : forall sv co, between co ->
  sv_config (serve_pending n env sv co).1 = sv_config sv
  /\ sent_to (sc_frames (sv_config sv)) co (serve_pending n env sv co).2.
Proof.
  assert (forall L co, between co -> sent_to L co co) as Hrefl.
  { intros L co Hb. split; [done|]. exists []. rewrite app_nil_r. split; [done|]. split; [left|intros _]; apply response_stream_nil. }
  induction n as [|n IH]; intros sv co Hb; cbn [serve_pending]; [split; [done|by apply Hrefl]|].
  destruct (connection_step (env n) sv co) as [[sv' co']|] eqn:E; [|split; [done|by apply Hrefl]].
  apply connection_step_sent in E as (E1 & Hd & Hb' & sent & E2 & E3 & E4).
  destruct (IH sv' co' Hb') as [H1 [Hb2 (sent' & H2 & H3 & H4)]]. rewrite E1 in *. split; [done|]. split; [done|].
  destruct (co_done co') eqn:Ed.
  - exists sent. assert (serve_pending n env sv' co' = (sv', co')) as ->; [|cbn [snd]; by rewrite E2, Ed].
    destruct n; [done|]. cbn [serve_pending]. unfold connection_step, read_step.
    unfold co_done in Ed. by destruct (co_stage co').
  - exists (sent ++ sent'). rewrite H2, E2, app_assoc. specialize (E4 eq_refl). split; [done|].
    split; [by apply torn_stream_app|]. intros Hd'. by apply response_stream_app; [|apply H4].
Qed.

(** The connection the process holds, once it is there, stays between requests. *)
Definition idle_at (sv : Server) (i : nat) : Prop :=
  match sv_connections sv !! i with Some co => between co | None => True end.

Lemma serve_pending_connections n env : forall sv co, sv_connections (serve_pending n env sv co).1 = sv_connections sv.
Proof.
  induction n as [|n IH]; intros sv co; cbn [serve_pending]; [done|].
  destruct (connection_step (env n) sv co) as [[sv' co']|] eqn:E; [|done]. rewrite IH. revert E. unfold connection_step.
  destruct (read_step _ _ _) as [[sv1 co1]|] eqn:E1; [|done]. intros [= E].
  assert (sv_connections sv1 = sv_connections sv) as H1.
  { revert E1. unfold read_step, send_or_finish, short_read. repeat case_match; by intros [= <- <-]. }
  assert (forall s c, sv_connections (settle (dispatch_step (env n)) (s, c)).1 = sv_connections s) as Hd.
  { intros s c. unfold settle, dispatch_step, send_or_finish. cbn [fst snd]. by repeat case_match; simplify_eq. }
  assert (forall step (p : Server * Connection), (forall s c s1 c1, step s c = Some (s1, c1) -> sv_connections s1 = sv_connections s) ->
    sv_connections (settle step p).1 = sv_connections p.1) as Hs.
  { intros step [s c] Hst. unfold settle. cbn [fst snd]. destruct (step s c) as [[s1 c1]|] eqn:Est; [by eapply Hst|done]. }
  assert (forall a s c s1 c1, send_step a s c = Some (s1, c1) -> sv_connections s1 = sv_connections s) as Hsend.
  { intros a s c s1 c1. unfold send_step. repeat case_match; try done; by intros [= <- <-]. }
  assert (sv_connections (settle (dispatch_step (env n)) (sv1, co1)).1 = sv_connections sv1) as H2 by apply Hd.
  set (p := settle (dispatch_step (env n)) (sv1, co1)) in *. rewrite <- H1, <- H2.
  change sv' with (sv', co').1. rewrite <- E. unfold send_rest. destruct (co_stage p.2); try done.
  destruct (write_complete _ _).
  - apply Hs. apply Hsend.
  - rewrite Hs by apply Hsend. apply Hs. intros s c s1 c1. destruct (written_of _ _); [done|apply Hsend].
Qed.

Lemma converse_sent i env data sv : idle_at sv i ->
  sv_config (converse i env data sv).2 = sv_config sv /\ idle_at (converse i env data sv).2 i
  /\ match (converse i env data sv).1 with
     | Good (arrived, closed) =>
         torn_stream (sc_frames (sv_config sv)) arrived
         /\ (closed = false -> response_stream (sc_frames (sv_config sv)) arrived)
         /\ (closed = true -> exists co, sv_connections (converse i env data sv).2 !! i = Some co /\ co_done co = true)
     | Bad e => e <> StatusCode.Ok
     end.
Proof.
  unfold converse, idle_at. destruct (sv_connections sv !! i) as [co|] eqn:Ei; [|by cbn; rewrite Ei].
  intros Hb. destruct (co_done co) eqn:Hd; [by cbn; rewrite Ei|]. cbv zeta.
  match goal with |- context [serve_pending ?n env sv ?co1] =>
    destruct (serve_pending_sent n env sv co1) as [H1 [Hb' (sent & H2 & H3 & H4)]]; [exact Hb|];
    pose proof (serve_pending_connections n env sv co1) as Hc;
    destruct (serve_pending n env sv co1) as [sv' co'] end.
  cbn [fst snd] in *. rewrite H2. cbn [co_output with_connection sv_config sv_connections]. rewrite drop_app_length, Hc.
  rewrite list_lookup_insert_eq by (by eapply lookup_lt_Some). repeat split; [done|done|done|done|].
  intros Hdone. by exists co'.
Qed.

(** What a client reads from a stream of the server: whole frames, and of a torn
    one, once the server has closed its end, nothing. *)
Lemma receive_stream FL c whole part closed : response_stream FL whole -> ccf_frames (cl_config c) = FL ->
  part = [] \/ (closed = true /\ exists rest, rest <> [] /\ response_bytes FL (part ++ rest)) ->
  match receive_frame (with_unread c (whole ++ part)) closed with
  | (None, _) => True
  | (Some o, c') =>
      match o with Bad e => e <> StatusCode.Ok | Good frame => honest_response frame end
      /\ exists u', c' = with_unread c u' /\ (u' = [] \/ exists whole', u' = whole' ++ part /\ response_stream FL whole')
  end.
Proof.
  intros (sent & Hs & ->) HL Hp. destruct Hs as [|[frame bytes] sent [He Hh] Hs]; cbn [map concat app].
  - destruct Hp as [->|(-> & rest & Hr & frame & He & _)].
    + unfold receive_frame, recv_exact. cbn. destruct closed; [|done]. split; [done|]. exists []. by split; [|left].
    + pose proof (read_truncated_frame frame FL (ccf_frames (cl_config c)) part rest He Hr) as Ht. rewrite HL in Ht.
      specialize (Ht (Z.le_refl _)). unfold receive_frame, recv_exact. cbn [with_unread cl_unread cl_config]. rewrite HL.
      destruct (read_exact kFrameHeaderBytes part) as [[header after]|]; [|split; [done|]; exists []; by split; [|left]].
      destruct Ht as (n & crc & -> & ->). split; [done|]. exists []. by split; [|left].
  - cbn [fst snd] in *. rewrite <- app_assoc. erewrite receive_frame_served; [|exact He|by rewrite HL].
    split; [done|]. eexists. split; [reflexivity|]. right. exists (concat (map snd sent)). split; [done|]. by exists sent.
Qed.

Lemma encode_frame_nonempty frame L : encode_frame frame L <> empty_outcome.
Proof. unfold encode_frame. repeat case_match; done. Qed.

Definition cli_frames : FrameLimits := mkFrameLimits kMaxFrameBytesDefault.

(** The connection has ended: nothing more arrives. *)
Definition peer_gone (s : ServerNetwork) : Prop :=
  match sn_current s with
  | Some i => exists co, sv_connections (sn_server s) !! i = Some co /\ co_done co = true
  | None => sn_refusal s = []
  end.

(** What arrived and was not read: whole frames, and the beginning of one more only
    if the connection has ended. *)
Definition server_peer_inv (ses : Session ServerNetwork) : Prop :=
  ccf_frames (cl_config ses.1) = cli_frames
  /\ sc_frames (sv_config (sn_server ses.2)) = cli_frames
  /\ (response_stream cli_frames (cl_unread ses.1)
      \/ (torn_stream cli_frames (cl_unread ses.1) /\ peer_gone ses.2 /\ sn_current ses.2 <> None))
  /\ response_stream cli_frames (sn_refusal ses.2)
  /\ match sn_current ses.2 with Some i => idle_at (sn_server ses.2) i | None => True end.

Lemma transmit_inv data c s : server_peer_inv (c, s) ->
  match transmit data s with
  | (Bad e, s') => e <> StatusCode.Ok /\ server_peer_inv (c, s')
  | (Good (arrived, closed), s') =>
      exists whole part, cl_unread c ++ arrived = whole ++ part /\ response_stream cli_frames whole
        /\ (part = [] \/ (closed = true /\ exists rest, rest <> [] /\ response_bytes cli_frames (part ++ rest)))
        /\ forall u', (u' = [] \/ exists whole', u' = whole' ++ part /\ response_stream cli_frames whole') ->
             server_peer_inv (with_unread c u', s')
  end.
Proof.
  intros (H1 & H2 & H3 & H4 & H5). cbn [fst snd] in *. cbn [transmit network_channel server_network]. unfold network_transmit.
  destruct (sn_current s) as [i|] eqn:Ei.
  - destruct (converse_sent i (sn_env s) data (sn_server s) H5) as (Hc & Hidle & Hr).
    destruct (converse i (sn_env s) data (sn_server s)) as [r sv'] eqn:Econv. cbn [fst snd] in *. rewrite H2 in Hr. rewrite <- Hc in H2.
    destruct H3 as [H3|(H3 & Hgone & _)].
    2:{ destruct r as [[arrived closed]|e].
        - exfalso. revert Econv. unfold converse. unfold peer_gone in Hgone. rewrite Ei in Hgone.
          destruct Hgone as (co & -> & ->). done.
        - split; [done|]. unfold server_peer_inv. cbn. split_and!; try done; [|apply response_stream_nil].
          right. split; [done|]. split; [|done]. revert Econv Hgone. unfold peer_gone, converse. rewrite Ei. cbn.
          intros Econv (co & E1 & E2). rewrite E1, E2 in Econv. injection Econv as _ <-. by exists co. }
    destruct r as [[arrived closed]|e].
    2:{ split; [done|]. unfold server_peer_inv. cbn. split_and!; try done; [by left|apply response_stream_nil]. }
    destruct Hr as (Ht & Hopen & Hdone). destruct closed.
    + destruct Ht as [Ht|(rest & Hrest & whole & part & -> & Hw & Hb)].
      * exists (cl_unread c ++ arrived), []. rewrite app_nil_r. split; [done|]. split; [by apply response_stream_app|].
        split; [by left|]. intros u' Hu. unfold server_peer_inv. cbn. split_and!; try done; [|apply response_stream_nil].
        left. destruct Hu as [->|(w' & -> & Hw')]; [apply response_stream_nil|by rewrite app_nil_r].
      * exists (cl_unread c ++ whole), part. rewrite app_assoc. split; [done|]. split; [by apply response_stream_app|].
        split; [right; split; [done|by exists rest]|]. intros u' Hu. unfold server_peer_inv. cbn.
        split_and!; try done; [|apply response_stream_nil]. destruct Hu as [->|(w' & -> & Hw')]; [left; apply response_stream_nil|].
        right. split; [right; exists rest; split; [done|by exists w', part]|]. split; [by apply Hdone|done].
    + exists (cl_unread c ++ arrived), []. rewrite app_nil_r. split; [done|].
      split; [apply response_stream_app; [done|by apply Hopen]|].
      split; [by left|]. intros u' Hu. unfold server_peer_inv. cbn. split_and!; try done; [|apply response_stream_nil].
      left. destruct Hu as [->|(w' & -> & Hw')]; [apply response_stream_nil|by rewrite app_nil_r].
  - destruct H3 as [H3|(_ & _ & [])]; [|done]. exists (cl_unread c ++ sn_refusal s), []. rewrite app_nil_r.
    split; [done|]. split; [by apply response_stream_app|]. split; [by left|]. intros u' Hu.
    unfold server_peer_inv. cbn. split_and!; try done; [|apply response_stream_nil].
    left. destruct Hu as [->|(w' & -> & Hw')]; [apply response_stream_nil|by rewrite app_nil_r].
Qed.

Lemma server_peer_request type body ses : server_peer_inv ses ->
  (request type body ses).1 <> Some empty_outcome
  /\ ((request type body ses).1 <> None -> server_peer_inv (request type body ses).2).
Proof.
  destruct ses as [c s]. intros Hi. unfold request. destruct (negb (cl_connected c)); [done|].
  pose proof (encode_frame_nonempty (mkFrame type body) (ccf_frames (cl_config c))) as He.
  destruct (encode_frame _ _) as [encoded|e]; [|split; [by intros [= ->]|done]].
  pose proof (transmit_inv encoded c s Hi) as Ht. destruct (transmit encoded s) as [[[arrived closed]|e] s'].
  2:{ destruct Ht. cbn. split; [by intros [= ->]|done]. }
  destruct Ht as (whole & part & Eu & Hw & Hp & Hi').
  pose proof Hi as (H1 & _). pose proof (receive_stream cli_frames c whole part closed Hw H1 Hp) as Hr.
  rewrite Eu. destruct (receive_frame _ _) as [[o|] c']; [|done]. destruct Hr as (Ho & u' & -> & Hu).
  specialize (Hi' u' Hu). destruct o as [reply|e]; [|cbn; split; [by intros [= ->]|done]].
  destruct Ho as [Hh1 Hh2]. destruct (decide (fr_type reply = MessageType.Error)) as [Et|Et].
  - rewrite Et, eqb_refl. destruct (Hh2 Et) as (error & -> & Hc). cbn. split; [by intros [= ?]|done].
  - rewrite (proj2 (eqb_neq _ _) Et), Hh1. by cbn.
Qed.

Lemma refuse_rest_config sv : sv_config (refuse_rest sv) = sv_config sv.
Proof.
  unfold refuse_rest, server_next. cbn [server_step]. unfold refusal_step. destruct (ac_stage (sv_acceptor sv)); try done.
  by repeat case_match; simplify_eq.
Qed.

Lemma accept_check_config sv : sv_config (server_next sv EvAcceptCheck) = sv_config sv.
Proof.
  unfold server_next. cbn [server_step]. unfold accept_check. destruct (ac_stage (sv_acceptor sv)); try done.
  by destruct (sv_stop_requested sv).
Qed.

(** The accept loop sends whole refusals, and what it accepts begins with a
    request. *)
Lemma dial_inv config port s s' : sc_frames (sv_config (sn_server s)) = cli_frames -> ccf_frames config = cli_frames ->
  dial port s = (StatusCode.Ok, s') -> server_peer_inv (mkFabricClient config 0 true [], s').
Proof.
  intros Hr Hf. cbn [dial server_network]. unfold network_dial. destruct (_ || _); [done|]. cbv zeta.
  set (sv := server_next (refuse_rest (sn_server s)) EvAcceptCheck).
  assert (sc_frames (sv_config sv) = cli_frames) as Hc by (unfold sv; by rewrite accept_check_config, refuse_rest_config).
  unfold accept_one. destruct (ac_stage (sv_acceptor sv)); try done. cbn [negb ok].
  destruct (_ <=? _) eqn:Ecap.
  - intros [= <-]. assert (sv_config (refuse_peer sv StatusCode.Busy (sn_text s) (note_connection_rejected (sv_stats sv))) = sv_config sv)
      as Hp by (unfold refuse_peer; by destruct (begin_status _ _ _ _)).
    unfold server_peer_inv. cbn. rewrite refuse_rest_config, Hp. split_and!; try done; [left; apply response_stream_nil|].
    unfold rest_of_refusal, refuse_peer. destruct (begin_status _ _ _ _) as [[bytes|e] s1] eqn:Eb; cbn; [|apply response_stream_nil].
    apply begin_status_bytes in Eb; [|done]. rewrite Hc in Eb.
    apply (response_stream_bytes _ [] _ (response_stream_nil cli_frames) Eb).
  - intros [= <-]. unfold server_peer_inv. cbn. split_and!; try done; [left; apply response_stream_nil|apply response_stream_nil|].
    unfold idle_at. cbn. rewrite list_lookup_middle by done. by left.
Qed.

#[global] Instance server_network_honest : HonestPeer ServerNetwork.
Proof.
  refine {| peer_ready := fun s => sc_frames (sv_config (sn_server s)) = cli_frames; peer_inv := server_peer_inv |}.
  - intros config port s s' Hr Hf Hd. by eapply dial_inv.
  - apply server_peer_request.
  - intros c s epoch Hi. exact Hi.
Defined.
End ServerPeer.

(** ** Theorems *)

Lemma manner_waits argv why : waits_for why (manner argv) ->
  match why with
  | ForReply => exists command rest, argv = command :: rest
      /\ command ∈ ["shutdown"; "emit"; "query"; "explain"; "inspect"; "metrics"; "policy"]%string
  | Serving | Stopping => head argv = Some "serve"%string
  end.
Proof.
  unfold waits_for, manner. destruct argv as [|command rest]; [done|].
  destruct (String.eqb_spec command "serve") as [->|_]; [by destruct why|].
  destruct (String.eqb_spec command "emit") as [->|_]; [destruct why; try done; intros _; eexists _, _; split; [done|set_solver]|].
  destruct (existsb _ _) eqn:E; [|done]. destruct why; try done. intros _. exists command, rest. split; [done|].
  apply existsb_exists in E as (name & Hin & ->%String.eqb_eq). apply list_elem_of_In. cbn in Hin |- *. tauto.
Qed.

Lemma manner_excuses argv : may_excuse (manner argv) = true -> head argv = Some "emit"%string.
Proof.
  unfold manner. destruct argv as [|command rest]; [done|]. destruct (String.eqb command "serve"); [done|].
  destruct (String.eqb_spec command "emit") as [->|_]; [done|]. by destruct (existsb _ _).
Qed.

(** C17: Every run of [lqf] ends as documented, against any peer that never sends an
    error reply with the code of success (the modelled server is one), and whatever
    the operating system answers.  No run dereferences a missing option or an empty
    result.  One that exits exits with 0, 1 or 2.  With 0 it has reported nothing on
    the error output, except that [emit] may report a refusal whose code the peer
    gave as success; with 1 it has reported one error.  With 2 the command line is
    at fault: in every environment, and whatever the files and the runtime hold,
    the same command line ends with 2, with the same diagnostics, and has no other
    effect: no output, no file changed, no connection made.  A run that goes no
    further is a client command waiting for a reply, or [serve] waiting to be stopped
    or for its threads; in particular, the loops over a journal end. *)
Theorem commands_end_as_documented (S : Type) (NS : Network S) (HP : HonestPeer S) (CC : Charconv)
    (LD : LongDouble) env argv w : peer_ready (w_net w) ->
  match main env argv w with
  | (Exited code, w') =>
      (code = kExitOk /\ (w_err w' = w_err w \/ (head argv = Some "emit"%string /\ diagnosed w w')))
      \/ (code = kExitFailure /\ diagnosed w w')
      \/ (code = kExitUsage /\ exists l, w' = complained l w /\
          forall env2 w2, main env2 argv w2 = (Exited kExitUsage, complained l w2))
  | (Waits ForReply, _) => exists command rest, argv = command :: rest
      /\ command ∈ ["shutdown"; "emit"; "query"; "explain"; "inspect"; "metrics"; "policy"]%string
  | (Waits Serving, _) | (Waits Stopping, _) => head argv = Some "serve"%string
  | (Value _, _) | (Crashed, _) | (OutOfFuel, _) => False
  end.
Proof.
  intros Hw. destruct (main_finishes argv) as [[l Hl]|Hr].
  - rewrite Hl. right. right. split; [done|]. by exists l.
  - specialize (Hr env w Hw). destruct (main env argv w) as [[a|code| |why|] w']; [by destruct Hr|..]; try done.
    + destruct Hr as [[-> [He|[Hx He]]]|Hr]; [left; auto| |right; left; done].
      apply manner_excuses in Hx. left. auto.
    + by apply manner_waits in Hr; destruct why.
Qed.
