(* ===== verification/ToolSpec.v ===== *)
(** * The command line and the files

    [journal-verify] decides exactly whether a file is an intact journal, and no
    command but [serve] loses the content of a file. *)

From Stdlib Require Import ZArith Lia Bool List String Ascii.
From stdpp Require Import base decidable list strings gmap.
From S2P Require Import Prelude OrdMap Float Core Hash Quality Metric Identity Counter.
From S2P Require Import Capability Config Policy Classification LinkRegistry EvidenceStore.
From S2P Require Import Codec FieldCodecs CapabilityRegistry Classifier ClassifierSpec Journal Fabric FabricSpec.
From S2P Require Import JournalSpec Frame Render Messages Server Client ServerSpec WireSpec Json Cli CliSpec Clock.
From S2P Require Import Commands CommandsSpec.

Open Scope Z_scope.

#[local] Arguments enum_val : simpl never.

(** ** Reading a whole journal *)

Section Scan.
Import JournalReader.

(** A journal the reader has nothing to object to: a valid header and whole
    records of admissible size, numbered consecutively. *)
Definition journal_intact (cfg : JournalConfig) (file : list Z) : Prop :=
  exists header records epoch first, file = header ++ encode_records records
    /\ zlen header = kFileHeaderBytes /\ validate_file_header header = Good epoch
    /\ 0 <= first /\ numbered first records /\ Forall (record_fits cfg) records.

(** No record is shorter than seventeen bytes, so a reader with this budget
    reaches no limit. *)
Definition roomy (r : t) (s : list Z) : Prop := budget r (zlen s / 17) (zlen s).

Lemma roomy_accept r record s : roomy r (encode_record_bytes record ++ s) ->
  roomy (accept r (zlen (record_payload record)) record) s.
Proof.
  unfold roomy. rewrite zlen_app. intros Hb. pose proof (zlen_nonneg s).
  apply budget_accept; [apply Z.div_pos; lia|lia|].
  destruct Hb as (H1 & H2 & H3 & H4). split_and!; try lia.
  assert (1 + zlen s / 17 <= (zlen (encode_record_bytes record) + zlen s) / 17); [|lia].
  rewrite zlen_record, zlen_payload. pose proof (zlen_nonneg (jrec_body record)).
  unfold kRecordHeaderBytes, kRecordPrefixBytes. apply Z.div_le_lower_bound; [lia|].
  pose proof (Z.mul_div_le (zlen s) 17). lia.
Qed.

Lemma roomy_below r s : roomy r s -> below_limits r.
Proof.
  intros (H1 & H2 & H3 & H4). pose proof (zlen_nonneg s). pose proof (Z.div_pos (zlen s) 17). split; lia.
Qed.

(** What [next] never changes. *)
Definition same_file (r r' : t) : Prop :=
  config r' = config r /\ content r' = content r /\ rr_opened (report r') = rr_opened (report r)
  /\ rr_header_valid (report r') = rr_header_valid (report r)
  /\ rr_truncated_file (report r') = rr_truncated_file (report r) /\ rr_status (report r') = rr_status (report r).

Lemma next_same_file r o r' : next r = (o, r') -> same_file r r'.
Proof. unfold next. repeat case_match; intros [= <- <-]; repeat split. Qed.

Lemma same_file_trans r1 r2 r3 : same_file r1 r2 -> same_file r2 r3 -> same_file r1 r3.
Proof. unfold same_file. intuition congruence. Qed.

Lemma read_all_same_file fuel : forall r, same_file r (read_all fuel r).2.
Proof.
  induction fuel as [|n IH]; intros r; cbn [read_all]; [repeat split|].
  destruct (next r) as [[[record|]|s] r1] eqn:E; apply next_same_file in E; try done.
  specialize (IH r1). destruct (read_all n r1). by eapply same_file_trans.
Qed.

Lemma next_fits r p s record r' : stands r p s -> next r = (Good (Some record), r') ->
  zlen (jrec_body record) + kRecordPrefixBytes <= jc_max_record_bytes (config r).
Proof.
  intros (Hc & Hp & Hl & He) Hn. unfold next in Hn. rewrite Hc, He in Hn.
  destruct (_ || _) eqn:E0 in Hn; [done|]. cbv zeta in Hn.
  destruct (_ =? 0) eqn:E1 in Hn; [done|]. destruct (_ <? kRecordHeaderBytes) eqn:E2 in Hn; [done|].
  set (L := decode_u32 0 _) in *.
  destruct ((L <? kRecordPrefixBytes) || (jc_max_record_bytes (config r) <? L)) eqn:E3; [done|]. breflect.
  destruct (zlen (slice _ L _) <? L) eqn:E4; [done|]. breflect.
  destruct (negb _) in Hn; [done|]. destruct (parse_journal_record_kind _); [|done].
  destruct (have_ordinal r && (_ <=? _)); [done|]. destruct (have_ordinal r && negb _); [done|].
  injection Hn as <- _. cbn [jrec_body]. unfold kRecordPrefixBytes in *.
  assert (zlen (slice (position r + kRecordHeaderBytes) L (p ++ s)) <= L) as Hlen by (rewrite slice_eq, zlen_take; lia).
  unfold zlen in *. rewrite length_drop. lia.
Qed.

(** The only way to stop without an objection is the end of the file. *)
Lemma next_clean_end r p s o r' : stands r p s -> below_limits r -> next r = (o, r') ->
  (forall x, o <> Good (Some x)) -> undecided r' -> s = [] /\ o = Good None.
Proof.
  intros Hs Hb Hn Ho Hu. rewrite (next_at r p s Hs Hb) in Hn. cbv zeta in Hn. destruct Hu as [Ht Hd].
  destruct (zlen (slice 0 8 s) =? 0) eqn:E.
  - injection Hn as <- <-. breflect. split; [|done]. rewrite slice_eq, drop_0, zlen_take in E.
    destruct s; [done|]. rewrite zlen_cons in E. pose proof (zlen_nonneg s). lia.
  - exfalso. revert Hn Ht Hd. repeat case_match; intros [= <- <-]; cbn; try done; try (by intros; eapply Ho).
Qed.

Lemma read_all_clean fuel : forall r p s, stands r p s -> Forall is_byte s -> (List.length s < fuel)%nat ->
  roomy r s -> jc_max_record_bytes (config r) <= u32_max -> undecided (read_all fuel r).2 ->
  s = encode_records (read_all fuel r).1 /\ Forall (record_fits (config r)) (read_all fuel r).1.
Proof.
  induction fuel as [|n IH]; intros r p s Hs Hb Hf Hr Hm; [lia|]. cbn [read_all].
  destruct (next r) as [[[record|]|st] r1] eqn:En.
  - destruct (next_sound r p s record r1 Hs Hb En) as (s1 & -> & Hs1 & Hr1 & Ho & _).
    pose proof (next_fits _ _ _ _ _ Hs En) as Hfit. pose proof (next_same_file _ _ _ En) as (Hcfg & _).
    apply Forall_app in Hb as [_ Hb1].
    assert (List.length s1 < n)%nat as Hl.
    { rewrite length_app in Hf. pose proof (zlen_record record) as Hz. rewrite zlen_payload in Hz.
      pose proof (zlen_nonneg (jrec_body record)). unfold zlen, kRecordHeaderBytes, kRecordPrefixBytes in *. lia. }
    specialize (IH r1 _ s1 Hs1 Hb1 Hl). rewrite Hcfg in IH.
    assert (roomy r1 s1) as Hr' by (rewrite Hr1; by apply roomy_accept).
    specialize (IH Hr' Hm). destruct (read_all n r1) as [rest r2]. cbn [fst snd] in *. intros Hu.
    destruct (IH Hu) as [-> Hall]. split; [done|]. constructor; [|done]. by split.
  - intros Hu. cbn [fst snd] in *. destruct (next_clean_end r p s _ r1 Hs (roomy_below _ _ Hr) En) as [-> _]; done.
  - intros Hu. cbn [fst snd] in *. destruct (next_clean_end r p s _ r1 Hs (roomy_below _ _ Hr) En) as [-> ?]; done.
Qed.

(** The loop of the commands is the replay, and the file's length is fuel
    enough. *)
Lemma scan_read_all fuel : forall printed r p s, stands r p s -> Forall is_byte s -> (List.length s < fuel)%nat ->
  scan fuel 0 printed r = Some ((read_all fuel r).1, StatusCode.Ok, (read_all fuel r).2).
Proof.
  induction fuel as [|n IH]; intros printed r p s Hs Hb Hf; [lia|]. cbn [scan read_all].
  change (negb (0 =? 0) && (0 <=? printed)) with false. cbv iota.
  destruct (next r) as [[[record|]|st] r1] eqn:En; [|done|].
  - destruct (next_sound r p s record r1 Hs Hb En) as (s1 & -> & Hs1 & _).
    apply Forall_app in Hb as [_ Hb1]. rewrite (IH (printed + 1) r1 _ s1 Hs1 Hb1).
    + by destruct (read_all n r1).
    + rewrite length_app in Hf. pose proof (zlen_record record) as Hz. rewrite zlen_payload in Hz.
      pose proof (zlen_nonneg (jrec_body record)). unfold zlen, kRecordHeaderBytes, kRecordPrefixBytes in *. lia.
  - exfalso. destruct Hs as (Hc & _). unfold next in En. rewrite Hc in En. revert En. by repeat case_match.
Qed.

(** Every intact file is read to its end without an objection. *)
Lemma intact_undecided records : forall r p first fuel, stands r p (encode_records records) ->
  numbered first records -> Forall (record_fits (config r)) records -> 0 <= first ->
  (records <> [] -> in_sequence r first) -> undecided r -> roomy r (encode_records records) ->
  (List.length records < fuel)%nat -> undecided (read_all fuel r).2.
Proof.
  induction records as [|record records IH]; intros r p first [|fuel] Hs Hn Hf H0 Hq Hu Hr Hl; try (cbn in Hl; lia).
  - cbn [read_all]. rewrite (next_at r p [] Hs (roomy_below _ _ Hr)). exact Hu.
  - destruct Hn as [Ho Hn]. apply Forall_cons in Hf as [Hf1 Hf2].
    change (encode_records (record :: records)) with (encode_record_bytes record ++ encode_records records) in *.
    cbn [read_all]. rewrite (next_record r p record _ Hs (roomy_below _ _ Hr) Hf1) by (rewrite Ho; by apply Hq).
    set (ra := accept r (zlen (record_payload record)) record).
    assert (undecided (read_all fuel ra).2) as Hx.
    { apply (IH ra (p ++ encode_record_bytes record) (first + 1)); try done; try lia.
      - by apply stands_accept.
      - intros Hne _. destruct records as [|next_one rest]; [done|]. destruct Hn as [Ho' _].
        apply Forall_cons in Hf2 as [(Hu64 & _) _]. rewrite Ho' in Hu64.
        unfold ra, accept. cbn. rewrite Ho, wrap64_id by done. lia.
      - by apply roomy_accept.
      - cbn in Hl. lia. }
    by destruct (read_all fuel ra).
Qed.

Lemma encode_records_length records : (17 * List.length records <= List.length (encode_records records))%nat.
Proof.
  induction records as [|r l IH]; [done|].
  change (encode_records (r :: l)) with (encode_record_bytes r ++ encode_records l). rewrite length_app.
  pose proof (zlen_record r) as Hz. rewrite zlen_payload in Hz. pose proof (zlen_nonneg (jrec_body r)).
  unfold zlen, kRecordHeaderBytes, kRecordPrefixBytes in *. cbn [List.length]. lia.
Qed.

(** The bytes a file may have for its replay to reach no limit. *)
Definition within_limits (cfg : JournalConfig) (file : list Z) : Prop :=
  zlen file / 17 < jc_max_recovery_records cfg <= u64_max /\ zlen file < jc_max_recovery_bytes cfg <= u64_max
  /\ jc_max_record_bytes cfg <= u32_max.

Lemma temp_removed temp : (if file_exists true temp then None else temp) = None.
Proof. by destruct temp. Qed.

(** Opening a file and reading it to its end: the file is not changed, the loop
    ends, and there is no objection exactly when the file is intact. *)
Lemma open_and_scan cfg file temp : Forall is_byte file -> file <> [] -> within_limits cfg file ->
  match open no_faults cfg (mkDisk (Some file) temp) with
  | (Bad s, r, d) => s <> StatusCode.Ok /\ d = mkDisk (Some file) None /\ ~ journal_intact cfg file
  | (Good _, r, d) =>
      d = mkDisk (Some file) None /\ exists records r', scan (scan_fuel r) 0 0 r = Some (records, StatusCode.Ok, r')
      /\ rr_opened (report r') = true /\ rr_header_valid (report r') = true /\ rr_truncated_file (report r') = false
      /\ rr_status (report r') = StatusCode.Ok /\ (undecided r' <-> journal_intact cfg file)
  end.
Proof.
  intros Hb Hne (L1 & L2 & L3). unfold open.
  cbn [disk_temp disk_main fa_remove_ok fa_open_ok fa_main_seen fa_temp_seen fa_read no_faults negb].
  change (file_exists true (Some file)) with true. cbn [opened_content written_of]. rewrite andb_false_r, temp_removed. destruct (take 40 file) as [|b h] eqn:Et; [by destruct file|]. rewrite <- Et.
  destruct (zlen (take 40 file) <? kFileHeaderBytes) eqn:El; breflect.
  { split; [done|]. split; [done|]. intros (header & records & epoch & first & -> & Hh & _).
    rewrite zlen_take, zlen_app, Hh in El. pose proof (zlen_nonneg (encode_records records)).
    unfold kFileHeaderBytes in El. lia. }
  rewrite zlen_take in El. unfold kFileHeaderBytes in El.
  assert (forall header rest, file = header ++ rest -> zlen header = kFileHeaderBytes -> header = take 40 file) as Hhead.
  { intros header rest -> Hz. symmetry. apply take_app_length'. unfold zlen, kFileHeaderBytes in Hz. lia. }
  destruct (validate_file_header (take 40 file)) as [epoch|s] eqn:Ev.
  2:{ split; [by eapply validate_header_bad|]. split; [done|].
      intros (header & records & epoch & first & Hf & Hh & Hv & _). rewrite (Hhead _ _ Hf Hh) in Hv. congruence. }
  split; [done|]. set (r0 := mk _ 40 _ _ _ _ _ _).
  assert (stands r0 (take 40 file) (drop 40 file)) as Hs.
  { unfold stands, r0. cbn [content position last_good_offset reached_end]. rewrite take_drop, zlen_take.
    unfold kFileHeaderBytes. split_and!; try done; lia. }
  assert (zlen (drop 40 file) <= zlen file) as Hz by (unfold zlen; rewrite length_drop; lia).
  assert (roomy r0 (drop 40 file)) as Hr.
  { unfold roomy, budget, r0. cbn. pose proof (Z.div_le_mono _ _ 17 ltac:(lia) Hz). lia. }
  assert (List.length (drop 40 file) < scan_fuel r0)%nat as Hfuel
    by (unfold scan_fuel, r0; cbn [content]; rewrite length_drop; lia).
  pose proof (Forall_drop _ 40 _ Hb) as Hbd.
  rewrite (scan_read_all _ 0 r0 _ _ Hs Hbd Hfuel). eexists _, _. split; [reflexivity|].
  destruct (read_all_same_file (scan_fuel r0) r0) as (_ & _ & -> & -> & -> & ->).
  split_and!; try reflexivity. split.
  - intros Hu. destruct (read_all_clean _ r0 _ _ Hs Hbd Hfuel Hr L3 Hu) as [Hrec Hall].
    destruct (read_all_sound (scan_fuel r0) r0 _ _ Hs Hbd) as (s' & Hsound); [done|].
    destruct (read_all (scan_fuel r0) r0) as [records r'] eqn:Er. destruct Hsound as (_ & _ & _ & _ & _ & Hnum).
    cbn [fst snd] in *. exists (take 40 file), records, epoch.
    exists (match records with a :: _ => jrec_ordinal a | [] => 0 end). rewrite <- Hrec, take_drop.
    rewrite zlen_take. unfold kFileHeaderBytes. split_and!; try done; try lia.
    + destruct Hall as [|a l [Ha _] _]; [done|]. unfold is_u64 in Ha. lia.
    + destruct records as [|a l]; [done|]. by eapply Hnum.
  - intros (header & records & epoch' & first & Hf & Hh & _ & H0 & Hn & Hall).
    pose proof (Hhead _ _ Hf Hh) as Ehd.
    assert (drop 40 file = encode_records records) as Ed.
    { rewrite Hf. apply drop_app_length'. unfold zlen, kFileHeaderBytes in Hh. lia. }
    rewrite Ed in *. eapply (intact_undecided records r0 _ first); try done.
    pose proof (encode_records_length records). lia.
Qed.
End Scan.

(** ** Journal verification *)

Section Verify.
Context {S : Type} `{NS : Network S} `{CC : Charconv} `{LD : LongDouble}.

Lemma temporary_other path : temporary path <> path.
Proof.
  unfold temporary. induction path as [|c path IH]; [done|]. by intros [= E].
Qed.

Lemma temporary_back path : string_back (temporary path) = Some "p"%char.
Proof. unfold temporary. induction path as [|c path IH]; [done|]. destruct path; [done|exact IH]. Qed.

(** Removing the temporary file is all the reader does to an existing file. *)
Lemma store_disk_removed path files content : files !! path = Some content ->
  store_disk path (mkDisk (Some content) None) files = delete (temporary path) files.
Proof.
  intros Hf. pose proof (temporary_other path) as Hne. apply map_eq. intros k. unfold store_disk. cbn.
  destruct (decide (k = path)) as [->|H1].
  - rewrite lookup_partial_alter_eq, lookup_delete_ne by done. by rewrite Hf.
  - by rewrite lookup_partial_alter_ne.
Qed.

Lemma one_option_arguments spec name value (body : Args -> Cmd S unit) :
  requests_help [name; value] = false -> is_option_token name = true -> split_first "=" name = None ->
  (exists option, find_option name spec = Some option /\ os_takes_value option = true) ->
  cs_required spec = [name] ->
  with_arguments spec [name; value] body = body (mkArgs (<[name := value]> ∅) ∅).
Proof.
  intros Hh Ht Hs (option & Ho & Hv) Hr. unfold with_arguments. rewrite Hh. unfold parse_arguments. cbn [parse_tokens].
  rewrite Ht. cbn [negb]. rewrite Hs, Ho, Hv, Hr. cbn [negb no_args arg_values arg_flags].
  cbn [find_first arg_values]. rewrite lookup_insert_eq. cbn. reflexivity.
Qed.

Lemma main_journal_verify env path w : path <> "--help"%string -> path <> "-h"%string ->
  main env ["journal-verify"; "--journal"; path]%string w
  = (if negb (file_exists (ce_file_seen env) (w_files w !! path))
     then report_failure_text StatusCode.NotFound ("journal file does not exist: " +:+ path)
     else
       let '(opened, reader, disk) :=
         JournalReader.open (ce_reader_faults env) default_journal_config (disk_at path (w_files w)) in
       _ ← set_files (store_disk path disk (w_files w));
       match opened with
       | Bad s =>
           _ ← print ("journal " +:+ path +:+ newline);
           _ ← print_chunks (render_recovery_report (JournalReader.report reader));
           report_failure s
       | Good _ =>
           match scan (scan_fuel reader) 0 0 reader with
           | None => out_of_fuel
           | Some (_, failure, reader) =>
               _ ← print ("journal " +:+ path +:+ newline);
               _ ← print_chunks (render_recovery_report (JournalReader.report reader));
               _ ← succeed failure;
               verdict (JournalReader.report reader)
           end
       end) w.
Proof.
  intros H1 H2. change (main env _ w) with (run_journal_verify env ["--journal"; path]%string w).
  unfold run_journal_verify. rewrite one_option_arguments; [|..|by eexists; split|done]; try done.
  cbn. by rewrite (proj2 (String.eqb_neq _ _) H1), (proj2 (String.eqb_neq _ _) H2).
Qed.

(** The exit code of the last step of a verification. *)
Lemma verdict_code report (w : World S) :
  rr_opened report = true -> rr_header_valid report = true -> rr_truncated_file report = false ->
  rr_status report = StatusCode.Ok ->
  exists e, verdict (A := unit) report w
  = (Exited (if rr_torn_tail report || rr_degraded report then kExitFailure else kExitOk),
     mkWorld (w_out w) (w_err w ++ e) (w_files w) (w_net w)).
Proof.
  intros H1 H2 H3 H4. unfold verdict. rewrite H1, H2, H3, H4. cbn.
  destruct (rr_torn_tail report), (rr_degraded report); cbn; try (by eexists).
  exists []. rewrite app_nil_r. by destruct w.
Qed.
End Verify.

(** What the reader takes for a new journal is made one. *)
Lemma verify_initialises (S : Type) `{NS : Network S} `{CC : Charconv} `{LD : LongDouble} env path content (w : World S) :
  let f := ce_reader_faults env in
  path <> "--help"%string -> path <> "-h"%string -> ce_file_seen env = true -> w_files w !! path = Some content ->
  fa_remove_ok f = true -> fa_open_ok f = true -> fa_written f = None -> fa_sync_ok f = true ->
  fa_main_seen f = false \/ written_of (fa_read f) (take 40 content) = [] ->
  exists w', main env ["journal-verify"; "--journal"; path]%string w = (Exited kExitOk, w')
    /\ w_net w' = w_net w
    /\ w_files w' = store_disk path (mkDisk
         (Some (write_at 0 (build_file_header 0 0) (opened_content (fa_main_seen f) (Some content))))
         (if file_exists (fa_temp_seen f) (w_files w !! temporary path) then None else w_files w !! temporary path))
         (w_files w).
Proof.
  cbv zeta. intros H1 H2 Hseen Hf Hrm Hop Hwr Hsy Hread. rewrite main_journal_verify by done. rewrite Hf, Hseen.
  cbn [file_exists negb]. unfold JournalReader.open, disk_at. cbn [disk_main disk_temp]. rewrite Hf, Hrm, Hop, Hwr, Hsy.
  rewrite andb_false_r. cbn [negb file_exists]. set (c := opened_content _ _).
  assert (written_of (fa_read (ce_reader_faults env)) (take 40 c) = []) as ->.
  { unfold c, opened_content. destruct (fa_main_seen _); [by destruct Hread|]. by destruct (fa_read _) as [n|]; cbn; rewrite ?take_nil. }
  cbn [write_complete written_of negb]. eexists (mkWorld _ _ _ _). by split; [|split].
Qed.

(** C18: [lqf journal-verify] decides whether a file is an intact journal.  When the
    calls of the file system succeed, and the file named is within the limits of
    recovery: whatever bytes it holds, the command ends, and exits with 0 if the
    file is empty or is a valid header followed by whole, checksummed records with
    consecutive ordinals, and with 1 otherwise.  An empty file is made a journal
    without records; any other is unchanged; and so is every other file but the
    temporary file beside it, which is removed.  The network is not used. *)
Theorem journal_verify_is_exact (S : Type) (NS : Network S) (CC : Charconv) (LD : LongDouble) env path content w :
  path <> "--help"%string -> path <> "-h"%string -> ce_reader_faults env = no_faults -> ce_file_seen env = true ->
  w_files w !! path = Some content -> Forall is_byte content ->
  within_limits default_journal_config content ->
  exists code w', main env ["journal-verify"; "--journal"; path]%string w = (Exited code, w')
    /\ (code = kExitOk \/ code = kExitFailure)
    /\ (code = kExitOk <-> content = [] \/ journal_intact default_journal_config content)
    /\ w_files w' = delete (temporary path)
         (<[path := match content with [] => build_file_header 0 0 | _ => content end]> (w_files w))
    /\ w_net w' = w_net w.
Proof.
  intros H1 H2 Hno Hseen Hf Hb Hl. destruct (decide (content = [])) as [->|Hne].
  { destruct (verify_initialises S env path [] w) as (w' & E & Hn & Hw'); rewrite ?Hno; try done; [by right|].
    exists kExitOk, w'. rewrite Hno in Hw'. split_and!; auto; [by split; auto|]. rewrite Hw'.
    rewrite <- (store_disk_removed path (<[path := build_file_header 0 0]> (w_files w)) (build_file_header 0 0))
      by apply lookup_insert_eq.
    apply map_eq. intros k. unfold store_disk. cbn [disk_main disk_temp fa_temp_seen fa_main_seen no_faults].
    destruct (decide (k = path)) as [->|Hk]; [by rewrite !lookup_partial_alter_eq|].
    rewrite !(lookup_partial_alter_ne _ _ path k) by done.
    destruct (decide (k = temporary path)) as [->|Hk2].
    - rewrite !lookup_partial_alter_eq. by destruct (w_files w !! temporary path).
    - by rewrite !(lookup_partial_alter_ne _ _ (temporary path) k), lookup_insert_ne by done. }
  rewrite main_journal_verify by done. unfold disk_at. rewrite Hf, Hno, Hseen. cbn [file_exists negb].
  assert (match content with [] => build_file_header 0 0 | _ => content end = content) as -> by (by destruct content).
  rewrite (insert_id (w_files w) path content Hf).
  assert (forall P : Prop, (content = [] \/ P) <-> P) as Hor by (intros P; split; [by intros [|]|auto]). setoid_rewrite Hor.
  pose proof (open_and_scan default_journal_config content (w_files w !! temporary path) Hb Hne Hl) as Ho.
  destruct (JournalReader.open _ _ _) as [[[o|s] r] d].
  - destruct Ho as (-> & records & r' & Hs & R1 & R2 & R3 & R4 & Hiff). cbv iota.
    rewrite Hs. unfold mbind, Cmd_bind, set_files, print, print_chunks, succeed, mret, Cmd_ret. cbv beta iota.
    match goal with |- context [verdict _ ?w1] => destruct (verdict_code (JournalReader.report r') w1 R1 R2 R3 R4) as [e ->] end.
    eexists _, _. split; [reflexivity|]. cbn [w_files w_net]. split_and!; [by case_match; auto| |by apply store_disk_removed|done].
    rewrite <- Hiff. unfold undecided. destruct (rr_torn_tail _), (rr_degraded _); cbn; intuition discriminate.
  - destruct Ho as (Hs & -> & Hn). cbn. eexists _, _. split; [reflexivity|].
    assert (ok s = false) as -> by (by destruct s). cbn. split_and!; auto; [by split|by apply store_disk_removed].
Qed.

(** ** Files the commands leave alone *)

Section Keeps.
Context {S : Type} (k : string) (content : list Z).

(** A file of this name and content is still there afterwards, whatever the
    outcome. *)
Definition keeps {A} (m : Cmd S A) : Prop :=
  forall w, w_files w !! k = Some content -> w_files (m w).2 !! k = Some content.

Lemma keeps_bind {A B} (m : Cmd S A) (f : A -> Cmd S B) : keeps m -> (forall a, keeps (f a)) -> keeps (m ≫= f).
Proof.
  intros Hm Hf w Hw. specialize (Hm w Hw). unfold mbind, Cmd_bind.
  destruct (m w) as [[a|code| |why|] w']; [by apply Hf|done..].
Qed.

Lemma keeps_files {A} (f : gmap string (list Z) -> Cmd S A) :
  (forall files, files !! k = Some content -> keeps (f files)) -> keeps (get_files ≫= f).
Proof. intros Hf w Hw. by apply (Hf (w_files w)). Qed.

Lemma keeps_set_files files : files !! k = Some content -> keeps (set_files files).
Proof. intros Hf w _. exact Hf. Qed.

Lemma keeps_pure {A} (m : Cmd S A) : (forall w, w_files (m w).2 = w_files w) -> keeps m.
Proof. intros Hm w Hw. by rewrite Hm. Qed.

Lemma keeps_attempt {A} (o : Outcome A) : keeps (attempt o).
Proof. apply keeps_pure. by destruct o as [a|[]]. Qed.

Lemma keeps_succeed s : keeps (succeed s).
Proof. apply keeps_pure. by destruct s. Qed.

Lemma keeps_checked {A} spec (p : Parsed A) : keeps (checked spec p).
Proof. apply keeps_pure. by destruct p. Qed.

Lemma keeps_optional {A} spec name args (fallback : A) parse : keeps (optional spec name args fallback parse).
Proof. unfold optional. case_match; [apply keeps_checked|by apply keeps_pure]. Qed.

Lemma keeps_require name args : keeps (require name args).
Proof. unfold require. apply keeps_pure. by case_match. Qed.

Lemma keeps_verdict {A} report : keeps (A := A) (verdict report).
Proof. apply keeps_pure. unfold verdict. by case_match. Qed.

Lemma keeps_with_arguments spec argv body : (forall args, keeps (body args)) -> keeps (with_arguments spec argv body).
Proof. intros Hb. unfold with_arguments. repeat case_match; [by apply keeps_pure|apply Hb|by apply keeps_pure]. Qed.

Lemma store_disk_other path d files : k <> path -> k <> temporary path -> store_disk path d files !! k = files !! k.
Proof. intros H1 H2. unfold store_disk. by rewrite !lookup_partial_alter_ne. Qed.

(** Opening a journal to read it keeps what it holds, if the file is found to be
    there and something of its header is read. *)
Lemma open_keeps_main faults config temp : fa_main_seen faults = true ->
  written_of (fa_read faults) (take 40 content) <> [] ->
  disk_main (JournalReader.open faults config (mkDisk (Some content) temp)).2 = Some content.
Proof.
  intros Hseen Hne. unfold JournalReader.open. cbn [disk_main disk_temp file_exists]. rewrite Hseen. cbn [opened_content].
  destruct (written_of _ (take 40 content)) as [|b h]; [done|]. by repeat case_match.
Qed.

Lemma keeps_reader_open faults config path files r : fa_main_seen faults = true ->
  written_of (fa_read faults) (take 40 content) <> [] -> k <> temporary path ->
  files !! k = Some content -> JournalReader.open faults config (disk_at path files) = r ->
  store_disk path r.2 files !! k = Some content.
Proof.
  intros Hseen Hne Ht Hf <-. destruct (decide (k = path)) as [<-|Hp]; [|by rewrite store_disk_other].
  unfold store_disk. rewrite lookup_partial_alter_eq. unfold disk_at. rewrite Hf. by apply open_keeps_main.
Qed.

Section Network.
Context `{NS : Network S}.

Lemma keeps_on_client {A} (op : Session S -> Answer A * Session S) c : keeps (on_client op c).
Proof. apply keeps_pure. intros w. unfold on_client. by destruct (op _) as [[] []]. Qed.

Lemma keeps_ask {A} (op : Session S -> Answer A * Session S) c : keeps (ask op c).
Proof.
  apply keeps_bind; [apply keeps_on_client|]. intros r. apply keeps_bind; [apply keeps_attempt|]. intros. by apply keeps_pure.
Qed.

Lemma keeps_closing {A} (m : Cmd S A) : keeps m -> keeps (closing m).
Proof. intros Hm w Hw. specialize (Hm w Hw). unfold closing. by destruct (m w) as [[] w']. Qed.

Lemma keeps_with_client {A} config (body : FabricClient -> Cmd S A) : (forall c, keeps (body c)) ->
  keeps (with_client config body).
Proof.
  intros Hb. apply keeps_bind.
  - intros w Hw. unfold open_connection. case_match; [by apply keeps_attempt|]. destruct (dial _ _). by apply keeps_attempt.
  - intros c. apply keeps_closing, keeps_bind; [apply keeps_ask|auto].
Qed.
End Network.
End Keeps.

(** The copy an offline command replays. *)
Definition offline_copy (env : CliEnv) : option string :=
  (fun dir => join_path dir ("lqf-cli-" +:+ text.format_i64 (ce_stamp env) +:+ ".journal")) <$> ce_temp_dir env.

Ltac keep_step :=
  lazymatch goal with
  | |- keeps _ _ (with_arguments _ _ _) => apply keeps_with_arguments; intro
  | |- keeps _ _ (with_client _ _) => apply keeps_with_client; intro
  | |- keeps _ _ (let _ := _ in _) => cbv zeta
  | |- keeps _ _ (attempt _) => apply keeps_attempt
  | |- keeps _ _ (succeed _) => apply keeps_succeed
  | |- keeps _ _ (checked _ _) => apply keeps_checked
  | |- keeps _ _ (optional _ _ _ _ _) => apply keeps_optional
  | |- keeps _ _ (require _ _) => apply keeps_require
  | |- keeps _ _ (port_of _ _) => unfold port_of
  | |- keeps _ _ (verdict _) => apply keeps_verdict
  | |- keeps _ _ (ask _ _) => apply keeps_ask
  | |- keeps _ _ (on_client _ _) => apply keeps_on_client
  | |- keeps _ _ (get_files ≫= _) => fail
  | |- keeps _ _ (_ ≫= _) => apply keeps_bind; [|intro]
  | |- keeps _ _ (if ?b then _ else _) => destruct b
  | |- keeps _ _ (match catalog_find _ _ with _ => _ end) => fail
  | |- keeps _ _ (match ?x with _ => _ end) => destruct x
  | |- keeps _ _ _ => by apply keeps_pure
  end.

Section Commands.
Context {S : Type} `{NS : Network S} `{CC : Charconv} `{LD : LongDouble}.
Context (env : CliEnv) (k : string) (content : list Z).
Hypothesis Hseen : fa_main_seen (ce_reader_faults env) = true.
Hypothesis Hne : written_of (fa_read (ce_reader_faults env)) (take 40 content) <> [].
Hypothesis Htemp : forall path, k <> temporary path.
Hypothesis Hcopy : offline_copy env <> Some k.

Lemma keeps_journal_verify argv : keeps (S := S) k content (run_journal_verify env argv).
Proof using Hseen Hne Htemp.
  apply keeps_with_arguments. intros args. apply keeps_bind; [apply keeps_require|]. intros path.
  apply keeps_files. intros files Hf. case_match; [by apply keeps_pure|].
  destruct (JournalReader.open _ _ _) as [[opened reader] disk] eqn:Eo.
  apply keeps_bind; [|intros _; repeat keep_step].
  apply keeps_set_files. by apply (keeps_reader_open k content _ _ path files _ Hseen Hne (Htemp path) Hf Eo).
Qed.

Lemma keeps_journal_dump argv : keeps (S := S) k content (run_journal_dump env argv).
Proof using Hseen Hne Htemp.
  apply keeps_with_arguments. intros args. apply keeps_bind; [apply keeps_require|]. intros path.
  apply keeps_bind; [apply keeps_optional|]. intros limit.
  apply keeps_files. intros files Hf. case_match; [by apply keeps_pure|].
  destruct (JournalReader.open _ _ _) as [[opened reader] disk] eqn:Eo.
  apply keeps_bind; [|intros _; repeat keep_step].
  apply keeps_set_files. by apply (keeps_reader_open k content _ _ path files _ Hseen Hne (Htemp path) Hf Eo).
Qed.

Lemma keeps_offline {A} path (body : Fabric -> Cmd S A) : (forall f, keeps k content (body f)) ->
  keeps k content (with_offline_journal env path body).
Proof using Htemp Hcopy.
  intros Hb. unfold with_offline_journal, offline_failure. apply keeps_files. intros files Hf.
  destruct (if file_exists _ _ then _ else None) as [c|]; [|repeat keep_step]. case_match; [by apply keeps_pure|].
  revert Hcopy. unfold offline_copy. destruct (ce_temp_dir env) as [dir|]; [|intros _; by apply keeps_pure].
  cbn [fmap option_fmap option_map]. intros Hd. cbv zeta. case_match; [by apply keeps_pure|].
  apply keeps_bind; [|intros _; apply keeps_bind; [apply keeps_attempt|exact Hb]].
  apply keeps_set_files. rewrite store_disk_other; [done| |apply Htemp]. intros ->. by apply Hd.
Qed.

Lemma keeps_metrics argv : keeps (S := S) k content (run_metrics env argv).
Proof using Htemp Hcopy.
  apply keeps_with_arguments. intros args. unfold select_endpoint.
  apply keeps_bind; [repeat keep_step|]. intros [path|]; repeat ((apply keeps_offline; intro) || keep_step).
Qed.

Lemma keeps_policy argv : keeps (S := S) k content (run_policy env argv).
Proof using Htemp Hcopy.
  apply keeps_with_arguments. intros args. unfold select_endpoint.
  apply keeps_bind; [repeat keep_step|]. intros [path|]; repeat ((apply keeps_offline; intro) || keep_step).
Qed.

Lemma keeps_quality {A} spec call (display : Args -> A -> string) argv : keeps (S := S) k content (quality_command spec call display argv).
Proof. unfold quality_command, make_quality_query. repeat keep_step. Qed.

Lemma keeps_declare n : forall revision declaration last c, keeps (S := S) k content (declare_revisions n revision declaration last c).
Proof. induction n as [|n IH]; intros; cbn [declare_revisions]; [by apply keeps_pure|]. repeat (apply IH || keep_step). Qed.

Lemma keeps_emit_observations n : forall index observe t c, keeps (S := S) k content (emit_observations env n index observe t c).
Proof. induction n as [|n IH]; intros; cbn [emit_observations]; [by apply keeps_pure|]. repeat (apply IH || keep_step). Qed.

Lemma keeps_emit argv : keeps (S := S) k content (run_emit env argv).
Proof.
  unfold run_emit. do 20 try keep_step.
  destruct (catalog_find _ _); [|by apply keeps_pure]. keep_step. unfold emit_session. cbv zeta.
  apply keeps_bind; [apply keeps_declare|intro]. keep_step; [keep_step|]. keep_step; [keep_step|].
  apply keeps_bind; [apply keeps_emit_observations|intro]. repeat keep_step.
Qed.

Lemma main_keeps argv : head argv <> Some "serve"%string -> keeps (S := S) k content (main env argv).
Proof using Hseen Hne Htemp Hcopy.
  intros Hs. unfold main. destruct argv as [|command rest]; [by apply keeps_pure|].
  destruct (String.eqb command "serve") eqn:E; [by apply String.eqb_eq in E as ->|].
  repeat first [ apply keeps_journal_verify | apply keeps_journal_dump | apply keeps_metrics | apply keeps_policy
    | apply keeps_quality | apply keeps_emit | unfold run_shutdown, run_inspect; keep_step ].
Qed.
End Commands.

(** C19: Commands other than [serve] lose no data: whatever the command line and the
    peer (an honest one or not), whatever the other calls of the operating system
    answer, and however the command ends, a file that holds something still holds
    exactly that afterwards, provided that the journal reader finds the file there
    and reads at least a byte of its header, and unless the file's name is that of a
    temporary file of a journal or of the copy an offline command makes.  (The
    proviso is needed: see the next theorem.) *)
Theorem reading_commands_preserve_files (S : Type) (NS : Network S) (CC : Charconv) (LD : LongDouble) env argv w
    path content :
  head argv <> Some "serve"%string -> w_files w !! path = Some content ->
  fa_main_seen (ce_reader_faults env) = true -> written_of (fa_read (ce_reader_faults env)) (take 40 content) <> [] ->
  (forall journal, path <> temporary journal) -> offline_copy env <> Some path ->
  w_files (main env argv w).2 !! path = Some content.
Proof. intros Hs Hf Hseen Hne Ht Hc. by apply (main_keeps env path content Hseen Hne Ht Hc argv Hs). Qed.

(** C33: [journal-verify] can destroy the journal it is to verify, and say that it is
    intact.  Let the reader's second look not find the file (it cannot be opened for
    reading), or let nothing be read of its header (the read fails, or the file is
    empty), every other call of the file system succeeding.  Then, whatever the
    file holds, a fresh header is written over its beginning, after truncating it
    in the first case, and the command exits with 0. *)
Theorem journal_verify_can_destroy (S : Type) (NS : Network S) (CC : Charconv) (LD : LongDouble) env path content w :
  let f := ce_reader_faults env in
  path <> "--help"%string -> path <> "-h"%string -> ce_file_seen env = true -> w_files w !! path = Some content ->
  fa_remove_ok f = true -> fa_open_ok f = true -> fa_written f = None -> fa_sync_ok f = true ->
  fa_main_seen f = false \/ written_of (fa_read f) (take 40 content) = [] ->
  exists w', main env ["journal-verify"; "--journal"; path]%string w = (Exited kExitOk, w')
    /\ w_files w' !! path
       = Some (if fa_main_seen f then build_file_header 0 0 ++ drop 40 content else build_file_header 0 0).
Proof.
  cbv zeta. intros H1 H2 Hseen Hf Hrm Hop Hwr Hsy Hread.
  destruct (verify_initialises S env path content w H1 H2 Hseen Hf Hrm Hop Hwr Hsy Hread) as (w' & E & _ & Hw').
  exists w'. split; [done|]. rewrite Hw'. unfold store_disk. cbn [disk_main]. rewrite lookup_partial_alter_eq.
  unfold write_at. change (Z.to_nat 0) with O. rewrite take_0. cbn [app].
  assert (0 + List.length (build_file_header 0 0) = 40)%nat as -> by (by vm_compute).
  destruct (fa_main_seen _); cbn [opened_content]; [done|by rewrite drop_nil, app_nil_r].
Qed.

Module ToolExamples.
Import ClassifierExamples FabricExamples ServerExamples.

(** A host on which every call of the operating system succeeds. *)
Definition machine : CliEnv :=
  mkCliEnv (fun _ => now0) 7 no_faults true (Some "/tmp"%string) 5 true "" StatusCode.Ok StatusCode.Ok 9000 []
    true [] StatusCode.Ok.
Definition kept : list Z := Eval vm_compute in
  build_file_header 7 0 ++ encode_records [mkJournalRecord JournalRecordKind.Capability 1 [1; 2; 3]].
Definition shell (content : list Z) : World ServerNetwork :=
  mkWorld [] [] {[ "a.journal"%string := content ]}
    (mkServerNetwork 4710 (mkServer (serve_config "") running no_stats false 0 [] new_acceptor) (fun _ => ServerExamples.env) "" None []).

Lemma commands_end_as_documented_witness :
  exists w', main machine ["query"; "--port"; "70000"]%string (shell kept) = (Exited kExitUsage, w')
    /\ w_files w' = w_files (shell kept).
Proof.
  assert (peer_ready (w_net (shell kept))) as Hp by reflexivity.
  pose proof (commands_end_as_documented ServerNetwork _ _ fixed_charconv ld machine
    ["query"; "--port"; "70000"]%string (shell kept) Hp) as He.
  destruct (main _ _ _) as [ending w'] eqn:E. vm_compute in E. injection E as <- <-.
  destruct He as [(He & _)|[(He & _)|(_ & l & El & _)]]; [discriminate|discriminate|].
  eexists. split; [reflexivity|]. apply (f_equal w_files) in El. exact El.
Defined.

Lemma journal_verify_is_exact_witness :
  exists w', main machine ["journal-verify"; "--journal"; "a.journal"]%string (shell kept) = (Exited kExitOk, w')
    /\ journal_intact default_journal_config kept.
Proof.
  destruct (journal_verify_is_exact ServerNetwork _ fixed_charconv ld machine "a.journal" kept (shell kept))
    as (code & w' & E & _ & Hi & _).
  - discriminate.
  - discriminate.
  - reflexivity.
  - reflexivity.
  - reflexivity.
  - repeat constructor; vm_compute; done.
  - repeat split; vm_compute; done.
  - assert (code = kExitOk) as Hc.
    { apply (f_equal fst) in E. cbn [fst] in E. vm_compute in E. by injection E. }
    exists w'. split; [by rewrite <- Hc|]. destruct (proj1 Hi Hc) as [He|He]; [discriminate He|exact He].
Defined.

(** The reader's second look does not find the file. *)
Definition blind : CliEnv :=
  mkCliEnv (fun _ => now0) 7 (mkFaults true false true true None true true None true) true (Some "/tmp"%string) 5 true ""
    StatusCode.Ok StatusCode.Ok 9000 [] true [] StatusCode.Ok.

Lemma journal_verify_can_destroy_witness :
  exists w', main blind ["journal-verify"; "--journal"; "a.journal"]%string (shell kept) = (Exited kExitOk, w')
    /\ w_files w' !! "a.journal"%string = Some (build_file_header 0 0).
Proof.
  apply (journal_verify_can_destroy ServerNetwork _ fixed_charconv ld blind "a.journal" kept (shell kept));
    [discriminate|discriminate|reflexivity..|left; reflexivity].
Defined.

Lemma reading_commands_preserve_files_witness :
  w_files (main machine ["policy"; "--journal"; "a.journal"]%string (shell kept)).2 !! "a.journal"%string = Some kept.
Proof.
  apply (reading_commands_preserve_files ServerNetwork _ fixed_charconv ld).
  - discriminate.
  - reflexivity.
  - reflexivity.
  - discriminate.
  - intros journal E. apply (f_equal string_back) in E. by rewrite temporary_back in E.
  - discriminate.
Defined.
End ToolExamples.
