(* ===== verification/SessionSpec.v ===== *)
(** * The command line against a running server

    What a client command prints is what the fabric behind the server answers:
    the connection, the handshake, the frames and the codecs between the two are
    transparent ([WireSpec]), and the server is the one [lqf serve] starts. *)

From Stdlib Require Import ZArith Lia Bool List String Ascii.
From stdpp Require Import base decidable list strings gmap.
From S2P Require Import Prelude OrdMap Float Core Hash Quality Metric Identity Counter.
From S2P Require Import Capability Config Policy Classification LinkRegistry EvidenceStore.
From S2P Require Import Codec FieldCodecs CapabilityRegistry Classifier ClassifierSpec Journal Fabric FabricSpec.
From S2P Require Import JournalSpec Frame Render Messages Server Client ServerSpec WireSpec Json Cli CliSpec Clock.
From S2P Require Import Commands CommandsSpec.

Open Scope Z_scope.

#[local] Arguments enum_val : simpl never.

(** ** A connection of the network is a connection of the server *)

Section Lift.
Context `{CC : Charconv} `{LD : LongDouble}.
Context (port : Z) (env : RequestEnv) (text : string) (i : nat).

Definition network_of (sv : Server) : ServerNetwork :=
  mkServerNetwork port sv (fun _ => env) text (Some i) [].

Definition lift {A} (r : A * Session Server) : A * Session ServerNetwork := (r.1, (r.2.1, network_of r.2.2)).

Lemma request_lift type body ses :
  request type body (ses.1, network_of ses.2)
  = lift (request (H := connection_channel i (fun _ => env)) type body ses).
Proof.
  destruct ses as [c sv]. unfold request. cbn [fst snd].
  destruct (negb (cl_connected c)); [done|]. destruct (encode_frame _ _) as [encoded|]; [|done].
  cbn [transmit network_channel server_network connection_channel]. unfold network_transmit. cbn [network_of sn_current sn_env sn_server].
  destruct (converse i (fun _ => env) encoded sv) as [[[arrived closed]|e] sv']; [|done]. cbn [sn_port sn_text].
  destruct (receive_frame _ _) as [[[reply|e]|] c']; [|done|done].
  repeat case_match; done.
Qed.

Lemma exchange_lift {B} type body (cb : codec B) rtype ses :
  exchange type body cb rtype (ses.1, network_of ses.2)
  = lift (exchange (H := connection_channel i (fun _ => env)) type body cb rtype ses).
Proof.
  unfold exchange. rewrite request_lift. by destruct (request type body ses) as [[[]|] [c sv]].
Qed.

Lemma call_lift {A B} (ca : codec A) type v (cb : codec B) rtype ses :
  call ca type v cb rtype (ses.1, network_of ses.2)
  = lift (call (H := connection_channel i (fun _ => env)) ca type v cb rtype ses).
Proof.
  unfold call. cbn [fst]. destruct (encode _ _ _) as [body|]; [apply exchange_lift|by destruct ses].
Qed.

Lemma map_answer_lift {A B} (g : A -> Outcome B) (r : Answer A * Session Server) :
  map_answer g (lift r) = lift (map_answer g r).
Proof. by destruct r as [[[]|] [c sv]]. Qed.

Lemma remote_lift {A} (c : Call A) ses :
  remote c (ses.1, network_of ses.2) = lift (remote (H := connection_channel i (fun _ => env)) c ses).
Proof.
  destruct c; cbn [remote]; first [apply call_lift | apply exchange_lift
    | unfold client_publish_policy, client_ingest, client_capabilities, client_policy_document;
      rewrite call_lift; apply map_answer_lift].
Qed.

Lemma handshake_lift ses :
  handshake (ses.1, network_of ses.2) = lift (handshake (H := connection_channel i (fun _ => env)) ses).
Proof.
  unfold handshake. cbv zeta. rewrite call_lift. cbn [fst].
  destruct (call _ _ _ _ _ ses) as [[[welcome|]|] [c sv]]; cbn [lift fst snd]; try done.
  repeat case_match; done.
Qed.
End Lift.

(** ** The handshake *)

Section Handshake.
Context `{CC : Charconv} `{LD : LongDouble}.

Lemma hello_sendable token port : sendable c_hello_request (sc_codec (serve_config token)) (sc_frames (serve_config token))
  (mkHelloRequest LQF_WIRE_PROTOCOL_VERSION (ccf_client_name (cli_client_config port)) 0).
Proof.
  split; [repeat (split || constructor); vm_compute; done|]. eexists. split; [vm_compute; reflexivity|vm_compute; done].
Qed.

Lemma welcome_sendable token f hello : is_u64 (fb_epoch f) ->
  hello_protocol_version hello = LQF_WIRE_PROTOCOL_VERSION ->
  sendable c_welcome_reply (sc_codec (serve_config token)) (sc_frames (serve_config token))
    (welcome (serve_config token) f hello).
Proof.
  intros He Hv. unfold welcome. rewrite Hv. cbn [Z.eqb LQF_WIRE_PROTOCOL_VERSION].
  revert He. generalize (fb_epoch f). intros epoch He. split.
  - assert (typed c_u64 epoch) as Ht by (cbn; unfold is_u64, u64_max in He; lia).
    refine (conj _ (conj Ht (conj _ (conj _ _)))); vm_compute; repeat split; done.
  - eexists. split; [vm_compute; reflexivity|]. vm_compute. done.
Qed.

(** A client of the tool on an idle connection of the server it starts. *)
Record tool_session (token : string) (i : nat) (ses : Session Server) : Prop := {
  ts_ready : ready i ses;
  ts_server : sv_config ses.2 = serve_config token;
  ts_client : exists port, cl_config ses.1 = cli_client_config port;
}.

Lemma tool_session_after token i ses f s output : tool_session token i ses ->
  tool_session token i (after_call i ses f s (mkConnection [] false output Reading)).
Proof. intros [A B C]. constructor; [by apply ready_after|exact B|exact C]. Qed.

Lemma tool_session_epoch token i c sv epoch : tool_session token i (c, sv) ->
  tool_session token i (mkFabricClient (cl_config c) epoch (cl_connected c) (cl_unread c), sv).
Proof. intros [[] B C]. by repeat constructor. Qed.

Lemma handshake_served token i env ses : tool_session token i ses -> env_sent env = None ->
  zslen (env_text env) <= 512 -> is_u64 (fb_epoch (sv_fabric ses.2)) ->
  exists ses', handshake (H := connection_channel i (fun _ => env)) ses = (Some (Good tt), ses')
    /\ tool_session token i ses' /\ sv_fabric ses'.2 = sv_fabric ses.2.
Proof.
  intros Hts Hok Ht He. pose proof Hts as [Hrd Hsv (port & Hcl)]. unfold handshake. rewrite Hcl. cbv zeta.
  set (hello := mkHelloRequest _ _ _).
  destruct (call_served c_hello_request c_welcome_reply i env ses MessageType.Hello hello MessageType.Welcome
    (Good (welcome (serve_config token) (sv_fabric ses.2) hello)) (sv_fabric ses.2)) as (s & output & E); try done.
  - rewrite Hsv. apply (hello_sendable token port).
  - rewrite Hsv. intros body Hb. unfold dispatch. cbn [fr_type fr_body]. unfold handle, reading. cbn [fr_body].
    by rewrite Hb.
  - rewrite Hsv. intros b [= <-]. by apply welcome_sendable.
  - rewrite E. cbn [after_call]. eexists. split; [reflexivity|].
    split; [|reflexivity]. apply tool_session_epoch. by apply tool_session_after.
Qed.
End Handshake.

(** ** A session with one call *)

Section Session.
Context `{CC : Charconv} `{LD : LongDouble}.

(** A server started by [lqf serve] that accepts one more connection. *)
Record accepting (token : string) (sv : Server) : Prop := {
  ac_config : sv_config sv = serve_config token;
  ac_running : sv_stop_requested sv = false;
  ac_room : sv_active sv < 64;
  ac_loop : ac_stage (sv_acceptor sv) = Checking \/ ac_stage (sv_acceptor sv) = Waiting;
  ac_epoch : is_u64 (fb_epoch (sv_fabric sv));
}.

(** The server once its accept loop waits, and once it has taken the connection. *)
Definition waiting_server (sv : Server) : Server := server_next (refuse_rest sv) EvAcceptCheck.
Definition accepted_server (sv : Server) : Server :=
  let sv := waiting_server sv in
  mkServer (sv_config sv) (sv_fabric sv) (note_connection_accepted (sv_stats sv)) (sv_stop_requested sv)
    (sv_active sv + 1) (sv_connections sv ++ [mkConnection [] false [] Reading])
    (mkAcceptor Checking (ac_sent (sv_acceptor sv))).

Lemma waiting_accepting token sv : accepting token sv ->
  accepting token (waiting_server sv) /\ ac_stage (sv_acceptor (waiting_server sv)) = Waiting
  /\ sv_fabric (waiting_server sv) = sv_fabric sv.
Proof.
  intros [A B C D E]. unfold waiting_server.
  assert (refuse_rest sv = sv) as ->.
  { unfold refuse_rest, server_next. cbn [server_step]. unfold refusal_step. by destruct D as [-> | ->]. }
  unfold server_next. cbn [server_step]. unfold accept_check. destruct D as [Ed|Ed]; rewrite Ed.
  - rewrite B. split; [|done]. constructor; cbn; try done. by right.
  - split; [|done]. constructor; try done. by right.
Qed.

Lemma accepted token text sv : accepting token sv ->
  accept_one true StatusCode.Ok text (waiting_server sv) = Some (accepted_server sv).
Proof.
  intros Hac. destruct (waiting_accepting token sv Hac) as ([A B C D E] & Hw & _). unfold accept_one. rewrite Hw, A.
  cbn [serve_config sc_max_connections]. rewrite (proj2 (Z.leb_gt _ _) C). unfold accepted_server. by rewrite A.
Qed.

Lemma accepted_session token port sv : accepting token sv ->
  tool_session token (List.length (sv_connections (waiting_server sv)))
    (mkFabricClient (cli_client_config port) 0 true [], accepted_server sv).
Proof.
  intros Hac. destruct (waiting_accepting token sv Hac) as ([A B C D E] & Hw & _).
  constructor; [|exact A|by exists port]. constructor; cbn; rewrite ?A; try done.
  exists []. by apply list_lookup_middle.
Qed.

(** The calls that read: none of them answers with an empty outcome. *)
Definition reads {A} (c : Call A) : bool :=
  match c with CQuery _ | CExplain _ | CInspect _ | CCapabilities _ => true | _ => false end.

Lemma local_nonempty {A} (c : Call A) env f : reads c = true -> (local c env f).1 <> empty_outcome.
Proof.
  destruct c; try done; intros _; cbn [local]; unfold query, explain, reading, capabilities; cbn [fst];
    by destruct (validate_link_identity _).
Qed.

(** Ask one question and print the answer. *)
Definition one_call {S A} `{Network S} (c : Call A) (display : A -> string) (client : FabricClient) : Cmd S unit :=
  r ← ask (remote c) client; _ ← print (display r.1); exit_with kExitOk.

(** The world afterwards: the answer on the output, or the refusal on the error
    output; no file changed; the fabric is the one the call leaves. *)
Definition answered {A} (display : A -> string) (l : Outcome A * Fabric) (w : World ServerNetwork)
    (r : Ending unit * World ServerNetwork) : Prop :=
  match l.1 with
  | Good a => r.1 = Exited kExitOk /\ w_out r.2 = w_out w ++ [Lit (display a)] /\ w_err r.2 = w_err w
  | Bad e => r.1 = Exited kExitFailure /\ w_out r.2 = w_out w
             /\ w_err r.2 = w_err w ++ [Lit "lqf: error: "; StatusText e; Lit newline]
  end /\ w_files r.2 = w_files w /\ sv_fabric (sn_server (w_net r.2)) = l.2.

Lemma one_call_answered {A} (c : Call A) display token port env text i w client sv :
  reads c = true -> tool_session token i (client, sv) -> env_sent env = None -> zslen (env_text env) <= 512 ->
  request_sendable c (sc_codec (serve_config token)) (sc_frames (serve_config token)) ->
  reply_sendable c (sc_codec (serve_config token)) (sc_frames (serve_config token)) (local c env (sv_fabric sv)).1 ->
  w_net w = network_of port env text i sv ->
  answered display (local c env (sv_fabric sv)) w (one_call c display client w).
Proof.
  intros Hread [Hrd Hsv _] Hok Ht Hq Hp Hw. cbn [fst snd] in *. rewrite <- Hsv in Hq, Hp.
  pose proof (local_nonempty c env (sv_fabric sv) Hread) as Hne.
  destruct (calls_transparent c i env (client, sv) Hrd Hok Ht Hq Hp) as (E1 & E2 & E3). cbn [fst snd] in *.
  unfold one_call, ask, on_client, mbind, Cmd_bind. rewrite Hw.
  pose proof (remote_lift port env text i c (client, sv)) as El. cbn [fst snd] in El. rewrite El. clear El.
  destruct (remote c (client, sv)) as [a [c' sv']]. cbn [lift fst snd] in *. rewrite E1. unfold answered.
  destruct (local c env (sv_fabric sv)) as [[v|e] f']; cbn [fst snd] in *; cbn; [by subst f'|].
  assert (e <> StatusCode.Ok) as He by (by intros ->). subst f'. destruct e; try done; by cbn.
Qed.

Lemma hang_up_fabric s : sv_fabric (sn_server (hang_up s)) = sv_fabric (sn_server s).
Proof.
  cbn. destruct (sn_current s) as [i|]; [|done]. unfold network_hang_up, server_next. cbn [server_step]. unfold on_thread.
  by destruct (sv_connections (sn_server s) !! i).
Qed.

(** Connecting. *)
Lemma connection_opened token port env text w cur refusal sv : accepting token sv -> port <> 0 ->
  w_net w = mkServerNetwork port sv (fun _ => env) text cur refusal ->
  open_connection (cli_client_config port) w
  = (Value (mkFabricClient (cli_client_config port) 0 true []),
     mkWorld (w_out w) (w_err w) (w_files w)
       (network_of port env text (List.length (sv_connections (waiting_server sv))) (accepted_server sv))).
Proof.
  intros Hac Hport Hw. unfold open_connection, connect. change (ccf_port (cli_client_config port)) with port.
  rewrite (proj2 (Z.eqb_neq _ _) Hport), Hw. cbn [dial server_network]. unfold network_dial.
  cbn [sn_server sn_port sn_env sn_text]. rewrite Z.eqb_refl, (ac_running _ _ Hac). cbn [negb orb]. cbv zeta.
  change (server_next (refuse_rest sv) EvAcceptCheck) with (waiting_server sv). rewrite (accepted token text sv Hac).
  destruct (waiting_accepting token sv Hac) as ([A B C _ _] & _). rewrite A.
  cbn [serve_config sc_max_connections]. by rewrite (proj2 (Z.leb_gt _ _) C).
Qed.

(** A session from the connection on: the handshake succeeds, and the body runs
    on an idle connection. *)
Lemma with_client_served {A} (body : FabricClient -> Cmd ServerNetwork A) token port env text w cur refusal sv :
  accepting token sv -> port <> 0 -> env_sent env = None -> zslen (env_text env) <= 512 ->
  w_net w = mkServerNetwork port sv (fun _ => env) text cur refusal ->
  exists i client sv', tool_session token i (client, sv') /\ sv_fabric sv' = sv_fabric sv
    /\ with_client (cli_client_config port) body w
       = closing (body client) (mkWorld (w_out w) (w_err w) (w_files w) (network_of port env text i sv')).
Proof.
  intros Hac Hport Hok Ht Hw. unfold with_client. unfold mbind at 1, Cmd_bind at 1.
  rewrite (connection_opened token port env text w cur refusal sv Hac Hport Hw).
  pose proof (accepted_session token port sv Hac) as Hts.
  set (i := List.length (sv_connections _)) in *. set (client := mkFabricClient _ _ _ _) in *.
  assert (sv_fabric (accepted_server sv) = sv_fabric sv) as Hf by (by apply (waiting_accepting token sv Hac)).
  set (sv1 := accepted_server sv) in *.
  destruct (handshake_served token i env (client, sv1) Hts Hok Ht) as ([c2 sv2] & Eh & Hts2 & Hf2).
  { cbn [snd]. rewrite Hf. apply Hac. }
  cbn [snd] in Hf2. rewrite Hf in Hf2. exists i, c2, sv2. split; [done|]. split; [done|].
  pose proof (handshake_lift port env text i (client, sv1)) as El. rewrite Eh in El. cbn [fst snd lift] in El.
  set (w1 := mkWorld (w_out w) (w_err w) (w_files w) (network_of port env text i sv2)).
  assert (ask handshake client (mkWorld (w_out w) (w_err w) (w_files w) (network_of port env text i sv1))
          = (Value (tt, c2), w1)) as Eask.
  { unfold ask, on_client, mbind, Cmd_bind. cbn [w_net w_out w_err w_files]. rewrite El. reflexivity. }
  unfold closing, mbind, Cmd_bind. by rewrite Eask.
Qed.

(** From the connection to its end. *)
Lemma session_answered {A} (c : Call A) display token port env text w cur refusal sv :
  reads c = true -> accepting token sv -> port <> 0 -> env_sent env = None -> zslen (env_text env) <= 512 ->
  request_sendable c (sc_codec (serve_config token)) (sc_frames (serve_config token)) ->
  reply_sendable c (sc_codec (serve_config token)) (sc_frames (serve_config token)) (local c env (sv_fabric sv)).1 ->
  w_net w = mkServerNetwork port sv (fun _ => env) text cur refusal ->
  answered display (local c env (sv_fabric sv)) w (with_client (cli_client_config port) (one_call c display) w).
Proof.
  intros Hread Hac Hport Hok Ht Hq Hp Hw.
  destruct (with_client_served (one_call c display) token port env text w cur refusal sv Hac Hport Hok Ht Hw)
    as (i & c2 & sv2 & Hts & Hf & ->). rewrite <- Hf in Hp |- *.
  set (w1 := mkWorld (w_out w) (w_err w) (w_files w) (network_of port env text i sv2)).
  pose proof (one_call_answered c display token port env text i w1 c2 sv2 Hread Hts Hok Ht Hq Hp eq_refl) as Ha.
  unfold closing. revert Ha. unfold answered.
  destruct (one_call c display c2 w1) as [ending w2]. cbn [fst snd]. intros (Hend & Hfiles & Hfab).
  destruct (local c env (sv_fabric sv2)) as [[v|e] f']; destruct Hend as (-> & Ho & Hx);
    cbn [fst snd w_out w_err w_files w_net]; rewrite hang_up_fabric; done.
Qed.
End Session.

(** ** The commands that ask one question *)

Definition port_given (args : Args) (port : Z) : Prop :=
  exists text, args_find "--port" args = Some text /\ parse_port_value text false = PGood port.

Definition link_given (args : Args) (link : LinkIdentity) : Prop :=
  exists text, args_find "--link" args = Some text /\ parse_link_value text = PGood link.

Definition quality_request (args : Args) (q : QualityQuery) : Prop :=
  exists link, link_given args link
    /\ match args_find "--lane" args with
       | None => q = mkQualityQuery link None [] true 64 8
       | Some text => exists lane, parse_lane_value text = PGood lane /\ q = mkQualityQuery link (Some lane) [] true 64 8
       end.

Definition inspected (args : Args) (filter : InspectionFilter) : Prop :=
  match args_find "--link" args with
  | None => filter = mkInspectionFilter None None 256 8
  | Some text => exists link, parse_link_value text = PGood link /\ filter = mkInspectionFilter (Some link) None 256 8
  end.

Definition capability_view (link : LinkIdentity) (views : list MetricCapabilityView) : string :=
  "capability-view " +:+ render_link_identity link +:+ " source=declarations" +:+ newline +:+ render_views views.

Section Asks.
Context `{CC : Charconv} `{LD : LongDouble}.

(** [asks argv port c display]: the command line [argv] is well formed, names
    [port], asks [c] and prints the answer with [display]. *)
Inductive asks : list string -> Z -> forall A, Call A -> (A -> string) -> Prop :=
  | asks_query rest args port q :
      requests_help rest = false -> parse_arguments query_spec rest = ParseOk args ->
      port_given args port -> quality_request args q ->
      asks ("query"%string :: rest) port LinkQualityReport (CQuery q)
        (fun report => if args_has "--json" args then render_report_json report else render_report report)
  | asks_explain rest args port q :
      requests_help rest = false -> parse_arguments explain_spec rest = ParseOk args ->
      port_given args port -> quality_request args q ->
      asks ("explain"%string :: rest) port Explanation (CExplain q) ex_text
  | asks_inspect rest args port filter :
      requests_help rest = false -> parse_arguments inspect_spec rest = ParseOk args ->
      port_given args port -> inspected args filter ->
      asks ("inspect"%string :: rest) port InspectionReport (CInspect filter) render_inspection
  | asks_metrics rest args port link :
      requests_help rest = false -> parse_arguments metrics_spec rest = ParseOk args ->
      port_given args port -> args_find "--journal" args = None -> link_given args link ->
      asks ("metrics"%string :: rest) port (list MetricCapabilityView) (CCapabilities link) (capability_view link).

Lemma port_given_nonzero args port : port_given args port -> port <> 0.
Proof. intros (text & _ & Hp). by apply (parse_port_ok text false). Qed.

Lemma require_given {S} name args value (k : string -> Cmd S unit) w : args_find name args = Some value ->
  (require name args ≫= k) w = k value w.
Proof. unfold require. by intros ->. Qed.

Lemma checked_good {S A} spec (p : Parsed A) a (k : A -> Cmd S unit) w : p = PGood a ->
  (checked spec p ≫= k) w = k a w.
Proof. by intros ->. Qed.

Lemma port_of_given {S} spec args port (k : Z -> Cmd S unit) w : port_given args port ->
  (port_of spec args ≫= k) w = k port w.
Proof. intros (text & Hf & Hp). unfold port_of, require. rewrite Hf. unfold mbind, Cmd_bind. cbn [mret Cmd_ret]. by rewrite Hp. Qed.

Lemma endpoint_is_port {S} spec args port (k : option string -> Cmd S unit) w : port_given args port ->
  args_find "--journal" args = None -> (select_endpoint spec args ≫= k) w = k None w.
Proof.
  intros (text & Hf & _) Hj. unfold select_endpoint. rewrite Hj, Hf.
  rewrite (bool_decide_eq_true_2 (is_Some (Some text))) by eauto.
  by rewrite (bool_decide_eq_false_2 (is_Some None)) by (by intros []).
Qed.

Lemma quality_request_made {S} args q (k : Parsed QualityQuery -> Cmd S unit) w : quality_request args q ->
  (make_quality_query (args_find "--link" args) (args_find "--lane" args) ≫= k) w = k (PGood q) w.
Proof.
  intros (link & (text & Hf & Hl) & Hq). unfold make_quality_query. rewrite Hf, Hl. unfold mbind, Cmd_bind. cbn [mret Cmd_ret].
  destruct (args_find "--lane" args) as [lane_text|]; [|by rewrite Hq].
  destruct Hq as (lane & Hp & ->). by rewrite Hp.
Qed.

Lemma with_arguments_given {S} spec argv args (body : Args -> Cmd S unit) :
  requests_help argv = false -> parse_arguments spec argv = ParseOk args ->
  with_arguments spec argv body = body args.
Proof. intros Hh Hp. unfold with_arguments. by rewrite Hh, Hp. Qed.

Lemma main_asks {S} `{Network S} env argv port A (c : Call A) display (w : World S) : asks argv port A c display ->
  port <> 0 /\ main env argv w = with_client (cli_client_config port) (one_call c display) w.
Proof.
  intros [rest args p q Hh Ha Hp Hq|rest args p q Hh Ha Hp Hq|rest args p filter Hh Ha Hp Hq|rest args p link Hh Ha Hp Hj Hl];
    (split; [by eapply port_given_nonzero|]).
  - change (main env _ w) with (run_query rest w). unfold run_query, quality_command.
    rewrite (with_arguments_given _ _ _ _ Hh Ha), (port_of_given _ _ _ _ _ Hp), (quality_request_made _ _ _ _ Hq).
    reflexivity.
  - change (main env _ w) with (run_explain rest w). unfold run_explain, quality_command.
    rewrite (with_arguments_given _ _ _ _ Hh Ha), (port_of_given _ _ _ _ _ Hp), (quality_request_made _ _ _ _ Hq).
    reflexivity.
  - change (main env _ w) with (run_inspect rest w). unfold run_inspect.
    rewrite (with_arguments_given _ _ _ _ Hh Ha), (port_of_given _ _ _ _ _ Hp). unfold optional.
    revert Hq. unfold inspected. destruct (args_find "--link" args) as [text|]; [|by intros ->].
    intros (link & Hl & ->). by rewrite Hl.
  - change (main env _ w) with (run_metrics env rest w). unfold run_metrics.
    destruct Hl as (link_text & Hlf & Hlp).
    rewrite (with_arguments_given _ _ _ _ Hh Ha), (endpoint_is_port _ _ _ _ _ Hp Hj), (require_given _ _ _ _ _ Hlf).
    rewrite (checked_good _ _ _ _ _ Hlp). by rewrite (port_of_given _ _ _ _ _ Hp).
Qed.
End Asks.

(** C16: What a client command prints is what the fabric answers.  Let a server be
    running as [lqf serve] configures it, its accept loop free and with room for one
    more connection, and let the question and the answer fit the limits of the codec
    and of a frame ([request_sendable], [reply_sendable]: an explanation of more than
    4096 bytes does not), a refusal's text be at most 512 bytes, and the socket take
    the replies whole.  A well-formed [query], [explain], [inspect] or [metrics]
    command on its port ends, and prints exactly the rendering of the answer of the
    fabric's own entry point, with exit code 0, or, if the fabric refuses, prints
    nothing on the output and the refusal on the error output, with exit code 1.  No
    file is changed, and the fabric is the one the entry point leaves. *)
Theorem client_commands_report_the_fabric (CC : Charconv) (LD : LongDouble) env argv port A (c : Call A) display
    token sv renv text cur refusal w :
  asks argv port A c display -> accepting token sv ->
  w_net w = mkServerNetwork port sv (fun _ => renv) text cur refusal ->
  env_sent renv = None -> zslen (env_text renv) <= 512 ->
  request_sendable c (sc_codec (serve_config token)) (sc_frames (serve_config token)) ->
  reply_sendable c (sc_codec (serve_config token)) (sc_frames (serve_config token)) (local c renv (sv_fabric sv)).1 ->
  exists code w', main env argv w = (Exited code, w')
    /\ match (local c renv (sv_fabric sv)).1 with
       | Good a => code = kExitOk /\ w_out w' = w_out w ++ [Lit (display a)] /\ w_err w' = w_err w
       | Bad e => code = kExitFailure /\ w_out w' = w_out w
                  /\ w_err w' = w_err w ++ [Lit "lqf: error: "; StatusText e; Lit newline]
       end
    /\ w_files w' = w_files w /\ sv_fabric (sn_server (w_net w')) = (local c renv (sv_fabric sv)).2.
Proof.
  intros Ha Hac Hw Hok Ht Hq Hp. destruct (main_asks env argv port A c display w Ha) as [Hport ->].
  assert (reads c = true) as Hr by (by destruct Ha).
  pose proof (session_answered c display token port renv text w cur refusal sv Hr Hac Hport Hok Ht Hq Hp Hw) as Hans.
  unfold answered in Hans. destruct (with_client _ _ w) as [ending w']. cbn [fst snd] in Hans.
  destruct Hans as (He & Hf & Hfab). destruct (local c renv (sv_fabric sv)).1 as [a|e]; destruct He as (-> & Ho & Hx);
    eexists _, _; (split; [reflexivity|]); done.
Qed.

(** The honesty that [HonestPeer] asks of a peer is needed.  An error reply may
    carry any known status code, the code of success included, and the client
    turns it into a result without a value that passes for a success.  Against a
    peer that answers so, each of these commands dereferences the missing value:
    its behaviour is undefined. *)
Theorem success_error_reply_is_undefined (S : Type) (NS : Network S) (CC : Charconv) (LD : LongDouble) env argv port A
    (c : Call A) display w s1 s2 text body bytes closed :
  asks argv port A c display -> dial port (w_net w) = (StatusCode.Ok, s1) ->
  (forall data, transmit data s1 = (Good (bytes, closed), s2)) ->
  encode_error_reply (mkErrorReply StatusCode.Ok text) = Good body ->
  encode_frame (mkFrame MessageType.Error body) (mkFrameLimits kMaxFrameBytesDefault) = Good bytes ->
  (main env argv w).1 = Crashed.
Proof.
  intros Ha Hd Ht Hb He. destruct (main_asks env argv port A c display w Ha) as [Hport ->].
  unfold with_client, mbind at 1, Cmd_bind at 1. unfold open_connection, connect.
  change (ccf_port (cli_client_config port)) with port. rewrite (proj2 (Z.eqb_neq _ _) Hport), Hd. cbn [attempt mret Cmd_ret].
  set (client := mkFabricClient _ _ _ _). destruct (hello_sendable "" port) as (_ & hello & Eh & Hl).
  destruct (encode_frame_fits MessageType.Hello hello (mkFrameLimits kMaxFrameBytesDefault)) as [data Ed]; [done|exact Hl|].
  assert (handshake (client, s1) = (Some (Bad StatusCode.Ok), (with_unread client [], s2))) as Eshake.
  { assert (encode c_hello_request (ccf_codec (cl_config client)) (mkHelloRequest LQF_WIRE_PROTOCOL_VERSION
      (ccf_client_name (cl_config client)) (ccf_client_epoch (cl_config client))) = Good hello) as Eh' by exact Eh.
    unfold handshake, call. cbv zeta. cbn [fst]. rewrite Eh'.
    unfold exchange, request. cbn [negb cl_connected client]. change (ccf_frames (cl_config client)) with (mkFrameLimits kMaxFrameBytesDefault).
    rewrite Ed, Ht. cbn [cl_unread app client]. rewrite <- (app_nil_r bytes).
    rewrite (receive_frame_served client _ _ _ [] closed He) by reflexivity. cbn [fr_type fr_body].
    change (eqb MessageType.Error MessageType.Error) with true. cbv iota.
    by rewrite (error_reply_round_trip _ _ Hb). }
  unfold closing, ask, on_client, mbind, Cmd_bind. cbn [w_net]. by rewrite Eshake.
Qed.

(** ** Emitting *)

Section Emit.
Context `{CC : Charconv} `{LD : LongDouble}.
Context (link : LinkIdentity) (source : SourceIdentity) (descriptor : MetricDescriptor) (now : ClockReading).

Definition emit_key : CapabilityRegistry.ScopedKey := CapabilityRegistry.mkScopedKey source true link.

(** The registry has a declaration none of the attempts can replace or repeat. *)
Definition exhausted (f : Fabric) : Prop :=
  exists existing, om_find emit_key (CapabilityRegistry.declarations (fb_capabilities f)) = Some existing
    /\ kMaxRevisionAttempts <= cap_revision existing
    /\ canonical_declaration (emit_declaration link source descriptor now kMaxRevisionAttempts)
       <> canonical_declaration existing.

Lemma seq_not (e s1 s2 : Status) : s1 <> e -> s2 <> e -> (s1 ;;? s2) <> e.
Proof. by destruct s1. Qed.

Lemma emit_validation revision catalog limits max :
  validate_capability (emit_declaration link source descriptor now revision) catalog limits max <> StatusCode.Duplicate.
Proof.
  unfold validate_capability, validate_source_identity, validate_link_identity, validate_identity_text.
  cbn [cap_metrics emit_declaration validate_metric_capabilities cap_unsupported_metrics validate_unsupported
    cap_link_scope cap_source]. unfold validate_metric_capability, validate_metric_id.
  repeat first [done | apply seq_not | case_match].
Qed.

(** What a refused declaration leaves as it was. *)
Definition same_evidence (f g : Fabric) : Prop :=
  fb_capabilities g = fb_capabilities f /\ fb_evidence g = fb_evidence f /\ fb_links g = fb_links f.

Lemma exhausted_refuses f revision env : exhausted f -> 1 <= revision <= kMaxRevisionAttempts ->
  exists e g, local (CDeclare (emit_declaration link source descriptor now revision)) env f = (Bad e, g)
    /\ e <> StatusCode.Ok /\ same_evidence f g /\ fb_epoch g = fb_epoch f.
Proof.
  intros (existing & Hf & Hr & Hc) Hv. cbn [local]. unfold declare_capability, shaped.
  destruct (fb_open f); cbn [negb]; [|eexists _, _; split; [reflexivity|done]].
  destruct (validate_capability _ _ _ _); try (eexists _, _; split; [reflexivity|done]).
  destruct (journal_full f); [eexists _, _; split; [reflexivity|done]|].
  assert (exists e, CapabilityRegistry.declare (fb_capabilities f) (emit_declaration link source descriptor now revision)
    (fb_catalog f) = (e, fb_capabilities f) /\ e <> StatusCode.Ok /\ e <> StatusCode.Duplicate) as (e & -> & He1 & He2).
  { unfold CapabilityRegistry.declare.
    change (CapabilityRegistry.key_of (emit_declaration link source descriptor now revision)) with emit_key.
    rewrite Hf. change (cap_revision (emit_declaration link source descriptor now revision)) with revision.
    match goal with |- context [validate_capability ?d ?c ?l ?m] => pose proof (emit_validation revision c l m) as Hval;
      destruct (validate_capability d c l m) end; try (eexists; split; [reflexivity|done]).
    destruct (revision <? cap_revision existing) eqn:E1; [eexists; split; [reflexivity|done]|].
    destruct (revision =? cap_revision existing) eqn:E2; [|breflect; lia].
    breflect. assert (revision = kMaxRevisionAttempts) as -> by lia.
    rewrite bool_decide_eq_false_2 by done. eexists; split; [reflexivity|done]. }
  destruct e; try done; (eexists _, _; split; [reflexivity|done]).
Qed.

Lemma exhausted_same f g : same_evidence f g -> exhausted f -> exhausted g.
Proof. unfold exhausted. by intros (-> & _). Qed.

Lemma same_evidence_trans f g h : same_evidence f g -> same_evidence g h -> same_evidence f h.
Proof. unfold same_evidence. intuition congruence. Qed.

(** However many attempts are left, they all fail, and change nothing. *)
Lemma declare_gives_up token port env text i n : forall revision last client sv w,
  tool_session token i (client, sv) -> env_sent env = None -> zslen (env_text env) <= 512 ->
  w_net w = network_of port env text i sv -> exhausted (sv_fabric sv) ->
  (forall r, 1 <= r <= kMaxRevisionAttempts ->
     sendable c_capability_declaration (sc_codec (serve_config token)) (sc_frames (serve_config token))
       (emit_declaration link source descriptor now r)) ->
  1 <= revision -> revision + Z.of_nat n = kMaxRevisionAttempts + 1 -> last <> StatusCode.Ok \/ (0 < n)%nat ->
  exists e client' sv',
    declare_revisions n revision (emit_declaration link source descriptor now) last client w
    = (Value (Bad e, client'), mkWorld (w_out w) (w_err w) (w_files w) (network_of port env text i sv'))
    /\ e <> StatusCode.Ok /\ same_evidence (sv_fabric sv) (sv_fabric sv').
Proof.
  induction n as [|n IH]; intros revision last client sv w Hts Hok Ht Hw Hex Hs Hr Hn Hl.
  - exists last, client, sv. cbn. split; [by destruct w; cbn in *; rewrite Hw|]. destruct Hl; [done|lia].
  - cbn [declare_revisions]. set (d := emit_declaration link source descriptor now revision).
    assert (1 <= revision <= kMaxRevisionAttempts) as Hrev by lia.
    destruct (exhausted_refuses (sv_fabric sv) revision env Hex Hrev) as (e & g & El & He & Hsame & _).
    pose proof Hts as [Hrd Hsv Hcl]. cbn [fst snd] in Hsv, Hcl.
    destruct (call_served c_capability_declaration c_capability_ack i env (client, sv)
      MessageType.RegisterCapability d MessageType.CapabilityAck (Bad e) g) as (s & output & E); try done.
    { cbn [snd]. rewrite Hsv. by apply Hs. }
    { cbn [snd]. rewrite Hsv. intros body Hb. unfold dispatch. cbn [fr_type fr_body]. unfold handle. cbn [fr_body].
      rewrite Hb. cbn [local] in El. unfold shaped in El.
      destruct (declare_capability _ _) as [[]]; [done|]. by injection El as -> ->. }
    unfold on_client at 1, mbind at 1, Cmd_bind at 1. rewrite Hw. unfold client_declare_capability.
    pose proof (call_lift port env text i c_capability_declaration MessageType.RegisterCapability d c_capability_ack
      MessageType.CapabilityAck (client, sv)) as Elift. cbn [fst snd] in Elift. rewrite Elift, E. cbn [lift fst snd after_call].
    set (sv' := with_connection _ _ _). set (client' := with_unread client []).
    assert (tool_session token i (client', sv')) as Hts' by (by apply (tool_session_after token i (client, sv))).
    set (w1 := mkWorld (w_out w) (w_err w) (w_files w) (network_of port env text i sv')).
    assert (exists e' c' sv2, (if negb (bool_decide (e = StatusCode.IdMismatch)) && negb (bool_decide (e = StatusCode.Fenced))
       then mret (Bad e, client')
       else declare_revisions n (revision + 1) (emit_declaration link source descriptor now) e client') w1
      = (Value (Bad e', c'), mkWorld (w_out w) (w_err w) (w_files w) (network_of port env text i sv2))
      /\ e' <> StatusCode.Ok /\ same_evidence (sv_fabric sv) (sv_fabric sv2)) as Hgo.
    { case_match; [by exists e, client', sv'|].
      destruct (IH (revision + 1) e client' sv' w1) as (e' & c' & sv2 & E' & He' & Hs'); try done; [|lia|lia|by left|].
      - by apply (exhausted_same (sv_fabric sv)).
      - exists e', c', sv2. split; [exact E'|]. split; [done|]. by eapply same_evidence_trans. }
    destruct e; try done; exact Hgo.
Qed.
End Emit.

Lemma attempt_bad {S A} e (w : World S) : e <> StatusCode.Ok ->
  attempt (A := A) (Bad e) w
  = (Exited kExitFailure,
     mkWorld (w_out w) (w_err w ++ [Lit "lqf: error: "; StatusText e; Lit newline]) (w_files w) (w_net w)).
Proof. by destruct e. Qed.

(** A well-formed [emit] command line. *)
Record emits (rest : list string) (port : Z) (link : LinkIdentity) (source : SourceIdentity) : Prop := {
  em_args : exists args, requests_help rest = false /\ parse_arguments emit_spec rest = ParseOk args
    /\ port_given args port /\ link_given args link
    /\ (exists text, args_find "--source" args = Some text /\ parse_source_value text = PGood source)
    /\ (forall text, args_find "--count" args = Some text -> exists n, parse_count text = PGood n)
    /\ (forall text, args_find "--interval-ms" args = Some text -> exists n, parse_u64_value text "interval" = PGood n);
}.

Lemma optional_good {S A} spec name args (fallback : A) parse (k : A -> Cmd S unit) w :
  (forall text, args_find name args = Some text -> exists a, parse text = PGood a) ->
  exists a, (optional spec name args fallback parse ≫= k) w = k a w.
Proof.
  intros Hp. unfold optional. destruct (args_find name args) as [text|]; [|by exists fallback].
  destruct (Hp text eq_refl) as [a Ha]. exists a. by rewrite Ha.
Qed.

Lemma main_emits `{Charconv} `{LongDouble} {S} `{Network S} env rest port link source descriptor (w : World S) :
  emits rest port link source -> catalog_find (with_builtin_descriptors 256) emit_metric = Some descriptor ->
  port <> 0 /\ exists args count, main env ("emit"%string :: rest) w
    = with_client (cli_client_config port) (emit_session env args link source count descriptor) w.
Proof.
  intros [(args & Hh & Ha & Hp & (lt & Hlf & Hlp) & (st & Hsf & Hsp) & Hc & Hi)] Hd.
  split; [by eapply port_given_nonzero|]. change (main env _ w) with (run_emit env rest w). unfold run_emit.
  rewrite (with_arguments_given _ _ _ _ Hh Ha), (port_of_given _ _ _ _ _ Hp), (require_given _ _ _ _ _ Hlf).
  rewrite (checked_good _ _ _ _ _ Hlp), (require_given _ _ _ _ _ Hsf), (checked_good _ _ _ _ _ Hsp).
  match goal with |- context [(optional _ "--count" _ _ _ ≫= ?k) w] =>
    destruct (optional_good emit_spec "--count" args 1 parse_count k w Hc) as [count ->] end.
  match goal with |- context [(optional _ "--interval-ms" _ _ _ ≫= ?k) w] =>
    destruct (optional_good emit_spec "--interval-ms" args 0 (fun text => parse_u64_value text "interval") k w Hi)
      as [interval ->] end.
  rewrite Hd. by exists args, count.
Qed.

(** [lqf emit] stops working for a source and a link.  Every run declares the
    capability anew, with the time of the run in it, so the declaration stored by
    an earlier run is never a duplicate and each run takes the next revision; but
    only revisions 1 to 16 are tried.  Once a declaration of revision 16 from
    another time, or of a later revision, is stored, the command fails on every
    well-formed command line, prints nothing on the output, and ingests nothing. *)
Theorem emit_gives_up_after_sixteen_revisions (CC : Charconv) (LD : LongDouble) env rest port link source descriptor
    token sv renv text cur refusal w :
  emits rest port link source -> catalog_find (with_builtin_descriptors 256) emit_metric = Some descriptor ->
  accepting token sv -> w_net w = mkServerNetwork port sv (fun _ => renv) text cur refusal ->
  env_sent renv = None -> zslen (env_text renv) <= 512 ->
  (forall r, 1 <= r <= kMaxRevisionAttempts ->
     sendable c_capability_declaration (sc_codec (serve_config token)) (sc_frames (serve_config token))
       (emit_declaration link source descriptor (ce_clock env 0) r)) ->
  exhausted link source descriptor (ce_clock env 0) (sv_fabric sv) ->
  exists w', main env ("emit"%string :: rest) w = (Exited kExitFailure, w')
    /\ w_out w' = w_out w /\ w_files w' = w_files w /\ same_evidence (sv_fabric sv) (sv_fabric (sn_server (w_net w'))).
Proof.
  intros Hem Hd Hac Hw Hok Ht Hs Hex.
  destruct (main_emits env rest port link source descriptor w Hem Hd) as (Hport & args & count & ->).
  destruct (with_client_served (emit_session env args link source count descriptor) token port renv text w cur refusal sv
    Hac Hport Hok Ht Hw) as (i & client & sv1 & Hts & Hf & ->). rewrite <- Hf in Hex |- *.
  set (w1 := mkWorld (w_out w) (w_err w) (w_files w) (network_of port renv text i sv1)).
  destruct (declare_gives_up link source descriptor (ce_clock env 0) token port renv text i (Z.to_nat kMaxRevisionAttempts)
    1 StatusCode.Ok client sv1 w1 Hts Hok Ht eq_refl Hex Hs) as (e & c' & sv2 & E & He & Hsame);
    [lia|reflexivity|right; vm_compute; lia|].
  unfold closing, emit_session, mbind, Cmd_bind. cbv zeta. rewrite E. cbn [fst snd].
  rewrite (attempt_bad (S := ServerNetwork) (A := Z * bool) e _ He). cbv iota. cbn [w_out w_err w_files w_net].
  eexists. split; [reflexivity|]. cbn [w_out w_files w_net]. rewrite hang_up_fabric.
  split; [reflexivity|]. split; [reflexivity|exact Hsame].
Qed.

Module SessionExamples.
Import ClassifierExamples FabricExamples ServerExamples WireExamples.

Definition listener : Server := mkServer (serve_config "halt") running no_stats false 0 [] new_acceptor.
Definition process : World ServerNetwork :=
  mkWorld [] [] ∅ (mkServerNetwork 4710 listener (fun _ => ServerExamples.env) "busy" None []).
Definition host : CliEnv :=
  mkCliEnv (fun _ => now0) 7 no_faults true (Some "/tmp"%string) 5 true "os" StatusCode.Ok StatusCode.Ok 9000 []
    true [] StatusCode.Ok.
Definition ask_edge_a : list string := ["query"; "--port"; "4710"; "--link"; "edge-a"]%string.

Lemma asks_edge_a : exists display, asks ask_edge_a 4710 LinkQualityReport asked display.
Proof.
  eexists. eapply (asks_query _ (mkArgs (<["--link"%string := "edge-a"%string]> (<["--port"%string := "4710"%string]> ∅)) ∅)).
  - reflexivity.
  - reflexivity.
  - eexists. split; reflexivity.
  - eexists. split; [eexists; split; reflexivity|]. reflexivity.
Defined.

Lemma client_commands_report_the_fabric_witness :
  exists code w', main host ask_edge_a process = (Exited code, w') /\ code = kExitOk.
Proof.
  destruct asks_edge_a as [display Ha].
  destruct (client_commands_report_the_fabric fixed_charconv ld host ask_edge_a 4710 _ asked display
    "halt" listener ServerExamples.env "busy" None [] process Ha) as (code & w' & E & Hans & _).
  - constructor; vm_compute; first [done|by left].
  - reflexivity.
  - reflexivity.
  - vm_compute. discriminate.
  - exact asked_sendable.
  - change (sv_fabric listener) with (sv_fabric session.2). rewrite told_by_fabric. exact told_sendable.
  - change (sv_fabric listener) with (sv_fabric session.2) in Hans. rewrite told_by_fabric in Hans.
    exists code, w'. split; [exact E|]. apply Hans.
Defined.

(** Sixteen runs have gone before. *)
Definition rx_level : MetricDescriptor := Eval vm_compute in
  match catalog_find (with_builtin_descriptors 256) emit_metric with
  | Some d => d
  | None => mkMetricDescriptor emit_metric Unit.None SampleSemantics.Gauge MetricBasis.GaugeValue CounterWidth.Unspecified false ""
  end.
Definition emitter : SourceIdentity := mkSourceIdentity "lab" 1.
Definition crowded : Fabric := Eval vm_compute in
  (declare_capability (emit_declaration link emitter rx_level (mkClockReading 5 0) 16) running).2.
Definition crowded_server : Server := mkServer (serve_config "halt") crowded no_stats false 0 [] new_acceptor.
Definition crowded_process : World ServerNetwork :=
  mkWorld [] [] ∅ (mkServerNetwork 4710 crowded_server (fun _ => ServerExamples.env) "busy" None []).
Definition emit_line : list string := ["--port"; "4710"; "--link"; "edge-a"; "--source"; "lab"]%string.

Lemma emit_line_ok : emits emit_line 4710 link emitter.
Proof.
  constructor. eexists. split; [reflexivity|]. split; [reflexivity|].
  split_and!; [eexists; split; reflexivity..|discriminate|discriminate].
Defined.

Lemma emit_sendable r : 1 <= r <= kMaxRevisionAttempts ->
  sendable c_capability_declaration (sc_codec (serve_config "halt")) (sc_frames (serve_config "halt"))
    (emit_declaration link emitter rx_level now0 r).
Proof.
  intros Hr. unfold kMaxRevisionAttempts in Hr.
  assert (r = 1 \/ r = 2 \/ r = 3 \/ r = 4 \/ r = 5 \/ r = 6 \/ r = 7 \/ r = 8 \/ r = 9 \/ r = 10 \/ r = 11
    \/ r = 12 \/ r = 13 \/ r = 14 \/ r = 15 \/ r = 16) as Hcases by lia. clear Hr.
  repeat destruct Hcases as [->|Hcases]; try subst r;
    (split; [repeat (split || constructor); vm_compute; done|]; eexists; split; [vm_compute; reflexivity|vm_compute; done]).
Qed.

Lemma emit_gives_up_after_sixteen_revisions_witness :
  exists w', main host ("emit"%string :: emit_line) crowded_process = (Exited kExitFailure, w')
    /\ same_evidence crowded (sv_fabric (sn_server (w_net w'))).
Proof.
  destruct (emit_gives_up_after_sixteen_revisions fixed_charconv ld host emit_line 4710 link emitter rx_level "halt"
    crowded_server ServerExamples.env "busy" None [] crowded_process) as (w' & E & _ & _ & Hs).
  - exact emit_line_ok.
  - vm_compute. reflexivity.
  - constructor; vm_compute; first [done|by left].
  - reflexivity.
  - reflexivity.
  - vm_compute. discriminate.
  - exact emit_sendable.
  - eexists. split; [vm_compute; reflexivity|]. split; [vm_compute; discriminate|vm_compute; discriminate].
  - exists w'. split; [exact E|exact Hs].
Defined.

(** A peer that answers everything with the same bytes. *)
Definition canned (bytes : list Z) : Network unit := {|
  dial := fun _ s => (StatusCode.Ok, s);
  network_channel := {| transmit := fun _ s => (Good (bytes, false), s) |};
  hang_up := fun s => s;
|}.

Definition success_error : list Z := Eval vm_compute in
  match encode_error_reply (mkErrorReply StatusCode.Ok "fine") with
  | Good body => match encode_frame (mkFrame MessageType.Error body) (mkFrameLimits kMaxFrameBytesDefault) with
                 | Good bytes => bytes | Bad _ => [] end
  | Bad _ => []
  end.

Lemma success_error_reply_is_undefined_witness :
  (main (H := canned success_error) host ask_edge_a (mkWorld [] [] ∅ tt)).1 = Crashed.
Proof.
  destruct asks_edge_a as [display Ha].
  eapply (success_error_reply_is_undefined unit (canned success_error) _ _ host ask_edge_a 4710 _ asked display _
    tt tt "fine" _ success_error false Ha).
  - reflexivity.
  - reflexivity.
  - vm_compute. reflexivity.
  - vm_compute. reflexivity.
Defined.
End SessionExamples.
