(* ===== verification/Socket.v ===== *)
(** * Sockets

    [transport/socket.*] on a POSIX system, and [read_exact_interruptible] of
    [transport/server.cpp].  The system calls are an interface ([Kernel]) over a
    state of their own; a call may succeed, fail with an error number or block
    for ever.  A socket is its descriptor, and the destructors that close one are
    written out.  Using a descriptor that does not fit an [fd_set] is undefined
    behaviour. *)

From Stdlib Require Import ZArith Lia Bool List String Ascii.
From stdpp Require Import base decidable list strings gmap.
From S2P Require Import Prelude OrdMap Core.

Open Scope Z_scope.

(** ** System calls *)

Inductive Errno := EAGAIN | EWOULDBLOCK | EINTR | EOTHER (number : Z).

Inductive Sys (A : Type) :=
  | SysOk (a : A)
  | SysErr (e : Errno)
  | SysBlocks.
Arguments SysOk {A} a.
Arguments SysErr {A} e.
Arguments SysBlocks {A}.

(** Descriptors and ports are numbers.  [sys_send] returns how many bytes were
    taken, [sys_recv] the bytes (none when the peer closed), [sys_select] the
    descriptors that are readable, [sys_getpeername] the address and the port. *)
Class Kernel (K : Type) := {
  sys_socket : K -> Sys Z * K;
  sys_bind : Z -> Z -> K -> Sys unit * K;
  sys_listen : Z -> Z -> K -> Sys unit * K;
  sys_getsockname : Z -> K -> Sys Z * K;
  sys_getpeername : Z -> K -> Sys (option string * Z) * K;
  sys_connect : Z -> Z -> K -> Sys unit * K;
  sys_accept : Z -> K -> Sys Z * K;
  sys_send : Z -> list Z -> K -> Sys Z * K;
  sys_recv : Z -> Z -> K -> Sys (list Z) * K;
  sys_shutdown : Z -> K -> K;
  sys_close : Z -> K -> K;
  sys_select : list Z -> K -> Sys (list Z) * K;
}.

Definition would_block (e : Errno) : bool :=
  match e with EWOULDBLOCK | EAGAIN | EINTR => true | EOTHER _ => false end.

Definition lqf_invalid_socket : Z := -1.
Definition FD_SETSIZE : Z := 1024.

(** The size of one transfer, [1U << 20U]. *)
Definition kChunk : Z := Z.shiftl 1 20.

(** The atomic counter is an [int], which wraps around. *)
Definition to_int (v : Z) : Z := if wrap32 v <? 2 ^ 31 then wrap32 v else wrap32 v - 2 ^ 32.

Record Socket := mkSocket { handle_ : Z }.
Definition valid (s : Socket) : bool := negb (handle_ s =? lqf_invalid_socket).

(** How a call ends: it returns, waits for ever, is undefined, or was not
    finished with the fuel given. *)
Inductive Run (A : Type) :=
  | Returned (a : A)
  | Waits
  | Undefined
  | Unfinished.
Arguments Returned {A} a.
Arguments Waits {A}.
Arguments Undefined {A}.
Arguments Unfinished {A}.

(** The process: the reference count of the socket runtime and the kernel. *)
Record Host (K : Type) := mkHost { g_winsock_references : Z; h_kernel : K }.
Arguments mkHost {K}.
Arguments g_winsock_references {K}.
Arguments h_kernel {K}.

Definition Sock (K A : Type) : Type := Host K -> Run A * Host K.

#[export] Instance Sock_ret K : MRet (Sock K) := fun A a h => (Returned a, h).
#[export] Instance Sock_bind K : MBind (Sock K) := fun A B f m h =>
  match m h with
  | (Returned a, h') => f a h'
  | (Waits, h') => (Waits, h')
  | (Undefined, h') => (Undefined, h')
  | (Unfinished, h') => (Unfinished, h')
  end.

Module Sockets.
Section Sockets.
Context {K : Type} `{Kernel K}.

Definition waits {A} : Sock K A := fun h => (Waits, h).
Definition undefined {A} : Sock K A := fun h => (Undefined, h).
Definition unfinished {A} : Sock K A := fun h => (Unfinished, h).

(** A system call that blocks for ever never returns to the caller. *)
Definition sys {A} (call : K -> Sys A * K) : Sock K (A + Errno) := fun h =>
  let '(r, k) := call (h_kernel h) in
  let h' := mkHost (g_winsock_references h) k in
  match r with
  | SysOk a => (Returned (inl a), h')
  | SysErr e => (Returned (inr e), h')
  | SysBlocks => (Waits, h')
  end.

Definition sys_effect (call : K -> K) : Sock K unit := fun h =>
  (Returned tt, mkHost (g_winsock_references h) (call (h_kernel h))).

(** ** The socket runtime *)

Definition add_references (delta : Z) : Sock K unit := fun h =>
  (Returned tt, mkHost (to_int (g_winsock_references h + delta)) (h_kernel h)).

Definition ensure : Sock K Status := _ ← add_references 1; mret StatusCode.Ok.
Definition release : Sock K unit := add_references (-1).

(** [last_socket_error_status]; the text is not carried. *)
Definition last_socket_error_status : Status := StatusCode.Io.

(** ** Closing *)

Definition shutdown_both (s : Socket) : Sock K unit :=
  if negb (valid s) then mret tt else sys_effect (sys_shutdown (handle_ s)).

Definition close (s : Socket) : Sock K Socket :=
  if negb (valid s) then mret s
  else _ ← sys_effect (sys_close (handle_ s)); mret (mkSocket lqf_invalid_socket).

(** The destructor, on the way out of a function that fails. *)
Definition destroy_and {A} (s : Socket) (result : A) : Sock K A := _ ← close s; mret result.

(** The move constructor: the new socket and what is left of the other. *)
Definition move_construct (other : Socket) : Socket * Socket := (other, mkSocket lqf_invalid_socket).

(** Move assignment from another object. *)
Definition move_assign (this other : Socket) : Sock K (Socket * Socket) :=
  _ ← close this; mret (other, mkSocket lqf_invalid_socket).

(** ** Opening *)

Definition listen_loopback (port backlog : Z) : Sock K (Outcome (Socket * Z)) :=
  runtime ← ensure;
  if negb (ok runtime) then mret (Bad runtime)
  else
    r ← sys sys_socket;
    match r with
    | inr _ => mret (Bad last_socket_error_status)
    | inl fd =>
        let socket := mkSocket fd in
        r ← sys (sys_bind fd port);
        match r with
        | inr _ => destroy_and socket (Bad last_socket_error_status)
        | inl _ =>
            r ← sys (sys_listen fd backlog);
            match r with
            | inr _ => destroy_and socket (Bad last_socket_error_status)
            | inl _ =>
                r ← sys (sys_getsockname fd);
                match r with
                | inr _ => destroy_and socket (Bad last_socket_error_status)
                | inl bound_port => mret (Good (socket, bound_port))
                end
            end
        end
    end.

Definition connect_loopback (port : Z) : Sock K (Outcome Socket) :=
  runtime ← ensure;
  if negb (ok runtime) then mret (Bad runtime)
  else
    r ← sys sys_socket;
    match r with
    | inr _ => mret (Bad last_socket_error_status)
    | inl fd =>
        let socket := mkSocket fd in
        r ← sys (sys_connect fd port);
        match r with
        | inr _ => destroy_and socket (Bad last_socket_error_status)
        | inl _ => mret (Good socket)
        end
    end.

Definition accept (s : Socket) : Sock K (Outcome Socket) :=
  r ← sys (sys_accept (handle_ s));
  match r with
  | inr _ => mret (Bad last_socket_error_status)
  | inl fd => mret (Good (mkSocket fd))
  end.

(** ** Transferring *)

(** [data] is what remains to be sent; at least one byte goes each time, so its
    length is fuel enough. *)
Fixpoint send_loop (fuel : nat) (s : Socket) (data : list Z) : Sock K Status :=
  match data, fuel with
  | [], _ => mret StatusCode.Ok
  | _, O => unfinished
  | _, S n =>
      r ← sys (sys_send (handle_ s) (take (Z.to_nat (Z.min (zlen data) kChunk)) data));
      match r with
      | inr _ => mret last_socket_error_status
      | inl result =>
          if result <=? 0 then mret last_socket_error_status
          else send_loop n s (drop (Z.to_nat result) data)
      end
  end.

Definition send_all (s : Socket) (data : list Z) : Sock K Status := send_loop (List.length data) s data.

(** [received] is what arrived so far. *)
Fixpoint recv_loop (fuel : nat) (s : Socket) (size : Z) (received : list Z) : Sock K (Outcome (list Z)) :=
  let remaining := size - zlen received in
  if remaining <=? 0 then mret (Good received)
  else match fuel with
  | O => unfinished
  | S n =>
      r ← sys (sys_recv (handle_ s) (Z.min remaining kChunk));
      match r with
      | inl [] => mret (Bad StatusCode.Cancelled)
      | inr e => if would_block e then recv_loop n s size received else mret (Bad last_socket_error_status)
      | inl bytes => recv_loop n s size (received ++ bytes)
      end
  end.

Definition recv_exact (fuel : nat) (s : Socket) (size : Z) : Sock K (Outcome (list Z)) :=
  recv_loop fuel s size [].

Definition recv_some (s : Socket) (size : Z) : Sock K (Outcome (list Z)) :=
  r ← sys (sys_recv (handle_ s) (Z.min size kChunk));
  match r with
  | inl [] => mret (Bad StatusCode.Cancelled)
  | inr _ => mret (Bad last_socket_error_status)
  | inl bytes => mret (Good bytes)
  end.

(** ** Names *)

Definition local_port (s : Socket) : Sock K Z :=
  r ← sys (sys_getsockname (handle_ s));
  match r with inr _ => mret 0 | inl port => mret port end.

Definition peer_text (s : Socket) : Sock K string :=
  r ← sys (sys_getpeername (handle_ s));
  match r with
  | inl (Some address, port) => mret (address +:+ ":" +:+ text.format_u64 port)
  | inl (None, _) => mret "unknown"%string
  | inr _ => mret "unknown"%string
  end.

(** ** Waiting *)

(** [FD_SET] with a descriptor outside the set is undefined. *)
Definition fd_set (fds : list Z) : Sock K (list Z) :=
  if forallb (fun fd => (0 <=? fd) && (fd <? FD_SETSIZE)) fds then mret fds else undefined.

Definition watched (socket wake : Z) : list Z :=
  (if socket =? lqf_invalid_socket then [] else [socket]) ++ (if wake =? lqf_invalid_socket then [] else [wake]).

(** Whether the socket and whether the wakeup channel is ready. *)
Fixpoint wait_readable (fuel : nat) (socket wake : Z) : Sock K (Outcome (bool * bool)) :=
  match fuel with
  | O => unfinished
  | S n =>
      read_set ← fd_set (watched socket wake);
      if (socket =? lqf_invalid_socket) && (wake =? lqf_invalid_socket) then mret (Bad StatusCode.Internal)
      else
        r ← sys (sys_select read_set);
        match r with
        | inr e => if would_block e then wait_readable n socket wake else mret (Bad last_socket_error_status)
        | inl ready =>
            let socket_ready := negb (socket =? lqf_invalid_socket) && existsb (Z.eqb socket) ready in
            let wake_ready := negb (wake =? lqf_invalid_socket) && existsb (Z.eqb wake) ready in
            if socket_ready || wake_ready then mret (Good (socket_ready, wake_ready))
            else wait_readable n socket wake
        end
  end.

(** ** The wakeup channel *)

Record WakeupPair := mkWakeupPair { reader_ : Socket; writer_ : Socket }.

(** The listener is closed on every way out, the writer when accepting fails. *)
Definition wakeup_create : Sock K (Outcome WakeupPair) :=
  listener ← listen_loopback 0 1;
  match listener with
  | Bad e => mret (Bad e)
  | Good (listener, port) =>
      writer ← connect_loopback port;
      match writer with
      | Bad e => destroy_and listener (Bad e)
      | Good writer =>
          reader ← accept listener;
          match reader with
          | Bad e => _ ← close writer; destroy_and listener (Bad e)
          | Good reader => destroy_and listener (Good (mkWakeupPair reader writer))
          end
      end
  end.

Definition wake (p : WakeupPair) : Sock K Status :=
  if negb (valid (writer_ p)) then mret StatusCode.Unavailable else send_all (writer_ p) [1].

Definition drain (p : WakeupPair) : Sock K Status :=
  if negb (valid (reader_ p)) then mret StatusCode.Unavailable
  else r ← recv_some (reader_ p) 64; match r with Bad e => mret e | Good _ => mret StatusCode.Ok end.

Definition wakeup_close (p : WakeupPair) : Sock K WakeupPair :=
  r ← close (reader_ p); w ← close (writer_ p); mret (mkWakeupPair r w).

(** ** The server's interruptible read *)

(** [stop n]: whether the server is stopping when [n] rounds are left. *)
Fixpoint read_exact_interruptible (fuel : nat) (stop : nat -> bool) (s : Socket) (p : WakeupPair) (size : Z)
    (received : list Z) : Sock K (Outcome (list Z)) :=
  let remaining := size - zlen received in
  if remaining <=? 0 then mret (Good received)
  else match fuel with
  | O => unfinished
  | S n =>
      if stop n then mret (Bad StatusCode.Cancelled)
      else
        waited ← wait_readable fuel (handle_ s) (handle_ (reader_ p));
        match waited with
        | Bad e => mret (Bad e)
        | Good (socket_ready, wake_ready) =>
            if (wake_ready : bool) then (_ ← drain p; read_exact_interruptible n stop s p size received)
            else if negb socket_ready then read_exact_interruptible n stop s p size received
            else
              chunk ← recv_some s remaining;
              match chunk with
              | Bad e => mret (Bad e)
              | Good bytes => read_exact_interruptible n stop s p size (received ++ bytes)
              end
        end
  end.
End Sockets.
End Sockets.
