(* ===== verification/SocketSpec.v ===== *)
(** * What the socket layer promises

    [KernelLaws] is what POSIX documents of the calls: descriptors are created by
    [socket] and [accept] and released by [close], and a connection is a stream of
    bytes of which each [recv] returns a non-empty piece from the front.  From it:
    however the kernel splits a transfer, [recv_exact] is a read of the stream
    ([Client.recv_exact], which the client and the server models use), [send_all]
    hands over the bytes in order, and no operation leaks a descriptor. *)

From Stdlib Require Import ZArith Lia Bool List String Ascii.
From stdpp Require Import base decidable list strings gmap.
From S2P Require Import Prelude OrdMap Float Core Hash Quality Metric Identity Counter.
From S2P Require Import Capability Config Policy Classification LinkRegistry EvidenceStore.
From S2P Require Import Codec FieldCodecs CapabilityRegistry Classifier Journal Fabric.
From S2P Require Import JournalSpec Frame Render Messages Server Client ServerSpec Socket.

Open Scope Z_scope.

Import Sockets.

(** The number of interruptions still to come is finite ([interruptions]): a
    blocking call is not interrupted for ever. *)
Class KernelLaws (K : Type) `{Kernel K} := {
  descriptors : K -> gset Z;
  interruptions : K -> nat;
  incoming : Z -> K -> list Z;
  ended : Z -> K -> bool;
  outgoing : Z -> K -> list Z;
  created : forall k r k', sys_socket k = (r, k') ->
    match r with
    | SysOk fd => 0 <= fd /\ (fd ∉ descriptors k) /\ descriptors k' = {[fd]} ∪ descriptors k
    | _ => descriptors k' = descriptors k
    end;
  accepted : forall s k r k', sys_accept s k = (r, k') ->
    match r with
    | SysOk fd => 0 <= fd /\ (fd ∉ descriptors k) /\ descriptors k' = {[fd]} ∪ descriptors k
    | _ => descriptors k' = descriptors k
    end;
  closed : forall fd k, descriptors (sys_close fd k) = descriptors k ∖ {[fd]};
  bound : forall fd port k, descriptors (sys_bind fd port k).2 = descriptors k;
  listened : forall fd backlog k, descriptors (sys_listen fd backlog k).2 = descriptors k;
  named : forall fd k, descriptors (sys_getsockname fd k).2 = descriptors k;
  connected : forall fd port k, descriptors (sys_connect fd port k).2 = descriptors k;
  sent : forall fd data k r k', sys_send fd data k = (r, k') ->
    match r with
    | SysOk n => n <= zlen data /\ outgoing fd k' = outgoing fd k ++ take (Z.to_nat n) data
    | _ => outgoing fd k' = outgoing fd k
    end;
  received : forall fd n k r k', 0 < n -> sys_recv fd n k = (r, k') ->
    (interruptions k' <= interruptions k)%nat /\ ended fd k' = ended fd k /\
    (forall fd', fd' <> fd -> incoming fd' k' = incoming fd' k /\ ended fd' k' = ended fd' k) /\
    match r with
    | SysOk bytes =>
        incoming fd k = bytes ++ incoming fd k' /\ zlen bytes <= n
        /\ (bytes = [] -> incoming fd k = [] /\ ended fd k = true)
    | SysErr e => incoming fd k' = incoming fd k /\ (would_block e = true -> (interruptions k' < interruptions k)%nat)
    | SysBlocks => incoming fd k = [] /\ ended fd k = false
    end;
  selected : forall fds k r k', sys_select fds k = (r, k') ->
    (interruptions k' <= interruptions k)%nat /\
    (forall fd, incoming fd k' = incoming fd k /\ ended fd k' = ended fd k) /\
    match r with
    | SysOk ready => ready <> [] /\ forall fd, fd ∈ ready -> fd ∈ fds /\ (incoming fd k <> [] \/ ended fd k = true)
    | SysErr e => would_block e = true -> (interruptions k' < interruptions k)%nat
    | SysBlocks => forall fd, fd ∈ fds -> incoming fd k = [] /\ ended fd k = false
    end;
}.

Section Streams.
Context {K : Type} `{HK : Kernel K} `{HL : !KernelLaws K}.

(** ** Receiving *)

(** The kernel states a sequence of receiving and waiting calls leads to. *)
Definition calls (k k' : K) : Prop :=
  (exists fd n r, sys_recv fd n k = (r, k')) \/ (exists fds r, sys_select fds k = (r, k')).

(** The last call failed, and not because it was interrupted or would block. *)
Definition failed (k k' : K) : Prop :=
  exists k1 c, rtc calls k k1 /\
    ((exists fd n, sys_recv fd n k1 = (SysErr (EOTHER c), k')) \/
     (exists fds, sys_select fds k1 = (SysErr (EOTHER c), k'))).

(** The last call was a receive that was interrupted. *)
Definition recv_interrupted (k k' : K) : Prop :=
  exists k1 fd n e, rtc calls k k1 /\ would_block e = true /\ sys_recv fd n k1 = (SysErr e, k').

(** The contract: a read of the stream, or [Io] for one of the reasons [io]. *)
Definition stream_read (io : Prop) (size : Z) (stream : list Z) (closed_ : bool) (r : Run (Outcome (list Z)))
    (rest : list Z) : Prop :=
  match r with
  | Returned (Good bytes) => Client.recv_exact size closed_ stream = Some (Good (bytes, rest))
  | Returned (Bad StatusCode.Io) => io
  | Returned (Bad e) => Client.recv_exact size closed_ stream = Some (Bad e)
  | Waits => Client.recv_exact size closed_ stream = None
  | Undefined => False
  | Unfinished => False
  end.

Lemma stream_read_mono (io io' : Prop) size stream closed_ r rest :
  (io -> io') -> stream_read io size stream closed_ r rest -> stream_read io' size stream closed_ r rest.
Proof. intros Hi. destruct r as [[|[]]| | |]; cbn; auto. Qed.

Lemma failed_later k k1 k' : rtc calls k k1 -> failed k1 k' -> failed k k'.
Proof. intros Hk (k2 & c & H2 & Hc). exists k2, c. split; [by etrans|done]. Qed.

Lemma interrupted_later k k1 k' : rtc calls k k1 -> recv_interrupted k1 k' -> recv_interrupted k k'.
Proof. intros Hk (k2 & fd & n & e & H2 & Hc). exists k2, fd, n, e. split; [by etrans|done]. Qed.

Lemma recv_calls fd n k r k' : sys_recv fd n k = (r, k') -> rtc calls k k'.
Proof. intros E. apply rtc_once. left. eauto. Qed.

Lemma select_calls fds k r k' : sys_select fds k = (r, k') -> rtc calls k k'.
Proof. intros E. apply rtc_once. right. eauto. Qed.

Lemma recv_fails fd n k e k' : sys_recv fd n k = (SysErr e, k') -> would_block e = false -> failed k k'.
Proof. intros E He. destruct e as [| | |c]; try done. exists k, c. split; [done|left; eauto]. Qed.

Lemma read_exact_split (size : Z) (front rest : list Z) : zlen front = size -> read_exact size (front ++ rest) = Some (front, rest).
Proof. apply read_exact_app. Qed.

Lemma read_exact_short size (stream : list Z) : zlen stream < size -> read_exact size stream = None.
Proof. intros Hs. unfold read_exact. by rewrite (proj2 (Z.ltb_lt _ _) Hs). Qed.

Lemma recv_loop_stream fuel : forall fd size got h,
  zlen got <= size -> 0 <= size ->
  (Z.to_nat (size - zlen got) + interruptions (h_kernel h) < fuel)%nat ->
  let '(r, h') := recv_loop fuel (mkSocket fd) size got h in
  stream_read (failed (h_kernel h) (h_kernel h')) size (got ++ incoming fd (h_kernel h))
    (ended fd (h_kernel h)) r (incoming fd (h_kernel h')).
Proof.
  induction fuel as [|n IH]; intros fd size got h Hg Hs Hf; [lia|]. cbn [recv_loop].
  destruct (size - zlen got <=? 0) eqn:E; breflect.
  { cbn. unfold Client.recv_exact. rewrite read_exact_split by lia. done. }
  unfold mbind, Sock_bind, sys. cbn [handle_].
  destruct (sys_recv fd (Z.min (size - zlen got) kChunk) (h_kernel h)) as [r k'] eqn:Er.
  assert (0 < Z.min (size - zlen got) kChunk) as Hpos by (change kChunk with 1048576; lia).
  destruct (received _ _ _ _ _ Hpos Er) as (Hi & He & _ & Hr).
  assert (forall h', failed k' h' -> failed (h_kernel h) h') as Hlater
    by (intros h'; apply failed_later; by eapply recv_calls).
  destruct r as [bytes|e|].
  - destruct Hr as (Hin & Hlen & Hempty). destruct bytes as [|b bytes].
    + destruct (Hempty eq_refl) as [-> Hend]. cbn. unfold Client.recv_exact. rewrite app_nil_r, Hend.
      by rewrite read_exact_short by lia.
    + rewrite Hin, app_assoc, <- He. set (got' := got ++ b :: bytes) in *.
      assert (zlen got' = zlen got + zlen (b :: bytes)) as Hz by (unfold got'; apply zlen_app).
      rewrite zlen_cons in Hz, Hlen. pose proof (zlen_nonneg bytes).
      specialize (IH fd size got' (mkHost (g_winsock_references h) k')). cbn [h_kernel] in IH.
      specialize (IH ltac:(lia) Hs ltac:(lia)). destruct (recv_loop n _ _ _ _) as [r h'].
      eapply stream_read_mono, IH. apply Hlater.
  - destruct Hr as (Hin & Htr). destruct (would_block e) eqn:Eb.
    + specialize (IH fd size got (mkHost (g_winsock_references h) k')). cbn [h_kernel] in IH.
      rewrite Hin, He in IH. specialize (Htr eq_refl). specialize (IH Hg Hs ltac:(lia)).
      destruct (recv_loop n _ _ _ _) as [r h']. eapply stream_read_mono, IH. apply Hlater.
    + cbn. by eapply recv_fails.
  - destruct Hr as [-> Hend]. cbn. unfold Client.recv_exact. rewrite app_nil_r, Hend.
    by rewrite read_exact_short by lia.
Qed.

(** ** Waiting *)

Definition in_set (fd : Z) : Prop := 0 <= fd < FD_SETSIZE.

Lemma fd_set_in fds h : Forall in_set fds -> fd_set (K := K) fds h = (Returned fds, h).
Proof.
  intros Hf. unfold fd_set. replace (forallb _ fds) with true; [done|]. symmetry. apply forallb_forall.
  intros fd Hin. rewrite Forall_forall in Hf. specialize (Hf fd). unfold in_set in Hf.
  assert (0 <= fd < FD_SETSIZE) by (apply Hf; by apply list_elem_of_In). apply andb_true_intro. split; lia.
Qed.

Lemma ready_has fd ready : existsb (Z.eqb fd) ready = true -> fd ∈ ready.
Proof. intros E. apply existsb_exists in E as (x & Hx & Ex). breflect. subst x. by apply list_elem_of_In. Qed.

Definition readable (fd : Z) (k : K) : Prop := incoming fd k <> [] \/ ended fd k = true.

Lemma valid_in_set fd : in_set fd -> (fd =? lqf_invalid_socket) = false.
Proof. unfold in_set, lqf_invalid_socket. intros. lia. Qed.

(** Both descriptors valid: some descriptor is ready when the wait returns, and
    nothing has been read. *)
Lemma wait_readable_wakes fuel : forall fd wfd h, in_set fd -> in_set wfd ->
  (interruptions (h_kernel h) < fuel)%nat ->
  let '(r, h') := wait_readable fuel fd wfd h in
  rtc calls (h_kernel h) (h_kernel h') /\
  (interruptions (h_kernel h') <= interruptions (h_kernel h))%nat /\
  (forall x, incoming x (h_kernel h') = incoming x (h_kernel h) /\ ended x (h_kernel h') = ended x (h_kernel h)) /\
  match r with
  | Returned (Good (sr, wr)) =>
      (sr || wr = true) /\ (sr = true -> readable fd (h_kernel h)) /\ (wr = true -> readable wfd (h_kernel h))
  | Returned (Bad e) => e = StatusCode.Io /\ failed (h_kernel h) (h_kernel h')
  | Waits => incoming fd (h_kernel h) = [] /\ ended fd (h_kernel h) = false
  | Undefined | Unfinished => False
  end.
Proof.
  induction fuel as [|n IH]; intros fd wfd h Hfd Hw Hf; [lia|]. cbn [wait_readable].
  unfold mbind, Sock_bind, watched. rewrite (valid_in_set fd Hfd), (valid_in_set wfd Hw). cbn [app andb negb].
  rewrite fd_set_in by (repeat (apply Forall_cons_2; [assumption|]); apply Forall_nil_2). unfold sys.
  destruct (sys_select [fd; wfd] (h_kernel h)) as [r k'] eqn:Er.
  destruct (selected _ _ _ _ Er) as (Hi & Hsame & Hr). pose proof (select_calls _ _ _ _ Er) as Hcall.
  destruct r as [ready|e|].
  - destruct Hr as [Hne Hready].
    destruct (existsb (Z.eqb fd) ready || existsb (Z.eqb wfd) ready) eqn:E.
    + cbn [fst snd h_kernel]. split; [done|]. split; [done|]. split; [done|]. split; [done|].
      split; intros Hx; apply ready_has, Hready in Hx; apply Hx.
    + exfalso. destruct ready as [|x ready]; [done|]. destruct (Hready x) as [Hx _]; [by left|].
      apply orb_false_iff in E as [E1 E2]. cbn [existsb] in E1, E2. apply orb_false_iff in E1 as [E1 _], E2 as [E2 _].
      breflect. apply elem_of_cons in Hx as [->|Hx]; [done|]. apply elem_of_cons in Hx as [->|Hx]; [done|set_solver].
  - destruct (would_block e) eqn:Eb.
    2:{ cbn [fst snd h_kernel]. split; [done|]. split; [done|]. split; [done|]. split; [done|].
        destruct e as [| | |c]; try done. exists (h_kernel h), c. split; [done|right; eauto]. }
    specialize (IH fd wfd (mkHost (g_winsock_references h) k') Hfd Hw). cbn [h_kernel] in IH.
    specialize (Hr eq_refl). specialize (IH ltac:(lia)). destruct (wait_readable n fd wfd _) as [r' h'].
    destruct IH as (I0 & I1 & I2 & I3). split; [by etrans|]. split; [lia|]. destruct (Hsame fd) as [S1 S2]. destruct (Hsame wfd) as [S3 S4].
    split.
    { intros x. destruct (I2 x) as [-> ->]. apply Hsame. }
    unfold readable in *. destruct r' as [[[sr wr]|e']| | |]; rewrite ?S1, ?S2, ?S3, ?S4 in I3;
      try exact I3. destruct I3 as [-> I3]. split; [done|]. by eapply failed_later.
  - cbn [fst snd h_kernel]. split; [done|]. split; [done|]. split; [done|]. apply Hr. by left.
Qed.

(** ** The interruptible read *)

Lemma recv_some_stream fd n h : 0 < n ->
  let '(r, h') := recv_some (mkSocket fd) n h in
  rtc calls (h_kernel h) (h_kernel h') /\
  (interruptions (h_kernel h') <= interruptions (h_kernel h))%nat /\ ended fd (h_kernel h') = ended fd (h_kernel h) /\
  (forall x, x <> fd -> incoming x (h_kernel h') = incoming x (h_kernel h) /\ ended x (h_kernel h') = ended x (h_kernel h)) /\
  match r with
  | Returned (Good bytes) => bytes <> [] /\ zlen bytes <= n /\ incoming fd (h_kernel h) = bytes ++ incoming fd (h_kernel h')
  | Returned (Bad StatusCode.Cancelled) => incoming fd (h_kernel h) = [] /\ ended fd (h_kernel h) = true
  | Returned (Bad e) => e = StatusCode.Io /\ incoming fd (h_kernel h') = incoming fd (h_kernel h)
      /\ (failed (h_kernel h) (h_kernel h') \/ recv_interrupted (h_kernel h) (h_kernel h'))
      /\ ((exists c, (sys_recv fd (Z.min n kChunk) (h_kernel h)).1 = SysErr (EOTHER c))
          \/ (interruptions (h_kernel h') < interruptions (h_kernel h))%nat)
  | Waits => incoming fd (h_kernel h) = [] /\ ended fd (h_kernel h) = false
  | Undefined | Unfinished => False
  end.
Proof.
  intros Hn. unfold recv_some, mbind, Sock_bind, sys. cbn [handle_].
  destruct (sys_recv fd (Z.min n kChunk) (h_kernel h)) as [r k'] eqn:Er.
  assert (0 < Z.min n kChunk) as Hpos by (change kChunk with 1048576; lia).
  destruct (received _ _ _ _ _ Hpos Er) as (Hi & He & Hx & Hr). pose proof (recv_calls _ _ _ _ _ Er) as Hcall.
  destruct r as [[|b bytes]|e|]; cbn [h_kernel]; cbn;
    (split; [done|]; split; [done|]; split; [done|]; split; [done|]).
  - by apply Hr.
  - destruct Hr as (Hin & Hlen & _). split; [done|]. split; [lia|done].
  - destruct Hr as [Hin Htr]. split; [done|]. split; [done|]. split.
    + destruct (would_block e) eqn:Eb; [right|left; by eapply recv_fails].
      exists (h_kernel h), fd, (Z.min n kChunk), e. done.
    + destruct e; [right; by apply Htr..|]. left. by eexists.
  - exact Hr.
Qed.

Section Interruptible.
Context (fd wfd : Z) (stop : nat -> bool).
Hypothesis Hfd : in_set fd.
Hypothesis Hwfd : in_set wfd.
Hypothesis Hne : fd <> wfd.
(** The kernel does not lose the process's own wakeup connection. *)
Hypothesis Hwake : forall n k c, (sys_recv (K := K) wfd n k).1 <> SysErr (EOTHER c).

(** A pending wakeup is consumed. *)
Lemma drain_progress writer h : readable wfd (h_kernel h) -> ended wfd (h_kernel h) = false ->
  let '(r, h') := drain (mkWakeupPair (mkSocket wfd) writer) h in
  rtc calls (h_kernel h) (h_kernel h') /\ (exists s, r = Returned s) /\
  (List.length (incoming wfd (h_kernel h')) + interruptions (h_kernel h')
   < List.length (incoming wfd (h_kernel h)) + interruptions (h_kernel h))%nat /\
  ended wfd (h_kernel h') = false /\
  incoming fd (h_kernel h') = incoming fd (h_kernel h) /\ ended fd (h_kernel h') = ended fd (h_kernel h).
Proof using Hwfd Hne Hwake.
  intros Hrd Hend. unfold drain. cbn [reader_]. unfold valid. cbn [handle_]. rewrite (valid_in_set wfd Hwfd). cbn [negb].
  pose proof (recv_some_stream wfd 64 h ltac:(lia)) as Hs. unfold mbind, Sock_bind.
  destruct (recv_some _ _ _) as [r h']. destruct Hs as (Hcall & Hi & He & Hx & Hr). destruct (Hx fd Hne) as [Hx1 Hx2].
  destruct r as [[bytes|e]| | |]; try done.
  - destruct Hr as (Hb & _ & Hin). cbn. split; [done|]. split; [by eexists|]. split; [|by rewrite He].
    rewrite Hin, length_app. destruct bytes; [done|]. cbn [List.length]. lia.
  - assert (e = StatusCode.Io /\ incoming wfd (h_kernel h') = incoming wfd (h_kernel h)
      /\ (interruptions (h_kernel h') < interruptions (h_kernel h))%nat) as (_ & Hin & Hlt).
    { destruct e; try (destruct Hr as (? & ? & _ & [[c Hc]|?]); [by apply Hwake in Hc|done]).
      destruct Hr as [_ Hr]. congruence. }
    cbn. split; [done|]. split; [by eexists|]. rewrite Hin. split; [lia|by rewrite He].
  - exfalso. destruct Hr as [Hr1 Hr2]. destruct Hrd; [done|congruence].
Qed.

Lemma io_later k k1 k' size stream closed_ r rest (P : Prop) : rtc calls k k1 ->
  stream_read (failed k1 k' \/ recv_interrupted k1 k') size stream closed_ r rest \/ P ->
  stream_read (failed k k' \/ recv_interrupted k k') size stream closed_ r rest \/ P.
Proof using.
  intros Hk [Hr|HP]; [left|by right]. eapply stream_read_mono, Hr.
  intros [Hf|Hf]; [left; by eapply failed_later|right; by eapply interrupted_later].
Qed.

Lemma read_interruptible_stream fuel : forall writer size got h,
  zlen got <= size -> 0 <= size -> ended wfd (h_kernel h) = false ->
  (Z.to_nat (size - zlen got) + interruptions (h_kernel h) + List.length (incoming wfd (h_kernel h)) < fuel)%nat ->
  let '(r, h') := read_exact_interruptible fuel stop (mkSocket fd) (mkWakeupPair (mkSocket wfd) writer) size got h in
  stream_read (failed (h_kernel h) (h_kernel h') \/ recv_interrupted (h_kernel h) (h_kernel h')) size
    (got ++ incoming fd (h_kernel h)) (ended fd (h_kernel h)) r (incoming fd (h_kernel h'))
  \/ (r = Returned (Bad StatusCode.Cancelled) /\ exists n, stop n = true).
Proof using Hfd Hwfd Hne Hwake.
  induction fuel as [|n IH]; intros writer size got h Hg Hs Hw Hf; [lia|]. cbn [read_exact_interruptible].
  destruct (size - zlen got <=? 0) eqn:E; breflect.
  { left. cbn. unfold Client.recv_exact. by rewrite read_exact_split by lia. }
  destruct (stop n) eqn:Est; [right; split; [done|by exists n]|].
  unfold mbind at 1, Sock_bind at 1. cbn [handle_ reader_].
  pose proof (wait_readable_wakes (S n) fd wfd h Hfd Hwfd ltac:(lia)) as Hwait.
  destruct (wait_readable (S n) fd wfd h) as [r h1]. destruct Hwait as (W0 & W1 & W2 & W3).
  destruct (W2 fd) as [W4 W5]. destruct (W2 wfd) as [W6 W7]. rewrite <- W4, <- W5.
  destruct r as [[[sr wr]|e]| | |]; try done.
  2:{ left. destruct W3 as [-> W3]. cbn. by left. }
  2:{ left. destruct W3 as [W3 W8]. cbn. unfold Client.recv_exact. rewrite W4, W5, W3, W8, app_nil_r.
      by rewrite read_exact_short by lia. }
  destruct W3 as (Hor & Hsr & Hwr). destruct wr.
  - pose proof (drain_progress writer h1) as Hd. unfold readable in Hd. rewrite W6, W7 in Hd.
    specialize (Hd (Hwr eq_refl) Hw). unfold mbind, Sock_bind.
    destruct (drain _ h1) as [r h2]. destruct Hd as (D0 & [s ->] & Hlt & Hw2 & D1 & D2). rewrite <- D1, <- D2.
    specialize (IH writer size got h2 Hg Hs Hw2 ltac:(lia)).
    destruct (read_exact_interruptible n _ _ _ _ _ h2) as [r h3].
    apply (io_later (h_kernel h) (h_kernel h2)); [by etrans|exact IH].
  - rewrite orb_false_r in Hor. subst sr. cbn [negb]. unfold mbind, Sock_bind.
    pose proof (recv_some_stream fd (size - zlen got) h1 ltac:(lia)) as Hr.
    destruct (recv_some _ _ h1) as [r h2]. destruct Hr as (R0 & R1 & R2 & R3 & R4).
    destruct (R3 wfd (not_eq_sym Hne)) as [R5 R6].
    destruct r as [[bytes|e]| | |]; try done.
    + destruct R4 as (Hb & Hlen & Hin). rewrite Hin, app_assoc, <- R2.
      assert (zlen (got ++ bytes) <= size) as G1 by (rewrite zlen_app; lia).
      assert (ended wfd (h_kernel h2) = false) as G2 by (by rewrite R6, W7).
      specialize (IH writer size (got ++ bytes) h2 G1 Hs G2).
      destruct (read_exact_interruptible n _ _ _ _ _ h2) as [r h3].
      apply (io_later (h_kernel h) (h_kernel h2)); [by etrans|apply IH].
      rewrite zlen_app, R5, W6. destruct bytes; [done|]. rewrite zlen_cons in *. pose proof (zlen_nonneg bytes). lia.
    + left. destruct e; cbn; try (by destruct R4 as (? & _ & _));
        try (destruct R4 as (_ & _ & [R4|R4] & _); [left; by eapply failed_later|right; by eapply interrupted_later]). destruct R4 as [R7 R8]. unfold Client.recv_exact.
      rewrite R7, R8, app_nil_r. by rewrite read_exact_short by lia.
    + left. cbn. destruct R4 as [R7 R8]. unfold Client.recv_exact. rewrite R7, R8, app_nil_r. by rewrite read_exact_short by lia.
Qed.
End Interruptible.

(** ** Sending *)

Lemma send_loop_sends fuel : forall fd data h, (List.length data <= fuel)%nat ->
  let '(r, h') := send_loop fuel (mkSocket fd) data h in
  match r with
  | Returned StatusCode.Ok => outgoing fd (h_kernel h') = outgoing fd (h_kernel h) ++ data
  | Returned StatusCode.Io | Waits =>
      exists p q, data = p ++ q /\ q <> [] /\ outgoing fd (h_kernel h') = outgoing fd (h_kernel h) ++ p
  | _ => False
  end.
Proof.
  induction fuel as [|n IH]; intros fd data h Hf.
  - destruct data; [|cbn in Hf; lia]. cbn. by rewrite app_nil_r.
  - destruct data as [|b data]; [cbn; by rewrite app_nil_r|]. cbn [send_loop].
    set (full := b :: data) in *. set (N := Z.to_nat (Z.min (zlen full) kChunk)). set (chunk := take N full).
    unfold mbind, Sock_bind, sys. cbn [handle_].
    destruct (sys_send fd chunk (h_kernel h)) as [r k'] eqn:Es. pose proof (sent _ _ _ _ _ Es) as Hr.
    assert (exists p q, full = p ++ q /\ q <> [] /\ outgoing fd (h_kernel h) = outgoing fd (h_kernel h) ++ p) as Hnone.
    { exists [], full. rewrite app_nil_r. done. }
    destruct r as [m|e|]; [|cbn; by rewrite Hr..]. destruct Hr as [Hle Hout].
    assert (zlen chunk <= zlen full) as Hc by (unfold chunk, zlen; rewrite length_take; lia).
    assert (forall m', m' <= zlen chunk -> take (Z.to_nat m') chunk = take (Z.to_nat m') full) as Htake.
    { intros m' Hm. unfold chunk. rewrite take_take. f_equal. unfold chunk, zlen in Hm. rewrite length_take in Hm. lia. }
    rewrite (Htake m Hle) in Hout. destruct (m <=? 0) eqn:Em; breflect.
    { cbn. exists [], full. split; [done|]. split; [done|].
      assert (Z.to_nat m = 0%nat) as Hz by lia. rewrite Hz in Hout. rewrite Hout. done. }
    assert (List.length (drop (Z.to_nat m) full) <= n)%nat as Hlen by (rewrite length_drop; lia).
    specialize (IH fd (drop (Z.to_nat m) full) (mkHost (g_winsock_references h) k') Hlen). cbn [h_kernel] in IH.
    destruct (send_loop n _ _ _) as [r' h']. rewrite Hout in IH.
    assert (forall p q, drop (Z.to_nat m) full = p ++ q -> full = (take (Z.to_nat m) full ++ p) ++ q) as Hsplit.
    { intros p q Hd. rewrite <- app_assoc, <- Hd. by rewrite take_drop. }
    destruct r' as [s| | |]; [|..].
    + destruct s; try done.
      * rewrite <- app_assoc, take_drop in IH. exact IH.
      * destruct IH as (p & q & Hd & Hq & Ho). exists (take (Z.to_nat m) full ++ p), q.
        rewrite app_assoc. split; [by apply Hsplit|done].
    + destruct IH as (p & q & Hd & Hq & Ho). exists (take (Z.to_nat m) full ++ p), q.
      rewrite app_assoc. split; [by apply Hsplit|done].
    + done.
    + done.
Qed.

(** ** Descriptors *)

Definition open_in (h : Host K) : gset Z := descriptors (h_kernel h).

(** A result that owns the descriptors [owned] for success, and none for failure;
    a call that never returns may keep what it opened. *)
Definition owns {A} (owned : A -> gset Z) (before : gset Z) (r : Run (Outcome A) * Host K) : Prop :=
  match r with
  | (Returned (Good a), h') => (owned a ## before) /\ (forall fd, fd ∈ owned a -> 0 <= fd) /\ open_in h' = owned a ∪ before
  | (Returned (Bad _), h') => open_in h' = before
  | (Waits, _) => True
  | _ => False
  end.

Lemma close_opened fd before h : 0 <= fd -> open_in h = {[fd]} ∪ before -> fd ∉ before ->
  exists h', close (mkSocket fd) h = (Returned (mkSocket lqf_invalid_socket), h') /\ open_in h' = before.
Proof.
  intros H0 Ho Hn. unfold close, valid, lqf_invalid_socket. cbn [handle_].
  rewrite (proj2 (Z.eqb_neq fd (-1))) by lia. cbn [negb]. eexists. split; [reflexivity|].
  unfold open_in in *. cbn [h_kernel]. rewrite closed, Ho. clear Ho. set_solver.
Qed.

Lemma destroy_opened {A} fd before h (result : A) : 0 <= fd -> open_in h = {[fd]} ∪ before -> fd ∉ before ->
  exists h', destroy_and (mkSocket fd) result h = (Returned result, h') /\ open_in h' = before.
Proof.
  intros H0 Ho Hn. destruct (close_opened fd before h H0 Ho Hn) as (h' & E & Hd).
  unfold destroy_and, mbind, Sock_bind. rewrite E. by exists h'.
Qed.

(** A system call that opens nothing, followed by what is done with its result. *)
Lemma sys_plain {A B} (call : K -> Sys A * K) (f : A + Errno -> Sock K B) (h : Host K) (P : Run B * Host K -> Prop) :
  (forall k, descriptors (call k).2 = descriptors k) ->
  (forall r h', open_in h' = open_in h -> P (f r h')) -> (forall h', P (Waits, h')) -> P ((sys call ≫= f) h).
Proof.
  intros Hc Hf Hw. unfold mbind, Sock_bind, sys. specialize (Hc (h_kernel h)).
  destruct (call (h_kernel h)) as [[a|e|] k']; [apply Hf; exact Hc..|apply Hw].
Qed.

(** A system call that opens a descriptor when it succeeds. *)
Lemma sys_opens {B} (call : K -> Sys Z * K) (f : Z + Errno -> Sock K B) (h : Host K) (P : Run B * Host K -> Prop) :
  (forall k r k', call k = (r, k') ->
     match r with
     | SysOk fd => 0 <= fd /\ (fd ∉ descriptors k) /\ descriptors k' = {[fd]} ∪ descriptors k
     | _ => descriptors k' = descriptors k
     end) ->
  (forall fd h', 0 <= fd -> fd ∉ open_in h -> open_in h' = {[fd]} ∪ open_in h -> P (f (inl fd) h')) ->
  (forall e h', open_in h' = open_in h -> P (f (inr e) h')) -> (forall h', P (Waits, h')) -> P ((sys call ≫= f) h).
Proof.
  intros Hc Hg Hb Hw. unfold mbind, Sock_bind, sys. destruct (call (h_kernel h)) as [r k'] eqn:E.
  specialize (Hc _ _ _ E). destruct r as [fd|e|]; [|by apply Hb|apply Hw].
  destruct Hc as (H1 & H2 & H3). by apply Hg.
Qed.

Definition one (s : Socket) : gset Z := {[handle_ s]}.
Definition listening (x : Socket * Z) : gset Z := one x.1.
Definition both (p : WakeupPair) : gset Z := {[handle_ (reader_ p); handle_ (writer_ p)]}.

(** Failing destroys the new socket, which leaves what was open before. *)
Lemma destroyed {A} (owned : A -> gset Z) fd before h e : 0 <= fd -> fd ∉ before -> open_in h = {[fd]} ∪ before ->
  owns owned before (destroy_and (mkSocket fd) (Bad e) h).
Proof. intros H0 Hn Ho. destruct (destroy_opened fd before h (Bad (A := A) e) H0 Ho Hn) as (h' & -> & Hd). exact Hd. Qed.

(** Success hands the new descriptor over. *)
Lemma handed {A} (owned : A -> gset Z) (a : A) fd before h : owned a = {[fd]} -> 0 <= fd -> fd ∉ before ->
  open_in h = {[fd]} ∪ before -> owns owned before (Returned (Good a), h).
Proof.
  intros Ha H0 Hn Ho. cbn. rewrite Ha, Ho. clear Ha Ho HL HK. split; [set_solver|]. split; [set_solver|done].
Qed.

Lemma ensured {B} (f : Status -> Sock K B) h :
  (ensure ≫= f) h = f StatusCode.Ok (mkHost (to_int (g_winsock_references h + 1)) (h_kernel h)).
Proof. done. Qed.

Ltac plain_call law P := apply (sys_plain _ _ _ P); [intros; apply law| |done]; intros [?|?] ? ?.

Lemma listen_owns port backlog h : owns listening (open_in h) (listen_loopback port backlog h).
Proof.
  unfold listen_loopback. rewrite ensured. cbn [ok negb].
  change (open_in h) with (open_in (mkHost (to_int (g_winsock_references h + 1)) (h_kernel h))). set (h0 := mkHost _ _).
  apply (sys_opens _ _ _ (owns listening (open_in h0))); [apply created| |done|done]. intros fd h1 H0 Hn Ho.
  plain_call bound (owns listening (open_in h0)); [|apply destroyed; congruence].
  plain_call listened (owns listening (open_in h0)); [|apply destroyed; congruence].
  plain_call named (owns listening (open_in h0)); [|apply destroyed; congruence].
  apply (handed _ _ fd); [reflexivity|done|done|congruence].
Qed.

Lemma connect_owns port h : owns one (open_in h) (connect_loopback port h).
Proof.
  unfold connect_loopback. rewrite ensured. cbn [ok negb].
  change (open_in h) with (open_in (mkHost (to_int (g_winsock_references h + 1)) (h_kernel h))). set (h0 := mkHost _ _).
  apply (sys_opens _ _ _ (owns one (open_in h0))); [apply created| |done|done]. intros fd h1 H0 Hn Ho.
  plain_call connected (owns one (open_in h0)); [|apply destroyed; congruence].
  apply (handed _ _ fd); [reflexivity|done|done|congruence].
Qed.

Lemma accept_owns s h : owns one (open_in h) (accept s h).
Proof.
  unfold accept. apply (sys_opens _ _ _ (owns one (open_in h))); [apply accepted| |done|done]. intros fd h1 H0 Hn Ho.
  by apply (handed _ _ fd).
Qed.

Lemma owns_bind {A B} (owned : A -> gset Z) (owned' : B -> gset Z) (m : Sock K (Outcome A)) f before h :
  owns owned (open_in h) (m h) ->
  (forall a h', owned a ## open_in h -> (forall fd, fd ∈ owned a -> 0 <= fd) -> open_in h' = owned a ∪ open_in h ->
     owns owned' before (f (Good a) h')) ->
  (forall e h', open_in h' = open_in h -> owns owned' before (f (Bad e) h')) ->
  owns owned' before ((m ≫= f) h).
Proof.
  intros Hm Hg Hb. unfold mbind, Sock_bind. destruct (m h) as [[[a|e]| | |] h']; try done.
  - destruct Hm as (H1 & H2 & H3). by apply Hg.
  - by apply Hb.
Qed.

Lemma wakeup_owns h : owns both (open_in h) (wakeup_create h).
Proof.
  unfold wakeup_create. eapply (owns_bind listening); [apply listen_owns| |done].
  intros [listener port] h1 L1 L2 L3. unfold listening, one in L1, L2, L3. cbn [fst] in L1, L2, L3.
  destruct listener as [l]. cbn [handle_] in *.
  eapply (owns_bind one); [apply connect_owns| |].
  2:{ intros e h2 E. apply destroyed; [apply L2; set_solver|set_solver|congruence]. }
  intros [wfd] h2 W1 W2 W3. unfold one in W1, W2, W3. cbn [handle_] in *. rewrite L3 in *.
  eapply (owns_bind one); [apply accept_owns| |].
  - intros [r] h3 A1 A2 A3. unfold one in A1, A2, A3. cbn [handle_] in *. rewrite W3 in *.
    destruct (destroy_opened l ({[r]} ∪ ({[wfd]} ∪ open_in h)) h3 (Good (mkWakeupPair (mkSocket r) (mkSocket wfd))))
      as (h4 & -> & E4); [apply L2; set_solver|rewrite A3; set_solver|set_solver|].
    cbn. unfold both. cbn [reader_ writer_ handle_]. split; [set_solver|]. split; [set_solver|]. rewrite E4. set_solver.
  - intros e h3 E3. rewrite W3 in E3.
    destruct (close_opened wfd ({[l]} ∪ open_in h) h3) as (h4 & E4 & O4); [apply W2; set_solver|done|set_solver|].
    unfold mbind, Sock_bind. rewrite E4. apply destroyed; [apply L2; set_solver|set_solver|done].
Qed.
End Streams.

(** ** A kernel of byte tapes *)

(** The descriptors below [tp_next] that were not closed are open.  What a
    descriptor will receive is fixed in advance; transfers move at most
    [tp_piece + 1] bytes, and the first [tp_interrupts] calls that could wait are
    interrupted. *)
Record Tape := mkTape {
  tp_next : nat; tp_closed : gset Z; tp_in : gmap Z (list Z); tp_ended : gset Z; tp_out : gmap Z (list Z);
  tp_interrupts : nat; tp_piece : nat }.

Definition tape_in (fd : Z) (k : Tape) : list Z := default [] (tp_in k !! fd).
Definition tape_out (fd : Z) (k : Tape) : list Z := default [] (tp_out k !! fd).
Definition tape_ended (fd : Z) (k : Tape) : bool := bool_decide (fd ∈ tp_ended k).
Definition below (n : nat) : gset Z := list_to_set (Z.of_nat <$> seq 0 n).
Definition tape_open (k : Tape) : gset Z := below (tp_next k) ∖ tp_closed k.

Definition tape_new (k : Tape) : Sys Z * Tape :=
  (SysOk (Z.of_nat (tp_next k)),
   mkTape (S (tp_next k)) (tp_closed k ∖ {[Z.of_nat (tp_next k)]}) (tp_in k) (tp_ended k) (tp_out k)
     (tp_interrupts k) (tp_piece k)).

Definition tape_interrupted (k : Tape) (n : nat) : Tape :=
  mkTape (tp_next k) (tp_closed k) (tp_in k) (tp_ended k) (tp_out k) n (tp_piece k).

Definition tape_recv (fd n : Z) (k : Tape) : Sys (list Z) * Tape :=
  match tp_interrupts k with
  | S m => (SysErr EINTR, tape_interrupted k m)
  | O =>
      match tape_in fd k with
      | [] => (if tape_ended fd k then SysOk [] else SysBlocks, k)
      | data =>
          let size := Nat.min (Z.to_nat n) (S (tp_piece k)) in
          (SysOk (take size data),
           mkTape (tp_next k) (tp_closed k) (<[fd := drop size data]> (tp_in k)) (tp_ended k) (tp_out k) O (tp_piece k))
      end
  end.

Definition tape_send (fd : Z) (data : list Z) (k : Tape) : Sys Z * Tape :=
  let size := Nat.min (List.length data) (S (tp_piece k)) in
  (SysOk (Z.of_nat size),
   mkTape (tp_next k) (tp_closed k) (tp_in k) (tp_ended k) (<[fd := tape_out fd k ++ take size data]> (tp_out k))
     (tp_interrupts k) (tp_piece k)).

Definition tape_readable (k : Tape) (fd : Z) : bool := negb (is_nil (tape_in fd k)) || tape_ended fd k.

Definition tape_select (fds : list Z) (k : Tape) : Sys (list Z) * Tape :=
  match tp_interrupts k with
  | S m => (SysErr EINTR, tape_interrupted k m)
  | O => match List.filter (tape_readable k) fds with
         | [] => (SysBlocks, k)
         | ready => (SysOk ready, k)
         end
  end.

#[export] Instance tape_kernel : Kernel Tape := {
  sys_socket := tape_new;
  sys_bind := fun _ _ k => (SysOk tt, k);
  sys_listen := fun _ _ k => (SysOk tt, k);
  sys_getsockname := fun _ k => (SysOk 9000, k);
  sys_getpeername := fun _ k => (SysOk (Some "127.0.0.1"%string, 9001), k);
  sys_connect := fun _ _ k => (SysOk tt, k);
  sys_accept := fun _ => tape_new;
  sys_send := tape_send;
  sys_recv := tape_recv;
  sys_shutdown := fun _ k => k;
  sys_close := fun fd k =>
    mkTape (tp_next k) ({[fd]} ∪ tp_closed k) (tp_in k) (tp_ended k) (tp_out k) (tp_interrupts k) (tp_piece k);
  sys_select := tape_select;
}.

Lemma below_elem n x : x ∈ below n <-> 0 <= x < Z.of_nat n.
Proof.
  unfold below. rewrite elem_of_list_to_set, list_elem_of_fmap. split.
  - intros (m & -> & Hm%elem_of_seq). lia.
  - intros Hx. exists (Z.to_nat x). rewrite elem_of_seq. lia.
Qed.

Lemma tape_new_opens k r k' : tape_new k = (r, k') ->
  match r with
  | SysOk fd => 0 <= fd /\ (fd ∉ tape_open k) /\ tape_open k' = {[fd]} ∪ tape_open k
  | _ => tape_open k' = tape_open k
  end.
Proof.
  intros [= <- <-]. unfold tape_open. cbn [tp_next tp_closed]. split; [lia|]. split.
  - rewrite elem_of_difference, below_elem. lia.
  - apply set_eq. intros x. rewrite elem_of_union, !elem_of_difference, !below_elem, elem_of_singleton. split.
    + intros [Hx Hc]. destruct (decide (x = Z.of_nat (tp_next k))); [by left|right]. split; [lia|]. intros Hin. tauto.
    + intros [->|[Hx Hc]]; [split; [lia|tauto]|]. split; [lia|tauto].
Qed.

Lemma tape_recv_reads fd n k r k' : 0 < n -> tape_recv fd n k = (r, k') ->
  (tp_interrupts k' <= tp_interrupts k)%nat /\ tape_ended fd k' = tape_ended fd k /\
  (forall fd', fd' <> fd -> tape_in fd' k' = tape_in fd' k /\ tape_ended fd' k' = tape_ended fd' k) /\
  match r with
  | SysOk bytes =>
      tape_in fd k = bytes ++ tape_in fd k' /\ zlen bytes <= n
      /\ (bytes = [] -> tape_in fd k = [] /\ tape_ended fd k = true)
  | SysErr e => tape_in fd k' = tape_in fd k /\ (would_block e = true -> (tp_interrupts k' < tp_interrupts k)%nat)
  | SysBlocks => tape_in fd k = [] /\ tape_ended fd k = false
  end.
Proof.
  intros Hn. unfold tape_recv. destruct (tp_interrupts k) as [|m] eqn:Ei.
  - destruct (tape_in fd k) as [|b data] eqn:Ed.
    + intros [= <- <-]. rewrite Ei. split; [done|]. split; [done|]. split; [done|].
      destruct (tape_ended fd k); [|done]. rewrite Ed. split; [done|]. split; [unfold zlen; cbn; lia|done].
    + set (full := b :: data). set (size := Nat.min _ _). intros [= <- <-]. cbn [tp_interrupts].
      split; [lia|]. split; [done|]. split.
      { intros fd' Hne. unfold tape_in. cbn [tp_in]. by rewrite lookup_insert_ne. }
      unfold tape_in. cbn [tp_in]. rewrite lookup_insert_eq. cbn [from_option id]. rewrite take_drop. split; [done|].
      assert (1 <= size)%nat as Hs by (unfold size; lia). split.
      * unfold zlen. rewrite length_take. unfold size. lia.
      * intros E. exfalso. unfold full in E. destruct size; [lia|done].
  - intros [= <- <-]. cbn. split; [lia|]. split; [done|]. split; [done|]. split; [done|]. lia.
Qed.

Lemma tape_select_finds fds k r k' : tape_select fds k = (r, k') ->
  (tp_interrupts k' <= tp_interrupts k)%nat /\
  (forall fd, tape_in fd k' = tape_in fd k /\ tape_ended fd k' = tape_ended fd k) /\
  match r with
  | SysOk ready => ready <> [] /\ forall fd, fd ∈ ready -> fd ∈ fds /\ (tape_in fd k <> [] \/ tape_ended fd k = true)
  | SysErr e => would_block e = true -> (tp_interrupts k' < tp_interrupts k)%nat
  | SysBlocks => forall fd, fd ∈ fds -> tape_in fd k = [] /\ tape_ended fd k = false
  end.
Proof.
  unfold tape_select. destruct (tp_interrupts k) as [|m] eqn:Ei.
  - destruct (List.filter (tape_readable k) fds) as [|x ready] eqn:Ef; intros [= <- <-]; (split; [lia|]; split; [done|]).
    + intros fd Hfd. destruct (tape_readable k fd) eqn:Er.
      * exfalso. assert (In fd (List.filter (tape_readable k) fds)) as Hin by (apply filter_In; split; [by apply list_elem_of_In|done]).
        by rewrite Ef in Hin.
      * unfold tape_readable in Er. apply orb_false_iff in Er as [E1 ->]. by destruct (tape_in fd k).
    + split; [done|]. intros fd Hfd. rewrite <- Ef in Hfd. apply list_elem_of_In, filter_In in Hfd as [Hin Hr].
      split; [by apply list_elem_of_In|]. unfold tape_readable in Hr. apply orb_true_iff in Hr as [Hr|Hr]; [left|by right].
      by destruct (tape_in fd k).
  - intros [= <- <-]. cbn. split; [lia|]. split; [done|]. lia.
Qed.

#[export] Instance tape_laws : KernelLaws Tape.
Proof.
  refine {| descriptors := tape_open; interruptions := tp_interrupts; incoming := tape_in; ended := tape_ended;
            outgoing := tape_out |}; try done.
  - apply tape_new_opens.
  - intros s. apply tape_new_opens.
  - intros fd k. unfold tape_open. cbn. apply set_eq. intros x.
    rewrite !elem_of_difference, elem_of_union, elem_of_singleton. tauto.
  - intros fd data k r k'. cbn. unfold tape_send. intros [= <- <-]. split; [unfold zlen; lia|].
    unfold tape_out at 1. cbn [tp_out]. rewrite lookup_insert_eq. cbn [from_option id]. by rewrite Nat2Z.id.
  - apply tape_recv_reads.
  - apply tape_select_finds.
Defined.

(** ** Theorems *)

(** C20: Reads follow the stream.  However a POSIX kernel splits what the peer
    sends and however often it interrupts the caller, [Socket::recv_exact] returns
    exactly the next [size] bytes of the stream and leaves the rest, reports a
    stream that ends before as [Cancelled], waits when the bytes never come, and
    reports [Io] only when its last system call failed for another reason than an
    interruption.  The server's [read_exact_interruptible] does the same, unless
    the server is stopping, and except that it also reports [Io] when the receive
    behind its wait is interrupted; for it, both descriptors fit an [fd_set] and
    the process's own wakeup connection stays up.  These are the reads on which
    the models of the client and of the server rest.  They end with as many rounds
    as there are bytes to read, interruptions and pending wakeups. *)
Theorem reads_follow_the_stream (K : Type) (HK : Kernel K) (HL : KernelLaws K) fd wfd stop writer size fuel h :
  0 <= size ->
  (Z.to_nat size + interruptions (h_kernel h) + List.length (incoming wfd (h_kernel h)) < fuel)%nat ->
  (let '(r, h') := recv_exact fuel (mkSocket fd) size h in
   stream_read (failed (h_kernel h) (h_kernel h')) size
     (incoming fd (h_kernel h)) (ended fd (h_kernel h)) r (incoming fd (h_kernel h')))
  /\ (0 <= fd < FD_SETSIZE -> 0 <= wfd < FD_SETSIZE -> fd <> wfd ->
      (forall n k c, (sys_recv wfd n k).1 <> SysErr (EOTHER c)) -> ended wfd (h_kernel h) = false ->
      let '(r, h') := read_exact_interruptible fuel stop (mkSocket fd) (mkWakeupPair (mkSocket wfd) writer) size [] h in
      stream_read (failed (h_kernel h) (h_kernel h') \/ recv_interrupted (h_kernel h) (h_kernel h')) size
        (incoming fd (h_kernel h)) (ended fd (h_kernel h)) r (incoming fd (h_kernel h'))
      \/ (r = Returned (Bad StatusCode.Cancelled) /\ exists n, stop n = true)).
Proof.
  intros Hs Hf. assert (zlen (@nil Z) = 0) as Hz by done. split.
  - pose proof (recv_loop_stream fuel fd size [] h) as Hr. rewrite Hz in Hr. apply Hr; lia.
  - intros Hfd Hw Hne Hwake Hend.
    pose proof (read_interruptible_stream fd wfd stop Hfd Hw Hne Hwake fuel writer size [] h) as Hr.
    rewrite Hz in Hr. apply Hr; [lia|done|done|lia].
Qed.

(** [Socket::send_all] hands the bytes to the kernel once and in order, whatever
    pieces the kernel takes: all of them when it succeeds, a proper prefix when it
    reports a failure or waits for ever; it always ends otherwise. *)
Theorem send_all_keeps_the_order (K : Type) (HK : Kernel K) (HL : KernelLaws K) fd data h :
  let '(r, h') := send_all (mkSocket fd) data h in
  match r with
  | Returned StatusCode.Ok => outgoing fd (h_kernel h') = outgoing fd (h_kernel h) ++ data
  | Returned StatusCode.Io | Waits =>
      exists p q, data = p ++ q /\ q <> [] /\ outgoing fd (h_kernel h') = outgoing fd (h_kernel h) ++ p
  | _ => False
  end.
Proof. by apply (send_loop_sends (List.length data)). Qed.

(** C21: No descriptor leaks.  Listening, connecting, accepting and creating a wakeup
    channel open exactly the descriptors of the sockets they return, which were
    not open before, and leave none behind when any of their system calls fails. *)
Theorem sockets_do_not_leak (K : Type) (HK : Kernel K) (HL : KernelLaws K) port backlog s h :
  owns listening (open_in h) (listen_loopback port backlog h)
  /\ owns one (open_in h) (connect_loopback port h)
  /\ owns one (open_in h) (accept s h)
  /\ owns both (open_in h) (wakeup_create h).
Proof. split; [apply listen_owns|]. split; [apply connect_owns|]. split; [apply accept_owns|apply wakeup_owns]. Qed.

(** [send_all] does not retry an interrupted call, as [recv_exact] does: a signal
    during a send makes it fail, with the message torn. *)
Theorem interrupted_send_fails (K : Type) (HK : Kernel K) s data h k' :
  data <> [] -> (forall chunk, sys_send (handle_ s) chunk (h_kernel h) = (SysErr EINTR, k')) ->
  (send_all s data h).1 = Returned StatusCode.Io.
Proof.
  intros Hne Hs. unfold send_all. destruct data as [|b data]; [done|]. cbn [List.length send_loop].
  unfold mbind, Sock_bind, sys. by rewrite Hs.
Qed.

(** Waiting on a descriptor that does not fit an [fd_set] is undefined, whatever
    the kernel does: there is no check of the bound. *)
Theorem large_descriptor_is_undefined (K : Type) (HK : Kernel K) fuel fd wfd h :
  FD_SETSIZE <= fd -> (wait_readable (S fuel) fd wfd h).1 = Undefined.
Proof.
  intros Hfd. cbn [wait_readable]. unfold mbind, Sock_bind, fd_set, watched.
  rewrite (proj2 (Z.eqb_neq fd lqf_invalid_socket)) by (unfold FD_SETSIZE, lqf_invalid_socket in *; lia).
  cbn [app forallb]. by rewrite (proj2 (Z.ltb_ge fd FD_SETSIZE) Hfd), andb_false_r.
Qed.

Module SocketExamples.
(** Descriptor 3 has a message of five bytes coming, in pieces of two, after two
    interruptions; descriptor 4 is a wakeup channel with one wakeup pending. *)
Definition pieces : Host Tape :=
  mkHost 0 (mkTape 5 ∅ (<[3 := [10; 20; 30; 40; 50]]> (<[4 := [1]]> ∅)) ∅ ∅ 2 1).

Lemma wakeup_stays_up n k c : (sys_recv (K := Tape) 4 n k).1 <> SysErr (EOTHER c).
Proof.
  cbn. unfold tape_recv. destruct (tp_interrupts k); [|done]. destruct (tape_in 4 k); [|done].
  by destruct (tape_ended 4 k).
Qed.

Lemma reads_follow_the_stream_witness :
  (exists r h', recv_exact 20 (mkSocket 3) 4 pieces = (r, h')
    /\ r = Returned (Good [10; 20; 30; 40])
    /\ stream_read (failed (h_kernel pieces) (h_kernel h')) 4 [10; 20; 30; 40; 50] false r [50])
  /\ exists r h', read_exact_interruptible 20 (fun _ => false) (mkSocket 3)
       (mkWakeupPair (mkSocket 4) (mkSocket 5)) 4 [] pieces = (r, h')
    /\ r = Returned (Good [10; 20; 30; 40]).
Proof.
  destruct (reads_follow_the_stream Tape _ _ 3 4 (fun _ => false) (mkSocket 5) 4 20 pieces) as [Hr Hi];
    [done|vm_compute; lia|].
  specialize (Hi ltac:(done) ltac:(done) ltac:(done) wakeup_stays_up ltac:(vm_compute; reflexivity)). split.
  - destruct (recv_exact 20 (mkSocket 3) 4 pieces) as [r h'] eqn:E. exists r, h'. split; [reflexivity|].
    vm_compute in E. injection E as <- <-. split; [reflexivity|exact Hr].
  - destruct (read_exact_interruptible 20 _ _ _ _ _ _) as [r h'] eqn:E. exists r, h'. split; [reflexivity|].
    vm_compute in E. by injection E as <- <-.
Defined.

Lemma sockets_do_not_leak_witness :
  exists p h', wakeup_create pieces = (Returned (Good p), h') /\ both p = {[6; 7]} /\ open_in h' = {[6; 7]} ∪ open_in pieces.
Proof.
  destruct (sockets_do_not_leak Tape _ _ 0 1 (mkSocket 3) pieces) as (_ & _ & _ & Ho).
  destruct (wakeup_create pieces) as [r h'] eqn:E. vm_compute in E. injection E as <- <-.
  eexists _, _. split; [reflexivity|]. destruct Ho as (_ & _ & Ho). split; [vm_compute; reflexivity|exact Ho].
Defined.

Lemma send_all_keeps_the_order_witness :
  tape_out 3 (h_kernel (send_all (mkSocket 3) [1; 2; 3; 4; 5] pieces).2) = [1; 2; 3; 4; 5].
Proof.
  pose proof (send_all_keeps_the_order Tape _ _ 3 [1; 2; 3; 4; 5] pieces) as Hs.
  destruct (send_all _ _ _) as [r h'] eqn:E. vm_compute in E. injection E as <- <-. exact Hs.
Defined.
End SocketExamples.
